(* ===== verification/_CoqProject ===== *)
-Q . S2P
Prelude.v
Types.v
AccountSource.v
Errors.v
Lru.v
Fork.v
History.v
Runtime.v
AccountsDb.v
Overlay.v
OverlayReads.v
CacheCoherence.v
DbRefinement.v
Tiering.v
TieringFacts.v
RuntimeModel.v
FeePayer.v
InstructionTrace.v
Version.v
TxRuntime.v
Svm.v
Execution.v
ExecutionFacts.v
TierSweep.v
Staging.v
StagingFacts.v
Batch.v
BatchFacts.v
VmPrograms.v
VmProgramsFacts.v
VmOps.v
VmOpsFacts.v
Builder.v
BuilderFacts.v
Inspectors.v
InspectorsFacts.v
Precompiles.v
TxModel.v
Fixture.v
FixtureFacts.v
FixtureRun.v
FixtureRunFacts.v
Cli.v
CliFacts.v
Bench.v
BenchFacts.v
Firedancer.v
FiredancerFacts.v
Commands.v
CommandsFacts.v
Tracing.v
Logs.v
FdModel.v
FdModelFacts.v
TestSupport.v
SvmInstruction.v
Macros.v
Wallet.v
Loader.v
Token.v
TokenFacts.v
DeployModel.v
VmModel.v
FixtureModel.v
Witnesses.v
FixtureWitnesses.v
ServiceWitnesses.v
HelperWitnesses.v
ToolWitnesses.v
