(* ===== verification/Prelude.v ===== *)
(** * hpsvm: a verification library of the in-process Solana VM

    ** The program

    [src/crates/hpsvm] runs Solana transactions in process.  An [Svm] ([lib.rs],
    [vm.rs]) holds an account database ([accounts_db.rs]), a bounded history of
    signatures ([history.rs]), a protocol configuration ([version.rs]) and its
    extensions: an inspector, a registry of transaction handlers, precompiles.
    A transaction is sanitized and checked, its accounts are loaded and its fee
    payer debited, its programs are resolved and its instructions run
    ([execution.rs], [message_processor.rs]), all readonly; the outcome is then
    staged into the overlay under a journal checkpoint and committed, streamed
    into a sink or discarded ([executed.rs], [commit.rs]).  Batches are planned
    into conflict-free stages that run on worker clones and are merged back
    ([batch.rs]).  Two caches are derived from the overlay: the sysvar cache and
    the program cache, the latter behind a lock shared by all clones of a VM,
    with a process-wide content-addressed store of program entries behind it
    ([programs/entry_store.rs]).  [src/crates/hpsvm-fixture] records executions as
    fixtures, replays them on clones of a base VM and compares or checks the
    snapshots; [src/bin/hpsvm-cli] are the commands over it, the
    [hpsvm-fixture-bench] crate measures compute units over fixtures and
    [hpsvm-fixture-firedancer] converts them from and to Firedancer's messages.
    Around the VM are its builder ([builder.rs]), an account source that forks a
    cluster over RPC ([fork.rs]), a background promoter that compiles programs
    ([programs/tiering.rs]), inspectors ([hpsvm-inspectors]), precompile registries,
    handlers declared with a macro ([svm_instruction.rs], [hpsvm-macros]) and helpers
    that deploy programs and send token instructions ([loader.rs], [token/]), render
    logs ([format_logs.rs]), collect register traces ([register_tracing.rs]) and find
    test programs ([hpsvm-test-support]).

    ** The files, bottom up

    - [Prelude]: Rust's [Result], the state-and-error monad [M] (an early return
      keeps the mutations before it, as an [&mut self] method does), machine
      integers, tactics and the list lemmas the components share.
    - [Types]: addresses, accounts, errors of the SDK and the records of
      [types.rs].
    - [AccountSource]: the trait and its laws ([account_source.rs]).
    - [Errors]: the layered error taxonomy of [error.rs] as one mutual inductive
      type, with erasure, downcasts, conversions, [Display] and [source].
    - [Lru]: the interface of the [lru] crate with laws and a list instance.
    - [Fork]: the RPC source with its bounded, expiring cache ([fork.rs]).
    - [History]: [TransactionHistory] over it.
    - [Runtime]: classes for what the code calls in Solana crates (ids, sysvar
      codecs, program loading, the program cache) with their laws; also
      [programs/jit_policy.rs] and the keys of [programs/entry_store.rs].
    - [AccountsDb]: every method of [Accounts].  The state [St] of a method is
      the database value and the [World]: the program caches by handle, and the
      entry store, which clones share.
    - [Overlay], [OverlayReads], [CacheCoherence]: its theorems; [DbRefinement]: an
      abstract store with savepoints, and that the database refines it.
    - [Tiering], [TieringFacts]: the tier promoter ([programs/tiering.rs],
      [programs/tier_stats.rs]) as a step relation of callers and pool jobs.
    - [FeePayer] ([utils/rent.rs], [helpers.rs]), [InstructionTrace]
      ([utils/inner_instructions.rs]), [Version] ([version.rs], [env.rs]).
    - [TxRuntime]: messages and the invoke context as a class, inspectors.
    - [Svm]: the VM value and its clones ([lib.rs]).
    - [Execution], [ExecutionFacts]: readonly execution and its theorems; [TierSweep]:
      the execution with the promoter's sweep after it ([execute_readonly] of [vm.rs]).
    - [Staging], [StagingFacts]: registry, diagnostics, staging, commit, discard.
    - [Batch], [BatchFacts]: planner, workers, merge.
    - [VmPrograms], [VmProgramsFacts]: deployment, builtins, runtime
      environments and feature reconfiguration ([vm.rs], [runtime_env.rs],
      [programs/mod.rs], [precompiles.rs]).
    - [VmOps], [VmOpsFacts]: setters, sysvars, clock and blockhash, airdrop and
      instruction chains ([vm.rs], [instruction.rs]) and the facade of [host.rs];
      what restores a field after a panic is a computation that returns or unwinds.
    - [Builder], [BuilderFacts]: the builder with its typestate ([builder.rs]).
    - [Inspectors], [InspectorsFacts]: inspectors as states that react to hooks
      ([hpsvm-inspectors]), and the slot of the VM they are taken from while a hook
      runs ([fire_inspector] of [vm.rs]); [Precompiles]: sets, providers and the callbacks
      ([precompile_registry.rs], [callback.rs]).
    - [SvmInstruction]: the copies a declared builtin works on and the generated
      entrypoint ([svm_instruction.rs]); [Macros]: the attribute macro itself
      ([hpsvm-macros]).
    - [Wallet]: key pairs and signing as an interface, and helper computations;
      [Loader] ([loader.rs]); [Token], [TokenFacts] ([token/]): builders, account
      factories and the reader, with an interface the authorised builders satisfy.
    - [Fixture], [FixtureFacts]: snapshots, comparisons and checks ([model.rs],
      [snapshot.rs], [compare.rs], [check.rs], [outcome.rs]).
    - [FixtureRun], [FixtureRunFacts]: files, capture and replay ([lib.rs],
      [json.rs], [binary.rs], [capture.rs], [runner.rs]), over a disk.
    - [Cli], [CliFacts]: recording, running and comparing one fixture ([record.rs],
      [fixture.rs], [program_map.rs], [config.rs]).
    - [Bench], [BenchFacts]: reports, baselines and the two benchers
      ([hpsvm-fixture-bench], [cu.rs]).
    - [Firedancer], [FiredancerFacts]: both conversions and the files ([fd.rs]).
    - [Commands], [CommandsFacts]: every command over a file, a directory or a disk, in
      both formats, what it prints, the dispatch and the exit status ([main.rs],
      [fixture.rs], [cu.rs]).
    - [FdModel], [FdModelFacts]: the typed Firedancer model, its conversions and hash
      ([vendor/hpsvm-fd-fixture]), and the fuzz target over them.
    - [Tracing] ([register_tracing.rs]) and [Logs] ([format_logs.rs]), each with its
      theorems; [TestSupport] ([hpsvm-test-support]).
    - [RuntimeModel], [TxModel], [DeployModel], [VmModel], [FixtureModel]:
      executable instances of every class that satisfy all the laws; [Witnesses],
      [FixtureWitnesses], [ServiceWitnesses], [HelperWitnesses] and [ToolWitnesses] run
      the theorems on them, the last three with instances for the JIT, key pairs, loader,
      token, messages, features, files and text.

    ** What the theorems show

    - The journal: [rollback_restores_checkpoint] for every sequence of database
      operations, and on it [discard_restores], [transact_failure_stages_nothing]
      and [commit_with_exact].
    - Reads: read-after-write, atomic sync, transparent prewarm, no address both
      cached and tombstoned, the two ways to a program's bytes agree.
    - Refinement: [db_refines_store], every sequence of requests to the database is a
      run of the abstract store, with the same responses and reads.
    - Caches: a rebuild publishes exactly the overlay's programs, the sysvar
      cache is the decoding of the overlay, entries are backed by accounts, the
      content-addressed store only answers entries built from the same bytes.
    - Execution: [execution_readonly] (the world after is the world before, and what the
      sweep may do behind the entries), transparent to inspection, the
      fee is charged once, what is not included has no effect, the post-state is
      write-locked; the fee payer check and the trace extraction are exact.
    - History: bounded, and a duplicate is recognised within the window.
    - Batches: plans partition the batch without conflicts, the best-fit choice
      is exact, merges commute for readers, every transaction gets a result.
    - Deployment: a program reads back and reloads to the entry it was deployed
      with, both entry tables stay sound, a failed feature change restores the VM.
    - Harnesses: warping moves every clock, installing the sysvars never panics, an
      airdrop does not see the source, replaced fields are restored after a panic, a
      simulation predicts the report of a send.
    - Fixtures: comparisons and checks are exact and report the first failure, a
      snapshot loses nothing it records, what is saved loads back, what is recorded
      is reproduced by a run, what cannot be reproduced is refused.
    - Benches: differences saturate, a report is the baseline of the next run, every
      variant is measured, variants are grouped and validated exactly.
    - Commands: [record_then_run] (a recording passes when it is run),
      [directory_verdict] (the order, the exit status and the lines of a run over a
      directory),
      [commands_write_only_output].
    - Firedancer: [import_export_roundtrip] (up to accounts that share an address) and
      [export_import_exact], what each direction keeps; [fd_model_roundtrip], what the model keeps;
      [hash_order_independent]; [fuzz_target_exact].
    - Traces and logs: [trace_metrics_exact], the metrics are sums and maxima over the
      traces in any order; [format_logs_faithful], nothing but white space and a prefix is
      lost; [lookups_agree] of the test programs.
    - The promoter: [promoter_accounts_every_slot] for every interleaving of callers
      and jobs, and [promoter_pool_drains].
    - The fork: [fork_refines_source], [fork_answers_fresh].
    - The builder: what is built is what was planned, its errors and its typestate,
      the two ways to a default VM agree.
    - Inspectors: the hooks of an execution form one bracket, what each inspector
      records is exact, and hooks that re-enter the VM or panic
      ([reentrant_hooks_unobserved]).  Precompiles: the native provider is the library's lookup.
    - Builtins: [entrypoint_last_copy_wins], [idle_handler_writes_nothing];
      [svm_instruction_exact], what the macro accepts and generates.
    - Helpers: [deploy_uploads_program], the chunk writes put the program together;
      [token_builders_sign_completely] (all but a multisig chosen without signers),
      [factory_reads_back].
    - Errors: failures keep their class and type through the layers, source
      chains terminate and are exact.
    - Divergences from the documentation: [best_fit_reorders_conflicts],
      [discard_panics_on_unloadable_program], [clone_shares_program_cache],
      [tombstoned_builtin_keeps_entry], [execution_from_outer_escalates],
      [failed_add_program_poisons_rebuild], [rebuild_drops_added_builtin],
      [rejected_syscall_panics_later], [load_program_relinks] (an environment is
      named by its address), [staging_failure_reports_success],
      [airdrop_ignores_source] (an airdrop shadows a sourced account),
      [host_write_failure_fatal], [fixtures_share_program_cache],
      [entrypoint_last_copy_wins] (a repeated account), [freeze_reaches_own_account],
      [token_builders_sign_completely] (an empty multisig is sent unsigned),
      [checked_transfer_needs_mint], [trace_dir_check], [commit_with_exact] (the before of
      an account only the source holds), [import_export_roundtrip] (shared addresses),
      [fuzz_target_exact], [account_index_truncated], [hash_ambiguous],
      [program_prefix_splits_words], [built_program_shadows_prebuilt], the second parts of
      [build_errors_exact], [report_is_next_baseline] and [export_import_exact], of
      [everything_exact] (inner instructions are only counted), the second branches of
      [add_account_failure_atomic] and [resolve_program_sound].

    ** Conventions

    A panic ([expect], an index out of range) is [None] of an [option] result.
    Integers are [Z] with the wrap-around, saturation or checked operation
    written out.  The only fuel is that of the rollback (the length of the journal),
    of the pieces of a program in [Loader] (its length), of the walk to a top-level
    ancestor in [InstructionTrace] (the number of frames, enough because callers
    precede callees), of [source_chain] (the size of the error) and of nested executions
    under an inspector (two levels); each comes with a proof that it is enough.  A hash map whose order the code cannot observe is a
    [gmap].

    ** Not modelled

    When the invocation-inspect callback is called (what its two implementations do is
    in [Tracing]); type families, which have no state; the parsing of arguments, which
    [clap] does; [Debug] renderings; errors while a directory is listed; the SBF test
    programs, which are inputs of the VM.  What a compilation writes behind the [Arc] of a
    program entry is state of the promoter ([Tiering], [TierSweep]), not of the world, in
    which an entry is its [Arc].  Nested executions in
    [reentrant_hooks_unobserved] have two levels because the slot is empty in the second.
    Floating point is a parameter of the renderings that use it.

    Concurrency: the promoter is modelled with every interleaving of its callers and
    pool jobs.  Elsewhere it is present as sharing: workers of a stage own private
    copies of the program cache, so their interleaving cannot be observed, and which
    worker runs which transaction is a parameter. *)

From Stdlib Require Import ZArith Lia List Permutation.
From stdpp Require Import base tactics option list sorting gmap strings.

(** ** Notations

    Rust's [Result] and its [?] operator, and the calls of a stateful method
    that may return early with an error after having mutated its receiver. *)

Declare Scope hpsvm_scope.
Delimit Scope hpsvm_scope with hpsvm.
Open Scope hpsvm_scope.

Inductive result (A E : Type) : Type :=
| Ok (a : A)
| Err (e : E).
Arguments Ok {A E} a.
Arguments Err {A E} e.

#[export] Instance result_eq_dec {A E} `{EqDecision A, EqDecision E} :
  EqDecision (result A E).
Proof. solve_decision. Defined.

Definition rbind {A B E} (r : result A E) (f : A -> result B E) : result B E :=
  match r with Ok a => f a | Err e => Err e end.

Definition map_err {A E F} (f : E -> F) (r : result A E) : result A F :=
  match r with Ok a => Ok a | Err e => Err (f e) end.

Definition rmap {A B E} (f : A -> B) (r : result A E) : result B E :=
  match r with Ok a => Ok (f a) | Err e => Err e end.

Definition ok {A E} (r : result A E) : option A :=
  match r with Ok a => Some a | Err _ => None end.

Definition err {A E} (r : result A E) : option E :=
  match r with Ok _ => None | Err e => Some e end.

Definition is_ok {A E} (r : result A E) : bool :=
  match r with Ok _ => true | Err _ => false end.

Definition is_err {A E} (r : result A E) : bool := negb (is_ok r).

Definition ok_or {A E} (o : option A) (e : E) : result A E :=
  match o with Some a => Ok a | None => Err e end.

Notation "'let?' x := r 'in' k" := (rbind r (fun x => k))
  (at level 10, x name, r at level 100, k at level 200)
  : hpsvm_scope.

Notation "'let?' ' p := r 'in' k" := (rbind r (fun x => match x with p => k end))
  (at level 10, p pattern, r at level 100, k at level 200)
  : hpsvm_scope.

(** [M S E A]: a method of an [&mut S] receiver returning [Result<A, E>].  An
    early return keeps the mutations made before it, as in Rust. *)
Definition M (S E A : Type) : Type := S -> result A E * S.

Definition sret {S E A} (a : A) : M S E A := fun s => (Ok a, s).
Definition sfail {S E A} (e : E) : M S E A := fun s => (Err e, s).
Definition sbind {S E A B} (m : M S E A) (f : A -> M S E B) : M S E B :=
  fun s => match m s with
           | (Ok a, s') => f a s'
           | (Err e, s') => (Err e, s')
           end.
Definition smodify {S E} (f : S -> S) : M S E unit := fun s => (Ok tt, f s).
Definition sgets {S E A} (f : S -> A) : M S E A := fun s => (Ok (f s), s).
Definition slift {S E A} (f : S -> result A E) : M S E A := fun s => (f s, s).

Notation "'let!' x := m 'in' k" := (sbind m (fun x => k))
  (at level 10, x name, m at level 100, k at level 200)
  : hpsvm_scope.
Notation "'do!' m 'in' k" := (sbind m (fun _ => k))
  (at level 10, m at level 100, k at level 200)
  : hpsvm_scope.

(** A [for] loop whose body may return early. *)
Fixpoint sfor {S E A} (l : list A) (f : A -> M S E unit) : M S E unit :=
  match l with
  | [] => sret tt
  | x :: l' => sbind (f x) (fun _ => sfor l' f)
  end.

(** [iter().map(f).collect::<Result<Vec<_>, _>>()]: stops at the first error. *)
Fixpoint traverse {A B E} (f : A -> result B E) (l : list A) : result (list B) E :=
  match l with
  | [] => Ok []
  | x :: l' => rbind (f x) (fun y => rbind (traverse f l') (fun ys => Ok (y :: ys)))
  end.

(** ** Machine integers

    A [u64] (and a [usize] on the 64-bit targets the code supports) is a [Z] in
    [0 .. u64_max]; the partial and saturating operations are written out. *)

Definition u64_max : Z := 18446744073709551615.
Definition usize_max : Z := u64_max.
Definition u16_max : Z := 65535.
Definition u8_max : Z := 255.

Definition in_u64 (z : Z) : Prop := (0 <= z <= u64_max)%Z.

Definition wrap_u8 (z : Z) : Z := (z mod 256)%Z.
Definition wrap_u32 (z : Z) : Z := (z mod 4294967296)%Z.
Definition wrap_u64 (z : Z) : Z := (z mod 18446744073709551616)%Z.

Definition checked_sub_u64 (a b : Z) : option Z :=
  if (b <=? a)%Z then Some (a - b)%Z else None.

Definition saturating_add_u64 (a b : Z) : Z := Z.min u64_max (a + b)%Z.

Definition saturating_add_u8 (a b : Z) : Z := Z.min u8_max (a + b)%Z.

(** ** Automation *)

Create HintDb hpsvm discriminated.
Create HintDb hpsvm_arith discriminated.

(** Case analysis on the innermost [match]/[if] of the goal or of an equation. *)
Ltac case_head :=
  match goal with
  | |- context [match ?x with _ => _ end] => destruct x eqn:?
  | H : context [match ?x with _ => _ end] |- _ => destruct x eqn:?
  end.

Ltac crush_match := repeat (case_head; simplify_eq/=; try done).

Ltac bool_to_prop :=
  repeat match goal with
  | H : (_ && _)%bool = true |- _ => apply andb_true_iff in H as [? ?]
  | H : (_ || _)%bool = false |- _ => apply orb_false_iff in H as [? ?]
  | H : negb _ = true |- _ => apply negb_true_iff in H
  | H : negb _ = false |- _ => apply negb_false_iff in H
  | H : bool_decide _ = true |- _ => apply bool_decide_eq_true in H
  | H : bool_decide _ = false |- _ => apply bool_decide_eq_false in H
  | H : (_ =? _)%Z = true |- _ => apply Z.eqb_eq in H
  | H : (_ =? _)%Z = false |- _ => apply Z.eqb_neq in H
  | H : (_ <? _)%Z = true |- _ => apply Z.ltb_lt in H
  | H : (_ <? _)%Z = false |- _ => apply Z.ltb_ge in H
  | H : (_ <=? _)%Z = true |- _ => apply Z.leb_le in H
  | H : (_ <=? _)%Z = false |- _ => apply Z.leb_gt in H
  end.

(** ** Lemmas shared by the components *)

Lemma checked_sub_u64_Some a b c :
  checked_sub_u64 a b = Some c <-> (b <= a /\ c = a - b)%Z.
Proof. unfold checked_sub_u64. destruct (Z.leb_spec b a); naive_solver lia. Qed.

Lemma checked_sub_u64_None a b : checked_sub_u64 a b = None <-> (a < b)%Z.
Proof. unfold checked_sub_u64. destruct (Z.leb_spec b a); naive_solver lia. Qed.

Lemma saturating_add_u64_bounds a b :
  (0 <= a)%Z -> (0 <= b)%Z -> in_u64 (saturating_add_u64 a b).
Proof. unfold in_u64, saturating_add_u64, u64_max. lia. Qed.

Lemma wrap_u64_id z : in_u64 z -> wrap_u64 z = z.
Proof. unfold in_u64, wrap_u64, u64_max. intros. apply Z.mod_small. lia. Qed.

Lemma wrap_u64_inner a x b : wrap_u64 (a + wrap_u64 x + b) = wrap_u64 (a + x + b).
Proof.
  unfold wrap_u64. replace (a + x mod 18446744073709551616 + b)%Z
    with ((a + b) + x mod 18446744073709551616)%Z by lia.
  rewrite Z.add_mod_idemp_r by done. f_equal. lia.
Qed.

Lemma sbind_ok {S E A B} (m : M S E A) (f : A -> M S E B) s b s'' :
  sbind m f s = (Ok b, s'') <->
  exists a s', m s = (Ok a, s') /\ f a s' = (Ok b, s'').
Proof. unfold sbind. destruct (m s) as [[a|e] s']; naive_solver. Qed.

Lemma sbind_err {S E A B} (m : M S E A) (f : A -> M S E B) s e s'' :
  sbind m f s = (Err e, s'') <->
  m s = (Err e, s'') \/ exists a s', m s = (Ok a, s') /\ f a s' = (Err e, s'').
Proof. unfold sbind. destruct (m s) as [[a|e'] s']; naive_solver. Qed.

Lemma sfor_app {S E A} (l1 l2 : list A) (f : A -> M S E unit) s :
  sfor (l1 ++ l2) f s = sbind (sfor l1 f) (fun _ => sfor l2 f) s.
Proof.
  revert s; induction l1 as [|x l1 IH]; intros s; [done|].
  simpl. unfold sbind at 1 2 3. destruct (f x s) as [[u|e] s']; [|done].
  by rewrite IH.
Qed.

(** A relation between the states around every iteration, reflexive and
    transitive, relates the states around the loop whether or not it returns
    early. *)
Lemma sfor_rel {S E A} (R : S -> S -> Prop) (f : A -> M S E unit) (l : list A) :
  (forall s, R s s) ->
  (forall s1 s2 s3, R s1 s2 -> R s2 s3 -> R s1 s3) ->
  (forall x s, x ∈ l -> R s (snd (f x s))) ->
  forall s, R s (snd (sfor l f s)).
Proof.
  intros Hrefl Htrans Hstep.
  induction l as [|x l IH]; intros s; simpl; [done|].
  unfold sbind. specialize (Hstep x s ltac:(set_solver)) as Hx.
  destruct (f x s) as [[u|e] s']; simpl in *; [|done].
  eapply Htrans; [exact Hx|]. apply IH. intros y t Hy. apply Hstep. set_solver.
Qed.

(** An invariant preserved by every iteration holds after the loop. *)
Lemma sfor_inv {S E A} (P : S -> Prop) (f : A -> M S E unit) (l : list A) :
  (forall x s, x ∈ l -> P s -> P (snd (f x s))) ->
  forall s, P s -> P (snd (sfor l f s)).
Proof.
  intros Hstep s Hs.
  apply (sfor_rel (fun s1 s2 => P s1 -> P s2) f l); auto.
Qed.

Lemma traverse_Ok_Forall2 {A B E} (f : A -> result B E) l ys :
  traverse f l = Ok ys <-> Forall2 (fun x y => f x = Ok y) l ys.
Proof.
  split.
  - revert ys; induction l as [|x l IH]; intros ys; simpl.
    + intros [= <-]. constructor.
    + destruct (f x) eqn:Hx; simpl; [|done].
      destruct (traverse f l); simpl; [|done]. intros [= <-]. auto.
  - induction 1 as [|x y l ys Hxy _ IH]; [done|].
    simpl. rewrite Hxy. simpl. by rewrite IH.
Qed.

Lemma traverse_app {A B E} (f : A -> result B E) l1 l2 :
  traverse f (l1 ++ l2) =
  rbind (traverse f l1) (fun y1 => rbind (traverse f l2) (fun y2 => Ok (y1 ++ y2))).
Proof.
  induction l1 as [|x l1 IH]; simpl.
  - by destruct (traverse f l2).
  - destruct (f x); simpl; [|done]. rewrite IH.
    destruct (traverse f l1); simpl; [|done]. by destruct (traverse f l2).
Qed.

Lemma NoDup_fst_filter {K V} (P : K * V -> Prop) `{!forall x, Decision (P x)}
    (l : list (K * V)) : NoDup l.*1 -> NoDup (filter P l).*1.
Proof.
  induction l as [|x l IH]; [done|]. rewrite fmap_cons, NoDup_cons, filter_cons.
  intros [Hx Hl]. case_decide; [|by apply IH]. rewrite fmap_cons. apply NoDup_cons.
  split; [|by apply IH]. intros (y & Hy & Hin)%list_elem_of_fmap. apply Hx.
  rewrite Hy. apply list_elem_of_fmap. exists y. split; [done|].
  by apply list_elem_of_filter in Hin as [_ ?].
Qed.

Lemma elem_of_concat {A} (x : A) (ls : list (list A)) :
  x ∈ concat ls <-> exists l, l ∈ ls /\ x ∈ l.
Proof.
  rewrite list_elem_of_In, in_concat. by setoid_rewrite <- list_elem_of_In.
Qed.

#[export] Hint Resolve saturating_add_u64_bounds : hpsvm_arith.
#[export] Hint Resolve NoDup_fst_filter : hpsvm.
