(* ===== verification/Types.v ===== *)
(** * Addresses, accounts, transaction errors and results

    The data every component shares: the 32-byte [Address], the
    [AccountSharedData] record, the part of the transaction and instruction
    error types the code names, and the result types of
    [crates/hpsvm/src/types.rs].  The library types ([Address], account,
    error enumerations) come from crates outside the repository; they are given
    the shape the code observes through their public fields and variants. *)

From Stdlib Require Import ZArith Lia List Strings.Byte.
From stdpp Require Import base tactics option list gmap strings.
From S2P Require Import Prelude.

(** ** Addresses *)

(** A [solana_address::Address] is 32 bytes; it is kept as the number those
    bytes denote in big-endian order. *)
Record Address : Type := Addr { address_num : N }.

#[export] Instance Address_eq_dec : EqDecision Address.
Proof. solve_decision. Defined.

#[export] Instance Address_countable : Countable Address.
Proof. by apply (inj_countable' address_num Addr); intros []. Defined.

Definition Address_default : Address := Addr 0.

#[export] Instance Address_inhabited : Inhabited Address := populate Address_default.

(** Base-58 decoding, [Address::from_str_const]. *)
Definition base58_alphabet : string :=
  "123456789ABCDEFGHJKLMNPQRSTUVWXYZabcdefghijkmnopqrstuvwxyz".

Fixpoint index_of (c : Ascii.ascii) (s : string) (i : N) : option N :=
  match s with
  | EmptyString => None
  | String c' s' => if bool_decide (c = c') then Some i else index_of c s' (i + 1)%N
  end.

Fixpoint base58_decode (s : string) (acc : N) : option N :=
  match s with
  | EmptyString => Some acc
  | String c s' =>
      match index_of c base58_alphabet 0 with
      | Some d => base58_decode s' (acc * 58 + d)%N
      | None => None
      end
  end.

Definition from_str_const (s : string) : Address :=
  match base58_decode s 0 with Some n => Addr n | None => Address_default end.

(** ** Accounts *)

#[export] Instance byte_eq_dec : EqDecision byte := Byte.byte_eq_dec.

(** [solana_account::AccountSharedData] (and [Account], the same fields). *)
Record AccountSharedData : Type := mkAccount {
  lamports : Z;
  acc_data : list byte;
  acc_owner : Address;
  executable : bool;
  rent_epoch : Z
}.

#[export] Instance AccountSharedData_eq_dec : EqDecision AccountSharedData.
Proof. solve_decision. Defined.

Definition AccountSharedData_default : AccountSharedData :=
  mkAccount 0 [] Address_default false 0.

#[export] Instance AccountSharedData_inhabited : Inhabited AccountSharedData :=
  populate AccountSharedData_default.

Definition with_lamports (a : AccountSharedData) (l : Z) : AccountSharedData :=
  mkAccount l (acc_data a) (acc_owner a) (executable a) (rent_epoch a).

Definition data_len (a : AccountSharedData) : Z := Z.of_nat (length (acc_data a)).

(** [WritableAccount::checked_sub_lamports]. *)
Definition checked_sub_lamports (a : AccountSharedData) (amount : Z) :
    option AccountSharedData :=
  with_lamports a <$> checked_sub_u64 (lamports a) amount.

(** ** Instruction and transaction errors *)

(** The variants of [solana_instruction_error::InstructionError] the code names;
    every other variant is [OtherInstructionError] with its identity. *)
Inductive InstructionError : Type :=
| AccountDataTooSmall
| CustomError (code : Z)
| IncorrectProgramId
| InvalidAccountData
| InvalidArgument
| MissingAccount
| OtherInstructionError (discriminant : Z).

#[export] Instance InstructionError_eq_dec : EqDecision InstructionError.
Proof. solve_decision. Defined.

(** The variants of [solana_transaction_error::TransactionError] the code
    names; every other variant is [OtherTransactionError] with its identity. *)
Inductive TransactionError : Type :=
| AccountInUse
| AccountNotFound
| AddressLookupTableNotFound
| AlreadyProcessed
| BlockhashNotFound
| TxInstructionError (index : Z) (error : InstructionError)
| InsufficientFundsForFee
| InsufficientFundsForRent (account_index : Z)
| InvalidAccountForFee
| InvalidAccountIndex
| InvalidProgramForExecution
| ProgramAccountNotFound
| SanitizeFailure
| UnsupportedVersion
| OtherTransactionError (discriminant : Z).

#[export] Instance TransactionError_eq_dec : EqDecision TransactionError.
Proof. solve_decision. Defined.

(** A 64-byte [Signature] and a 32-byte [Hash], as the numbers they denote. *)
Record Signature : Type := Sig { signature_num : N }.

#[export] Instance Signature_eq_dec : EqDecision Signature.
Proof. solve_decision. Defined.

#[export] Instance Signature_countable : Countable Signature.
Proof. by apply (inj_countable' signature_num Sig); intros []. Defined.

Definition Signature_default : Signature := Sig 0.

Record Hash : Type := mkHash { hash_num : N }.

#[export] Instance Hash_eq_dec : EqDecision Hash.
Proof. solve_decision. Defined.

#[export] Instance Hash_countable : Countable Hash.
Proof. by apply (inj_countable' hash_num mkHash); intros []. Defined.

Definition Hash_default : Hash := mkHash 0.

(** ** Instructions *)

(** [solana_instruction::AccountMeta]. *)
Record AccountMeta : Type := mkAccountMeta {
  meta_pubkey : Address;
  is_signer : bool;
  is_writable : bool
}.

#[export] Instance AccountMeta_eq_dec : EqDecision AccountMeta.
Proof. solve_decision. Defined.

(** [solana_instruction::Instruction]. *)
Record Instruction : Type := mkInstruction {
  ix_program_id : Address;
  ix_accounts : list AccountMeta;
  ix_data : list byte
}.

#[export] Instance Instruction_eq_dec : EqDecision Instruction.
Proof. solve_decision. Defined.

(** [solana_message::CompiledInstruction]. *)
Record CompiledInstruction : Type := mkCompiledInstruction {
  ci_program_id_index : Z;
  ci_accounts : list Z;
  ci_data : list byte
}.

#[export] Instance CompiledInstruction_eq_dec : EqDecision CompiledInstruction.
Proof. solve_decision. Defined.

(** [solana_message::inner_instruction::InnerInstruction]. *)
Record InnerInstruction : Type := mkInnerInstruction {
  inner_instruction : CompiledInstruction;
  inner_stack_height : Z
}.

#[export] Instance InnerInstruction_eq_dec : EqDecision InnerInstruction.
Proof. solve_decision. Defined.

(** [solana_transaction_context::TransactionReturnData]. *)
Record TransactionReturnData : Type := mkReturnData {
  rd_program_id : Address;
  rd_data : list byte
}.

#[export] Instance TransactionReturnData_eq_dec : EqDecision TransactionReturnData.
Proof. solve_decision. Defined.

Definition TransactionReturnData_default : TransactionReturnData :=
  mkReturnData Address_default [].

(** ** Execution metadata, [crates/hpsvm/src/types.rs] *)

Record AccountSourceFailure : Type := mkAccountSourceFailure {
  asf_pubkey : Address;
  asf_error : string
}.

#[export] Instance AccountSourceFailure_eq_dec : EqDecision AccountSourceFailure.
Proof. solve_decision. Defined.

Record AccountDiff : Type := mkAccountDiff {
  diff_address : Address;
  diff_pre : option AccountSharedData;
  diff_post : option AccountSharedData
}.

#[export] Instance AccountDiff_eq_dec : EqDecision AccountDiff.
Proof. solve_decision. Defined.

Record TokenBalance : Type := mkTokenBalance {
  tb_account_index : nat;
  tb_address : Address;
  tb_mint : Address;
  tb_owner : Address;
  tb_amount : Z;
  tb_decimals : option Z
}.

#[export] Instance TokenBalance_eq_dec : EqDecision TokenBalance.
Proof. solve_decision. Defined.

Record ExecutedInstruction : Type := mkExecutedInstruction {
  ei_stack_height : Z;
  ei_program_id : Address;
  ei_accounts : list AccountMeta;
  ei_data : list byte
}.

#[export] Instance ExecutedInstruction_eq_dec : EqDecision ExecutedInstruction.
Proof. solve_decision. Defined.

(** [ExecutedInstruction::instruction]. *)
Definition executed_instruction (e : ExecutedInstruction) : Instruction :=
  mkInstruction (ei_program_id e) (ei_accounts e) (ei_data e).

Record ExecutionTrace : Type := mkExecutionTrace {
  trace_instructions : list ExecutedInstruction
}.

#[export] Instance ExecutionTrace_eq_dec : EqDecision ExecutionTrace.
Proof. solve_decision. Defined.

Record ExecutionDiagnostics : Type := mkExecutionDiagnostics {
  pre_balances : list Z;
  post_balances : list Z;
  account_diffs : list AccountDiff;
  diag_account_source_failures : list AccountSourceFailure;
  pre_token_balances : list TokenBalance;
  post_token_balances : list TokenBalance;
  diag_execution_trace : ExecutionTrace
}.

#[export] Instance ExecutionDiagnostics_eq_dec : EqDecision ExecutionDiagnostics.
Proof. solve_decision. Defined.

Definition ExecutionDiagnostics_default : ExecutionDiagnostics :=
  mkExecutionDiagnostics [] [] [] [] [] [] (mkExecutionTrace []).

Record TransactionMetadata : Type := mkTransactionMetadata {
  tm_signature : Signature;
  tm_logs : list string;
  tm_inner_instructions : list (list InnerInstruction);
  tm_compute_units_consumed : Z;
  tm_return_data : TransactionReturnData;
  tm_fee : Z;
  tm_diagnostics : ExecutionDiagnostics
}.

#[export] Instance TransactionMetadata_eq_dec : EqDecision TransactionMetadata.
Proof. solve_decision. Defined.

Definition TransactionMetadata_default : TransactionMetadata :=
  mkTransactionMetadata Signature_default [] [] 0 TransactionReturnData_default 0
    ExecutionDiagnostics_default.

Record FailedTransactionMetadata : Type := mkFailedTransactionMetadata {
  ftm_err : TransactionError;
  ftm_meta : TransactionMetadata
}.

#[export] Instance FailedTransactionMetadata_eq_dec : EqDecision FailedTransactionMetadata.
Proof. solve_decision. Defined.

Definition TransactionResult : Type :=
  result TransactionMetadata FailedTransactionMetadata.

(** [From<ProgramError> for FailedTransactionMetadata]: the numeric program
    error (the [u64::from] of the value) truncated to 32 bits. *)
Definition failed_from_program_error (program_error : Z) : FailedTransactionMetadata :=
  mkFailedTransactionMetadata
    (TxInstructionError 0 (CustomError (wrap_u32 program_error)))
    TransactionMetadata_default.

Record SimulatedTransactionInfo : Type := mkSimulatedTransactionInfo {
  sim_meta : TransactionMetadata;
  sim_post_accounts : list (Address * AccountSharedData)
}.

#[export] Instance SimulatedTransactionInfo_eq_dec : EqDecision SimulatedTransactionInfo.
Proof. solve_decision. Defined.
