(* ===== verification/AccountSource.v ===== *)
(** * Account sources, [crates/hpsvm/src/account_source.rs]

    The read-through source of accounts behind the overlay: its error type,
    the trait with its default batched read, and the empty source.  A source is
    an implementation of the trait supplied by the caller, so the clients of
    this file are proved against [SourceLaws], the contract that the batched
    read answers what the single reads answer. *)

From stdpp Require Import base tactics option list gmap strings.
From S2P Require Import Prelude.
From S2P Require Import Types.

Inductive AccountSourceErrorKind : Type :=
| Unavailable
| InvalidResponse
| OtherKind.

#[export] Instance AccountSourceErrorKind_eq_dec : EqDecision AccountSourceErrorKind.
Proof. solve_decision. Defined.

Record AccountSourceError : Type := mkAccountSourceError {
  ase_kind : AccountSourceErrorKind;
  ase_message : string
}.

#[export] Instance AccountSourceError_eq_dec : EqDecision AccountSourceError.
Proof. solve_decision. Defined.

(** [AccountSourceError::new]: an unclassified failure is an unavailable source. *)
Definition account_source_error_new (message : string) : AccountSourceError :=
  mkAccountSourceError Unavailable message.

(** [AccountSourceError::with_kind]. *)
Definition account_source_error_with_kind (kind : AccountSourceErrorKind)
    (message : string) : AccountSourceError :=
  mkAccountSourceError kind message.

Definition debug_kind (k : AccountSourceErrorKind) : string :=
  match k with
  | Unavailable => "Unavailable"
  | InvalidResponse => "InvalidResponse"
  | OtherKind => "Other"
  end.

(** The derived [Display]: [{kind:?}: {message}]. *)
Definition display_account_source_error (e : AccountSourceError) : string :=
  debug_kind (ase_kind e) +:+ ": " +:+ ase_message e.

(** The [AccountSource] trait. *)
Record AccountSource : Type := mkAccountSource {
  source_get_account : Address -> result (option AccountSharedData) AccountSourceError;
  source_get_accounts :
    list Address -> result (list (option AccountSharedData)) AccountSourceError
}.

(** The trait's default [get_accounts]. *)
Definition default_get_accounts
    (get_account : Address -> result (option AccountSharedData) AccountSourceError)
    (pubkeys : list Address) : result (list (option AccountSharedData)) AccountSourceError :=
  traverse get_account pubkeys.

Definition source_with_default
    (get_account : Address -> result (option AccountSharedData) AccountSourceError) :
    AccountSource :=
  mkAccountSource get_account (default_get_accounts get_account).

(** [EmptyAccountSource]: no account anywhere. *)
Definition EmptyAccountSource : AccountSource :=
  source_with_default (fun _ => Ok None).

(** The contract of the trait: a successful batched read lists the answers of
    the single reads, in order. *)
Class SourceLaws (s : AccountSource) : Prop := {
  source_batch_agrees : forall pubkeys accounts,
    source_get_accounts s pubkeys = Ok accounts ->
    Forall2 (fun k a => source_get_account s k = Ok a) pubkeys accounts
}.

#[export] Instance source_with_default_laws get_account :
  SourceLaws (source_with_default get_account).
Proof. constructor. intros ks l. apply traverse_Ok_Forall2. Qed.

#[export] Instance EmptyAccountSource_laws : SourceLaws EmptyAccountSource.
Proof. apply source_with_default_laws. Qed.

(** A source serving a fixed map, used by the concrete instances. *)
Definition map_source (m : gmap Address AccountSharedData) : AccountSource :=
  source_with_default (fun k => Ok (m !! k)).

#[export] Instance map_source_laws m : SourceLaws (map_source m).
Proof. apply source_with_default_laws. Qed.

Lemma empty_source_get_accounts pubkeys :
  source_get_accounts EmptyAccountSource pubkeys = Ok (replicate (length pubkeys) None).
Proof.
  cbn. unfold default_get_accounts.
  induction pubkeys as [|k ks IH]; [done|]. cbn. by rewrite IH.
Qed.
