(* ===== verification/Errors.v ===== *)
(** * The layered error taxonomy, [crates/hpsvm/src/error.rs]

    Every error type of the crate with its conversions, its fatal
    classification, its [Display] and its [source].  The types refer to each
    other ([AnyError] erases any error, [HPSVMError] projects every layer), so
    they are one mutual inductive; [DynError] is [dyn std::error::Error], the sum
    of the concrete types that cross an erased boundary, and [ErrorType] is the
    bound under which a concrete error is erased and recovered by downcast. *)

From stdpp Require Import base tactics option list sets gmap strings pretty.
From S2P Require Import Prelude.
From S2P Require Import Types.
From S2P Require Import AccountSource.

(** [TxTag] of [tx_registry.rs], which the errors carry. *)
Inductive TxTag : Type :=
| TagLegacy
| TagV0
| TagV1
| TagCustom (id : Z).

#[export] Instance TxTag_eq_dec : EqDecision TxTag.
Proof. solve_decision. Defined.

Inductive InvalidSysvarDataError : Type :=
| InvalidClock
| InvalidEpochRewards
| InvalidEpochSchedule
| InvalidFees
| InvalidLastRestartSlot
| InvalidRecentBlockhashes
| InvalidRent
| InvalidSlotHashes
| InvalidStakeHistory.

#[export] Instance InvalidSysvarDataError_eq_dec : EqDecision InvalidSysvarDataError.
Proof. solve_decision. Defined.

Inductive TxValidationError : Type :=
| Invalid (error : TransactionError).

Inductive HaltReason : Type :=
| HaltAlreadyProcessed
| HaltTransaction (error : TransactionError).

(** [PrewarmProgramError] of [accounts_db.rs]. *)
Record PrewarmProgramError : Type := mkPrewarmProgramError {
  ppe_program_id : Address;
  ppe_source : InstructionError
}.

Inductive DynError : Type :=
| DynAny (e : AnyError)
| DynAccountSource (e : AccountSourceError)
| DynIo (message : string)
| DynInvalidSysvar (e : InvalidSysvarDataError)
| DynInstruction (e : InstructionError)
| DynTransaction (e : TransactionError)
| DynPrewarm (e : PrewarmProgramError)
| DynValidation (e : TxValidationError)
| DynHalt (e : HaltReason)
| DynDb (e : DbError)
| DynLoad (e : LoadError)
| DynExecution (e : ExecutionError)
| DynTx (e : TxError)
| DynHost (e : HostError)
| DynHandler (e : HandlerError)
| DynHPSVM (e : HPSVMError)
| DynForeign (type_id : N) (message : string)
with AnyError : Type :=
| mkAnyError (inner : DynError)
with DbError : Type :=
| mkDbError (error : AnyError) (fatal : bool)
with LoadError : Type :=
| LoadAccount (error : DbError)
| LoadProgram (error : DbError)
| LoadSysvar (error : DbError)
with ExecutionError : Type :=
| ExecDatabase (error : DbError)
| ExecAccountSource (pubkey : Address) (source : AccountSourceError)
| ExecFatal (error : AnyError)
| ExecHalt (reason : HaltReason)
with TxError : Type :=
| TxValidation (error : TxValidationError)
| TxExecution (error : ExecutionError)
| TxDatabase (error : DbError)
| TxUnknownTag (tag : TxTag)
with HostError : Type :=
| HostHalt (reason : HaltReason)
| HostExecution (error : ExecutionError)
with HandlerError : Type :=
| mkHandlerError (error : AnyError)
with HPSVMError : Type :=
| InvalidSysvarData (error : InvalidSysvarDataError)
| SysvarSerialization (sysvar : string) (reason : string)
| HInstruction (error : InstructionError)
| InvalidPath (error : string)
| RuntimeEnvironment (version : string) (reason : string)
| CustomSyscallRegistrationError (name : string) (runtime : string) (reason : string)
| InvalidLoader (program_id : Address) (loader_id : Address)
| MissingRuntimeComponent (component : string)
| HAccountSource (pubkey : Address) (source : AccountSourceError)
| ProgramLoad (reason : string)
| UnknownTransactionTag (tag : TxTag)
| HDatabase (error : DbError)
| HLoad (error : LoadError)
| HTransaction (error : TxError)
| HExecution (error : ExecutionError)
| HHost (error : HostError)
| HHandler (error : HandlerError).

(** ** Erasure and downcast *)

(** The [E: std::error::Error + Send + Sync + 'static] bound: a concrete error
    type is one summand of [DynError]. *)
Class ErrorType (T : Type) : Type := {
  erase : T -> DynError;
  recover : DynError -> option T;
  recover_erase : forall x, recover (erase x) = Some x;
  erase_recover : forall d x, recover d = Some x -> d = erase x
}.

#[export] Instance AccountSourceError_type : ErrorType AccountSourceError.
Proof.
  refine {| erase := DynAccountSource; recover := fun d => match d with DynAccountSource e => Some e | _ => None end |}; [done|].
  by intros [] x; simpl; intros; simplify_eq.
Defined.

#[export] Instance InstructionError_type : ErrorType InstructionError.
Proof.
  refine {| erase := DynInstruction; recover := fun d => match d with DynInstruction e => Some e | _ => None end |}; [done|].
  by intros [] x; simpl; intros; simplify_eq.
Defined.

#[export] Instance InvalidSysvarDataError_type : ErrorType InvalidSysvarDataError.
Proof.
  refine {| erase := DynInvalidSysvar; recover := fun d => match d with DynInvalidSysvar e => Some e | _ => None end |}; [done|].
  by intros [] x; simpl; intros; simplify_eq.
Defined.

#[export] Instance PrewarmProgramError_type : ErrorType PrewarmProgramError.
Proof.
  refine {| erase := DynPrewarm; recover := fun d => match d with DynPrewarm e => Some e | _ => None end |}; [done|].
  by intros [] x; simpl; intros; simplify_eq.
Defined.

#[export] Instance DbError_type : ErrorType DbError.
Proof.
  refine {| erase := DynDb; recover := fun d => match d with DynDb e => Some e | _ => None end |}; [done|].
  by intros [] x; simpl; intros; simplify_eq.
Defined.

#[export] Instance HPSVMError_type : ErrorType HPSVMError.
Proof.
  refine {| erase := DynHPSVM; recover := fun d => match d with DynHPSVM e => Some e | _ => None end |}; [done|].
  by intros [] x; simpl; intros; simplify_eq.
Defined.

(** [AnyError::new], [is], [downcast_ref], [into_inner]. *)
Definition any_new {T} `{ErrorType T} (error : T) : AnyError := mkAnyError (erase error).

Definition any_into_inner (e : AnyError) : DynError :=
  match e with mkAnyError inner => inner end.

Definition any_downcast_ref (T : Type) `{ErrorType T} (e : AnyError) : option T :=
  recover (any_into_inner e).

Definition any_is (T : Type) `{ErrorType T} (e : AnyError) : bool :=
  match any_downcast_ref T e with Some _ => true | None => false end.

(** [DbError]. *)
Definition db_new {T} `{ErrorType T} (error : T) (fatal : bool) : DbError :=
  mkDbError (any_new error) fatal.
Definition db_fatal {T} `{ErrorType T} (error : T) : DbError := db_new error true.
Definition db_non_fatal {T} `{ErrorType T} (error : T) : DbError := db_new error false.
Definition db_is_fatal (e : DbError) : bool := match e with mkDbError _ f => f end.
Definition db_error (e : DbError) : AnyError := match e with mkDbError a _ => a end.
Definition db_downcast_ref (T : Type) `{ErrorType T} (e : DbError) : option T :=
  any_downcast_ref T (db_error e).
Definition db_is (T : Type) `{ErrorType T} (e : DbError) : bool := any_is T (db_error e).

(** The [From] conversions into [DbError]. *)
Definition db_from_account_source (error : AccountSourceError) : DbError :=
  db_new error (bool_decide (ase_kind error = Unavailable)).
Definition db_from_io (message : string) : DbError :=
  mkDbError (mkAnyError (DynIo message)) false.
Definition db_from_invalid_sysvar (error : InvalidSysvarDataError) : DbError :=
  db_non_fatal error.
Definition db_from_instruction (error : InstructionError) : DbError := db_non_fatal error.

(** [LoadError]. *)
Definition load_db_error (e : LoadError) : DbError :=
  match e with LoadAccount d | LoadProgram d | LoadSysvar d => d end.
Definition load_is_fatal (e : LoadError) : bool := db_is_fatal (load_db_error e).

(** [TxValidationError]. *)
Definition validation_transaction_error (e : TxValidationError) : TransactionError :=
  match e with Invalid error => error end.

(** [HaltReason]. *)
Definition halt_transaction_error (h : HaltReason) : TransactionError :=
  match h with
  | HaltAlreadyProcessed => AlreadyProcessed
  | HaltTransaction error => error
  end.
Definition halt_from_transaction_error (error : TransactionError) : HaltReason :=
  match error with
  | AlreadyProcessed => HaltAlreadyProcessed
  | other => HaltTransaction other
  end.

(** [ExecutionError]. *)
Definition exec_is_fatal (e : ExecutionError) : bool :=
  match e with
  | ExecDatabase error => db_is_fatal error
  | ExecAccountSource _ source => bool_decide (ase_kind source = Unavailable)
  | ExecFatal _ | ExecHalt _ => true
  end.
Definition exec_db_error (e : ExecutionError) : option DbError :=
  match e with ExecDatabase error => Some error | _ => None end.
Definition exec_from_hpsvm (error : HPSVMError) : ExecutionError :=
  match error with
  | HExecution error => error
  | HDatabase error => ExecDatabase error
  | HAccountSource pubkey source => ExecAccountSource pubkey source
  | other => ExecFatal (any_new other)
  end.

(** [TxError]. *)
Definition tx_is_fatal (e : TxError) : bool :=
  match e with
  | TxValidation _ => false
  | TxExecution error => exec_is_fatal error
  | TxDatabase error => db_is_fatal error
  | TxUnknownTag _ => false
  end.
Definition tx_transaction_error (e : TxError) : TransactionError :=
  match e with
  | TxUnknownTag _ => UnsupportedVersion
  | TxValidation _ | TxExecution _ | TxDatabase _ => SanitizeFailure
  end.

(** [HostError]. *)
Definition host_is_fatal (e : HostError) : bool :=
  match e with
  | HostHalt _ => true
  | HostExecution error => exec_is_fatal error
  end.

(** [HandlerError]. *)
Definition handler_new {T} `{ErrorType T} (error : T) : HandlerError :=
  mkHandlerError (any_new error).
Definition handler_into_inner (e : HandlerError) : AnyError :=
  match e with mkHandlerError a => a end.
Definition handler_downcast_ref (T : Type) `{ErrorType T} (e : HandlerError) : option T :=
  any_downcast_ref T (handler_into_inner e).

(** The projections onto the crate's outer error. *)
Definition hpsvm_from_execution (error : ExecutionError) : HPSVMError :=
  match error with
  | ExecAccountSource pubkey source => HAccountSource pubkey source
  | other => HExecution other
  end.
Definition hpsvm_from_tx (error : TxError) : HPSVMError :=
  match error with
  | TxUnknownTag tag => UnknownTransactionTag tag
  | other => HTransaction other
  end.

(** ** [Display] and [source] *)

(** The renderings of the library types the messages embed. *)
Class ExternalDisplay : Type := {
  display_address : Address -> string;
  display_transaction_error : TransactionError -> string;
  display_instruction_error : InstructionError -> string
}.

Definition debug_tag (tag : TxTag) : string :=
  match tag with
  | TagLegacy => "Legacy"
  | TagV0 => "V0"
  | TagV1 => "V1"
  | TagCustom id => "Custom(" +:+ pretty id +:+ ")"
  end.

Definition display_invalid_sysvar (e : InvalidSysvarDataError) : string :=
  match e with
  | InvalidClock => "Invalid Clock sysvar data."
  | InvalidEpochRewards => "Invalid EpochRewards sysvar data."
  | InvalidEpochSchedule => "Invalid EpochSchedule sysvar data."
  | InvalidFees => "Invalid Fees sysvar data."
  | InvalidLastRestartSlot => "Invalid LastRestartSlot sysvar data."
  | InvalidRecentBlockhashes => "Invalid RecentBlockhashes sysvar data."
  | InvalidRent => "Invalid Rent sysvar data."
  | InvalidSlotHashes => "Invalid SlotHashes sysvar data."
  | InvalidStakeHistory => "Invalid StakeHistory sysvar data."
  end.

Section Display.
Context {disp : ExternalDisplay}.

Definition display_validation (e : TxValidationError) : string :=
  match e with
  | Invalid error => "transaction validation failed: " +:+ display_transaction_error error
  end.

Definition display_halt (h : HaltReason) : string :=
  match h with
  | HaltAlreadyProcessed => "transaction already processed"
  | HaltTransaction error => "halted: " +:+ display_transaction_error error
  end.

Definition display_prewarm (e : PrewarmProgramError) : string :=
  "failed to prewarm program " +:+ display_address (ppe_program_id e) +:+ ": " +:+
  display_instruction_error (ppe_source e).

Fixpoint display_dyn (d : DynError) : string :=
  match d with
  | DynAny e => display_any e
  | DynAccountSource e => display_account_source_error e
  | DynIo message => message
  | DynInvalidSysvar e => display_invalid_sysvar e
  | DynInstruction e => display_instruction_error e
  | DynTransaction e => display_transaction_error e
  | DynPrewarm e => display_prewarm e
  | DynValidation e => display_validation e
  | DynHalt e => display_halt e
  | DynDb e => display_db e
  | DynLoad e => display_load e
  | DynExecution e => display_exec e
  | DynTx e => display_tx e
  | DynHost e => display_host e
  | DynHandler e => display_handler e
  | DynHPSVM e => display_hpsvm e
  | DynForeign _ message => message
  end
with display_any (e : AnyError) : string :=
  match e with mkAnyError inner => display_dyn inner end
with display_db (e : DbError) : string :=
  match e with mkDbError error _ => display_any error end
with display_load (e : LoadError) : string :=
  match e with
  | LoadAccount error => "failed to load account: " +:+ display_db error
  | LoadProgram error => "failed to load program: " +:+ display_db error
  | LoadSysvar error => "failed to load sysvar: " +:+ display_db error
  end
with display_exec (e : ExecutionError) : string :=
  match e with
  | ExecDatabase error => display_db error
  | ExecAccountSource pubkey source =>
      "account source failed while loading " +:+ display_address pubkey +:+ ": " +:+
      display_account_source_error source
  | ExecFatal error => display_any error
  | ExecHalt reason => "execution halted: " +:+ display_halt reason
  end
with display_tx (e : TxError) : string :=
  match e with
  | TxValidation error => display_validation error
  | TxExecution error => display_exec error
  | TxDatabase error => display_db error
  | TxUnknownTag tag => "no transaction handler registered for tag " +:+ debug_tag tag
  end
with display_host (e : HostError) : string :=
  match e with
  | HostHalt reason => display_halt reason
  | HostExecution error => display_exec error
  end
with display_handler (e : HandlerError) : string :=
  match e with mkHandlerError error => display_any error end
with display_hpsvm (e : HPSVMError) : string :=
  match e with
  | InvalidSysvarData error => display_invalid_sysvar error
  | SysvarSerialization sysvar reason =>
      "failed to serialize sysvar " +:+ sysvar +:+ ": " +:+ reason
  | HInstruction error => display_instruction_error error
  | InvalidPath error => error
  | RuntimeEnvironment version reason =>
      "failed to refresh runtime environment " +:+ version +:+ ": " +:+ reason
  | CustomSyscallRegistrationError name runtime reason =>
      "failed to register custom syscall " +:+ name +:+ " in " +:+ runtime +:+ ": " +:+ reason
  | InvalidLoader program_id loader_id =>
      "unsupported loader " +:+ display_address loader_id +:+ " for program " +:+
      display_address program_id
  | MissingRuntimeComponent component => "missing runtime component: " +:+ component
  | HAccountSource pubkey source =>
      "account source failed while loading " +:+ display_address pubkey +:+ ": " +:+
      display_account_source_error source
  | ProgramLoad reason => "failed to load program: " +:+ reason
  | UnknownTransactionTag tag =>
      "no transaction handler registered for tag " +:+ debug_tag tag
  | HDatabase error => display_db error
  | HLoad error => display_load error
  | HTransaction error => display_tx error
  | HExecution error => display_exec error
  | HHost error => display_host error
  | HHandler error => display_handler error
  end.

End Display.

(** [std::error::Error::source].  A [#[error(transparent)]] variant forwards to
    the inner error's [source]; a [#[from]] or [source] field is the source. *)
Definition source_halt (h : HaltReason) : option DynError :=
  match h with
  | HaltAlreadyProcessed => None
  | HaltTransaction error => Some (DynTransaction error)
  end.
Definition source_exec (e : ExecutionError) : option DynError :=
  match e with
  | ExecDatabase error => Some (DynDb error)
  | ExecAccountSource _ source => Some (DynAccountSource source)
  | ExecFatal error => Some (DynAny error)
  | ExecHalt reason => Some (DynHalt reason)
  end.
Definition source_tx (e : TxError) : option DynError :=
  match e with
  | TxValidation error => Some (DynValidation error)
  | TxExecution error => Some (DynExecution error)
  | TxDatabase error => Some (DynDb error)
  | TxUnknownTag _ => None
  end.
Definition source_host (e : HostError) : option DynError :=
  match e with
  | HostHalt reason => Some (DynHalt reason)
  | HostExecution error => Some (DynExecution error)
  end.
Definition source_hpsvm (e : HPSVMError) : option DynError :=
  match e with
  | InvalidSysvarData error => Some (DynInvalidSysvar error)
  | HInstruction error => Some (DynInstruction error)
  | InvalidPath error => Some (DynIo error)
  | HAccountSource _ source => Some (DynAccountSource source)
  | HDatabase error => Some (DynAny (db_error error))
  | HLoad error => Some (DynDb (load_db_error error))
  | HTransaction error => source_tx error
  | HExecution error => source_exec error
  | HHost error => source_host error
  | HHandler error => Some (DynAny (handler_into_inner error))
  | SysvarSerialization _ _ | RuntimeEnvironment _ _
  | CustomSyscallRegistrationError _ _ _ | InvalidLoader _ _
  | MissingRuntimeComponent _ | ProgramLoad _ | UnknownTransactionTag _ => None
  end.

Definition source_dyn (d : DynError) : option DynError :=
  match d with
  | DynAny e => Some (any_into_inner e)
  | DynDb e => Some (DynAny (db_error e))
  | DynLoad e => Some (DynDb (load_db_error e))
  | DynValidation e => Some (DynTransaction (validation_transaction_error e))
  | DynHalt e => source_halt e
  | DynExecution e => source_exec e
  | DynTx e => source_tx e
  | DynHost e => source_host e
  | DynHandler e => Some (DynAny (handler_into_inner e))
  | DynHPSVM e => source_hpsvm e
  | DynPrewarm e => Some (DynInstruction (ppe_source e))
  | DynAccountSource _ | DynIo _ | DynInvalidSysvar _ | DynInstruction _
  | DynTransaction _ | DynForeign _ _ => None
  end.

(** Walking the [source] chain: [caused_by d c] when [c] is reached from [d]. *)
Inductive caused_by : DynError -> DynError -> Prop :=
| caused_refl d : caused_by d d
| caused_step d d' c : source_dyn d = Some d' -> caused_by d' c -> caused_by d c.

(** The size of an error value, which the source chain decreases. *)
Fixpoint dyn_size (d : DynError) : nat :=
  match d with
  | DynAny e => S (any_size e)
  | DynDb e => S (db_size e)
  | DynLoad e => S (load_size e)
  | DynExecution e => S (exec_size e)
  | DynTx e => S (tx_size e)
  | DynHost e => S (host_size e)
  | DynHandler e => S (handler_size e)
  | DynHPSVM e => S (hpsvm_size e)
  | DynValidation _ | DynHalt _ | DynPrewarm _ => 2
  | _ => 1
  end
with any_size (e : AnyError) : nat := match e with mkAnyError d => S (dyn_size d) end
with db_size (e : DbError) : nat := match e with mkDbError a _ => S (S (any_size a)) end
with load_size (e : LoadError) : nat :=
  match e with LoadAccount d | LoadProgram d | LoadSysvar d => S (S (db_size d)) end
with exec_size (e : ExecutionError) : nat :=
  match e with
  | ExecDatabase d => S (S (db_size d))
  | ExecFatal a => S (S (any_size a))
  | _ => 3
  end
with tx_size (e : TxError) : nat :=
  match e with
  | TxExecution x => S (S (exec_size x))
  | TxDatabase d => S (S (db_size d))
  | _ => 3
  end
with host_size (e : HostError) : nat :=
  match e with HostExecution x => S (S (exec_size x)) | _ => 3 end
with handler_size (e : HandlerError) : nat :=
  match e with mkHandlerError a => S (S (any_size a)) end
with hpsvm_size (e : HPSVMError) : nat :=
  match e with
  | HDatabase d => S (db_size d)
  | HLoad l => S (load_size l)
  | HTransaction t => S (tx_size t)
  | HExecution x => S (exec_size x)
  | HHost h => S (host_size h)
  | HHandler h => S (handler_size h)
  | _ => 3
  end.

(** The chain computed with fuel; [dyn_size] is always enough. *)
Fixpoint source_chain (fuel : nat) (d : DynError) : list DynError :=
  match fuel with
  | O => []
  | S fuel' =>
      d :: match source_dyn d with Some d' => source_chain fuel' d' | None => [] end
  end.

(** ** Lemmas *)

(** Exposes the constructors of every error value but [DynError]. *)
Ltac destruct_errors :=
  repeat match goal with
  | x : AnyError |- _ => destruct x
  | x : DbError |- _ => destruct x
  | x : LoadError |- _ => destruct x
  | x : HaltReason |- _ => destruct x
  | x : TxValidationError |- _ => destruct x
  | x : ExecutionError |- _ => destruct x
  | x : TxError |- _ => destruct x
  | x : HostError |- _ => destruct x
  | x : HandlerError |- _ => destruct x
  | x : HPSVMError |- _ => destruct x
  end.

Lemma source_dyn_decreases d d' : source_dyn d = Some d' -> dyn_size d' < dyn_size d.
Proof. destruct d; destruct_errors; simpl; intros; simplify_eq/=; lia. Qed.

Lemma caused_by_trans d c e : caused_by d c -> caused_by c e -> caused_by d e.
Proof. induction 1; eauto using caused_by. Qed.

Lemma caused_by_source d d' : source_dyn d = Some d' -> caused_by d d'.
Proof. eauto using caused_by. Qed.

#[export] Hint Resolve caused_refl caused_by_source : hpsvm.

Lemma source_chain_sound fuel d c : c ∈ source_chain fuel d -> caused_by d c.
Proof.
  revert d; induction fuel as [|fuel IH]; intros d; simpl; [set_solver|].
  rewrite elem_of_cons. intros [->|Hc]; [apply caused_refl|].
  destruct (source_dyn d) as [d'|] eqn:Hd; [|set_solver].
  eauto using caused_by.
Qed.

Lemma source_chain_complete d c fuel :
  caused_by d c -> dyn_size d <= fuel -> c ∈ source_chain fuel d.
Proof.
  intros Hc. revert fuel. induction Hc as [d|d d' c Hd Hc IH]; intros fuel Hfuel.
  - destruct fuel, d; simpl in *; set_solver by lia.
  - pose proof (source_dyn_decreases _ _ Hd).
    destruct fuel as [|fuel]; [lia|]. simpl. rewrite Hd.
    apply elem_of_cons. right. apply IH. lia.
Qed.

Lemma any_downcast_new {T} `{ErrorType T} (x : T) : any_downcast_ref T (any_new x) = Some x.
Proof. apply recover_erase. Qed.

Lemma db_downcast_new {T} `{ErrorType T} (x : T) f : db_downcast_ref T (db_new x f) = Some x.
Proof. apply recover_erase. Qed.

#[export] Hint Rewrite @any_downcast_new @db_downcast_new : hpsvm.

(** ** Properties *)

(** Walking [source()] from any error of the taxonomy terminates, and the
    bounded walk of [dyn_size] steps visits exactly the errors the chain
    reaches: no cause is out of reach of a caller that follows [source()]. *)
Theorem source_chain_exact d c :
  caused_by d c <-> c ∈ source_chain (dyn_size d) d.
Proof.
  split; [intros; by apply source_chain_complete|apply source_chain_sound].
Qed.

(** Projecting an execution-layer failure onto [HPSVMError] and back gives
    the same failure, for every variant: the outer error loses nothing. *)
Theorem execution_error_roundtrip e : exec_from_hpsvm (hpsvm_from_execution e) = e.
Proof. by destruct e. Qed.

(** An account-source failure keeps its fatal classification (fatal exactly
    when the source is unavailable) through the database, load, execution,
    transaction and host layers, stays recoverable by downcast from the database
    layer, and is reachable by [source()] from the outer error of every route. *)
Theorem account_source_failure_survives pubkey e :
  let db := db_from_account_source e in
  let fatal := bool_decide (ase_kind e = Unavailable) in
  db_is_fatal db = fatal /\
  load_is_fatal (LoadAccount db) = fatal /\
  exec_is_fatal (ExecDatabase db) = fatal /\
  exec_is_fatal (ExecAccountSource pubkey e) = fatal /\
  tx_is_fatal (TxExecution (ExecAccountSource pubkey e)) = fatal /\
  host_is_fatal (HostExecution (ExecDatabase db)) = fatal /\
  db_downcast_ref AccountSourceError db = Some e /\
  Forall (fun h => caused_by (DynHPSVM h) (DynAccountSource e))
    [HDatabase db; HLoad (LoadAccount db);
     hpsvm_from_execution (ExecDatabase db);
     hpsvm_from_execution (ExecAccountSource pubkey e);
     hpsvm_from_tx (TxExecution (ExecDatabase db));
     hpsvm_from_tx (TxDatabase db);
     HHost (HostExecution (ExecAccountSource pubkey e));
     HHandler (handler_new e)].
Proof.
  intros db fatal. repeat split; try done.
  repeat constructor; repeat (apply caused_refl || (eapply caused_step; [reflexivity|])).
Qed.

(** The conversion [From<HPSVMError> for ExecutionError] does not preserve
    the classification of the other layers: a load failure, a rejected
    transaction or an unroutable tag, none of them fatal, comes back fatal, as an
    erased error that still downcasts to the value it was built from. *)
Theorem execution_from_outer_escalates h :
  (forall d, h <> HDatabase d) -> (forall x, h <> HExecution x) ->
  (forall k s, h <> HAccountSource k s) ->
  exec_is_fatal (exec_from_hpsvm h) = true /\
  exec_from_hpsvm h = ExecFatal (any_new h) /\
  any_downcast_ref HPSVMError (any_new h) = Some h.
Proof.
  intros Hd Hx Hs. rewrite any_downcast_new.
  destruct h; try naive_solver.
Qed.

(** The hypotheses at a non-fatal load failure and at a rejected transaction. *)
Lemma execution_from_outer_escalates_witness :
  (let h := HLoad (LoadSysvar (db_from_invalid_sysvar InvalidClock)) in
   load_is_fatal (LoadSysvar (db_from_invalid_sysvar InvalidClock)) = false /\
   exec_is_fatal (exec_from_hpsvm h) = true) /\
  (let t := TxValidation (Invalid SanitizeFailure) in
   tx_is_fatal t = false /\ exec_is_fatal (exec_from_hpsvm (hpsvm_from_tx t)) = true).
Proof.
  split; (split; [reflexivity|]).
  - apply (execution_from_outer_escalates
      (HLoad (LoadSysvar (db_from_invalid_sysvar InvalidClock)))); discriminate.
  - apply (execution_from_outer_escalates
      (hpsvm_from_tx (TxValidation (Invalid SanitizeFailure)))); discriminate.
Defined.
