(* ===== verification/Lru.v ===== *)
(** * The bounded LRU cache interface

    [lru::LruCache] is a third-party data structure: [Lru] lists the operations
    the repository calls, [LruLaws] states their documented behaviour against the
    list of entries from most to least recently used, and [ListLru] is a
    concrete implementation that satisfies the laws. *)

From stdpp Require Import base tactics option list sets gmap.
From S2P Require Import Prelude.

Section Items.
Context {K V : Type} `{EqDecision K}.

Fixpoint items_lookup (k : K) (l : list (K * V)) : option V :=
  match l with
  | [] => None
  | (k', v) :: l' => if decide (k = k') then Some v else items_lookup k l'
  end.

Fixpoint items_remove (k : K) (l : list (K * V)) : list (K * V) :=
  match l with
  | [] => []
  | (k', v) :: l' => if decide (k = k') then items_remove k l' else (k', v) :: items_remove k l'
  end.

Lemma items_lookup_remove k k' l :
  items_lookup k (items_remove k' l) = if decide (k = k') then None else items_lookup k l.
Proof.
  induction l as [|[k1 v1] l IH]; simpl; [by case_decide|].
  repeat (case_decide; simpl); naive_solver.
Qed.

Lemma items_remove_fst k l : (items_remove k l).*1 = filter (fun k' => k <> k') l.*1.
Proof.
  induction l as [|[k1 v1] l IH]; simpl; [done|].
  rewrite filter_cons. destruct (decide (k = k1)) as [->|Hne].
  - rewrite decide_False by naive_solver. done.
  - rewrite decide_True by done. simpl. by f_equal.
Qed.

Lemma items_remove_nodup k l : NoDup l.*1 -> NoDup (items_remove k l).*1.
Proof. rewrite items_remove_fst. apply NoDup_filter. Qed.

Lemma items_remove_not_in k l : k ∉ (items_remove k l).*1.
Proof. rewrite items_remove_fst, list_elem_of_filter. naive_solver. Qed.

Lemma items_remove_length k l : length (items_remove k l) <= length l.
Proof. induction l as [|[k1 v1] l IH]; simpl; [done|]. case_decide; simpl; lia. Qed.

Lemma items_lookup_elem k l v : items_lookup k l = Some v -> (k, v) ∈ l.
Proof.
  induction l as [|[k1 v1] l IH]; simpl; [done|].
  case_decide; intros; simplify_eq; set_solver.
Qed.

Lemma items_lookup_None k l : items_lookup k l = None <-> k ∉ l.*1.
Proof.
  induction l as [|[k1 v1] l IH]; simpl; [set_solver|].
  rewrite not_elem_of_cons. case_decide; naive_solver.
Qed.

Lemma items_lookup_take n k l v :
  items_lookup k (take n l) = Some v -> items_lookup k l = Some v.
Proof.
  revert n. induction l as [|[k1 v1] l IH]; intros [|n]; simpl; try done.
  case_decide; eauto.
Qed.

Lemma items_lookup_is_Some k l : is_Some (items_lookup k l) <-> k ∈ l.*1.
Proof.
  destruct (items_lookup k l) eqn:H.
  - apply items_lookup_elem in H. split; [|by eexists].
    intros _. apply (list_elem_of_fmap_2 fst) in H. done.
  - apply items_lookup_None in H. split; [by intros []|done].
Qed.

End Items.

(** The operations of [LruCache<K, V>] used in the repository.  [get] promotes
    the entry it returns; [peek] does not. *)
Class Lru (K V : Type) `{EqDecision K} : Type := {
  lru : Type;
  lru_new : Z -> lru;
  lru_put : K -> V -> lru -> lru;
  lru_peek : K -> lru -> option V;
  lru_get : K -> lru -> option V * lru;
  lru_pop : K -> lru -> lru;
  lru_clear : lru -> lru;
  lru_resize : Z -> lru -> lru;
  lru_len : lru -> nat;
  lru_items : lru -> list (K * V);
  lru_cap : lru -> Z
}.
Arguments lru K V {_ _}.

(** The entries moved or added to the front, the oldest dropped at capacity. *)
Definition items_put {K V} `{EqDecision K} (cap : Z) (k : K) (v : V) (l : list (K * V)) :
    list (K * V) :=
  take (Z.to_nat cap) ((k, v) :: items_remove k l).

Class LruLaws (K V : Type) `{EqDecision K} {L : Lru K V} : Prop := {
  lru_new_items cap : lru_items (lru_new cap) = [];
  lru_new_cap cap : lru_cap (lru_new cap) = cap;
  lru_put_items k v c : lru_items (lru_put k v c) = items_put (lru_cap c) k v (lru_items c);
  lru_put_cap k v c : lru_cap (lru_put k v c) = lru_cap c;
  lru_peek_items k c : lru_peek k c = items_lookup k (lru_items c);
  lru_get_value k c : fst (lru_get k c) = items_lookup k (lru_items c);
  lru_get_items k c :
    lru_items (snd (lru_get k c)) =
    match items_lookup k (lru_items c) with
    | Some v => (k, v) :: items_remove k (lru_items c)
    | None => lru_items c
    end;
  lru_get_cap k c : lru_cap (snd (lru_get k c)) = lru_cap c;
  lru_pop_items k c : lru_items (lru_pop k c) = items_remove k (lru_items c);
  lru_pop_cap k c : lru_cap (lru_pop k c) = lru_cap c;
  lru_clear_items c : lru_items (lru_clear c) = [];
  lru_clear_cap c : lru_cap (lru_clear c) = lru_cap c;
  lru_resize_items n c : lru_items (lru_resize n c) = take (Z.to_nat n) (lru_items c);
  lru_resize_cap n c : lru_cap (lru_resize n c) = n;
  lru_len_items c : lru_len c = length (lru_items c)
}.

(** ** A list-backed implementation *)
Record list_lru (K V : Type) : Type := mkListLru {
  ll_cap : Z;
  ll_items : list (K * V)
}.
Arguments mkListLru {K V} _ _.
Arguments ll_cap {K V} _.
Arguments ll_items {K V} _.

Definition ListLru (K V : Type) `{EqDecision K} : Lru K V := {|
  lru := list_lru K V;
  lru_new cap := mkListLru cap [];
  lru_put k v c := mkListLru (ll_cap c) (items_put (ll_cap c) k v (ll_items c));
  lru_peek k c := items_lookup k (ll_items c);
  lru_get k c :=
    match items_lookup k (ll_items c) with
    | Some v => (Some v, mkListLru (ll_cap c) ((k, v) :: items_remove k (ll_items c)))
    | None => (None, c)
    end;
  lru_pop k c := mkListLru (ll_cap c) (items_remove k (ll_items c));
  lru_clear c := mkListLru (ll_cap c) [];
  lru_resize n c := mkListLru n (take (Z.to_nat n) (ll_items c));
  lru_len c := length (ll_items c);
  lru_items := ll_items;
  lru_cap := ll_cap
|}.

Lemma ListLru_laws (K V : Type) `{EqDecision K} : @LruLaws K V _ (ListLru K V).
Proof. constructor; intros; simpl; try done; by destruct (items_lookup k (ll_items c)). Qed.

(** ** Consequences of the laws *)
Section Consequences.
Context {K V : Type} `{EqDecision K} {L : Lru K V} {HL : LruLaws K V}.

(** Distinct keys and at most [cap] entries. *)
Definition lru_wf (c : lru K V) : Prop :=
  NoDup (lru_items c).*1 /\ (1 <= lru_cap c)%Z /\
  (Z.of_nat (length (lru_items c)) <= lru_cap c)%Z.

Lemma items_put_nodup cap (k : K) (v : V) l :
  NoDup l.*1 -> NoDup (items_put cap k v l).*1.
Proof.
  intros Hl. unfold items_put. rewrite fmap_take.
  eapply sublist_NoDup; [|apply sublist_take]. simpl.
  constructor; [apply items_remove_not_in|by apply items_remove_nodup].
Qed.

Lemma lru_new_wf cap : (1 <= cap)%Z -> lru_wf (lru_new cap).
Proof.
  intros. unfold lru_wf. rewrite lru_new_items, lru_new_cap. simpl.
  split; [constructor|lia].
Qed.

Lemma lru_put_wf k v c : lru_wf c -> lru_wf (lru_put k v c).
Proof.
  intros (Hnd & Hcap & Hlen). unfold lru_wf. rewrite lru_put_items, lru_put_cap.
  split; [by apply items_put_nodup|]. split; [done|].
  unfold items_put. rewrite length_take. lia.
Qed.

Lemma lru_resize_wf n c : (1 <= n)%Z -> lru_wf c -> lru_wf (lru_resize n c).
Proof.
  intros Hn (Hnd & Hcap & Hlen). unfold lru_wf. rewrite lru_resize_items, lru_resize_cap.
  split; [rewrite fmap_take; eapply sublist_NoDup; [done|apply sublist_take]|].
  rewrite length_take. lia.
Qed.

Lemma lru_clear_wf c : lru_wf c -> lru_wf (lru_clear c).
Proof.
  intros (Hnd & Hcap & Hlen). unfold lru_wf. rewrite lru_clear_items, lru_clear_cap. simpl.
  split; [constructor|lia].
Qed.

Lemma lru_pop_wf k c : lru_wf c -> lru_wf (lru_pop k c).
Proof.
  intros (Hnd & Hcap & Hlen). unfold lru_wf. rewrite lru_pop_items, lru_pop_cap.
  split; [by apply items_remove_nodup|]. pose proof (items_remove_length k (lru_items c)). lia.
Qed.

Lemma lru_peek_pop k k' c :
  lru_peek k' (lru_pop k c) = if decide (k' = k) then None else lru_peek k' c.
Proof. by rewrite !lru_peek_items, lru_pop_items, items_lookup_remove. Qed.

Lemma lru_get_wf k c : lru_wf c -> lru_wf (snd (lru_get k c)).
Proof.
  intros (Hnd & Hcap & Hlen). unfold lru_wf. rewrite lru_get_items, lru_get_cap.
  destruct (items_lookup k (lru_items c)) as [v|] eqn:Hk; [|done]. simpl.
  split; [constructor; [apply items_remove_not_in|by apply items_remove_nodup]|].
  split; [done|].
  assert (length (items_remove k (lru_items c)) < length (lru_items c)); [|lia].
  apply items_lookup_elem in Hk. clear -Hk.
  induction (lru_items c) as [|[k1 v1] l IH]; [set_solver|]. simpl.
  apply elem_of_cons in Hk as [Hk|Hk]; simplify_eq.
  - rewrite decide_True by done. pose proof (items_remove_length k1 l). lia.
  - specialize (IH Hk). case_decide; simpl; lia.
Qed.

Lemma lru_get_elem k c v c' : lru_get k c = (Some v, c') -> (k, v) ∈ lru_items c.
Proof. intros H. apply items_lookup_elem. by rewrite <- lru_get_value, H. Qed.

(** Promotion changes no lookup. *)
Lemma lru_peek_get k k' c : lru_peek k' (snd (lru_get k c)) = lru_peek k' c.
Proof.
  rewrite !lru_peek_items, lru_get_items.
  destruct (items_lookup k (lru_items c)) as [v|] eqn:Hk; [|done]. simpl.
  rewrite items_lookup_remove. case_decide; by subst.
Qed.

Lemma lru_get_peek k c : fst (lru_get k c) = lru_peek k c.
Proof. by rewrite lru_get_value, lru_peek_items. Qed.

Lemma lru_get_again k c v c' : lru_get k c = (Some v, c') -> fst (lru_get k c') = Some v.
Proof.
  intros H. pose proof (lru_get_items k c) as Hi. pose proof (lru_get_value k c) as Hv.
  rewrite H in Hi, Hv. simpl in Hi, Hv. rewrite lru_get_value, Hi, <- Hv. simpl.
  by rewrite decide_True.
Qed.

Lemma lru_get_put k v c : (1 <= lru_cap c)%Z -> fst (lru_get k (lru_put k v c)) = Some v.
Proof.
  intros. rewrite lru_get_value, lru_put_items. unfold items_put.
  destruct (Z.to_nat (lru_cap c)) eqn:?; [lia|]. simpl. by rewrite decide_True.
Qed.

Lemma lru_peek_put_eq k v c : (1 <= lru_cap c)%Z -> lru_peek k (lru_put k v c) = Some v.
Proof.
  intros. rewrite lru_peek_items, lru_put_items. unfold items_put.
  destruct (Z.to_nat (lru_cap c)) eqn:?; [lia|]. simpl. by rewrite decide_True.
Qed.

Lemma lru_peek_put_inv k k' v v' c :
  k <> k' -> lru_peek k' (lru_put k v c) = Some v' -> lru_peek k' c = Some v'.
Proof.
  intros Hne. rewrite !lru_peek_items, lru_put_items. intros H%items_lookup_take.
  simpl in H. rewrite decide_False in H by done.
  rewrite items_lookup_remove in H. by rewrite decide_False in H by done.
Qed.

End Consequences.

#[export] Hint Resolve lru_new_wf lru_put_wf lru_resize_wf lru_clear_wf lru_get_wf lru_pop_wf : hpsvm.
