(* ===== verification/Fork.v ===== *)
(** * The RPC fork source, [crates/hpsvm/src/fork.rs]

    [RpcForkSource] reads accounts from a Solana RPC endpoint through a bounded
    cache whose entries expire.  The client is library code: a read takes the
    reply the endpoint would give to it, and the readings of the monotonic clock
    at its start and at the insertion.  Theorems: how stale an answer can be, what
    is fetched and counted, the bound on the cache, and that over an endpoint
    whose accounts do not change the source is the plain [AccountSource] the
    account database is proved against. *)

From Stdlib Require Import ZArith Lia.
From stdpp Require Import base tactics option list gmap strings.
From S2P Require Import Prelude.
From S2P Require Import Types.
From S2P Require Import AccountSource.
From S2P Require Import Lru.

(** ** Data *)

Definition DEFAULT_MAX_CAPACITY : Z := 10000.

(** [Duration]s and [Instant]s are nanoseconds. *)
Definition DEFAULT_TTL : Z := 3600 * 1000000000.

Record CachedAccount : Type := mkCachedAccount {
  fetched_at : Z;
  cached_account : AccountSharedData
}.

Section Fork.
Context {RpcClient : Type} {L : Lru Address CachedAccount}.
(** [RpcClient::new(url)], for a builder without a client. *)
Context (rpc_client_new : string -> RpcClient).

Record AccountCache : Type := mkAccountCache {
  ac_entries : lru Address CachedAccount;
  ttl : Z
}.

Definition account_cache_new (max_capacity ttl : Z) : AccountCache :=
  mkAccountCache (lru_new max_capacity) ttl.

(** [Instant::elapsed] saturates at zero. *)
Definition elapsed (now since : Z) : Z := Z.max 0 (now - since).

Definition account_cache_get (now : Z) (pubkey : Address) (c : AccountCache) :
    option AccountSharedData * AccountCache :=
  match lru_get pubkey (ac_entries c) with
  | (None, entries) => (None, mkAccountCache entries (ttl c))
  | (Some entry, entries) =>
      if (ttl c <=? elapsed now (fetched_at entry))%Z
      then (None, mkAccountCache (lru_pop pubkey entries) (ttl c))
      else (Some (cached_account entry), mkAccountCache entries (ttl c))
  end.

Definition account_cache_insert (now : Z) (pubkey : Address) (account : AccountSharedData)
    (c : AccountCache) : AccountCache :=
  mkAccountCache (lru_put pubkey (mkCachedAccount now account) (ac_entries c)) (ttl c).

Definition account_cache_len (c : AccountCache) : nat := lru_len (ac_entries c).

Record RpcForkSource : Type := mkRpcForkSource {
  client : RpcClient;
  slot : Z;
  fork_cache : AccountCache;
  cache_hits : Z;
  cache_misses : Z
}.

Definition with_fork_cache (c : AccountCache) (s : RpcForkSource) : RpcForkSource :=
  mkRpcForkSource (client s) (slot s) c (cache_hits s) (cache_misses s).
Definition add_hit (s : RpcForkSource) : RpcForkSource :=
  mkRpcForkSource (client s) (slot s) (fork_cache s) (wrap_u64 (cache_hits s + 1)) (cache_misses s).
Definition add_miss (s : RpcForkSource) : RpcForkSource :=
  mkRpcForkSource (client s) (slot s) (fork_cache s) (cache_hits s) (wrap_u64 (cache_misses s + 1)).

(** The reply to [get_account_with_commitment]: the account, its absence, or an
    error by its message. *)
Definition Reply : Type := result (option AccountSharedData) string.

Definition fetch_account (reply : Reply) : result (option AccountSharedData) AccountSourceError :=
  map_err account_source_error_new reply.

(** [get_account]: [start] and [finish] are the instants of the cache read and of
    the insertion. *)
Definition fork_get_account (start finish : Z) (reply : Reply) (pubkey : Address)
    (s : RpcForkSource) : result (option AccountSharedData) AccountSourceError * RpcForkSource :=
  let '(cached, c) := account_cache_get start pubkey (fork_cache s) in
  let s0 := with_fork_cache c s in
  match cached with
  | Some account => (Ok (Some account), add_hit s0)
  | None =>
      let s1 := add_miss s0 in
      match fetch_account reply with
      | Err e => (Err e, s1)
      | Ok account =>
          (Ok account,
           match account with
           | Some a => with_fork_cache (account_cache_insert finish pubkey a (fork_cache s1)) s1
           | None => s1
           end)
      end
  end.

(** ** The builder *)
Record RpcForkSourceBuilder : Type := mkRpcForkSourceBuilder {
  fb_rpc_url : option string;
  fb_client : option RpcClient;
  fb_slot : option Z;
  fb_max_capacity : option Z;
  fb_ttl : option Z
}.

Definition fork_builder : RpcForkSourceBuilder := mkRpcForkSourceBuilder None None None None None.

Definition with_rpc_url (url : string) (b : RpcForkSourceBuilder) : RpcForkSourceBuilder :=
  mkRpcForkSourceBuilder (Some url) (fb_client b) (fb_slot b) (fb_max_capacity b) (fb_ttl b).
Definition with_client (c : RpcClient) (b : RpcForkSourceBuilder) : RpcForkSourceBuilder :=
  mkRpcForkSourceBuilder (fb_rpc_url b) (Some c) (fb_slot b) (fb_max_capacity b) (fb_ttl b).
Definition with_slot (sl : Z) (b : RpcForkSourceBuilder) : RpcForkSourceBuilder :=
  mkRpcForkSourceBuilder (fb_rpc_url b) (fb_client b) (Some sl) (fb_max_capacity b) (fb_ttl b).
Definition with_max_capacity (m : option Z) (b : RpcForkSourceBuilder) : RpcForkSourceBuilder :=
  mkRpcForkSourceBuilder (fb_rpc_url b) (fb_client b) (fb_slot b) m (fb_ttl b).
Definition with_ttl (d : option Z) (b : RpcForkSourceBuilder) : RpcForkSourceBuilder :=
  mkRpcForkSourceBuilder (fb_rpc_url b) (fb_client b) (fb_slot b) (fb_max_capacity b) d.

(** [NonZeroUsize::new(n).unwrap_or(NonZeroUsize::MIN)]. *)
Definition nonzero_or_min (n : Z) : Z := if (n =? 0)%Z then 1 else n.

Definition fork_build (b : RpcForkSourceBuilder) : RpcForkSource :=
  mkRpcForkSource
    (default (rpc_client_new (default "http://127.0.0.1:8899"%string (fb_rpc_url b))) (fb_client b))
    (default 0%Z (fb_slot b))
    (account_cache_new (nonzero_or_min (default DEFAULT_MAX_CAPACITY (fb_max_capacity b)))
       (default DEFAULT_TTL (fb_ttl b)))
    0 0.

(** ** Runs

    A read as the source sees it: the key, the two instants, and the reply the
    endpoint would give. *)
Record Read : Type := mkRead {
  rd_key : Address;
  rd_start : Z;
  rd_finish : Z;
  rd_reply : Reply
}.

Definition fork_read (r : Read) (s : RpcForkSource) :
    result (option AccountSharedData) AccountSourceError * RpcForkSource :=
  fork_get_account (rd_start r) (rd_finish r) (rd_reply r) (rd_key r) s.

Fixpoint fork_reads (rs : list Read) (s : RpcForkSource) :
    list (result (option AccountSharedData) AccountSourceError) * RpcForkSource :=
  match rs with
  | [] => ([], s)
  | r :: rs' => let '(x, s1) := fork_read r s in let '(xs, s2) := fork_reads rs' s1 in (x :: xs, s2)
  end.

(** ** Theorems *)
Section Facts.
Context {HL : LruLaws Address CachedAccount}.

(** The cached entry a read at an instant may use. *)
Definition live (now : Z) (k : Address) (c : AccountCache) : option AccountSharedData :=
  match lru_peek k (ac_entries c) with
  | Some e => if (ttl c <=? elapsed now (fetched_at e))%Z then None else Some (cached_account e)
  | None => None
  end.

Lemma account_cache_get_spec now k c :
  (account_cache_get now k c).1 = live now k c /\
  ttl (account_cache_get now k c).2 = ttl c /\
  lru_cap (ac_entries (account_cache_get now k c).2) = lru_cap (ac_entries c) /\
  (lru_wf (ac_entries c) -> lru_wf (ac_entries (account_cache_get now k c).2)) /\
  (forall k' e, lru_peek k' (ac_entries (account_cache_get now k c).2) = Some e ->
     lru_peek k' (ac_entries c) = Some e).
Proof.
  unfold account_cache_get, live.
  pose proof (lru_get_peek k (ac_entries c)) as Hv. pose proof (lru_get_cap k (ac_entries c)) as Hc.
  pose proof (lru_get_wf k (ac_entries c)) as Hw. pose proof (lru_peek_get k) as Hp.
  specialize (Hp). destruct (lru_get k (ac_entries c)) as [[e|] es] eqn:Hg; cbn in *; rewrite <- Hv.
  - assert (Hpk : forall k', lru_peek k' es = lru_peek k' (ac_entries c)).
    { intros k'. specialize (Hp k' (ac_entries c)). by rewrite Hg in Hp. }
    case_match; cbn; split_and!; try done.
    + by rewrite lru_pop_cap.
    + eauto using lru_pop_wf.
    + intros k' e'. rewrite lru_peek_pop, Hpk. by case_decide.
    + intros k' e'. by rewrite Hpk.
  - split_and!; try done. intros k' e'. specialize (Hp k' (ac_entries c)). by rewrite Hg, <- Hp in *.
Qed.

(** What a read does: a hit answers the live entry and fetches nothing, a miss
    answers the reply and keeps it when it is an account. *)
Lemma fork_read_spec r s x s' :
  fork_read r s = (x, s') ->
  client s' = client s /\ slot s' = slot s /\
  match live (rd_start r) (rd_key r) (fork_cache s) with
  | Some a => x = Ok (Some a) /\ cache_hits s' = wrap_u64 (cache_hits s + 1) /\
      cache_misses s' = cache_misses s
  | None => x = fetch_account (rd_reply r) /\ cache_hits s' = cache_hits s /\
      cache_misses s' = wrap_u64 (cache_misses s + 1)
  end /\
  ttl (fork_cache s') = ttl (fork_cache s) /\
  lru_cap (ac_entries (fork_cache s')) = lru_cap (ac_entries (fork_cache s)) /\
  (lru_wf (ac_entries (fork_cache s)) -> lru_wf (ac_entries (fork_cache s'))) /\
  (forall k e, lru_peek k (ac_entries (fork_cache s')) = Some e ->
     lru_peek k (ac_entries (fork_cache s)) = Some e \/
     k = rd_key r /\ live (rd_start r) k (fork_cache s) = None /\
     rd_reply r = Ok (Some (cached_account e)) /\ fetched_at e = rd_finish r).
Proof.
  unfold fork_read, fork_get_account.
  destruct (account_cache_get_spec (rd_start r) (rd_key r) (fork_cache s)) as (Hv & Ht & Hc & Hw & Hp).
  destruct (account_cache_get _ _ _) as [[a|] c]; cbn in *; rewrite <- Hv.
  - intros [= <- <-]. cbn. split_and!; eauto.
  - destruct (rd_reply r) as [[a|]|m] eqn:Hr; cbn; intros [= <- <-]; cbn; split_and!; eauto.
    + by rewrite lru_put_cap.
    + eauto using lru_put_wf.
    + intros k e He. destruct (decide (rd_key r = k)) as [<-|Hne].
      * pose proof (lru_peek_items (rd_key r) (lru_put (rd_key r) (mkCachedAccount (rd_finish r) a) (ac_entries c))) as Hi.
        rewrite He, lru_put_items in Hi. symmetry in Hi. apply items_lookup_take in Hi. cbn in Hi.
        rewrite decide_True in Hi by done. simplify_eq. right. eauto.
      * left. eauto using lru_peek_put_inv.
Qed.

(** Every cached account is the reply to a past read of its key. *)
Definition provenance (past : list Read) (s : RpcForkSource) : Prop :=
  forall k e, lru_peek k (ac_entries (fork_cache s)) = Some e ->
  exists q, q ∈ past /\ rd_key q = k /\ rd_reply q = Ok (Some (cached_account e)) /\
    rd_finish q = fetched_at e.

Lemma fork_read_provenance past r s x s' :
  fork_read r s = (x, s') -> provenance past s -> provenance (past ++ [r]) s'.
Proof.
  intros Hr Hp k e He. destruct (fork_read_spec _ _ _ _ Hr) as (_ & _ & _ & _ & _ & _ & Hpk).
  destruct (Hpk _ _ He) as [Hold|(-> & _ & Hrep & Hf)].
  - destruct (Hp _ _ Hold) as (q & Hq & ?). exists q. set_solver.
  - exists r. set_solver.
Qed.

(** The answer of one read, given where the cache comes from. *)
Definition answer_from (d : Z) (past : list Read) (r : Read)
    (x : result (option AccountSharedData) AccountSourceError) : Prop :=
  x = fetch_account (rd_reply r) \/
  exists q a, q ∈ past /\ rd_key q = rd_key r /\ rd_reply q = Ok (Some a) /\ x = Ok (Some a) /\
    (elapsed (rd_start r) (rd_finish q) < d)%Z.

Lemma fork_read_answer past r s x s' :
  fork_read r s = (x, s') -> provenance past s -> answer_from (ttl (fork_cache s)) past r x.
Proof.
  intros Hr Hp. destruct (fork_read_spec _ _ _ _ Hr) as (_ & _ & Hx & _).
  unfold live in Hx. destruct (lru_peek (rd_key r) _) as [e|] eqn:He; [|left; naive_solver].
  destruct (Z.leb_spec (ttl (fork_cache s)) (elapsed (rd_start r) (fetched_at e)));
    [left; by destruct Hx|right].
  destruct (Hp _ _ He) as (q & Hq & Hk & Hrep & Hf). exists q, (cached_account e).
  rewrite Hf. naive_solver.
Qed.

Lemma fork_reads_answers past rs s xs s' :
  fork_reads rs s = (xs, s') -> provenance past s ->
  length xs = length rs /\
  (forall i r x, rs !! i = Some r -> xs !! i = Some x ->
     answer_from (ttl (fork_cache s)) (past ++ take i rs) r x) /\
  wrap_u64 (cache_hits s' + cache_misses s') =
    wrap_u64 (cache_hits s + cache_misses s + Z.of_nat (length rs)) /\
  lru_cap (ac_entries (fork_cache s')) = lru_cap (ac_entries (fork_cache s)) /\
  (lru_wf (ac_entries (fork_cache s)) -> lru_wf (ac_entries (fork_cache s'))).
Proof.
  revert past s xs. induction rs as [|r rs IH]; intros past s xs; cbn.
  - intros [= <- <-] _. split_and!; [done|done|f_equal; lia|done|done].
  - destruct (fork_read r s) as [x s1] eqn:Hr. destruct (fork_reads rs s1) as [ys s2] eqn:Hrs.
    intros [= <- <-] Hp. destruct (fork_read_spec _ _ _ _ Hr) as (_ & _ & Hx & Ht & Hc & Hw & _).
    destruct (IH _ _ _ Hrs (fork_read_provenance _ _ _ _ _ Hr Hp)) as (Hl & Ha & Hn & Hc' & Hw').
    split_and!; [by cbn; rewrite Hl| | |congruence|auto].
    + intros [|i] q y; cbn; intros Hq Hy; simplify_eq.
      * rewrite app_nil_r. by eapply fork_read_answer.
      * rewrite Ht in Ha. specialize (Ha _ _ _ Hq Hy). by rewrite <- app_assoc in Ha.
    + rewrite Hn. destruct (live _ _ _); destruct Hx as (_ & -> & ->).
      * pose proof (wrap_u64_inner 0 (cache_hits s + 1) (cache_misses s + Z.of_nat (length rs))) as E.
        rewrite !Z.add_0_l, Z.add_assoc in E. rewrite E. f_equal. lia.
      * rewrite wrap_u64_inner. f_equal. lia.
Qed.

Lemma fork_build_provenance b : provenance [] (fork_build b).
Proof.
  intros k e. cbn. by rewrite lru_peek_items, lru_new_items.
Qed.

Lemma nonzero_or_min_pos n : (0 <= n)%Z -> (1 <= nonzero_or_min n)%Z.
Proof. unfold nonzero_or_min. destruct (Z.eqb_spec n 0); lia. Qed.

(** Every answer of a fork source is the endpoint's reply to that very read,
    or the account it answered to an earlier read of the same key that finished
    less than the time-to-live before; absences and errors are never remembered.
    Every read is counted once as a hit or a miss, and the cache holds at most
    the configured number of accounts, where zero means one. *)
Theorem fork_answers_fresh b rs xs s' :
  (0 <= default DEFAULT_MAX_CAPACITY (fb_max_capacity b))%Z ->
  fork_reads rs (fork_build b) = (xs, s') ->
  length xs = length rs /\
  (forall i r x, rs !! i = Some r -> xs !! i = Some x ->
     x = fetch_account (rd_reply r) \/
     exists j q a, j < i /\ rs !! j = Some q /\ rd_key q = rd_key r /\
       rd_reply q = Ok (Some a) /\ x = Ok (Some a) /\
       (elapsed (rd_start r) (rd_finish q) < default DEFAULT_TTL (fb_ttl b))%Z) /\
  wrap_u64 (cache_hits s' + cache_misses s') = wrap_u64 (Z.of_nat (length rs)) /\
  (Z.of_nat (account_cache_len (fork_cache s')) <=
   nonzero_or_min (default DEFAULT_MAX_CAPACITY (fb_max_capacity b)))%Z.
Proof.
  intros Hcap Hrs.
  destruct (fork_reads_answers [] _ _ _ _ Hrs (fork_build_provenance b)) as (Hl & Ha & Hn & Hc & Hw).
  split_and!; [done| |by rewrite Hn|].
  - intros i r x Hr Hx. destruct (Ha _ _ _ Hr Hx) as [->|(q & a & Hq & ?)]; [by left|right].
    cbn in Hq. apply list_elem_of_lookup in Hq as [j Hj].
    apply lookup_take_Some in Hj as [Hj Hlt]. exists j, q, a. naive_solver.
  - destruct Hw as (_ & _ & Hlen); [by apply lru_new_wf, nonzero_or_min_pos|].
    unfold account_cache_len. rewrite lru_len_items. rewrite Hc in Hlen. cbn in Hlen.
    by rewrite lru_new_cap in Hlen.
Qed.

(** ** The source as the account database sees it *)

(** An endpoint whose accounts do not change, as an [AccountSource]. *)
Definition fork_as_source (rpc : Address -> Reply) : AccountSource :=
  source_with_default (fun k => fetch_account (rpc k)).

(** C25: Over an endpoint whose accounts do not change, caching is transparent:
    whatever the clock, the capacity and the time-to-live, every read answers what
    the plain source over the endpoint answers, which satisfies the contract the
    account database relies on. *)
Theorem fork_refines_source (rpc : Address -> Reply) b rs :
  Forall (fun r => rd_reply r = rpc (rd_key r)) rs ->
  (fork_reads rs (fork_build b)).1 =
    (fun r => source_get_account (fork_as_source rpc) (rd_key r)) <$> rs /\
  SourceLaws (fork_as_source rpc).
Proof.
  intros Hrpc. split; [|apply _].
  destruct (fork_reads rs (fork_build b)) as [xs s'] eqn:Hrs. cbn.
  destruct (fork_reads_answers [] _ _ _ _ Hrs (fork_build_provenance b)) as (Hl & Ha & _).
  apply list_eq_same_length with (length rs); [by rewrite length_fmap|done|].
  intros i x y Hi Hx Hy. rewrite list_lookup_fmap in Hy.
  destruct (rs !! i) as [r|] eqn:Hr; [|done]. cbn in Hy. simplify_eq.
  pose proof (Forall_lookup_1 _ _ _ _ Hrpc Hr) as Hrr. cbn in Hrr.
  destruct (Ha _ _ _ Hr Hx) as [->|(q & a & Hq & Hk & Hrep & -> & _)]; [by rewrite Hrr|].
  cbn in Hq. apply list_elem_of_lookup in Hq as [j Hj]. apply lookup_take_Some in Hj as [Hj _].
  pose proof (Forall_lookup_1 _ _ _ _ Hrpc Hj) as Hqr. cbn in Hqr.
  rewrite <- Hk, <- Hqr, Hrep. done.
Qed.

End Facts.

End Fork.
