(* ===== verification/History.v ===== *)
(** * Transaction history, [crates/hpsvm/src/history.rs]

    The bounded history over the LRU interface: capacity changes, recording and
    duplicate detection.  The operations are an inductive step relation; the
    invariant (a disabled history is empty, an enabled one holds at most its
    capacity) is proved by induction over it, and the duplicate window states how
    long a recorded signature stays detectable. *)

From stdpp Require Import base tactics option list sets gmap.
From S2P Require Import Prelude.
From S2P Require Import Types.
From S2P Require Import Lru.

Section History.
Context {L : Lru Signature TransactionResult}.

Record TransactionHistory : Type := mkHistory {
  entries : lru Signature TransactionResult;
  max_entries : Z
}.

Definition history_with_capacity (capacity : Z) : TransactionHistory :=
  mkHistory (lru_new (Z.max capacity 1)) capacity.

Definition history_new : TransactionHistory := history_with_capacity 32.

Definition set_capacity (h : TransactionHistory) (new_cap : Z) : TransactionHistory :=
  if (new_cap =? 0)%Z then mkHistory (lru_clear (entries h)) 0
  else mkHistory (lru_resize new_cap (entries h)) new_cap.

Definition history_get_transaction (h : TransactionHistory) (signature : Signature) :
    option TransactionResult :=
  if (max_entries h =? 0)%Z then None else lru_peek signature (entries h).

Definition add_new_transaction (h : TransactionHistory) (signature : Signature)
    (r : TransactionResult) : TransactionHistory :=
  if (max_entries h =? 0)%Z then h
  else mkHistory (lru_put signature r (entries h)) (max_entries h).

Definition check_transaction (h : TransactionHistory) (signature : Signature) : bool :=
  if (max_entries h =? 0)%Z then false
  else match lru_peek signature (entries h) with Some _ => true | None => false end.

Definition is_enabled (h : TransactionHistory) : bool := negb (max_entries h =? 0)%Z.

(** The operations that change a history. *)
Inductive history_step : TransactionHistory -> TransactionHistory -> Prop :=
| step_add h sig r : history_step h (add_new_transaction h sig r)
| step_set_capacity h n : (0 <= n)%Z -> history_step h (set_capacity h n).

Inductive history_reachable : TransactionHistory -> Prop :=
| reach_new capacity : (0 <= capacity)%Z -> history_reachable (history_with_capacity capacity)
| reach_step h h' : history_reachable h -> history_step h h' -> history_reachable h'.

(** Recording a sequence of results, oldest first. *)
Definition record_all (h : TransactionHistory) (l : list (Signature * TransactionResult)) :
    TransactionHistory :=
  foldl (fun h p => add_new_transaction h p.1 p.2) h l.

Context {HL : LruLaws Signature TransactionResult}.

Definition history_wf (h : TransactionHistory) : Prop :=
  lru_wf (entries h) /\
  (max_entries h = 0%Z -> lru_items (entries h) = []) /\
  (max_entries h <> 0%Z -> (1 <= max_entries h)%Z /\ lru_cap (entries h) = max_entries h).

Lemma history_with_capacity_wf capacity :
  (0 <= capacity)%Z -> history_wf (history_with_capacity capacity).
Proof.
  intros. unfold history_wf, history_with_capacity; simpl.
  split; [apply lru_new_wf; lia|].
  rewrite lru_new_items, lru_new_cap. split; [done|lia].
Qed.

Lemma set_capacity_wf h n : (0 <= n)%Z -> history_wf h -> history_wf (set_capacity h n).
Proof.
  intros Hn (Hwf & Hdis & Hen). unfold set_capacity.
  destruct (Z.eqb_spec n 0) as [->|Hne]; unfold history_wf; simpl.
  - rewrite lru_clear_items. split_and!; [by apply lru_clear_wf|done|done].
  - rewrite lru_resize_cap. split; [apply lru_resize_wf; [lia|done]|]. split; [done|lia].
Qed.

Lemma add_new_transaction_wf h sig r : history_wf h -> history_wf (add_new_transaction h sig r).
Proof.
  intros (Hwf & Hdis & Hen). unfold add_new_transaction.
  destruct (Z.eqb_spec (max_entries h) 0); [done|].
  unfold history_wf; simpl. rewrite lru_put_cap. split_and!; [by apply lru_put_wf|done|done].
Qed.

Lemma reachable_wf h : history_reachable h -> history_wf h.
Proof.
  induction 1 as [c Hc|h h' _ IH Hstep]; [by apply history_with_capacity_wf|].
  destruct Hstep; auto using add_new_transaction_wf, set_capacity_wf.
Qed.

(** [within n k h]: [k] is among the [n] most recently used signatures. *)
Definition within (n : nat) (k : Signature) (h : TransactionHistory) : Prop :=
  k ∈ (take n (lru_items (entries h))).*1.

Lemma take_items_remove n k k' (l : list (Signature * TransactionResult)) :
  k <> k' -> k' ∈ (take n l).*1 -> k' ∈ (take n (items_remove k l)).*1.
Proof.
  intros Hne. revert n. induction l as [|[k1 v1] l IH]; intros [|n]; simpl; try set_solver.
  rewrite elem_of_cons. case_decide as Hk; simplify_eq.
  - intros [?|H]; [done|]. apply (IH n) in H.
    rewrite fmap_take in *. apply elem_of_take in H as (i & Hi & ?).
    apply elem_of_take. eauto with lia.
  - simpl. rewrite elem_of_cons. intros [?|H]; auto.
Qed.

Lemma add_within n h sig r k :
  max_entries h <> 0%Z -> history_wf h -> (Z.of_nat (S n) <= max_entries h)%Z ->
  within n k h -> within (S n) k (add_new_transaction h sig r).
Proof.
  intros Hne (_ & _ & Hen) Hn Hk. destruct (Hen Hne) as [_ Hcap]. unfold within in *.
  unfold add_new_transaction. destruct (Z.eqb_spec (max_entries h) 0); [done|]. simpl.
  rewrite lru_put_items. unfold items_put. rewrite take_take.
  replace (S n `min` Z.to_nat (lru_cap (entries h))) with (S n) by (rewrite Hcap; lia).
  simpl. rewrite elem_of_cons. destruct (decide (k = sig)) as [->|Hs]; [by left|right].
  apply take_items_remove; [done|]. done.
Qed.

Lemma within_check n h sig :
  max_entries h <> 0%Z -> within n sig h -> check_transaction h sig = true.
Proof.
  intros Hne Hw. unfold check_transaction. destruct (Z.eqb_spec (max_entries h) 0); [done|].
  rewrite lru_peek_items. unfold within in Hw.
  destruct (items_lookup sig (lru_items (entries h))) eqn:He; [done|].
  apply items_lookup_None in He. exfalso. apply He. rewrite fmap_take in Hw.
  eapply elem_of_prefix; [exact Hw|]. apply prefix_take.
Qed.

Lemma add_max_entries h sig r : max_entries (add_new_transaction h sig r) = max_entries h.
Proof. unfold add_new_transaction. by destruct (max_entries h =? 0)%Z. Qed.

Lemma record_all_within l : forall n h k,
  max_entries h <> 0%Z -> history_wf h -> within n k h ->
  (Z.of_nat (n + length l) <= max_entries h)%Z ->
  within (n + length l) k (record_all h l) /\ max_entries (record_all h l) = max_entries h.
Proof.
  induction l as [|[s r] l IH]; intros n h k Hne Hwf Hw Hlen; simpl in *.
  - rewrite Nat.add_0_r. done.
  - destruct (IH (S n) (add_new_transaction h s r) k) as [H1 H2].
    + by rewrite add_max_entries.
    + by apply add_new_transaction_wf.
    + apply add_within; try done. lia.
    + rewrite add_max_entries. lia.
    + rewrite add_max_entries in H2.
      replace (n + S (length l)) with (S n + length l) by lia. done.
Qed.

(** ** Properties *)

(** In every reachable history the recorded signatures are distinct, an
    enabled history never holds more than its configured capacity, and a history
    whose capacity is 0 holds nothing and detects nothing. *)
Theorem history_bounded h :
  history_reachable h ->
  NoDup (lru_items (entries h)).*1 /\
  (is_enabled h = true -> (Z.of_nat (lru_len (entries h)) <= max_entries h)%Z) /\
  (is_enabled h = false ->
   lru_len (entries h) = 0 /\ forall sig, check_transaction h sig = false).
Proof.
  intros ((Hnd & Hc & Hlen) & Hdis & Hen)%reachable_wf. rewrite lru_len_items.
  unfold is_enabled, check_transaction. split; [done|].
  destruct (Z.eqb_spec (max_entries h) 0) as [H0|H0]; simpl; split; try done.
  - intros _. by rewrite (Hdis H0).
  - intros _. destruct (Hen H0) as [_ <-]. done.
Qed.

(** C29: A recorded transaction is returned by a lookup at once and is still
    detected as a duplicate after any [k] further recordings, as long as
    [k + 1] does not exceed the capacity, whatever signatures they carry. *)
Theorem duplicate_window h sig r later :
  history_reachable h -> is_enabled h = true ->
  (Z.of_nat (S (length later)) <= max_entries h)%Z ->
  history_get_transaction (add_new_transaction h sig r) sig = Some r /\
  check_transaction (record_all (add_new_transaction h sig r) later) sig = true.
Proof.
  intros Hwf%reachable_wf Hen Hlen. unfold is_enabled in Hen. bool_to_prop.
  pose proof Hwf as (_ & _ & Hcap). destruct (Hcap Hen) as [H1 Hc].
  split.
  - unfold history_get_transaction. rewrite add_max_entries.
    unfold add_new_transaction. destruct (Z.eqb_spec (max_entries h) 0); [done|].
    simpl. apply lru_peek_put_eq. lia.
  - destruct (record_all_within later 1 (add_new_transaction h sig r) sig) as [Hw Hm];
      rewrite ?add_max_entries; try done; auto using add_new_transaction_wf; try lia.
    + unfold within, add_new_transaction. destruct (Z.eqb_spec (max_entries h) 0); [done|].
      simpl. rewrite lru_put_items. unfold items_put.
      destruct (Z.to_nat (lru_cap (entries h))) eqn:?; [lia|]. simpl. set_solver.
    + eapply within_check; [|exact Hw]. by rewrite Hm, add_max_entries.
Qed.

End History.

(** ** Concrete instances *)

Definition history_lru : Lru Signature TransactionResult := ListLru Signature TransactionResult.

Definition example_history : @TransactionHistory history_lru :=
  add_new_transaction (set_capacity history_new 3) (Sig 7) (Ok TransactionMetadata_default).

Lemma example_history_reachable : @history_reachable history_lru example_history.
Proof.
  eapply reach_step; [eapply reach_step; [apply (reach_new 32); lia|]|].
  - apply (step_set_capacity _ 3). lia.
  - apply step_add.
Qed.

Lemma history_bounded_witness :
  @history_reachable history_lru example_history /\
  (Z.of_nat (@lru_len _ _ _ history_lru (entries example_history)) <= 3)%Z.
Proof.
  split; [exact example_history_reachable|].
  apply (@history_bounded history_lru (ListLru_laws _ _) example_history
           example_history_reachable). reflexivity.
Defined.

Lemma duplicate_window_witness :
  @check_transaction history_lru
    (record_all (add_new_transaction example_history (Sig 9) (Ok TransactionMetadata_default))
       [(Sig 1, Ok TransactionMetadata_default); (Sig 2, Ok TransactionMetadata_default)])
    (Sig 9) = true.
Proof.
  apply (@duplicate_window history_lru (ListLru_laws _ _) example_history (Sig 9)
           (Ok TransactionMetadata_default)).
  - exact example_history_reachable.
  - reflexivity.
  - vm_compute. discriminate.
Defined.
