(* ===== verification/Runtime.v ===== *)
(** * Interfaces to the Solana runtime crates

    The runtime the repository builds on (program ids, sysvar codecs and the
    sysvar cache, program loading, the program cache) is not part of it.  Each
    is a class of operations with a class of laws: the operations are what the
    code calls, the laws what the code relies on.  The clients are proved
    against these classes; [RuntimeModel] gives a concrete model of all of them.
    The tiering policy ([programs/jit_policy.rs]) and the content-addressed key
    of the resident store ([programs/entry_store.rs]), which the load path
    consults, are here too. *)

From Stdlib Require Import ZArith Strings.Byte.
From stdpp Require Import base tactics option list sets gmap strings.
From S2P Require Import Prelude.
From S2P Require Import Types.
From S2P Require Import Lru.

(** ** Build target *)
Class Target : Type := { x86_64 : bool; windows : bool }.

(** ** Tiering policy, [programs/jit_policy.rs] *)
Inductive JitPolicy : Type :=
| Eager
| Lazy (hot_threshold : Z)
| Off.

#[export] Instance JitPolicy_eq_dec : EqDecision JitPolicy.
Proof. solve_decision. Defined.

Definition JitPolicy_DEFAULT : JitPolicy := Eager.

Definition requires_uncompiled_load (p : JitPolicy) : bool :=
  match p with Eager => false | _ => true end.

Definition effective {t : Target} (p : JitPolicy) : JitPolicy :=
  if x86_64 then p else Off.

Definition is_lazy {t : Target} (p : JitPolicy) : bool :=
  match effective p with Lazy _ => true | _ => false end.

Definition hot_threshold_of {t : Target} (p : JitPolicy) : option Z :=
  match effective p with Lazy n => Some n | Eager | Off => None end.

(** ** Well-known program and sysvar ids, [solana_sdk_ids] *)
Class SdkIds : Type := {
  native_loader_id : Address;
  bpf_loader_id : Address;
  bpf_loader_deprecated_id : Address;
  bpf_loader_upgradeable_id : Address;
  loader_v4_id : Address;
  system_program_id : Address;
  address_lookup_table_id : Address;
  incinerator_id : Address;
  sysvar_owner_id : Address;
  instructions_sysvar_id : Address;
  CLOCK_ID : Address;
  EPOCH_REWARDS_ID : Address;
  EPOCH_SCHEDULE_ID : Address;
  LAST_RESTART_SLOT_ID : Address;
  RENT_ID : Address;
  SLOT_HASHES_ID : Address;
  STAKE_HISTORY_ID : Address
}.

(** The two deprecated ids the repository spells out itself. *)
Definition FEES_ID : Address :=
  Eval vm_compute in from_str_const "SysvarFees111111111111111111111111111111111".
Definition RECENT_BLOCKHASHES_ID : Address :=
  Eval vm_compute in from_str_const "SysvarRecentB1ockHashes11111111111111111111".

Section ManagedSysvars.
Context {ids : SdkIds}.

Definition managed_sysvars : list Address :=
  [CLOCK_ID; EPOCH_REWARDS_ID; EPOCH_SCHEDULE_ID; FEES_ID; LAST_RESTART_SLOT_ID;
   RECENT_BLOCKHASHES_ID; RENT_ID; SLOT_HASHES_ID; STAKE_HISTORY_ID].

(** [is_managed_sysvar_account]. *)
Definition is_managed_sysvar_account (pubkey : Address) : bool :=
  bool_decide (pubkey = CLOCK_ID) || bool_decide (pubkey = EPOCH_REWARDS_ID) ||
  bool_decide (pubkey = EPOCH_SCHEDULE_ID) || bool_decide (pubkey = FEES_ID) ||
  bool_decide (pubkey = LAST_RESTART_SLOT_ID) ||
  bool_decide (pubkey = RECENT_BLOCKHASHES_ID) || bool_decide (pubkey = RENT_ID) ||
  bool_decide (pubkey = SLOT_HASHES_ID) || bool_decide (pubkey = STAKE_HISTORY_ID).

Lemma is_managed_sysvar_spec pubkey :
  is_managed_sysvar_account pubkey = true <-> pubkey ∈ managed_sysvars.
Proof.
  unfold is_managed_sysvar_account, managed_sysvars.
  rewrite !orb_true_iff, !bool_decide_eq_true. set_solver.
Qed.

End ManagedSysvars.

(** The ids the code tells apart are pairwise distinct, and none of them is the
    default (all-zero) address except the system program's. *)
Class SdkIdsOk {ids : SdkIds} : Prop := {
  loaders_distinct :
    NoDup [native_loader_id; bpf_loader_id; bpf_loader_deprecated_id;
           bpf_loader_upgradeable_id; loader_v4_id];
  sysvars_distinct : NoDup (instructions_sysvar_id :: managed_sysvars)
}.

(** ** Sysvars *)

(** [solana_clock::Clock]. *)
Record Clock : Type := mkClock {
  clock_slot : Z;
  clock_epoch_start_timestamp : Z;
  clock_epoch : Z;
  clock_leader_schedule_epoch : Z;
  clock_unix_timestamp : Z
}.

#[export] Instance Clock_eq_dec : EqDecision Clock.
Proof. solve_decision. Defined.

Definition Clock_default : Clock := mkClock 0 0 0 0 0.

(** The decoders of the sysvar accounts, [solana_rent::Rent], and
    [solana_program_runtime::SysvarCache].  [sc_fill read] is [reset] followed by
    [fill_missing_entries] with the reading callback. *)
Class SysvarRuntime : Type := {
  Rent : Type;
  SlotHashes : Type;
  rent_default : Rent;
  rent_minimum_balance : Rent -> Z -> Z;
  rent_is_exempt : Rent -> Z -> Z -> bool;
  decode_clock : list byte -> option Clock;
  decode_rent : list byte -> option Rent;
  decode_slot_hashes : list byte -> option SlotHashes;
  decodes_epoch_rewards : list byte -> bool;
  decodes_epoch_schedule : list byte -> bool;
  decodes_fees : list byte -> bool;
  decodes_last_restart_slot : list byte -> bool;
  decodes_recent_blockhashes : list byte -> bool;
  decodes_stake_history : list byte -> bool;
  SysvarCache : Type;
  sc_default : SysvarCache;
  sc_fill : (Address -> option (list byte)) -> SysvarCache;
  sc_get_clock : SysvarCache -> option Clock;
  sc_get_rent : SysvarCache -> option Rent;
  sc_get_slot_hashes : SysvarCache -> option SlotHashes
}.

Class SysvarLaws {ids : SdkIds} {sv : SysvarRuntime} : Prop := {
  sc_default_clock : sc_get_clock sc_default = None;
  sc_default_rent : sc_get_rent sc_default = None;
  sc_fill_clock read : sc_get_clock (sc_fill read) = read CLOCK_ID ≫= decode_clock;
  sc_fill_rent read : sc_get_rent (sc_fill read) = read RENT_ID ≫= decode_rent;
  sc_fill_slot_hashes read :
    sc_get_slot_hashes (sc_fill read) = read SLOT_HASHES_ID ≫= decode_slot_hashes;
  sc_fill_ext read1 read2 :
    (forall k, k ∈ managed_sysvars -> read1 k = read2 k) -> sc_fill read1 = sc_fill read2
}.

(** [Rent::is_exempt] compares with [Rent::minimum_balance]. *)
Class RentLaws {sv : SysvarRuntime} : Prop := {
  rent_exempt_spec rent lamports len :
    rent_is_exempt rent lamports len = true <-> (rent_minimum_balance rent len <= lamports)%Z;
  rent_minimum_nonneg rent len : (0 <= len)%Z -> (0 <= rent_minimum_balance rent len)%Z
}.

(** ** Program loading *)

(** [solana_loader_v3_interface::state::UpgradeableLoaderState]. *)
Inductive UpgradeableLoaderState : Type :=
| LoaderUninitialized
| LoaderBuffer (authority_address : option Address)
| LoaderProgram (programdata_address : Address)
| LoaderProgramData (slot : Z) (upgrade_authority_address : option Address).

Class ProgramRuntime : Type := {
  Entry : Type;
  RuntimeEnv : Type;
  RuntimeEnvs : Type;
  BuiltinFn : Type;
  Executable : Type;
  EntryOwner : Type;
  get_env_for_execution : RuntimeEnvs -> RuntimeEnv;
  runtime_envs_default : RuntimeEnvs;
  (** [ProgramCacheEntry::load(loader, env, deployment_slot, elf)]. *)
  cache_entry_load : Address -> RuntimeEnv -> Z -> list byte -> option Entry;
  (** [Executable::load], [verify::<RequisiteVerifier>]. *)
  executable_load : list byte -> RuntimeEnv -> option Executable;
  executable_verify : Executable -> bool;
  entry_owner_try_from : Address -> option EntryOwner;
  (** The record literal [ProgramCacheEntry { program: Loaded(..), .. }]. *)
  loaded_entry : Executable -> EntryOwner -> Z -> Entry;
  new_builtin : BuiltinFn -> Entry;
  new_closed_tombstone : Z -> Entry;
  upgradeable_state : list byte -> option UpgradeableLoaderState;
  size_of_programdata_metadata : nat;
  loader_v4_program_data_offset : nat;
  (** SHA-256, [solana_sha256_hasher::hashv]. *)
  sha256 : list byte -> Hash;
  (** [solana_builtins::BUILTINS]: program ids, entry points, names and gates. *)
  BUILTINS : list (Address * BuiltinFn * string * option Address)
}.

(** ** The program cache, [ProgramCacheForTxBatch] *)
Class ProgramCacheOps {pr : ProgramRuntime} : Type := {
  PCache : Type;
  pc_new : Z -> PCache;
  pc_slot : PCache -> Z;
  pc_set_slot : Z -> PCache -> PCache;
  pc_replenish : Address -> Entry -> PCache -> PCache;
  pc_remove_entry : Address -> PCache -> PCache;
  pc_find : PCache -> Address -> option Entry;
  (** [drain_modified_entries] with the per-batch flags reset: drops what a
      transaction deployed or loaded for itself. *)
  pc_drain : PCache -> PCache;
  (** The committed entries, and what [find] shows of one at a slot. *)
  pc_entries : PCache -> gmap Address Entry;
  pc_view : Z -> Entry -> Entry
}.

Class ProgramCacheLaws {pr : ProgramRuntime} {pc : ProgramCacheOps} : Prop := {
  pc_new_slot s : pc_slot (pc_new s) = s;
  pc_new_entries s : pc_entries (pc_new s) = ∅;
  pc_set_slot_slot s c : pc_slot (pc_set_slot s c) = s;
  pc_set_slot_entries s c : pc_entries (pc_set_slot s c) = pc_entries c;
  pc_replenish_slot k e c : pc_slot (pc_replenish k e c) = pc_slot c;
  pc_replenish_entries k e c : pc_entries (pc_replenish k e c) = <[k := e]> (pc_entries c);
  pc_remove_slot k c : pc_slot (pc_remove_entry k c) = pc_slot c;
  pc_remove_entries k c : pc_entries (pc_remove_entry k c) = delete k (pc_entries c);
  pc_drain_slot c : pc_slot (pc_drain c) = pc_slot c;
  pc_drain_entries c : pc_entries (pc_drain c) = pc_entries c;
  (** Nothing but the slot and the committed entries outlives a drain. *)
  pc_drained_ext c1 c2 :
    pc_slot c1 = pc_slot c2 -> pc_entries c1 = pc_entries c2 -> pc_drain c1 = pc_drain c2;
  pc_find_entries c k :
    pc_find (pc_drain c) k = pc_view (pc_slot c) <$> pc_entries c !! k
}.

(** Two caches with the same committed contents. *)
Definition pc_equiv `{pc : ProgramCacheOps} (c1 c2 : PCache) : Prop :=
  pc_slot c1 = pc_slot c2 /\ pc_entries c1 = pc_entries c2.

#[export] Instance pc_equiv_equivalence `{pc : ProgramCacheOps} : Equivalence pc_equiv.
Proof. unfold pc_equiv. split; red; intuition congruence. Qed.

#[export] Instance pc_replenish_proper `{pc : ProgramCacheOps} {laws : ProgramCacheLaws} k e :
  Proper (pc_equiv ==> pc_equiv) (pc_replenish k e).
Proof.
  intros c1 c2 [Hs He]. split; rewrite ?pc_replenish_slot, ?pc_replenish_entries; congruence.
Qed.

#[export] Instance pc_find_proper `{pc : ProgramCacheOps} {laws : ProgramCacheLaws} k :
  Proper (pc_equiv ==> eq) (fun c => pc_find (pc_drain c) k).
Proof. intros c1 c2 [Hs He]. rewrite !pc_find_entries. congruence. Qed.

#[export] Instance pc_drain_proper `{pc : ProgramCacheOps} {laws : ProgramCacheLaws} :
  Proper (pc_equiv ==> pc_equiv) pc_drain.
Proof. intros c1 c2 [Hs He]. split; rewrite ?pc_drain_slot, ?pc_drain_entries; done. Qed.

(** ** The key of the resident entry store, [programs/entry_store.rs] *)

Definition PROGRAM_ENTRY_CAPACITY : Z := 256.

(** [IMMEDIATE_DEPLOYMENT_SLOT] of [accounts_db.rs]. *)
Definition IMMEDIATE_DEPLOYMENT_SLOT : Z := u64_max.

Record ProgramEntryKey : Type := mkProgramEntryKey {
  pek_env : positive;
  pek_hash : Hash;
  pek_loader : Address;
  pek_slot_bucket : Z
}.

#[export] Instance ProgramEntryKey_eq_dec : EqDecision ProgramEntryKey.
Proof. solve_decision. Defined.

Section Keys.
Context {pr : ProgramRuntime}.

Definition content_hash (elf_bytes : list byte) : Hash := sha256 elf_bytes.

Definition content_key (env_ptr : positive) (elf_bytes : list byte) (loader : Address)
    (slot_bucket : Z) : ProgramEntryKey :=
  mkProgramEntryKey env_ptr (content_hash elf_bytes) loader slot_bucket.

Context {L : Lru ProgramEntryKey Entry}.

(** [ProgramEntryStore]: [new], [get] (promoting) and [insert] (first writer
    wins); [len]. *)
Definition ProgramEntryStore : Type := lru ProgramEntryKey Entry.

Definition store_new : ProgramEntryStore := lru_new PROGRAM_ENTRY_CAPACITY.

Definition store_get (key : ProgramEntryKey) (s : ProgramEntryStore) :
    option Entry * ProgramEntryStore := lru_get key s.

Definition store_insert (key : ProgramEntryKey) (entry : Entry) (s : ProgramEntryStore) :
    Entry * ProgramEntryStore :=
  match lru_get key s with
  | (Some existing, s') => (existing, s')
  | (None, s') => (entry, lru_put key entry s')
  end.

Definition store_len (s : ProgramEntryStore) : nat := lru_len s.

End Keys.
