(* ===== verification/AccountsDb.v ===== *)
(** * The account database, [crates/hpsvm/src/accounts_db.rs]

    The overlay ([CacheDb]) over a read-through source, its undo journal, the
    caches derived from it and the program load path.  The committed program
    cache is behind an [Arc<RwLock<..>>] shared by every clone of a database and
    the resident entry store is a process-wide static, so both live in a [World]
    passed next to the database: [programs_cache] is a handle into it, and a
    clone shares the handle.  A method with an [&mut self] receiver maps
    [Accounts * World] to the same; an early return keeps what was mutated. *)

From Stdlib Require Import ZArith Strings.Byte.
From stdpp Require Import base tactics option list sets gmap strings.
From S2P Require Import Prelude.
From S2P Require Import Types.
From S2P Require Import AccountSource.
From S2P Require Import Errors.
From S2P Require Import Lru.
From S2P Require Import Runtime.

(** [CacheDb]. *)
Record CacheDb : Type := mkCacheDb {
  inner : gmap Address AccountSharedData;
  removed : gset Address
}.

Definition CacheDb_default : CacheDb := mkCacheDb ∅ ∅.

(** [CacheDb::get_account_ref] and [CacheDb::is_removed]. *)
Definition cache_get_account_ref (c : CacheDb) (pubkey : Address) : option AccountSharedData :=
  inner c !! pubkey.
Definition cache_is_removed (c : CacheDb) (pubkey : Address) : bool :=
  bool_decide (pubkey ∈ removed c).

(** [JournalEntry::Account]. *)
Record JournalEntry : Type := mkJournalEntry {
  je_address : Address;
  je_previous : option AccountSharedData;
  je_was_removed : bool
}.

(** [StateCheckpoint]: a journal length. *)
Record StateCheckpoint : Type := mkCheckpoint { checkpoint_index : nat }.

(** [AccountChange] / [AccountChangeRecord] of [state_change_sink.rs]. *)
Record AccountChange : Type := mkAccountChange {
  change_address : Address;
  change_before : option AccountSharedData;
  change_after : option AccountSharedData
}.

(** A [StateChangeSink] with state [S] and error [E]. *)
Definition StateChangeSink (S E : Type) : Type := AccountChange -> M S E unit.

(** [AccountSourceLoadFailure]. *)
Record AccountSourceLoadFailure : Type := mkLoadFailure {
  lf_pubkey : Address;
  lf_source : AccountSourceError
}.

Definition into_db_error (f : AccountSourceLoadFailure) : DbError :=
  db_from_account_source (lf_source f).
Definition into_execution_error (f : AccountSourceLoadFailure) : ExecutionError :=
  ExecDatabase (into_db_error f).

(** ** Address lookup tables *)

Inductive AddressLookupError : Type :=
| LookupTableAccountNotFound
| LookupInvalidAccountOwner
| LookupInvalidAccountData
| LookupInvalidLookupIndex.

Inductive AddressLoaderError : Type :=
| LoaderLookupTableAccountNotFound
| LoaderInvalidAccountOwner
| LoaderInvalidAccountData
| LoaderInvalidLookupIndex.

#[export] Instance AddressLoaderError_eq_dec : EqDecision AddressLoaderError.
Proof. solve_decision. Defined.

Definition into_address_loader_error (e : AddressLookupError) : AddressLoaderError :=
  match e with
  | LookupTableAccountNotFound => LoaderLookupTableAccountNotFound
  | LookupInvalidAccountOwner => LoaderInvalidAccountOwner
  | LookupInvalidAccountData => LoaderInvalidAccountData
  | LookupInvalidLookupIndex => LoaderInvalidLookupIndex
  end.

(** [solana_message::v0::MessageAddressTableLookup] and [LoadedAddresses]. *)
Record MessageAddressTableLookup : Type := mkTableLookup {
  tl_account_key : Address;
  tl_writable_indexes : list Z;
  tl_readonly_indexes : list Z
}.

Record LoadedAddresses : Type := mkLoadedAddresses {
  loaded_writable : list Address;
  loaded_readonly : list Address
}.

(** [FromIterator for LoadedAddresses]: the lists concatenated. *)
Definition loaded_collect (l : list LoadedAddresses) : LoadedAddresses :=
  mkLoadedAddresses (l ≫= loaded_writable) (l ≫= loaded_readonly).

Inductive LookupTableLoadError : Type :=
| LtAddressLookup (e : AddressLookupError)
| LtAccountSource (f : AccountSourceLoadFailure).

(** [AddressLookupTable::deserialize] and [lookup]. *)
Class LookupTables {sv : SysvarRuntime} : Type := {
  LookupTable : Type;
  lookup_table_deserialize : list byte -> option LookupTable;
  lookup_table_lookup :
    LookupTable -> Z -> list Z -> SlotHashes -> result (list Address) AddressLookupError
}.

Section Accounts.
Context {tgt : Target} {ids : SdkIds} {sv : SysvarRuntime} {pr : ProgramRuntime}
        {pc : ProgramCacheOps} {Lst : Lru ProgramEntryKey Entry}.

(** ** State *)

(** What is shared outside a database value: the program caches behind their
    [Arc] handles and the resident entry store. *)
Record World : Type := mkWorld {
  w_caches : gmap positive PCache;
  w_store : ProgramEntryStore;
  (** [DEFAULT_PROGRAM_CACHE], keyed by the environment's and the slice's address,
      the length and the loader; and [DEFAULT_RUNTIME_ENV]. *)
  w_default_programs : gmap (positive * positive * Z * Address) Entry;
  w_default_env : option (positive * RuntimeEnvs)
}.

Definition cache_at (w : World) (h : positive) : PCache := default (pc_new 0) (w_caches w !! h).

Definition set_cache (h : positive) (c : PCache) (w : World) : World :=
  mkWorld (<[h := c]> (w_caches w)) (w_store w) (w_default_programs w) (w_default_env w).

(** Taking the write lock of the cache behind [h]. *)
Definition update_cache (h : positive) (f : PCache -> PCache) (w : World) : World :=
  set_cache h (f (cache_at w h)) w.

Definition set_store (s : ProgramEntryStore) (w : World) : World :=
  mkWorld (w_caches w) s (w_default_programs w) (w_default_env w).

Record Accounts : Type := mkAccounts {
  source : AccountSource;
  cache : CacheDb;
  programs_cache : positive;
  sysvar_cache : SysvarCache;
  environments : positive * RuntimeEnvs;
  jit_policy : JitPolicy;
  journal : list JournalEntry
}.

Definition with_source (s : AccountSource) (a : Accounts) : Accounts :=
  mkAccounts s (cache a) (programs_cache a) (sysvar_cache a) (environments a) (jit_policy a)
    (journal a).
Definition with_cache (c : CacheDb) (a : Accounts) : Accounts :=
  mkAccounts (source a) c (programs_cache a) (sysvar_cache a) (environments a) (jit_policy a)
    (journal a).
Definition with_handle (h : positive) (a : Accounts) : Accounts :=
  mkAccounts (source a) (cache a) h (sysvar_cache a) (environments a) (jit_policy a)
    (journal a).
Definition with_sysvar_cache (s : SysvarCache) (a : Accounts) : Accounts :=
  mkAccounts (source a) (cache a) (programs_cache a) s (environments a) (jit_policy a)
    (journal a).
Definition with_environments (e : positive * RuntimeEnvs) (a : Accounts) : Accounts :=
  mkAccounts (source a) (cache a) (programs_cache a) (sysvar_cache a) e (jit_policy a)
    (journal a).
Definition with_policy (p : JitPolicy) (a : Accounts) : Accounts :=
  mkAccounts (source a) (cache a) (programs_cache a) (sysvar_cache a) (environments a) p
    (journal a).
Definition with_journal (j : list JournalEntry) (a : Accounts) : Accounts :=
  mkAccounts (source a) (cache a) (programs_cache a) (sysvar_cache a) (environments a)
    (jit_policy a) j.

Definition put_inner (pubkey : Address) (account : AccountSharedData) (a : Accounts) : Accounts :=
  with_cache (mkCacheDb (<[pubkey := account]> (inner (cache a))) (removed (cache a))) a.
Definition del_inner (pubkey : Address) (a : Accounts) : Accounts :=
  with_cache (mkCacheDb (delete pubkey (inner (cache a))) (removed (cache a))) a.
Definition put_removed (pubkey : Address) (a : Accounts) : Accounts :=
  with_cache (mkCacheDb (inner (cache a)) ({[pubkey]} ∪ removed (cache a))) a.
Definition del_removed (pubkey : Address) (a : Accounts) : Accounts :=
  with_cache (mkCacheDb (inner (cache a)) (removed (cache a) ∖ {[pubkey]})) a.

Definition St : Type := Accounts * World.

(** [Accounts::default], with a fresh handle for its cache. *)
Definition accounts_default (h : positive) (env_ptr : positive) (w : World) : St :=
  (mkAccounts EmptyAccountSource CacheDb_default h sc_default (env_ptr, runtime_envs_default)
     JitPolicy_DEFAULT [],
   set_cache h (pc_new 0) w).

(** [Clone]: everything copied but the program cache, whose handle is shared. *)
Definition accounts_clone (a : Accounts) : Accounts := a.

(** [clone_for_worker]: a deep copy of the committed program cache behind a
    fresh handle. *)
Definition clone_for_worker (fresh_handle : positive) (s : St) : St :=
  let '(a, w) := s in
  (with_handle fresh_handle (accounts_clone a),
   set_cache fresh_handle (cache_at w (programs_cache a)) w).

(** ** Reads *)

Definition is_cached_program_account (pubkey : Address) (account : AccountSharedData) : bool :=
  executable account && negb (bool_decide (pubkey = Address_default)) &&
  negb (bool_decide (acc_owner account = native_loader_id)).

Definition get_account_ref (a : Accounts) (pubkey : Address) : option AccountSharedData :=
  inner (cache a) !! pubkey.

Definition try_get_account (a : Accounts) (pubkey : Address) :
    result (option AccountSharedData) AccountSourceError :=
  match get_account_ref a pubkey with
  | Some account => Ok (Some account)
  | None =>
      if bool_decide (pubkey ∈ removed (cache a)) then Ok None
      else source_get_account (source a) pubkey
  end.

Definition get_account (a : Accounts) (pubkey : Address) : option AccountSharedData :=
  match try_get_account a pubkey with Ok o => o | Err _ => None end.

Definition get_accounts_batch (a : Accounts) (pubkeys : list Address) :
    result (list (option AccountSharedData)) AccountSourceError :=
  source_get_accounts (source a) pubkeys.

Definition minimum_balance_for_rent_exemption (a : Accounts) (data_len : Z) : Z :=
  Z.max 1 (rent_minimum_balance (default rent_default (sc_get_rent (sysvar_cache a))) data_len).

Definition current_slot (a : Accounts) : Z :=
  clock_slot (default Clock_default (sc_get_clock (sysvar_cache a))).

Definition has_program_cache_entry (s : St) (program_id : Address) : bool :=
  match pc_find (cache_at s.2 (programs_cache s.1)) program_id with
  | Some _ => true
  | None => false
  end.

(** The program accounts of the overlay, in the map's iteration order. *)
Definition program_accounts (a : Accounts) : list (Address * AccountSharedData) :=
  filter (fun p => is_cached_program_account p.1 p.2 = true) (map_to_list (inner (cache a))).

Definition program_entries_snapshot (s : St) : list Entry :=
  omap (fun p => pc_find (cache_at s.2 (programs_cache s.1)) p.1) (program_accounts s.1).

(** ** The journal *)

Definition record_journal (pubkey : Address) (a : Accounts) : Accounts :=
  with_journal
    (journal a ++ [mkJournalEntry pubkey (inner (cache a) !! pubkey)
                     (bool_decide (pubkey ∈ removed (cache a)))]) a.

Definition checkpoint (a : Accounts) : StateCheckpoint := mkCheckpoint (length (journal a)).

(** The body of the [while] loop of [rollback]. *)
Definition undo_entry (e : JournalEntry) (a : Accounts) : Accounts :=
  let a1 := match je_previous e with
            | Some account => put_inner (je_address e) account a
            | None => del_inner (je_address e) a
            end in
  if je_was_removed e then put_removed (je_address e) a1 else del_removed (je_address e) a1.

(** The loop; every iteration pops one entry, so the journal's length is enough
    fuel. *)
Fixpoint rollback_loop (fuel : nat) (cp : StateCheckpoint) (a : Accounts) : Accounts :=
  match fuel with
  | O => a
  | S fuel' =>
      if checkpoint_index cp <? length (journal a) then
        match last (journal a) with
        | None => a
        | Some e =>
            rollback_loop fuel' cp
              (undo_entry e (with_journal (take (length (journal a) - 1) (journal a)) a))
        end
      else a
  end.

Definition rollback (cp : StateCheckpoint) (a : Accounts) : Accounts :=
  rollback_loop (length (journal a)) cp a.

(** [commit_source]: one change per journal entry, stopping at a sink error. *)
Definition commit_source {S E} (sink : StateChangeSink S E) (a : Accounts) : M S E unit :=
  sfor (journal a) (fun e =>
    sink (mkAccountChange (je_address e) (je_previous e) (get_account_ref a (je_address e)))).

(** ** Overlay writes *)

(** [add_account_no_checks] and [add_builtin_account]. *)
Definition add_account_no_checks (pubkey : Address) (account : AccountSharedData)
    (a : Accounts) : Accounts :=
  put_inner pubkey account (del_removed pubkey (record_journal pubkey a)).

Definition add_builtin_account (address : Address) (data : AccountSharedData)
    (a : Accounts) : Accounts :=
  put_inner address data (del_removed address (record_journal address a)).

(** The loop of [prewarm] that collects the addresses to fetch, with its [seen]
    set. *)
Fixpoint collect_missing (a : Accounts) (addrs : list Address) (seen : gset Address) :
    list Address :=
  match addrs with
  | [] => []
  | addr :: rest =>
      if bool_decide (is_Some (inner (cache a) !! addr)) ||
         bool_decide (addr ∈ removed (cache a)) then collect_missing a rest seen
      else if bool_decide (addr ∈ seen) then collect_missing a rest seen
      else addr :: collect_missing a rest ({[addr]} ∪ seen)
  end.

(** The insertion loop of [prewarm]. *)
Fixpoint insert_loaded (l : list (Address * option AccountSharedData)) (a : Accounts) :
    Accounts :=
  match l with
  | [] => a
  | (addr, Some account) :: l' => insert_loaded l' (add_account_no_checks addr account a)
  | (_, None) :: l' => insert_loaded l' a
  end.

Definition prewarm (addrs : list Address) : M Accounts DbError unit := fun a =>
  let missing := collect_missing a addrs ∅ in
  match missing with
  | [] => (Ok tt, a)
  | _ :: _ =>
      match source_get_accounts (source a) missing with
      | Err e => (Err (db_from_account_source e), a)
      | Ok loaded => (Ok tt, insert_loaded (zip missing loaded) a)
      end
  end.

(** ** Derived caches *)

(** [rebuild_sysvar_cache]. *)
Definition rebuild_sysvar_cache (s : St) : St :=
  let '(a, w) := s in
  let fallback_slot := pc_slot (cache_at w (programs_cache a)) in
  let sysvars := sc_fill (fun k => acc_data <$> inner (cache a) !! k) in
  let slot := match sc_get_clock sysvars with
              | Some clock => clock_slot clock
              | None => fallback_slot
              end in
  (with_sysvar_cache sysvars a, update_cache (programs_cache a) (pc_set_slot slot) w).

Definition remove_account (pubkey : Address) (s : St) : St :=
  let '(a, w) := s in
  let was_managed_sysvar := is_managed_sysvar_account pubkey in
  let a1 := put_removed pubkey (del_inner pubkey (record_journal pubkey a)) in
  let w1 := update_cache (programs_cache a) (pc_remove_entry pubkey) w in
  if was_managed_sysvar then rebuild_sysvar_cache (a1, w1) else (a1, w1).

Definition replenish_program_cache (program_id : Address) (program : Entry) (s : St) : St :=
  (s.1, update_cache (programs_cache s.1) (pc_replenish program_id program) s.2).

(** ** The program load path *)

(** [data.get(n..)]. *)
Definition slice_from (n : nat) (data : list byte) : option (list byte) :=
  if (n <=? length data)%nat then Some (drop n data) else None.

(** [load_program_uncompiled] of [programs/tiering.rs]. *)
Definition load_program_uncompiled (loader_key : Address) (env : RuntimeEnv)
    (elf_bytes : list byte) : result Entry InstructionError :=
  match executable_load elf_bytes env with
  | None => Err InvalidAccountData
  | Some exe =>
      if executable_verify exe then
        match entry_owner_try_from loader_key with
        | None => Err IncorrectProgramId
        | Some owner => Ok (loaded_entry exe owner IMMEDIATE_DEPLOYMENT_SLOT)
        end
      else Err InvalidAccountData
  end.

(** What the first half of [load_program] resolves: bytes with their loader, or
    the per-slot tombstone of a program whose programdata account is missing. *)
Inductive Resolved : Type :=
| ResolvedElf (elf_bytes : list byte) (loader_key : Address)
| ResolvedClosed.

Definition resolve_elf (a : Accounts) (program_account : AccountSharedData) :
    result Resolved InstructionError :=
  let owner := acc_owner program_account in
  if bool_decide (owner = bpf_loader_id) || bool_decide (owner = bpf_loader_deprecated_id) then
    Ok (ResolvedElf (acc_data program_account) owner)
  else if bool_decide (owner = bpf_loader_upgradeable_id) then
    match upgradeable_state (acc_data program_account) with
    | Some (LoaderProgram programdata_address) =>
        match get_account a programdata_address with
        | None => Ok ResolvedClosed
        | Some account =>
            match slice_from size_of_programdata_metadata (acc_data account) with
            | Some programdata => Ok (ResolvedElf programdata owner)
            | None => Err InvalidAccountData
            end
        end
    | _ => Err InvalidAccountData
    end
  else if bool_decide (owner = loader_v4_id) then
    match slice_from loader_v4_program_data_offset (acc_data program_account) with
    | Some elf_bytes => Ok (ResolvedElf elf_bytes loader_v4_id)
    | None => Err InvalidAccountData
    end
  else Err IncorrectProgramId.

(** The load itself on a store miss, by policy and target. *)
Definition build_entry (a : Accounts) (elf_bytes : list byte) (loader_key : Address) :
    result Entry InstructionError :=
  let program_runtime := get_env_for_execution (environments a).2 in
  if requires_uncompiled_load (jit_policy a) && x86_64 then
    load_program_uncompiled loader_key program_runtime elf_bytes
  else
    ok_or (cache_entry_load loader_key program_runtime IMMEDIATE_DEPLOYMENT_SLOT elf_bytes)
      InvalidAccountData.

Definition load_program (program_account : AccountSharedData) : M St InstructionError Entry :=
  fun s =>
  let '(a, w) := s in
  match sc_get_clock (sysvar_cache a) with
  | None => (Err InvalidAccountData, s)
  | Some clock =>
      match resolve_elf a program_account with
      | Err e => (Err e, s)
      | Ok ResolvedClosed => (Ok (new_closed_tombstone (clock_slot clock)), s)
      | Ok (ResolvedElf elf_bytes loader_key) =>
          let store_key :=
            content_key (environments a).1 elf_bytes loader_key IMMEDIATE_DEPLOYMENT_SLOT in
          match store_get store_key (w_store w) with
          | (Some resident, st) => (Ok resident, (a, set_store st w))
          | (None, st) =>
              match build_entry a elf_bytes loader_key with
              | Err e => (Err e, (a, set_store st w))
              | Ok entry =>
                  let '(published, st') := store_insert store_key entry st in
                  (Ok published, (a, set_store st' w))
              end
          end
      end
  end.

(** [try_program_elf_bytes]: overlay only. *)
Definition try_program_elf_bytes (a : Accounts) (program_key : Address) :
    result (list byte) InstructionError :=
  match get_account_ref a program_key with
  | None => Err MissingAccount
  | Some program_account =>
      let owner := acc_owner program_account in
      if bool_decide (owner = bpf_loader_id) || bool_decide (owner = bpf_loader_deprecated_id)
      then Ok (acc_data program_account)
      else if bool_decide (owner = bpf_loader_upgradeable_id) then
        match upgradeable_state (acc_data program_account) with
        | Some (LoaderProgram programdata_address) =>
            match get_account_ref a programdata_address with
            | None => Err MissingAccount
            | Some account =>
                ok_or (slice_from size_of_programdata_metadata (acc_data account))
                  InvalidAccountData
            end
        | _ => Err InvalidAccountData
        end
      else if bool_decide (owner = loader_v4_id) then
        ok_or (slice_from loader_v4_program_data_offset (acc_data program_account))
          InvalidAccountData
      else Err IncorrectProgramId
  end.

(** ** Rebuilding the program cache *)

(** The builtins whose account is in the overlay, replenished into [c]. *)
Definition replenish_builtins (a : Accounts) (c : PCache) : PCache :=
  foldl (fun c b =>
    let '(program_id, register_fn, _, _) := b in
    if bool_decide (is_Some (inner (cache a) !! program_id))
    then pc_replenish program_id (new_builtin register_fn) c else c) c BUILTINS.

(** The loop over the program accounts; the cache under construction is a local
    of the method. *)
Fixpoint load_all (l : list (Address * AccountSharedData)) (c : PCache) :
    M St InstructionError PCache :=
  match l with
  | [] => sret c
  | (pubkey, account) :: l' =>
      let! loaded_program := load_program account in
      load_all l' (pc_replenish pubkey loaded_program c)
  end.

Definition rebuild_program_cache : M St InstructionError unit := fun s =>
  let a := s.1 in
  let slot := clock_slot (default Clock_default (sc_get_clock (sysvar_cache a))) in
  let c := replenish_builtins a (pc_new slot) in
  sbind (load_all (program_accounts a) c)
    (fun c' => smodify (fun s' => (s'.1, set_cache (programs_cache s'.1) c' s'.2))) s.

(** ** [add_account] *)

(** [validate_sysvar_account]. *)
Definition validate_sysvar_account (pubkey : Address) (account : AccountSharedData) :
    result unit InvalidSysvarDataError :=
  let data := acc_data account in
  let check (b : bool) (e : InvalidSysvarDataError) : result unit InvalidSysvarDataError :=
    if b then Ok tt else Err e in
  if bool_decide (pubkey = CLOCK_ID) then check (bool_decide (is_Some (decode_clock data))) InvalidClock
  else if bool_decide (pubkey = EPOCH_REWARDS_ID) then
    check (decodes_epoch_rewards data) InvalidEpochRewards
  else if bool_decide (pubkey = EPOCH_SCHEDULE_ID) then
    check (decodes_epoch_schedule data) InvalidEpochSchedule
  else if bool_decide (pubkey = FEES_ID) then check (decodes_fees data) InvalidFees
  else if bool_decide (pubkey = LAST_RESTART_SLOT_ID) then
    check (decodes_last_restart_slot data) InvalidLastRestartSlot
  else if bool_decide (pubkey = RECENT_BLOCKHASHES_ID) then
    check (decodes_recent_blockhashes data) InvalidRecentBlockhashes
  else if bool_decide (pubkey = RENT_ID) then
    check (bool_decide (is_Some (decode_rent data))) InvalidRent
  else if bool_decide (pubkey = SLOT_HASHES_ID) then
    check (bool_decide (is_Some (decode_slot_hashes data))) InvalidSlotHashes
  else if bool_decide (pubkey = STAKE_HISTORY_ID) then
    check (decodes_stake_history data) InvalidStakeHistory
  else Ok tt.

(** The overlay write of [add_account]: zero lamports is a removal. *)
Definition write_overlay (pubkey : Address) (account : AccountSharedData) (a : Accounts) :
    Accounts :=
  if (lamports account =? 0)%Z then put_removed pubkey (del_inner pubkey a)
  else put_inner pubkey account (del_removed pubkey a).

(** What [add_account] checks and loads before it touches the overlay. *)
Definition add_account_prepare (pubkey : Address) (account : AccountSharedData) :
    M St HPSVMError (option Entry) := fun s =>
  let has_cached_program :=
    negb (lamports account =? 0)%Z && is_cached_program_account pubkey account in
  match (if is_managed_sysvar_account pubkey && negb (lamports account =? 0)%Z
         then validate_sysvar_account pubkey account else Ok tt) with
  | Err e => (Err (InvalidSysvarData e), s)
  | Ok _ =>
      if has_cached_program then
        match load_program account s with
        | (Ok entry, s') => (Ok (Some entry), s')
        | (Err e, s') => (Err (HInstruction e), s')
        end
      else (Ok None, s)
  end.

Definition add_account (pubkey : Address) (account : AccountSharedData) :
    M St HPSVMError unit := fun s =>
  let had_cached_program :=
    match inner (cache s.1) !! pubkey with
    | Some existing => is_cached_program_account pubkey existing
    | None => false
    end in
  sbind (add_account_prepare pubkey account) (fun program_entry s1 =>
    let s2 := (write_overlay pubkey account (record_journal pubkey s1.1), s1.2) in
    let s3 := if is_managed_sysvar_account pubkey then rebuild_sysvar_cache s2 else s2 in
    match program_entry with
    | Some loaded_program =>
        (Ok tt, (s3.1, update_cache (programs_cache s3.1) (pc_replenish pubkey loaded_program) s3.2))
    | None =>
        if had_cached_program then
          let '(r, s4) := rebuild_program_cache s3 in (map_err HInstruction r, s4)
        else (Ok tt, s3)
    end) s.

(** ** [sync_accounts] *)

Definition is_programdata (p : Address * AccountSharedData) : bool :=
  bool_decide (acc_owner p.2 = bpf_loader_upgradeable_id) &&
  match acc_data p.2 with
  | [] => false
  | byte :: _ => bool_decide (byte = x03)
  end.

(** [slice::swap]. *)
Definition swap {A} (i j : nat) (l : list A) : list A :=
  match l !! i, l !! j with
  | Some x, Some y => <[j := x]> (<[i := y]> l)
  | _, _ => l
  end.

(** The two-pointer loop: [read] runs over [start .. start + n - 1]. *)
Fixpoint partition_loop (n : nat) (read write : nat)
    (accounts : list (Address * AccountSharedData)) : list (Address * AccountSharedData) :=
  match n with
  | O => accounts
  | S n' =>
      match accounts !! read with
      | None => accounts
      | Some p =>
          if is_programdata p then
            partition_loop n' (S read) (S write)
              (if (write =? read)%nat then accounts else swap write read accounts)
          else partition_loop n' (S read) write accounts
      end
  end.

Definition partition_programdata (accounts : list (Address * AccountSharedData)) :
    list (Address * AccountSharedData) :=
  partition_loop (length accounts) 0 0 accounts.

Definition sync_accounts (accounts : list (Address * AccountSharedData)) :
    M St HPSVMError unit :=
  sfor (partition_programdata accounts) (fun p => add_account p.1 p.2).

(** ** [prewarm_programs] *)

Definition to_resolve (s : St) (program_ids : list Address) :
    list (Address * AccountSharedData) :=
  omap (fun program_id =>
    if has_program_cache_entry s program_id then None
    else match inner (cache s.1) !! program_id with
         | None => None
         | Some account =>
             if is_cached_program_account program_id account
             then Some (program_id, account) else None
         end) program_ids.

Definition prewarm_programs (program_ids : list Address) : M St DbError unit := fun s =>
  sfor (to_resolve s program_ids) (fun p s1 =>
    match load_program p.2 s1 with
    | (Ok entry, s2) => (Ok tt, replenish_program_cache p.1 entry s2)
    | (Err e, s2) => (Err (db_non_fatal (mkPrewarmProgramError p.1 e)), s2)
    end) s.

(** ** Lookup tables *)
Section LookupTableLoading.
Context {lt : LookupTables}.

Definition try_load_lookup_table_addresses (a : Accounts) (l : MessageAddressTableLookup) :
    result LoadedAddresses LookupTableLoadError :=
  match try_get_account a (tl_account_key l) with
  | Err source => Err (LtAccountSource (mkLoadFailure (tl_account_key l) source))
  | Ok None => Err (LtAddressLookup LookupTableAccountNotFound)
  | Ok (Some table_account) =>
      if bool_decide (acc_owner table_account = address_lookup_table_id) then
        match sc_get_slot_hashes (sysvar_cache a) with
        | None => Err (LtAddressLookup LookupInvalidAccountData)
        | Some slot_hashes =>
            match sc_get_clock (sysvar_cache a) with
            | None => Err (LtAddressLookup LookupInvalidAccountData)
            | Some clock =>
                match lookup_table_deserialize (acc_data table_account) with
                | None => Err (LtAddressLookup LookupInvalidAccountData)
                | Some table =>
                    let lookup ixs :=
                      map_err LtAddressLookup
                        (lookup_table_lookup table (clock_slot clock) ixs slot_hashes) in
                    let? writable := lookup (tl_writable_indexes l) in
                    let? readonly := lookup (tl_readonly_indexes l) in
                    Ok (mkLoadedAddresses writable readonly)
                end
            end
        end
      else Err (LtAddressLookup LookupInvalidAccountOwner)
  end.

Definition load_lookup_table_addresses (a : Accounts) (l : MessageAddressTableLookup) :
    result LoadedAddresses AddressLookupError :=
  map_err (fun e => match e with
                    | LtAddressLookup error => error
                    | LtAccountSource _ => LookupTableAccountNotFound
                    end) (try_load_lookup_table_addresses a l).

(** [AddressLoader for &Accounts]. *)
Definition load_addresses (a : Accounts) (lookups : list MessageAddressTableLookup) :
    result LoadedAddresses AddressLoaderError :=
  rmap loaded_collect
    (traverse (fun l => map_err into_address_loader_error (load_lookup_table_addresses a l))
       lookups).

(** [AccountSourceTrackingAddressLoader]: the [RefCell] of the first failure is
    the state. *)
Definition record_failure (failure : AccountSourceLoadFailure)
    (current : option AccountSourceLoadFailure) : option AccountSourceLoadFailure :=
  match current with None => Some failure | Some _ => current end.

Definition tracking_lookup (a : Accounts) (l : MessageAddressTableLookup) :
    M (option AccountSourceLoadFailure) AddressLoaderError LoadedAddresses := fun cell =>
  match try_load_lookup_table_addresses a l with
  | Ok loaded => (Ok loaded, cell)
  | Err (LtAccountSource failure) =>
      (Err LoaderLookupTableAccountNotFound, record_failure failure cell)
  | Err (LtAddressLookup error) => (Err (into_address_loader_error error), cell)
  end.

Fixpoint tracking_collect (a : Accounts) (lookups : list MessageAddressTableLookup) :
    M (option AccountSourceLoadFailure) AddressLoaderError (list LoadedAddresses) :=
  match lookups with
  | [] => sret []
  | l :: rest =>
      let! x := tracking_lookup a l in
      let! xs := tracking_collect a rest in
      sret (x :: xs)
  end.

(** [load_addresses] on a loader whose cell is [cell]; [new] starts it at [None]
    and [take_failure] reads it. *)
Definition tracking_load_addresses (a : Accounts) (lookups : list MessageAddressTableLookup)
    (cell : option AccountSourceLoadFailure) :
    result LoadedAddresses AddressLoaderError * option AccountSourceLoadFailure :=
  let '(r, cell') := tracking_collect a lookups cell in (rmap loaded_collect r, cell').

End LookupTableLoading.

(** ** Configuration *)

Definition set_account_source (s : AccountSource) (a : Accounts) : Accounts := with_source s a.
Definition replace_account_source (s : AccountSource) (a : Accounts) :
    AccountSource * Accounts := (source a, with_source s a).

(** A fresh [Arc] around new environments, or an already shared one. *)
Definition set_runtime_environments (fresh_ptr : positive) (envs : RuntimeEnvs)
    (a : Accounts) : Accounts := with_environments (fresh_ptr, envs) a.
Definition set_runtime_environments_arc (envs : positive * RuntimeEnvs) (a : Accounts) :
    Accounts := with_environments envs a.
Definition sync_jit_policy (policy : JitPolicy) (a : Accounts) : Accounts :=
  with_policy policy a.

End Accounts.
Arguments World {_ _ _}.
Arguments Accounts {_ _}.
Arguments St {_ _ _ _}.
