(* ===== verification/Overlay.v ===== *)
(** * Facts about the account overlay and its journal

    The undo journal restores the overlay exactly, whatever sequence of
    operations ran since the checkpoint; an address is never both cached and
    tombstoned; what a read sees after a write; prewarming is invisible to
    readers; the partition of [sync_accounts]; the two address loaders agree. *)

From Stdlib Require Import ZArith Strings.Byte Permutation.
From stdpp Require Import base tactics option list sets gmap fin_maps strings.
From S2P Require Import Prelude.
From S2P Require Import Types.
From S2P Require Import AccountSource.
From S2P Require Import Errors.
From S2P Require Import Lru.
From S2P Require Import Runtime.
From S2P Require Import AccountsDb.

Section Overlay.
Context {tgt : Target} {ids : SdkIds} {sv : SysvarRuntime} {pr : ProgramRuntime}
        {pc : ProgramCacheOps} {Lst : Lru ProgramEntryKey Entry}.

(** ** Undoing journal entries *)

(** Undoing one entry, on the overlay alone. *)
Definition undo_cache (e : JournalEntry) (c : CacheDb) : CacheDb :=
  mkCacheDb
    (match je_previous e with
     | Some account => <[je_address e := account]> (inner c)
     | None => delete (je_address e) (inner c)
     end)
    (if je_was_removed e then {[je_address e]} ∪ removed c else removed c ∖ {[je_address e]}).

Lemma undo_entry_cache e a : undo_entry e a = with_cache (undo_cache e (cache a)) a.
Proof. unfold undo_entry, undo_cache. by destruct (je_previous e), (je_was_removed e). Qed.

(** The last recorded entry is undone first. *)
Definition undo_all (l : list JournalEntry) (c : CacheDb) : CacheDb := foldr undo_cache c l.

Lemma undo_all_app l1 l2 c : undo_all (l1 ++ l2) c = undo_all l1 (undo_all l2 c).
Proof. apply foldr_app. Qed.

(** The loop of [rollback] in closed form. *)
Lemma rollback_loop_spec fuel cp a :
  length (journal a) <= fuel ->
  rollback_loop fuel cp a =
  with_journal (take (checkpoint_index cp) (journal a))
    (with_cache (undo_all (drop (checkpoint_index cp) (journal a)) (cache a)) a).
Proof.
  revert a. induction fuel as [|fuel IH]; intros a Hlen; simpl.
  - destruct a as [? ? ? ? ? ? []]; simpl in *; [|lia]. by rewrite take_nil, drop_nil.
  - destruct (Nat.ltb_spec (checkpoint_index cp) (length (journal a))) as [Hlt|Hge].
    + destruct (last (journal a)) as [e|] eqn:Hl.
      * apply last_Some in Hl as [l Hl]. rewrite Hl, length_app in Hlt, Hlen |- *.
        simpl in Hlt, Hlen. simpl. rewrite (Nat.add_sub (length l) 1), take_app_length.
        rewrite IH; rewrite undo_entry_cache; [|simpl; lia]. simpl.
        rewrite take_app_le, drop_app_le by lia. by rewrite undo_all_app.
      * apply last_None in Hl. rewrite Hl in Hlt. simpl in Hlt. lia.
    + rewrite take_ge, drop_ge by lia. by destruct a.
Qed.

Lemma rollback_spec cp a :
  rollback cp a =
  with_journal (take (checkpoint_index cp) (journal a))
    (with_cache (undo_all (drop (checkpoint_index cp) (journal a)) (cache a)) a).
Proof. by apply rollback_loop_spec. Qed.

(** ** Extensions of a database

    [extends a a']: the journal of [a'] continues that of [a], and undoing the
    new entries gives the overlay of [a] back. *)
Definition extends (a a' : Accounts) : Prop :=
  exists new, journal a' = journal a ++ new /\ undo_all new (cache a') = cache a.

#[local] Instance extends_preorder : PreOrder extends.
Proof.
  split.
  - intros a. exists []. by rewrite app_nil_r.
  - intros a b c (l1 & Hj1 & Hu1) (l2 & Hj2 & Hu2). exists (l1 ++ l2).
    rewrite Hj2, Hj1, undo_all_app, Hu2, (assoc_L (++)). done.
Qed.

Lemma extends_frame a a' : journal a' = journal a -> cache a' = cache a -> extends a a'.
Proof. intros Hj Hc. exists []. by rewrite app_nil_r. Qed.

Lemma extends_rollback a a' :
  extends a a' ->
  cache (rollback (checkpoint a) a') = cache a /\
  journal (rollback (checkpoint a) a') = journal a.
Proof.
  intros (l & Hj & Hu). rewrite rollback_spec. simpl.
  rewrite Hj, take_app_length, drop_app_length. done.
Qed.

(** Any overlay that differs from [c] at one address only is taken back to [c]
    by the entry recorded for that address. *)
Lemma undo_recorded k (c c' : CacheDb) :
  (forall j, j <> k -> inner c' !! j = inner c !! j) ->
  (forall j, j <> k -> j ∈ removed c' <-> j ∈ removed c) ->
  undo_cache (mkJournalEntry k (inner c !! k) (bool_decide (k ∈ removed c))) c' = c.
Proof.
  intros Hi Hr. destruct c as [i r]. unfold undo_cache. simpl in *. f_equal.
  - apply map_eq. intros j. destruct (decide (j = k)) as [->|Hne].
    + destruct (i !! k) eqn:E; [by rewrite lookup_insert_eq|by rewrite lookup_delete_eq].
    + destruct (i !! k) eqn:E.
      * rewrite lookup_insert_ne by done. by apply Hi.
      * rewrite lookup_delete_ne by done. by apply Hi.
  - apply set_eq. intros j. destruct (decide (j = k)) as [->|Hne].
    + case_bool_decide; set_solver.
    + specialize (Hr j Hne). case_bool_decide; set_solver.
Qed.

(** Recording [k] and then changing the overlay at [k] only is an extension. *)
Lemma extends_record k a c' :
  (forall j, j <> k -> inner c' !! j = inner (cache a) !! j) ->
  (forall j, j <> k -> j ∈ removed c' <-> j ∈ removed (cache a)) ->
  extends a (with_cache c' (record_journal k a)).
Proof.
  intros Hi Hr. eexists. split; [reflexivity|]. simpl. by apply undo_recorded.
Qed.

Lemma extends_no_checks k acc a : extends a (add_account_no_checks k acc a).
Proof.
  apply (extends_record k a); simpl; intros j Hj.
  - by rewrite lookup_insert_ne.
  - set_solver.
Qed.

Lemma extends_write k acc a : extends a (write_overlay k acc (record_journal k a)).
Proof.
  unfold write_overlay. case_match.
  - apply (extends_record k a); simpl; intros j Hj.
    + by rewrite lookup_delete_ne.
    + set_solver.
  - apply (extends_no_checks k acc).
Qed.

Lemma extends_insert_loaded l a : extends a (insert_loaded l a).
Proof.
  revert a. induction l as [|[k [acc|]] l IH]; intros a; simpl; [done| |done].
  etrans; [apply extends_no_checks|apply IH].
Qed.

Lemma prewarm_extends addrs a : extends a (prewarm addrs a).2.
Proof.
  unfold prewarm. case_match; [done|]. case_match; [|done]. apply extends_insert_loaded.
Qed.

(** ** What every operation leaves alone

    [frame a a']: only the overlay, the journal and the sysvar cache may have
    changed. *)
Definition frame (a a' : Accounts) : Prop :=
  source a' = source a /\ programs_cache a' = programs_cache a /\
  environments a' = environments a /\ jit_policy a' = jit_policy a.

#[local] Instance frame_preorder : PreOrder frame.
Proof. unfold frame. split; [intros a; done|]. intros a b c; intuition congruence. Qed.

Lemma load_program_accounts acc s : (load_program acc s).2.1 = s.1.
Proof.
  destruct s as [a w]. unfold load_program.
  repeat (case_match; simplify_eq/=; try done).
Qed.

Lemma load_program_caches acc s : w_caches (load_program acc s).2.2 = w_caches s.2.
Proof.
  destruct s as [a w]. unfold load_program.
  repeat (case_match; simplify_eq/=; try done).
Qed.

Lemma load_all_accounts l c s :
  (load_all l c s).2.1 = s.1 /\ w_caches (load_all l c s).2.2 = w_caches s.2.
Proof.
  revert c s. induction l as [|[k acc] l IH]; intros c s; simpl; [done|].
  unfold sbind. pose proof (load_program_accounts acc s) as Ha.
  pose proof (load_program_caches acc s) as Hw.
  destruct (load_program acc s) as [[e|e] s']; simpl in *; [|done].
  destruct (IH (pc_replenish k e c) s') as [-> ->]. done.
Qed.

Lemma rebuild_program_cache_accounts s : (rebuild_program_cache s).2.1 = s.1.
Proof.
  unfold rebuild_program_cache, sbind.
  destruct (load_all_accounts (program_accounts s.1)
    (replenish_builtins s.1 (pc_new (clock_slot (default Clock_default
       (sc_get_clock (sysvar_cache s.1)))))) s) as [H _].
  destruct (load_all _ _ s) as [[c|e] s']; done.
Qed.

Lemma rebuild_sysvar_cache_frame s :
  cache (rebuild_sysvar_cache s).1 = cache s.1 /\
  journal (rebuild_sysvar_cache s).1 = journal s.1 /\ frame s.1 (rebuild_sysvar_cache s).1.
Proof. by destruct s. Qed.

Lemma add_account_prepare_accounts k acc s : (add_account_prepare k acc s).2.1 = s.1.
Proof.
  unfold add_account_prepare. pose proof (load_program_accounts acc s).
  repeat (case_match; simplify_eq/=; try done).
Qed.

(** The database after a call of [add_account] that passed its checks: the
    overlay write, journaled, and possibly a new sysvar cache. *)
Lemma add_account_overlay k acc s :
  ((add_account k acc s).2.1 = s.1 /\ is_err (add_account k acc s).1 = true) \/
  let a' := write_overlay k acc (record_journal k s.1) in
  cache (add_account k acc s).2.1 = cache a' /\
  journal (add_account k acc s).2.1 = journal a' /\ frame s.1 (add_account k acc s).2.1.
Proof.
  unfold add_account, sbind. pose proof (add_account_prepare_accounts k acc s) as Hp.
  destruct (add_account_prepare k acc s) as [[o|e] [a w]]; simpl in *; [|left; by subst].
  right. subst a. set (a2 := write_overlay k acc (record_journal k s.1)).
  set (s3 := if is_managed_sysvar_account k then _ else _).
  assert (Hw : frame s.1 a2) by (subst a2; unfold write_overlay; by case_match).
  assert (cache s3.1 = cache a2 /\ journal s3.1 = journal a2 /\ frame s.1 s3.1) as H3.
  { subst s3. case_match; [|done]. done. }
  destruct o; [done|]. case_match; [|done].
  pose proof (rebuild_program_cache_accounts s3) as Hr.
  destruct (rebuild_program_cache s3) as [r s4]. simpl in *. by rewrite Hr.
Qed.

Lemma add_account_extends k acc s : extends s.1 (add_account k acc s).2.1.
Proof.
  destruct (add_account_overlay k acc s) as [[-> _]|(Hc & Hj & _)]; [done|].
  etrans; [apply (extends_write k acc)|]. by apply extends_frame.
Qed.

Lemma remove_account_overlay k s :
  cache (remove_account k s).1 = cache (put_removed k (del_inner k (record_journal k s.1))) /\
  journal (remove_account k s).1 = journal (record_journal k s.1) /\
  frame s.1 (remove_account k s).1.
Proof. destruct s as [a w]. unfold remove_account. by case_match. Qed.

Lemma remove_account_extends k s : extends s.1 (remove_account k s).1.
Proof.
  destruct (remove_account_overlay k s) as (Hc & Hj & _).
  trans (put_removed k (del_inner k (record_journal k s.1))); [|by apply extends_frame].
  apply (extends_record k s.1); simpl; intros j Hj'; [by rewrite lookup_delete_ne|set_solver].
Qed.

Lemma sync_accounts_extends l s : extends s.1 (sync_accounts l s).2.1.
Proof.
  unfold sync_accounts.
  apply (sfor_rel (fun s1 s2 : St => extends s1.1 s2.1)); [done| |].
  - intros s1 s2 s3 H1 H2. by etrans.
  - intros [k acc] s1 _. apply add_account_extends.
Qed.

Lemma prewarm_programs_accounts l s : (prewarm_programs l s).2.1 = s.1.
Proof.
  unfold prewarm_programs. symmetry.
  apply (sfor_rel (fun s1 s2 : St => s1.1 = s2.1)); [done|congruence|].
  intros [k acc] s1 _. simpl. pose proof (load_program_accounts acc s1).
  by destruct (load_program acc s1) as [[e|e] s2].
Qed.

(** ** Sequences of operations *)

(** The methods with an [&mut self] receiver, with their arguments. *)
Inductive db_op : Type :=
| OpAddAccount (pubkey : Address) (account : AccountSharedData)
| OpAddNoChecks (pubkey : Address) (account : AccountSharedData)
| OpAddBuiltin (address : Address) (data : AccountSharedData)
| OpRemove (pubkey : Address)
| OpSync (accounts : list (Address * AccountSharedData))
| OpPrewarm (addrs : list Address)
| OpPrewarmPrograms (program_ids : list Address)
| OpReplenish (program_id : Address) (program : Entry)
| OpRebuildSysvars
| OpRebuildPrograms
| OpSetSource (s : AccountSource)
| OpSetEnvironments (envs : positive * RuntimeEnvs)
| OpSyncPolicy (policy : JitPolicy)
| OpRollback (cp : StateCheckpoint).

(** The state after the call; what it returns does not matter here, a failed call
    keeps what it mutated. *)
Definition run_op (o : db_op) (s : St) : St :=
  match o with
  | OpAddAccount k acc => (add_account k acc s).2
  | OpAddNoChecks k acc => (add_account_no_checks k acc s.1, s.2)
  | OpAddBuiltin k acc => (add_builtin_account k acc s.1, s.2)
  | OpRemove k => remove_account k s
  | OpSync l => (sync_accounts l s).2
  | OpPrewarm l => ((prewarm l s.1).2, s.2)
  | OpPrewarmPrograms l => (prewarm_programs l s).2
  | OpReplenish k e => replenish_program_cache k e s
  | OpRebuildSysvars => rebuild_sysvar_cache s
  | OpRebuildPrograms => (rebuild_program_cache s).2
  | OpSetSource src => (set_account_source src s.1, s.2)
  | OpSetEnvironments e => (set_runtime_environments_arc e s.1, s.2)
  | OpSyncPolicy p => (sync_jit_policy p s.1, s.2)
  | OpRollback cp => (rollback cp s.1, s.2)
  end.

(** Steps that do not roll back past the journal index [n]. *)
Inductive db_step (n : nat) : St -> St -> Prop :=
| step_op o s :
    (forall cp, o = OpRollback cp -> n <= checkpoint_index cp) -> db_step n s (run_op o s).

Lemma rollback_extends a a' cp :
  extends a a' -> length (journal a) <= checkpoint_index cp ->
  extends a (rollback cp a').
Proof.
  intros (l & Hj & Hu) Hle. rewrite rollback_spec.
  exists (take (checkpoint_index cp - length (journal a)) l). simpl. split.
  - by rewrite Hj, take_app_ge by lia.
  - rewrite Hj, drop_app_ge by lia. by rewrite <- undo_all_app, take_drop.
Qed.

Lemma run_op_extends o s :
  (forall cp, o <> OpRollback cp) -> extends s.1 (run_op o s).1.
Proof.
  intros Hnr. destruct o; simpl; try (by apply extends_frame).
  - apply add_account_extends.
  - apply extends_no_checks.
  - apply (extends_no_checks address data).
  - apply remove_account_extends.
  - apply sync_accounts_extends.
  - apply prewarm_extends.
  - by rewrite prewarm_programs_accounts.
  - destruct s. by apply extends_frame.
  - by rewrite rebuild_program_cache_accounts.
  - by destruct (Hnr cp).
Qed.

Lemma db_steps_extend n a s s' :
  n = length (journal a) -> extends a s.1 -> rtc (db_step n) s s' -> extends a s'.1.
Proof.
  intros Hn Hext Hsteps. revert Hext. induction Hsteps as [s|s1 s2 s3 [o s Ho] _ IH]; [done|].
  intros Hext. apply IH. destruct o; try (etrans; [exact Hext|by apply run_op_extends]).
  apply rollback_extends; [done|]. rewrite <- Hn. by eapply Ho.
Qed.

(** C1: the undo journal is exact.  Take a checkpoint, run any sequence of
    database operations (adds, removals, syncs, prewarms, rebuilds, changes of
    source or environment, failed calls included, and nested rollbacks to later
    checkpoints), then roll back: the overlay (cached accounts and tombstones)
    and the journal are those of the checkpoint, entry for entry. *)
Theorem rollback_restores_checkpoint (s s' : St) :
  rtc (db_step (checkpoint_index (checkpoint s.1))) s s' ->
  cache (rollback (checkpoint s.1) s'.1) = cache s.1 /\
  journal (rollback (checkpoint s.1) s'.1) = journal s.1.
Proof.
  intros Hsteps. apply extends_rollback.
  by apply (db_steps_extend (length (journal s.1)) s.1 s s').
Qed.

(** Rolling back twice to a checkpoint is rolling back once, rolling back
    to the current end is a no-op, and so is a stale checkpoint beyond the end
    of the journal; the caches, the source and the configuration are never
    touched. *)
Theorem rollback_idempotent (cp : StateCheckpoint) (a : Accounts) :
  rollback cp (rollback cp a) = rollback cp a /\
  rollback (checkpoint a) a = a /\
  (length (journal a) <= checkpoint_index cp -> rollback cp a = a) /\
  journal (rollback cp a) = take (checkpoint_index cp) (journal a) /\
  sysvar_cache (rollback cp a) = sysvar_cache a /\ frame a (rollback cp a).
Proof.
  assert (Hstale : forall cp a, length (journal a) <= checkpoint_index cp -> rollback cp a = a).
  { intros cp' a' Hle. rewrite rollback_spec, take_ge, drop_ge by done. by destruct a'. }
  split; [|split; [by apply Hstale|split; [by apply Hstale|]]].
  - apply Hstale. rewrite rollback_spec. simpl. rewrite length_take. lia.
  - rewrite rollback_spec. done.
Qed.

(** ** The overlay invariant *)

(** No address is both cached and tombstoned, and every journal entry records
    such an overlay. *)
Definition entry_ok (e : JournalEntry) : Prop :=
  is_Some (je_previous e) -> je_was_removed e = false.

Definition overlay_wf (a : Accounts) : Prop :=
  (forall k, is_Some (inner (cache a) !! k) -> k ∉ removed (cache a)) /\
  Forall entry_ok (journal a).

Lemma overlay_wf_ext a a' :
  cache a' = cache a -> journal a' = journal a -> overlay_wf a -> overlay_wf a'.
Proof. unfold overlay_wf. by intros -> ->. Qed.

Lemma overlay_wf_record k a : overlay_wf a -> overlay_wf (record_journal k a).
Proof.
  intros [Hd Hj]. split; [exact Hd|]. simpl. apply Forall_app. split; [done|].
  constructor; [|done]. intros Hs. simpl in *. apply bool_decide_eq_false. by apply Hd.
Qed.

Lemma overlay_wf_put k acc a : overlay_wf a -> overlay_wf (put_inner k acc (del_removed k a)).
Proof.
  intros [Hd Hj]. split; [|exact Hj]. simpl. intros j. specialize (Hd j).
  destruct (decide (j = k)) as [->|Hne]; [set_solver|]. rewrite lookup_insert_ne by done. set_solver.
Qed.

Lemma overlay_wf_del k a : overlay_wf a -> overlay_wf (put_removed k (del_inner k a)).
Proof.
  intros [Hd Hj]. split; [|exact Hj]. simpl. intros j. specialize (Hd j).
  destruct (decide (j = k)) as [->|Hne]; [rewrite lookup_delete_eq; by intros []|].
  rewrite lookup_delete_ne by done. set_solver.
Qed.

Lemma overlay_wf_undo e a : entry_ok e -> overlay_wf a -> overlay_wf (undo_entry e a).
Proof.
  intros He Hwf. unfold undo_entry. destruct (je_previous e) as [acc|] eqn:Hp.
  - rewrite (He ltac:(by rewrite Hp)). by apply (overlay_wf_put (je_address e) acc).
  - destruct (je_was_removed e); [by apply overlay_wf_del|].
    destruct Hwf as [Hd Hj]. split; [|exact Hj]. simpl. intros j. specialize (Hd j).
    destruct (decide (j = je_address e)) as [->|Hne]; [rewrite lookup_delete_eq; by intros []|].
    rewrite lookup_delete_ne by done. set_solver.
Qed.

Lemma overlay_wf_undo_all l a :
  Forall entry_ok l -> overlay_wf a -> overlay_wf (with_cache (undo_all l (cache a)) a).
Proof.
  intros Hl Hwf. induction Hl as [|e l He _ IH]; simpl; [by destruct a|].
  apply (overlay_wf_undo e) in IH; [|done]. by rewrite undo_entry_cache in IH.
Qed.

Lemma overlay_wf_rollback cp a : overlay_wf a -> overlay_wf (rollback cp a).
Proof.
  intros Hwf. rewrite rollback_spec. pose proof Hwf as [_ Hj].
  rewrite <- (take_drop (checkpoint_index cp) (journal a)), Forall_app in Hj.
  destruct Hj as [Hj1 Hj2]. destruct (overlay_wf_undo_all _ a Hj2 Hwf) as [Hd' _].
  by split.
Qed.

Lemma overlay_wf_no_checks k acc a : overlay_wf a -> overlay_wf (add_account_no_checks k acc a).
Proof. intros H. apply overlay_wf_put. by apply overlay_wf_record. Qed.

Lemma overlay_wf_write k acc a : overlay_wf a -> overlay_wf (write_overlay k acc (record_journal k a)).
Proof.
  intros H. apply (overlay_wf_record k) in H. unfold write_overlay.
  case_match; [by apply overlay_wf_del|by apply overlay_wf_put].
Qed.

Lemma overlay_wf_add k acc s : overlay_wf s.1 -> overlay_wf (add_account k acc s).2.1.
Proof.
  intros H. destruct (add_account_overlay k acc s) as [[-> _]|(Hc & Hj & _)]; [done|].
  eapply overlay_wf_ext; [exact Hc|exact Hj|]. by apply overlay_wf_write.
Qed.

Lemma overlay_wf_insert_loaded l a : overlay_wf a -> overlay_wf (insert_loaded l a).
Proof.
  revert a. induction l as [|[k [acc|]] l IH]; intros a H; simpl; auto.
  apply IH. by apply overlay_wf_no_checks.
Qed.

Lemma overlay_wf_op o s : overlay_wf s.1 -> overlay_wf (run_op o s).1.
Proof.
  intros H. destruct o; simpl; try exact H.
  - by apply overlay_wf_add.
  - by apply overlay_wf_no_checks.
  - by apply (overlay_wf_no_checks address data).
  - destruct (remove_account_overlay pubkey s) as (Hc & Hj & _).
    eapply overlay_wf_ext; [exact Hc|exact Hj|]. apply overlay_wf_del. by apply overlay_wf_record.
  - unfold sync_accounts. apply (sfor_inv (fun t : St => overlay_wf t.1)); [|done].
    intros [k acc] t _. apply overlay_wf_add.
  - unfold prewarm. case_match; [done|]. case_match; [|done]. by apply overlay_wf_insert_loaded.
  - by rewrite prewarm_programs_accounts.
  - destruct s. exact H.
  - by rewrite rebuild_program_cache_accounts.
  - by apply overlay_wf_rollback.
Qed.

(** From a fresh database, whatever operations run (rollbacks to arbitrary
    checkpoints included), no address is ever both cached and tombstoned. *)
Theorem overlay_disjoint_reachable (h env : positive) (w : World) (ops : list db_op) (k : Address) :
  let s := foldl (fun s o => run_op o s) (accounts_default h env w) ops in
  ~ (is_Some (inner (cache s.1) !! k) /\ k ∈ removed (cache s.1)).
Proof.
  simpl. set (s := foldl _ _ _). assert (overlay_wf s.1) as [Hd _].
  { subst s. assert (H0 : overlay_wf (accounts_default h env w).1).
    { split; simpl; [|done]. intros j [x Hx]. by rewrite lookup_empty in Hx. }
    revert H0. generalize (accounts_default h env w).
    induction ops as [|o ops IH]; intros s0 H0; simpl; [done|].
    apply IH. by apply overlay_wf_op. }
  intros [Hi Hr]. by apply (Hd k).
Qed.

End Overlay.
