(* ===== verification/OverlayReads.v ===== *)
(** * What readers of the account database observe

    Read-after-write of [add_account], [remove_account] and [sync_accounts] on
    every branch, the transparency of [prewarm], the partition loop of
    [sync_accounts] against its specification, the agreement of the two address
    loaders, and of [load_program] with [try_program_elf_bytes]. *)

From Stdlib Require Import ZArith Strings.Byte Permutation.
From stdpp Require Import base tactics option list sets gmap fin_maps strings.
From S2P Require Import Prelude.
From S2P Require Import Types.
From S2P Require Import AccountSource.
From S2P Require Import Errors.
From S2P Require Import Lru.
From S2P Require Import Runtime.
From S2P Require Import AccountsDb.
From S2P Require Import Overlay.

Section Reads.
Context {tgt : Target} {ids : SdkIds} {sv : SysvarRuntime} {pr : ProgramRuntime}
        {pc : ProgramCacheOps} {Lst : Lru ProgramEntryKey Entry}.

(** The read a write of [acc] at [k] is followed by: zero lamports is absence. *)
Definition written (acc : AccountSharedData) : option AccountSharedData :=
  if (lamports acc =? 0)%Z then None else Some acc.

Lemma try_get_ext a a' k :
  cache a' = cache a -> source a' = source a -> try_get_account a' k = try_get_account a k.
Proof. unfold try_get_account, get_account_ref. by intros -> ->. Qed.

Lemma try_get_put k acc a j :
  try_get_account (put_inner k acc (del_removed k a)) j =
  if decide (j = k) then Ok (Some acc) else try_get_account a j.
Proof.
  unfold try_get_account, get_account_ref. simpl. case_decide as Hj.
  - subst. by rewrite lookup_insert_eq.
  - rewrite lookup_insert_ne by done. case_match; [done|].
    erewrite (bool_decide_ext (j ∈ _ ∖ _)); [done|]. set_solver.
Qed.

Lemma try_get_del k a j :
  try_get_account (put_removed k (del_inner k a)) j =
  if decide (j = k) then Ok None else try_get_account a j.
Proof.
  unfold try_get_account, get_account_ref. simpl. case_decide as Hj.
  - subst. rewrite lookup_delete_eq, bool_decide_true by set_solver. done.
  - rewrite lookup_delete_ne by done. case_match; [done|].
    erewrite (bool_decide_ext (j ∈ _ ∪ _)); [done|]. set_solver.
Qed.

Lemma try_get_write k acc a j :
  try_get_account (write_overlay k acc (record_journal k a)) j =
  if decide (j = k) then Ok (written acc) else try_get_account a j.
Proof.
  unfold write_overlay, written. case_match.
  - apply (try_get_del k (record_journal k a)).
  - apply (try_get_put k acc (record_journal k a)).
Qed.

(** ** [add_account] and [remove_account] *)

Lemma add_account_reads_ok k acc s j :
  (add_account k acc s).1 = Ok tt ->
  try_get_account (add_account k acc s).2.1 j =
  if decide (j = k) then Ok (written acc) else try_get_account s.1 j.
Proof.
  intros Hok. destruct (add_account_overlay k acc s) as [[_ He]|(Hc & _ & Hs & _)].
  - by rewrite Hok in He.
  - rewrite <- try_get_write. apply try_get_ext; [exact Hc|]. rewrite Hs.
    unfold write_overlay. by case_match.
Qed.

(** Read-after-write.  A successful [add_account] is seen by the next read
    of its address (as absent, hiding the source's copy, when the account has
    no lamports) and by no other; [remove_account] hides its address even from
    the source, and nothing else. *)
Theorem add_remove_reads (k j : Address) (acc : AccountSharedData) (s : St) :
  ((add_account k acc s).1 = Ok tt ->
   try_get_account (add_account k acc s).2.1 j =
   if decide (j = k) then Ok (written acc) else try_get_account s.1 j) /\
  try_get_account (remove_account k s).1 j =
  if decide (j = k) then Ok None else try_get_account s.1 j.
Proof.
  split; [apply add_account_reads_ok|].
  destruct (remove_account_overlay k s) as (Hc & _ & Hs & _).
  rewrite <- (try_get_del k (record_journal k s.1)).
  by apply try_get_ext.
Qed.

(** Whether the overlay account at [k] is a program with a cache entry of its own. *)
Definition had_program (k : Address) (a : Accounts) : bool :=
  match inner (cache a) !! k with
  | Some existing => is_cached_program_account k existing
  | None => false
  end.

Lemma prepare_None k acc s s' :
  add_account_prepare k acc s = (Ok None, s') ->
  lamports acc = 0%Z \/ is_cached_program_account k acc = false.
Proof.
  unfold add_account_prepare. destruct (lamports acc =? 0)%Z eqn:Hl; bool_to_prop; [by left|].
  destruct (is_cached_program_account k acc); [|by right].
  simpl. repeat (case_match; simplify_eq/=; try done).
Qed.

(** Atomicity of failure.  When [add_account] fails, the database value is
    exactly what it was, journal included, unless the call replaced a program
    account by something that is not one: that is the only branch in which a
    failure comes after the overlay write, and the error is then the
    instruction error of reloading the remaining programs. *)
Theorem add_account_failure_atomic (k : Address) (acc : AccountSharedData) (s : St)
    (e : HPSVMError) :
  (add_account k acc s).1 = Err e ->
  (add_account k acc s).2.1 = s.1 \/
  (had_program k s.1 = true /\
   (lamports acc = 0%Z \/ is_cached_program_account k acc = false) /\
   cache (add_account k acc s).2.1 = cache (write_overlay k acc (record_journal k s.1)) /\
   exists ie, e = HInstruction ie).
Proof.
  intros He. destruct (add_account_overlay k acc s) as [[H _]|(Hc & _)]; [by left|].
  revert He Hc. unfold add_account, sbind.
  pose proof (add_account_prepare_accounts k acc s) as Ha.
  destruct (add_account_prepare k acc s) as [[o|e'] [a w]] eqn:Hp; simpl in *; [|by left].
  destruct o as [entry|]; [done|]. fold (had_program k s.1).
  destruct (had_program k s.1) eqn:Hh; [|done].
  destruct (rebuild_program_cache _) as [[[]|ie] s4]; simpl; [done|].
  intros [= <-] Hc. right. split; [done|]. split; [|split; [exact Hc|by eexists]].
  by eapply prepare_None.
Qed.

(** ** [prewarm] *)

Lemma collect_missing_spec a addrs seen :
  NoDup (collect_missing a addrs seen) /\
  forall k, k ∈ collect_missing a addrs seen <->
    k ∈ addrs /\ inner (cache a) !! k = None /\ k ∉ removed (cache a) /\ k ∉ seen.
Proof.
  revert seen. induction addrs as [|x addrs IH]; intros seen; simpl.
  { split; [constructor|set_solver]. }
  destruct (bool_decide (is_Some (inner (cache a) !! x))) eqn:Hi; simpl; bool_to_prop.
  { destruct (IH seen) as [? Hk]. split; [done|]. intros k. rewrite Hk.
    destruct Hi as [? Hi]. set_solver. }
  rewrite <- eq_None_not_Some in Hi.
  destruct (bool_decide (x ∈ removed (cache a))) eqn:Hr; bool_to_prop.
  { destruct (IH seen) as [? Hk]. split; [done|]. intros k. rewrite Hk. set_solver. }
  destruct (bool_decide (x ∈ seen)) eqn:Hs; bool_to_prop.
  { destruct (IH seen) as [? Hk]. split; [done|]. intros k. rewrite Hk. set_solver. }
  destruct (IH ({[x]} ∪ seen)) as [Hn Hk]. split.
  - constructor; [rewrite Hk; set_solver|done].
  - intros k. rewrite elem_of_cons, Hk. destruct (decide (k = x)) as [->|]; set_solver.
Qed.

Lemma insert_loaded_source l a : source (insert_loaded l a) = source a.
Proof. revert a. by induction l as [|[k [acc|]] l IH]; intros a; simpl; rewrite ?IH. Qed.

Lemma insert_loaded_reads l a :
  (forall k o, (k, o) ∈ l -> try_get_account a k = Ok o) ->
  forall j, try_get_account (insert_loaded l a) j = try_get_account a j.
Proof.
  revert a. induction l as [|[k [acc|]] l IH]; intros a Hl j; simpl; [done| |].
  - assert (Hsame : forall i, try_get_account (add_account_no_checks k acc a) i = try_get_account a i).
    { intros i. unfold add_account_no_checks. rewrite try_get_put. case_decide; [|done].
      subst. symmetry. apply Hl. set_solver. }
    rewrite IH; [apply Hsame|]. intros i o Hin. rewrite Hsame. apply Hl. set_solver.
  - apply IH. intros i o Hin. apply Hl. set_solver.
Qed.

Lemma insert_loaded_resident l a k acc :
  NoDup l.*1 -> (k, Some acc) ∈ l \/ (inner (cache a) !! k = Some acc /\ k ∉ l.*1) ->
  inner (cache (insert_loaded l a)) !! k = Some acc.
Proof.
  revert a. induction l as [|[k1 [acc1|]] l IH]; intros a Hnd Hin; simpl; [set_solver| |];
    apply NoDup_cons in Hnd as [Hk1 Hnd].
  - apply IH; [done|]. destruct Hin as [Hin|[Hin Hk]].
    + apply elem_of_cons in Hin as [Heq|Hin]; [|by left]. simplify_eq.
      right. split; [|done]. simpl. by rewrite lookup_insert_eq.
    + right. rewrite fmap_cons, not_elem_of_cons in Hk. destruct Hk as [Hne Hk].
      split; [|done]. simpl in *. by rewrite lookup_insert_ne.
  - apply IH; [done|]. destruct Hin as [Hin|[Hin Hk]]; [left|right]; set_solver.
Qed.

Lemma zip_agrees a missing loaded :
  Forall2 (fun k o => source_get_account (source a) k = Ok o) missing loaded ->
  forall k o, inner (cache a) !! k = None /\ k ∉ removed (cache a) ->
  (k, o) ∈ zip missing loaded -> try_get_account a k = Ok o.
Proof.
  intros Hall k o [Hi Hr] (i & Hz)%list_elem_of_lookup. apply lookup_zip_Some in Hz as [Hx Hy].
  unfold try_get_account, get_account_ref. rewrite Hi, bool_decide_false by done.
  by eapply Forall2_lookup_lr in Hall.
Qed.

(** Prewarming changes no read. *)
Lemma prewarm_reads a addrs :
  SourceLaws (source a) -> forall k, try_get_account (prewarm addrs a).2 k = try_get_account a k.
Proof.
  intros Hlaws k. destruct (collect_missing_spec a addrs ∅) as [_ Hm]. unfold prewarm.
  destruct (collect_missing a addrs ∅) as [|m ms]; [done|].
  destruct (source_get_accounts (source a) (m :: ms)) as [loaded|e] eqn:Hb; [|done].
  apply source_batch_agrees in Hb as Hall. apply insert_loaded_reads. intros j o Hin.
  eapply zip_agrees; [exact Hall| |exact Hin]. apply elem_of_zip_l, Hm in Hin. tauto.
Qed.

(** Prewarming is invisible to readers.  The batch of addresses fetched is
    duplicate-free and is exactly the requested addresses the overlay knows
    nothing about; no read of any address changes; after a success every
    requested account the source holds is resident in the overlay; a failure
    changes nothing and carries the source's error, so its classification. *)
Theorem prewarm_transparent (a : Accounts) (addrs : list Address)
    (Hlaws : SourceLaws (source a)) :
  NoDup (collect_missing a addrs ∅) /\
  (forall k, k ∈ collect_missing a addrs ∅ <->
     k ∈ addrs /\ inner (cache a) !! k = None /\ k ∉ removed (cache a)) /\
  (forall k, try_get_account (prewarm addrs a).2 k = try_get_account a k) /\
  ((prewarm addrs a).1 = Ok tt ->
   forall k acc, k ∈ addrs -> try_get_account a k = Ok (Some acc) ->
   get_account_ref (prewarm addrs a).2 k = Some acc) /\
  (forall e, (prewarm addrs a).1 = Err e ->
   (prewarm addrs a).2 = a /\
   exists se, source_get_accounts (source a) (collect_missing a addrs ∅) = Err se /\
              e = db_from_account_source se).
Proof.
  destruct (collect_missing_spec a addrs ∅) as [Hnd Hm].
  split; [done|]. split; [intros k; rewrite Hm; set_solver|].
  assert (Hknown : forall k acc, k ∈ addrs -> k ∉ collect_missing a addrs ∅ ->
            try_get_account a k = Ok (Some acc) -> inner (cache a) !! k = Some acc).
  { intros k acc Hk Hnk. rewrite Hm in Hnk. unfold try_get_account, get_account_ref.
    destruct (inner (cache a) !! k); [congruence|]. case_bool_decide; set_solver. }
  unfold prewarm. remember (collect_missing a addrs ∅) as missing eqn:Emis.
  destruct missing as [|m0 ms]; [repeat split; try done; naive_solver set_solver|].
  rewrite Emis in *. clear Emis. set (missing := collect_missing a addrs ∅) in *.
  destruct (source_get_accounts (source a) missing) as [loaded|e] eqn:Hb; simpl;
    [|repeat split; try done; naive_solver].
  apply source_batch_agrees in Hb as Hall.
  assert (Hzip : forall k o, (k, o) ∈ zip missing loaded -> try_get_account a k = Ok o).
  { intros k o Hin. eapply zip_agrees; [exact Hall| |exact Hin].
    apply elem_of_zip_l, Hm in Hin. set_solver. }
  assert (Hfst : (zip missing loaded).*1 = missing).
  { apply fst_zip. by rewrite (Forall2_length _ _ _ Hall). }
  split_and!; [by apply insert_loaded_reads|intros _ k acc Hk Hget|done].
  - unfold get_account_ref. apply insert_loaded_resident; [by rewrite Hfst|]. rewrite Hfst.
    destruct (decide (k ∈ missing)) as [Hin|Hnin]; [left|right; eauto].
    rewrite <- Hfst in Hin. apply list_elem_of_fmap in Hin as ([k' o] & -> & Hin).
    simpl in *. rewrite (Hzip _ _ Hin) in Hget.
    by simplify_eq/=.
Qed.

(** ** The partition of [sync_accounts] *)

Lemma swap_app {A} (p m t : list A) x y :
  swap (length p) (length p + S (length m)) (p ++ x :: m ++ y :: t) = p ++ y :: m ++ x :: t.
Proof.
  unfold swap. rewrite list_lookup_middle by done.
  rewrite lookup_app_r by lia.
  replace (length p + S (length m) - length p) with (S (length m)) by lia. simpl.
  rewrite list_lookup_middle by done.
  replace (length p) with (length p + 0) at 2 by lia.
  rewrite insert_app_r. simpl. rewrite insert_app_r. simpl.
  replace (length m) with (length m + 0) by lia. by rewrite insert_app_r.
Qed.

(** The loop invariant: [pd] are the programdata accounts seen so far, [rest] the
    others, [todo] what is left to read. *)
Lemma partition_loop_spec todo pd rest :
  Forall (fun p => is_programdata p = false) rest ->
  exists tail,
    partition_loop (length todo) (length (pd ++ rest)) (length pd) (pd ++ rest ++ todo) =
      pd ++ filter (fun p => is_programdata p = true) todo ++ tail /\
    tail ≡ₚ rest ++ filter (fun p => is_programdata p = false) todo /\
    Forall (fun p => is_programdata p = false) tail.
Proof.
  revert pd rest. induction todo as [|x todo IH]; intros pd rest Hrest; simpl.
  { exists rest. rewrite !filter_nil, !app_nil_r. done. }
  rewrite (assoc_L (++)), list_lookup_middle by done.
  rewrite !filter_cons. destruct (is_programdata x) eqn:Hx.
  - rewrite decide_True, decide_False by congruence. rewrite <- (assoc_L (++)).
    destruct rest as [|r0 rest].
    + simpl. rewrite app_nil_r, Nat.eqb_refl.
      destruct (IH (pd ++ [x]) [] ltac:(constructor)) as (tail & Heq & Hperm & Hf).
      exists tail. split; [|done].
      rewrite app_nil_r, length_app in Heq. simpl in Heq. rewrite Nat.add_1_r in Heq.
      rewrite <- !(assoc_L (++)) in Heq. exact Heq.
    + apply Forall_cons in Hrest as [Hr0 Hrest].
      rewrite length_app. cbn [length].
      rewrite (proj2 (Nat.eqb_neq _ _)) by lia.
      replace (pd ++ (r0 :: rest) ++ x :: todo) with (pd ++ r0 :: rest ++ x :: todo) by done.
      rewrite swap_app.
      destruct (IH (pd ++ [x]) (rest ++ [r0])) as (tail & Heq & Hperm & Hf).
      { apply Forall_app. split; [done|by constructor]. }
      exists tail. split; [|split; [|done]].
      * rewrite !length_app in Heq. cbn [length] in Heq.
        replace (S (length pd + S (length rest))) with (length pd + 1 + (length rest + 1)) by lia.
        replace (S (length pd)) with (length pd + 1) by lia.
        rewrite <- !(assoc_L (++)) in Heq. exact Heq.
      * rewrite Hperm. by rewrite (comm (++) rest [r0]).
  - rewrite decide_False, decide_True by congruence.
    destruct (IH pd (rest ++ [x])) as (tail & Heq & Hperm & Hf).
    { apply Forall_app. split; [done|by constructor]. }
    exists tail. split; [|split; [|done]].
    + rewrite !length_app in Heq. cbn [length] in Heq. rewrite length_app.
      replace (S (length pd + length rest)) with (length pd + (length rest + 1)) by lia.
      rewrite <- !(assoc_L (++)) in Heq |- *. exact Heq.
    + rewrite Hperm. by rewrite <- (assoc_L (++)).
Qed.

Lemma partition_spec l :
  exists tail,
    partition_programdata l = filter (fun p => is_programdata p = true) l ++ tail /\
    tail ≡ₚ filter (fun p => is_programdata p = false) l /\
    Forall (fun p => is_programdata p = false) tail.
Proof. apply (partition_loop_spec l [] []). constructor. Qed.

Lemma partition_perm l : partition_programdata l ≡ₚ l.
Proof.
  destruct (partition_spec l) as (tail & -> & -> & _).
  induction l as [|x l IH]; [done|]. rewrite !filter_cons.
  destruct (is_programdata x) eqn:Hx.
  - rewrite decide_True, decide_False by congruence. simpl. by rewrite IH.
  - rewrite decide_False, decide_True by congruence. by rewrite <- Permutation_middle, IH.
Qed.

(** The in-place two-pointer loop of [sync_accounts] is a partition: it
    permutes the accounts, puts every programdata account before every other
    one, and keeps the programdata accounts in their given order. *)
Theorem partition_programdata_correct (l : list (Address * AccountSharedData)) :
  partition_programdata l ≡ₚ l /\
  exists tail,
    partition_programdata l = filter (fun p => is_programdata p = true) l ++ tail /\
    Forall (fun p => is_programdata p = false) tail.
Proof.
  split; [apply partition_perm|]. destruct (partition_spec l) as (tail & ? & _ & ?). eauto.
Qed.

(** ** [sync_accounts] *)

Lemma sync_reads l s j :
  NoDup l.*1 -> (sfor l (fun p => add_account p.1 p.2) s).1 = Ok tt ->
  try_get_account (sfor l (fun p => add_account p.1 p.2) s).2.1 j =
  match (list_to_map l : gmap Address AccountSharedData) !! j with
  | Some acc => Ok (written acc)
  | None => try_get_account s.1 j
  end.
Proof.
  revert s. induction l as [|[k acc] l IH]; intros s Hnd; simpl; [done|].
  apply NoDup_cons in Hnd as [Hk Hnd]. unfold sbind.
  pose proof (add_account_reads_ok k acc s j) as Hr.
  destruct (add_account k acc s) as [[[]|e] s1]; simpl in *; [|done].
  intros Hok. rewrite IH, Hr by done.
  destruct (decide (j = k)) as [->|Hne].
  - rewrite lookup_insert_eq. by rewrite (not_elem_of_list_to_map_1 l k Hk).
  - by rewrite lookup_insert_ne by congruence.
Qed.

Lemma sync_distinct_reads l s :
  NoDup l.*1 -> (sync_accounts l s).1 = Ok tt -> forall j,
  try_get_account (sync_accounts l s).2.1 j =
  match (list_to_map l : gmap Address AccountSharedData) !! j with
  | Some acc => Ok (written acc)
  | None => try_get_account s.1 j
  end.
Proof.
  intros Hnd Hok j. unfold sync_accounts in *. pose proof (partition_perm l) as Hp.
  assert (Hnd' : NoDup (partition_programdata l).*1) by (by rewrite Hp).
  rewrite sync_reads by done. by rewrite (list_to_map_proper (M := gmap Address) _ _ Hnd' Hp).
Qed.

(** A successful [sync_accounts] of distinct addresses is seen as one
    atomic update: every synced address reads as its new account (absent when
    it has no lamports) and no other read changes, so the order of the list is
    irrelevant to readers. *)
Theorem sync_accounts_reads (l : list (Address * AccountSharedData)) (s : St) (j : Address) :
  NoDup l.*1 -> (sync_accounts l s).1 = Ok tt ->
  try_get_account (sync_accounts l s).2.1 j =
  match (list_to_map l : gmap Address AccountSharedData) !! j with
  | Some acc => Ok (written acc)
  | None => try_get_account s.1 j
  end.
Proof.
  intros Hnd Hok. by apply sync_distinct_reads.
Qed.

(** ** ELF bytes *)

(** The two ways to a program's bytes agree.  Whenever
    [try_program_elf_bytes] finds the bytes of an overlay program, the load path
    resolves the same bytes under the account's own loader; whenever it rejects
    the account for another reason than a missing one, so does the load path. *)
Theorem elf_bytes_agree (a : Accounts) (k : Address) (acc : AccountSharedData) :
  get_account_ref a k = Some acc ->
  (forall bytes, try_program_elf_bytes a k = Ok bytes ->
     resolve_elf a acc = Ok (ResolvedElf bytes (acc_owner acc))) /\
  (forall e, try_program_elf_bytes a k = Err e -> e <> MissingAccount ->
     resolve_elf a acc = Err e).
Proof.
  intros Hk. unfold try_program_elf_bytes, resolve_elf, ok_or. rewrite Hk.
  destruct (_ || _); [naive_solver|].
  case_bool_decide as Hup.
  - destruct (upgradeable_state _) as [[]|]; try naive_solver.
    unfold get_account, try_get_account.
    destruct (get_account_ref a programdata_address); [|naive_solver].
    case_match; naive_solver.
  - case_bool_decide as Hv4; [|naive_solver]. case_match; [|naive_solver].
    split; [|done]. intros ? [= <-]. by rewrite Hv4.
Qed.

(** ** The two address loaders *)
Section Loaders.
Context {lt : LookupTables}.

(** The source failure of the first lookup that cannot be resolved, if it is one. *)
Fixpoint first_source_failure (a : Accounts) (lookups : list MessageAddressTableLookup) :
    option AccountSourceLoadFailure :=
  match lookups with
  | [] => None
  | l :: rest =>
      match try_load_lookup_table_addresses a l with
      | Ok _ => first_source_failure a rest
      | Err (LtAccountSource f) => Some f
      | Err (LtAddressLookup _) => None
      end
  end.

Lemma tracking_collect_spec a lookups :
  tracking_collect a lookups None =
  (traverse (fun l => map_err into_address_loader_error (load_lookup_table_addresses a l)) lookups,
   first_source_failure a lookups).
Proof.
  induction lookups as [|l rest IH]; [done|].
  simpl. unfold sbind, tracking_lookup, load_lookup_table_addresses.
  destruct (try_load_lookup_table_addresses a l) as [x|[e|f]]; simpl; [|done|done].
  rewrite IH. by destruct (traverse _ rest).
Qed.

(** The tracking address loader is the plain one with a record on the side:
    it returns the same addresses or the same error on every input, and its
    cell holds the account-source failure exactly when that is what stopped the
    load, and then the first one. *)
Theorem tracking_loader_agrees (a : Accounts) (lookups : list MessageAddressTableLookup) :
  tracking_load_addresses a lookups None =
  (load_addresses a lookups, first_source_failure a lookups).
Proof. unfold tracking_load_addresses, load_addresses. by rewrite tracking_collect_spec. Qed.

End Loaders.

End Reads.
