(* ===== verification/CacheCoherence.v ===== *)
(** * The caches derived from the overlay

    The program cache, the sysvar cache and the resident entry store against the
    overlay they are derived from: what a rebuild publishes, which operations
    keep the derived state coherent, that the content-addressed store only hands
    out entries built from the bytes asked for, and that a load re-links. *)

From Stdlib Require Import ZArith Strings.Byte.
From stdpp Require Import base tactics option list sets gmap fin_maps strings.
From S2P Require Import Prelude.
From S2P Require Import Types.
From S2P Require Import AccountSource.
From S2P Require Import Errors.
From S2P Require Import Lru.
From S2P Require Import Runtime.
From S2P Require Import AccountsDb.
From S2P Require Import Overlay.
From S2P Require Import OverlayReads.

Section Coherence.
Context {tgt : Target} {ids : SdkIds} {sv : SysvarRuntime} {svl : SysvarLaws}
        {pr : ProgramRuntime} {pc : ProgramCacheOps} {pcl : ProgramCacheLaws}
        {Lst : Lru ProgramEntryKey Entry} {LstL : LruLaws ProgramEntryKey Entry}.

(** The committed cache a database uses. *)
Definition committed (s : St) : PCache := cache_at s.2 (programs_cache s.1).

Lemma cache_at_set h c w : cache_at (set_cache h c w) h = c.
Proof. unfold cache_at, set_cache. simpl. by rewrite lookup_insert_eq. Qed.

Lemma cache_at_update h f w : cache_at (update_cache h f w) h = f (cache_at w h).
Proof. apply cache_at_set. Qed.

Lemma load_program_committed acc s : committed (load_program acc s).2 = committed s.
Proof.
  unfold committed, cache_at. by rewrite load_program_accounts, load_program_caches.
Qed.

(** ** What a rebuild publishes *)

(** [e] is what loading [acc] returns in some state of the store. *)
Definition loads (a : Accounts) (acc : AccountSharedData) (e : Entry) : Prop :=
  exists w, (load_program acc (a, w)).1 = Ok e.

(** The builtin registered last for an address. *)
Definition builtin_of (k : Address) : option BuiltinFn :=
  foldl (fun o b => let '(id, f, _, _) := b in if decide (k = id) then Some f else o) None BUILTINS.

Lemma replenish_builtins_entries a c k :
  pc_slot (replenish_builtins a c) = pc_slot c /\
  pc_entries (replenish_builtins a c) !! k =
  match inner (cache a) !! k, builtin_of k with
  | Some _, Some f => Some (new_builtin f)
  | _, _ => pc_entries c !! k
  end.
Proof.
  unfold replenish_builtins, builtin_of. induction BUILTINS as [|b l IH] using rev_ind.
  { simpl. split; [done|]. by case_match. }
  rewrite !foldl_app. destruct IH as [Hs He]. destruct b as [[[id f] nm] gate]. simpl.
  case_bool_decide as Hin.
  - rewrite pc_replenish_slot, pc_replenish_entries. split; [done|].
    case_decide as Hk.
    + subst id. destruct Hin as [acc ->]. by rewrite lookup_insert_eq.
    + rewrite lookup_insert_ne by congruence. done.
  - split; [done|]. case_decide as Hk; [|done]. subst id.
    rewrite He. rewrite <- eq_None_not_Some in Hin. by rewrite Hin.
Qed.

Lemma load_all_entries l c s c' s' :
  NoDup l.*1 -> load_all l c s = (Ok c', s') ->
  pc_slot c' = pc_slot c /\
  forall k, match (list_to_map l : gmap Address AccountSharedData) !! k with
            | Some acc => exists e, pc_entries c' !! k = Some e /\ loads s.1 acc e
            | None => pc_entries c' !! k = pc_entries c !! k
            end.
Proof.
  revert c s. induction l as [|[k acc] l IH]; intros c s Hnd Hl.
  { simpl in Hl. unfold sret in Hl. simplify_eq. done. }
  apply NoDup_cons in Hnd as [Hk Hnd]. simpl in Hl.
  apply sbind_ok in Hl as (e & s1 & Hload & Hrest).
  pose proof (load_program_accounts acc s) as Ha. rewrite Hload in Ha. simpl in Ha.
  destruct (IH _ _ Hnd Hrest) as [Hs He]. rewrite pc_replenish_slot in Hs.
  split; [done|]. intros j. specialize (He j). simpl.
  destruct (decide (j = k)) as [->|Hne].
  - rewrite lookup_insert_eq. simpl in Hk.
    rewrite (not_elem_of_list_to_map_1 l k Hk), pc_replenish_entries, lookup_insert_eq in He.
    exists e. split; [done|]. exists s.2. destruct s. simpl in *. by rewrite Hload.
  - rewrite lookup_insert_ne by congruence.
    rewrite pc_replenish_entries, lookup_insert_ne in He by congruence.
    by rewrite <- Ha.
Qed.

Lemma program_accounts_nodup a : NoDup (program_accounts a).*1.
Proof.
  unfold program_accounts. apply NoDup_fst_filter. apply NoDup_fst_map_to_list.
Qed.

Lemma program_accounts_lookup a k :
  (list_to_map (program_accounts a) : gmap Address AccountSharedData) !! k =
  match inner (cache a) !! k with
  | Some acc => if is_cached_program_account k acc then Some acc else None
  | None => None
  end.
Proof.
  apply option_eq. intros acc. rewrite <- elem_of_list_to_map by apply program_accounts_nodup.
  unfold program_accounts. rewrite list_elem_of_filter, elem_of_map_to_list. simpl.
  destruct (inner (cache a) !! k) as [acc'|]; [|naive_solver].
  destruct (is_cached_program_account k acc') eqn:E.
  - split; [by intros [_ ?]|intros [= <-]; done].
  - split; [|done]. intros [H [= ->]]. congruence.
Qed.

(** The entries of a rebuilt cache. *)
Lemma rebuild_program_cache_entries s s' u :
  rebuild_program_cache s = (Ok u, s') ->
  pc_slot (committed s') = clock_slot (default Clock_default (sc_get_clock (sysvar_cache s.1))) /\
  forall k,
    match inner (cache s.1) !! k with
    | None => pc_entries (committed s') !! k = None
    | Some acc =>
        if is_cached_program_account k acc
        then exists e, pc_entries (committed s') !! k = Some e /\ loads s.1 acc e
        else pc_entries (committed s') !! k = new_builtin <$> builtin_of k
    end.
Proof.
  intros Hr. pose proof (rebuild_program_cache_accounts s) as Ha. rewrite Hr in Ha. simpl in Ha.
  unfold rebuild_program_cache in Hr. set (c0 := replenish_builtins _ _) in Hr.
  destruct (load_all_accounts (program_accounts s.1) c0 s) as [Ha1 Hw1].
  unfold sbind in Hr. destruct (load_all _ _ s) as [[c'|e] s1] eqn:Hl; unfold smodify in Hr; simplify_eq.
  unfold committed. cbn [fst snd]. rewrite cache_at_set.
  apply load_all_entries in Hl as [Hs He]; [|apply program_accounts_nodup].
  split.
  { rewrite Hs. unfold c0.
    by rewrite (proj1 (replenish_builtins_entries _ _ Address_default)), pc_new_slot. }
  intros k. specialize (He k). rewrite program_accounts_lookup in He.
  destruct (replenish_builtins_entries s.1 (pc_new (clock_slot (default Clock_default
    (sc_get_clock (sysvar_cache s.1))))) k) as [_ Hb]. fold c0 in Hb.
  rewrite pc_new_entries, lookup_empty in Hb.
  destruct (inner (cache s.1) !! k) as [acc|]; [|congruence].
  destruct (is_cached_program_account k acc); [done|]. rewrite He, Hb. by case_match.
Qed.

(** C10: what [rebuild_program_cache] publishes.  On success the committed cache
    holds, at the clock's slot, exactly the overlay's program accounts, each
    with an entry loaded from that account, and the builtins whose account is
    in the overlay; on failure no program cache anywhere has changed. *)
Theorem rebuild_program_cache_publishes (s s' : St) (r : result unit InstructionError) :
  rebuild_program_cache s = (r, s') ->
  s'.1 = s.1 /\
  match r with
  | Err _ => w_caches s'.2 = w_caches s.2
  | Ok _ =>
      pc_slot (committed s') = clock_slot (default Clock_default (sc_get_clock (sysvar_cache s.1))) /\
      forall k,
        match inner (cache s.1) !! k with
        | None => pc_entries (committed s') !! k = None
        | Some acc =>
            if is_cached_program_account k acc
            then exists e, pc_entries (committed s') !! k = Some e /\ loads s.1 acc e
            else pc_entries (committed s') !! k = new_builtin <$> builtin_of k
        end
  end.
Proof.
  intros Hr. pose proof (rebuild_program_cache_accounts s) as Ha. rewrite Hr in Ha. simpl in Ha.
  split; [done|]. destruct r as [u|e]; [by eapply rebuild_program_cache_entries|].
  unfold rebuild_program_cache, sbind, smodify in Hr.
  match type of Hr with context [load_all ?l ?c s] =>
    destruct (load_all_accounts l c s) as [_ Hw]; destruct (load_all l c s) as [[c'|e'] s1] end;
    by simplify_eq.
Qed.

(** ** No stale program entries *)

(** Every committed entry is backed by an account of the overlay. *)
Definition entries_backed (s : St) : Prop :=
  forall k, is_Some (pc_entries (committed s) !! k) -> is_Some (inner (cache s.1) !! k).

Lemma rebuild_sysvar_committed s :
  pc_entries (committed (rebuild_sysvar_cache s)) = pc_entries (committed s).
Proof.
  destruct s as [a w]. unfold committed, rebuild_sysvar_cache. cbn [fst snd].
  change (programs_cache (with_sysvar_cache _ a)) with (programs_cache a).
  by rewrite cache_at_update, pc_set_slot_entries.
Qed.

Lemma remove_account_committed k s :
  pc_entries (committed (remove_account k s)) = delete k (pc_entries (committed s)).
Proof.
  destruct s as [a w]. unfold remove_account.
  assert (pc_entries (committed (put_removed k (del_inner k (record_journal k a)),
            update_cache (programs_cache a) (pc_remove_entry k) w)) =
          delete k (pc_entries (committed (a, w)))) as H.
  { unfold committed. cbn [fst snd].
    change (programs_cache (put_removed _ _)) with (programs_cache a).
    by rewrite cache_at_update, pc_remove_entries. }
  case_match; [by rewrite rebuild_sysvar_committed|done].
Qed.

Lemma rebuilt_backed s s' : rebuild_program_cache s = (Ok tt, s') -> entries_backed s'.
Proof.
  intros Hr. apply rebuild_program_cache_publishes in Hr as (Ha & _ & He).
  intros k. rewrite Ha. specialize (He k). destruct (inner (cache s.1) !! k); [done|].
  rewrite He. by intros [].
Qed.

(** Writing the overlay at [k] keeps every other backing account. *)
Lemma write_overlay_inner k acc a j :
  inner (cache (write_overlay k acc (record_journal k a))) !! j =
  if decide (j = k) then written acc else inner (cache a) !! j.
Proof.
  unfold write_overlay, written. case_match; simpl; case_decide; subst.
  - by rewrite lookup_delete_eq.
  - by rewrite lookup_delete_ne.
  - by rewrite lookup_insert_eq.
  - by rewrite lookup_insert_ne.
Qed.

Lemma prepare_committed k acc s : committed (add_account_prepare k acc s).2 = committed s.
Proof.
  unfold add_account_prepare. pose proof (load_program_committed acc s).
  repeat (case_match; simplify_eq/=; try done).
Qed.

Lemma prepare_Some k acc s e s' :
  add_account_prepare k acc s = (Ok (Some e), s') -> lamports acc <> 0%Z.
Proof.
  unfold add_account_prepare. destruct (lamports acc =? 0)%Z eqn:Hl; bool_to_prop; [|done].
  rewrite andb_false_r. done.
Qed.

(** The committed entries after [add_account], by branch. *)
Lemma add_account_committed k acc s :
  (add_account k acc s).1 = Ok tt ->
  (exists e, lamports acc <> 0%Z /\
     pc_entries (committed (add_account k acc s).2) = <[k := e]> (pc_entries (committed s))) \/
  (had_program k s.1 = true /\ entries_backed (add_account k acc s).2) \/
  (had_program k s.1 = false /\
   pc_entries (committed (add_account k acc s).2) = pc_entries (committed s)).
Proof.
  unfold add_account, sbind. fold (had_program k s.1).
  pose proof (add_account_prepare_accounts k acc s) as Ha.
  pose proof (prepare_committed k acc s) as Hc.
  destruct (add_account_prepare k acc s) as [[o|e] s1] eqn:Hp; cbn [fst snd] in *; [|done].
  set (s2 := (write_overlay k acc (record_journal k s1.1), s1.2)).
  assert (pc_entries (committed s2) = pc_entries (committed s)) as H2.
  { rewrite <- Hc. unfold committed, s2. cbn [fst snd]. unfold write_overlay. by case_match. }
  set (s3 := if is_managed_sysvar_account k then rebuild_sysvar_cache s2 else s2).
  assert (pc_entries (committed s3) = pc_entries (committed s)) as H3.
  { unfold s3. case_match; [by rewrite rebuild_sysvar_committed|done]. }
  destruct o as [e|].
  - intros _. left. exists e. split; [by eapply prepare_Some|].
    unfold committed at 1. cbn [fst snd]. by rewrite cache_at_update, pc_replenish_entries, <- H3.
  - destruct (had_program k s.1); [|by intros _; right; right].
    destruct (rebuild_program_cache s3) as [[[]|ie] s4] eqn:Hr; cbn [fst snd]; [|done].
    intros _. right. left. split; [done|]. by eapply rebuilt_backed.
Qed.

(** C12: no stale program entries.  [remove_account] drops exactly the entry of
    its address and keeps every entry backed by an account; a successful
    [add_account] keeps every entry backed too, except when it tombstones (zero
    lamports) an address whose entry does not come from a program account. *)
Theorem entries_backed_preserved (s : St) (k : Address) (acc : AccountSharedData) :
  entries_backed s ->
  entries_backed (remove_account k s) /\
  pc_entries (committed (remove_account k s)) = delete k (pc_entries (committed s)) /\
  ((add_account k acc s).1 = Ok tt ->
   lamports acc <> 0%Z \/ had_program k s.1 = true \/ pc_entries (committed s) !! k = None ->
   entries_backed (add_account k acc s).2).
Proof.
  intros Hb. split; [|split; [apply remove_account_committed|]].
  - intros j. rewrite remove_account_committed. intros Hj.
    destruct (remove_account_overlay k s) as (-> & _ & _). simpl.
    destruct (decide (j = k)) as [->|Hne]; [rewrite lookup_delete_eq in Hj; by destruct Hj|].
    rewrite lookup_delete_ne in Hj by done. rewrite lookup_delete_ne by done. by apply Hb.
  - intros Hok Hguard. destruct (add_account_overlay k acc s) as [[_ He]|(Hc & _)].
    { by rewrite Hok in He. }
    destruct (add_account_committed k acc s Hok) as [(e & Hl & He)|[[_ H]|[Hh He]]]; [|done|].
    + intros j. rewrite He, Hc, write_overlay_inner. unfold written.
      rewrite (proj2 (Z.eqb_neq _ _) Hl). case_decide; [done|].
      rewrite lookup_insert_ne by congruence. apply Hb.
    + intros j. rewrite He, Hc, write_overlay_inner. unfold written.
      case_decide; [subst|apply Hb]. intros Hj.
      destruct (Z.eqb_spec (lamports acc) 0); [|done].
      destruct Hguard as [?|[?|Hn]]; [done|congruence|]. rewrite Hn in Hj. by destruct Hj.
Qed.

(** The exception above is real, and it is where the two ways to remove an
    account differ: a zero-lamport [add_account] over a builtin (an overlay
    account that is not a loadable program, with a committed entry) leaves the
    committed entries as they are, while [remove_account] drops the entry. *)
Theorem tombstoned_builtin_keeps_entry (s : St) (k : Address) (acc : AccountSharedData) :
  had_program k s.1 = false -> lamports acc = 0%Z ->
  (add_account k acc s).1 = Ok tt /\
  try_get_account (add_account k acc s).2.1 k = Ok None /\
  pc_entries (committed (add_account k acc s).2) = pc_entries (committed s) /\
  pc_entries (committed (remove_account k s)) !! k = None.
Proof.
  intros Hh Hl.
  assert (Hok : (add_account k acc s).1 = Ok tt).
  { unfold add_account, sbind, add_account_prepare. fold (had_program k s.1).
    rewrite Hl, Hh. simpl. by rewrite andb_false_r. }
  split; [done|]. split.
  { rewrite add_account_reads_ok, decide_True by done. unfold written. by rewrite Hl. }
  split; [|by rewrite remove_account_committed, lookup_delete_eq].
  destruct (add_account_committed k acc s Hok) as [(e & ? & _)|[[? _]|[_ H]]];
    [done|congruence|done].
Qed.

(** ** The sysvar cache *)

(** The sysvar cache is what the overlay's sysvar accounts decode to, and the
    program cache is at the clock's slot whenever there is a clock. *)
Definition sysvars_coherent (s : St) : Prop :=
  sysvar_cache s.1 = sc_fill (fun k => acc_data <$> inner (cache s.1) !! k) /\
  forall clock, sc_get_clock (sysvar_cache s.1) = Some clock ->
                pc_slot (committed s) = clock_slot clock.

Lemma rebuild_sysvar_coherent s : sysvars_coherent (rebuild_sysvar_cache s).
Proof.
  destruct s as [a w]. split; [done|]. intros clock Hc.
  unfold committed, rebuild_sysvar_cache in *. cbn [fst snd] in *.
  change (programs_cache (with_sysvar_cache _ a)) with (programs_cache a).
  rewrite cache_at_update, pc_set_slot_slot.
  change (sysvar_cache (with_sysvar_cache ?x a)) with x in Hc. by rewrite Hc.
Qed.

(** A change of the overlay outside the managed sysvars. *)
Lemma sysvars_coherent_frame s s' k :
  is_managed_sysvar_account k = false ->
  (forall j, j <> k -> inner (cache s'.1) !! j = inner (cache s.1) !! j) ->
  sysvar_cache s'.1 = sysvar_cache s.1 -> pc_slot (committed s') = pc_slot (committed s) ->
  sysvars_coherent s -> sysvars_coherent s'.
Proof.
  intros Hk Hj Hs Hp [Hfill Hslot]. split.
  - rewrite Hs, Hfill. apply sc_fill_ext. intros j Hin.
    rewrite Hj; [done|]. intros ->. apply is_managed_sysvar_spec in Hin. congruence.
  - rewrite Hs, Hp. exact Hslot.
Qed.

Lemma rebuild_program_cache_coherent s :
  sysvars_coherent s -> sysvars_coherent (rebuild_program_cache s).2.
Proof.
  intros [Hf Hs]. destruct (rebuild_program_cache s) as [r s'] eqn:Hr.
  apply rebuild_program_cache_publishes in Hr as [Ha Hr]. simpl. split.
  - by rewrite Ha.
  - intros clock Hc. rewrite Ha in Hc. destruct r.
    + destruct Hr as [-> _]. by rewrite Hc.
    + unfold committed, cache_at. rewrite Ha, Hr. by apply Hs.
Qed.

Lemma add_account_coherent k acc s :
  sysvars_coherent s -> sysvars_coherent (add_account k acc s).2.
Proof.
  intros Hc. unfold add_account, sbind.
  pose proof (add_account_prepare_accounts k acc s) as Ha.
  pose proof (prepare_committed k acc s) as Hp.
  destruct (add_account_prepare k acc s) as [[o|e] s1]; cbn [fst snd] in *; last first.
  { destruct Hc as [Hf Hs]. split; [by rewrite Ha|]. rewrite Ha. intros clock Hcl.
    rewrite Hp. by apply Hs. }
  set (s3 := if is_managed_sysvar_account k then _ else _).
  assert (sysvars_coherent s3) as H3.
  { unfold s3. destruct (is_managed_sysvar_account k) eqn:Hk; [apply rebuild_sysvar_coherent|].
    eapply (sysvars_coherent_frame s _ k Hk); [..|exact Hc]; cbn [fst snd].
    - intros j Hj. rewrite write_overlay_inner, decide_False by done. by rewrite Ha.
    - rewrite Ha. unfold write_overlay. by case_match.
    - rewrite <- Hp. unfold committed. cbn [fst snd]. unfold write_overlay. by case_match. }
  destruct o as [e|].
  - destruct H3 as [Hf Hs]. split; [done|]. intros clock Hcl.
    unfold committed. cbn [fst snd]. rewrite cache_at_update, pc_replenish_slot. by apply Hs.
  - case_match; [|done]. apply rebuild_program_cache_coherent in H3.
    by destruct (rebuild_program_cache s3).
Qed.

Lemma remove_account_coherent k s :
  sysvars_coherent s -> sysvars_coherent (remove_account k s).
Proof.
  intros Hc. destruct s as [a w]. unfold remove_account.
  destruct (is_managed_sysvar_account k) eqn:Hk; [apply rebuild_sysvar_coherent|].
  eapply (sysvars_coherent_frame (a, w) _ k Hk); [..|exact Hc]; cbn [fst snd].
  - intros j Hj. simpl. by rewrite lookup_delete_ne.
  - done.
  - unfold committed. cbn [fst snd].
    change (programs_cache (put_removed _ _)) with (programs_cache a).
    by rewrite cache_at_update, pc_remove_slot.
Qed.

(** C11: the sysvar cache follows the overlay.  Once rebuilt, it is what the
    overlay's sysvar accounts decode to, and the program cache is at the clock's
    slot, after any [add_account] (successful or failed), [remove_account],
    [sync_accounts] or rebuild of the program cache. *)
Theorem sysvars_follow_overlay (s : St) (k : Address) (acc : AccountSharedData)
    (l : list (Address * AccountSharedData)) :
  sysvars_coherent (rebuild_sysvar_cache s) /\
  (sysvars_coherent s ->
   sysvars_coherent (add_account k acc s).2 /\
   sysvars_coherent (remove_account k s) /\
   sysvars_coherent (sync_accounts l s).2 /\
   sysvars_coherent (rebuild_program_cache s).2).
Proof.
  split; [apply rebuild_sysvar_coherent|]. intros Hc.
  split; [by apply add_account_coherent|]. split; [by apply remove_account_coherent|].
  split; [|by apply rebuild_program_cache_coherent].
  unfold sync_accounts. apply (sfor_inv sysvars_coherent); [|done].
  intros [k' acc'] t _. apply add_account_coherent.
Qed.

(** ** The resident entry store *)

(** [env_of] is the heap of environments: what each [Arc] pointer holds.  An
    entry of the store is justified when it was built, under the environment of
    its key and some policy, from bytes with the hash of its key. *)
Definition justified (env_of : positive -> RuntimeEnvs) (key : ProgramEntryKey) (e : Entry) : Prop :=
  exists a elf, environments a = (pek_env key, env_of (pek_env key)) /\
    key = content_key (pek_env key) elf (pek_loader key) IMMEDIATE_DEPLOYMENT_SLOT /\
    build_entry a elf (pek_loader key) = Ok e.

Definition store_sound (env_of : positive -> RuntimeEnvs) (st : ProgramEntryStore) : Prop :=
  (1 <= lru_cap st)%Z /\
  forall key e, (key, e) ∈ lru_items st -> justified env_of key e.

Lemma items_remove_elem {K V} `{EqDecision K} (k : K) (l : list (K * V)) x :
  x ∈ items_remove k l -> x ∈ l.
Proof.
  induction l as [|[k1 v1] l IH]; simpl; [done|]. case_decide; set_solver.
Qed.

Lemma store_get_sound env_of key st :
  store_sound env_of st -> store_sound env_of (store_get key st).2.
Proof.
  intros [Hc Hs]. unfold store_get, ProgramEntryStore in *. split; [by rewrite lru_get_cap|].
  intros key' e. rewrite lru_get_items. destruct (items_lookup key _) as [v|] eqn:Hl; [|apply Hs].
  rewrite elem_of_cons. intros [Heq|Hin].
  - simplify_eq. apply Hs. by apply items_lookup_elem.
  - apply Hs. by eapply items_remove_elem.
Qed.

Lemma store_insert_sound env_of key e st :
  justified env_of key e -> store_sound env_of st -> store_sound env_of (store_insert key e st).2.
Proof.
  intros Hj Hst. pose proof (store_get_sound env_of key st Hst) as Hg.
  unfold store_insert. unfold store_get, ProgramEntryStore in *.
  destruct (lru_get key st) as [[v|] st1]; simpl in *; [done|].
  destruct Hg as [Hc Hs]. split; [by rewrite lru_put_cap|].
  intros key' e'. rewrite lru_put_items. unfold items_put. intros Hin.
  assert (Hin' : (key', e') ∈ (key, e) :: items_remove key (lru_items st1)).
  { rewrite <- (take_drop (Z.to_nat (lru_cap st1)) ((key, e) :: _)). set_solver. }
  apply elem_of_cons in Hin' as [Heq|Hin']; [by simplify_eq|].
  apply Hs. by eapply items_remove_elem.
Qed.

(** What [load_program] answers for a resolved program: the resident entry of the
    content key, or the entry just built. *)
Definition store_key_of (a : Accounts) (elf : list byte) (loader : Address) : ProgramEntryKey :=
  content_key (environments a).1 elf loader IMMEDIATE_DEPLOYMENT_SLOT.

(** C13: content addressing is sound.  A load keeps the store sound whatever its
    outcome, and an entry it returns is either the tombstone of a program
    without programdata or was built, under the very environment the database
    runs and for the same loader, from bytes with the same SHA-256 digest as
    the program's. *)
Theorem load_program_content_sound (env_of : positive -> RuntimeEnvs)
    (acc : AccountSharedData) (a : Accounts) (w : World) (e : Entry) (s' : St)
    (r : result Entry InstructionError) :
  store_sound env_of (w_store w) ->
  (environments a).2 = env_of (environments a).1 ->
  load_program acc (a, w) = (r, s') ->
  store_sound env_of (w_store s'.2) /\
  (r = Ok e ->
   (resolve_elf a acc = Ok ResolvedClosed /\
    exists clock, sc_get_clock (sysvar_cache a) = Some clock /\
                  e = new_closed_tombstone (clock_slot clock)) \/
   exists elf loader a' elf',
     resolve_elf a acc = Ok (ResolvedElf elf loader) /\
     sha256 elf' = sha256 elf /\ environments a' = environments a /\
     build_entry a' elf' loader = Ok e).
Proof.
  intros Hst Henv. unfold load_program.
  destruct (sc_get_clock (sysvar_cache a)) as [clock|]; [|by intros [= <- <-]].
  destruct (resolve_elf a acc) as [[elf loader|]|err] eqn:Hres; [|naive_solver|by intros [= <- <-]].
  fold (store_key_of a elf loader). set (key := store_key_of a elf loader).
  pose proof (store_get_sound env_of key _ Hst) as Hg.
  assert (Hown : forall e, build_entry a elf loader = Ok e -> justified env_of key e).
  { intros e0 Hb. exists a, elf. split; [|done]. unfold key. simpl. rewrite <- Henv.
    by destruct (environments a). }
  assert (Hget : forall e0, justified env_of key e0 -> exists a' elf',
     sha256 elf' = sha256 elf /\ environments a' = environments a /\ build_entry a' elf' loader = Ok e0).
  { intros e0 (a' & elf' & He & Hk & Hb). exists a', elf'. unfold key in *. simpl in *.
    split; [by injection Hk|]. split; [|done]. rewrite He, <- Henv. by destruct (environments a). }
  destruct (store_get key (w_store w)) as [[res|] st] eqn:Hsg.
  - intros [= <- <-]. split; [done|]. intros [= <-]. right.
    assert (justified env_of key res) as (a' & elf' & ?)%Hget; [|naive_solver].
    apply (proj2 Hst). by eapply lru_get_elem.
  - destruct (build_entry a elf loader) as [e0|err] eqn:Hb; [|by intros [= <- <-]].
    destruct (store_insert key e0 st) as [pub st'] eqn:Hins. intros [= <- <-].
    pose proof (store_insert_sound env_of key e0 st (Hown _ eq_refl) Hg) as Hi.
    rewrite Hins in Hi. split; [done|]. intros [= ->]. right.
    assert (justified env_of key e) as (a' & elf' & ?)%Hget; [|naive_solver].
    unfold store_insert, ProgramEntryStore in *.
    destruct (lru_get key st) as [[v|] st1] eqn:Hlg; simplify_eq; [|by apply Hown].
    apply (proj2 Hg). by eapply lru_get_elem.
Qed.

Lemma store_insert_resident key e st :
  (1 <= lru_cap st)%Z ->
  fst (store_get key (store_insert key e st).2) = Some (store_insert key e st).1.
Proof.
  intros Hc. unfold store_get, store_insert. pose proof (lru_get_cap key st) as Hg.
  destruct (lru_get key st) as [[v|] st1] eqn:H; simpl in *.
  - by eapply lru_get_again.
  - apply lru_get_put. lia.
Qed.

(** After a load that returned [e], the store answers [e] at the program's key. *)
Lemma load_program_resident acc a w e s' elf loader :
  (1 <= lru_cap (w_store w))%Z ->
  load_program acc (a, w) = (Ok e, s') -> resolve_elf a acc = Ok (ResolvedElf elf loader) ->
  fst (store_get (store_key_of a elf loader) (w_store s'.2)) = Some e.
Proof.
  intros Hcap Hl Hr. revert Hl. unfold load_program. rewrite Hr.
  destruct (sc_get_clock (sysvar_cache a)) as [clock|]; [|done].
  fold (store_key_of a elf loader). set (key := store_key_of a elf loader).
  destruct (store_get key (w_store w)) as [[res|] st] eqn:Hg.
  - intros [= -> <-]. simpl. by eapply lru_get_again.
  - destruct (build_entry a elf loader) as [e0|]; [|done].
    assert (Hc : (1 <= lru_cap st)%Z).
    { pose proof (lru_get_cap key (w_store w)) as Hc. unfold store_get in Hg.
      rewrite Hg in Hc. simpl in Hc. lia. }
    pose proof (store_insert_resident key e0 st Hc) as H.
    destruct (store_insert key e0 st) as [pub st']. intros [= -> <-]. exact H.
Qed.

(** Loading re-links.  Once a load has returned an entry, any database of
    the process whose environment sits at the same address and whose account
    resolves to the same bytes and loader gets that very entry, without building
    anything: whatever the tiering policy, and whatever environment it runs, for
    the key names the environment by its address alone. *)
Theorem load_program_relinks (acc acc' : AccountSharedData) (a b : Accounts) (w : World)
    (e : Entry) (s' : St) (elf : list byte) (loader : Address) (clock : Clock) :
  (1 <= lru_cap (w_store w))%Z ->
  load_program acc (a, w) = (Ok e, s') -> resolve_elf a acc = Ok (ResolvedElf elf loader) ->
  resolve_elf b acc' = Ok (ResolvedElf elf loader) ->
  sc_get_clock (sysvar_cache b) = Some clock -> (environments b).1 = (environments a).1 ->
  (load_program acc' (b, s'.2)).1 = Ok e.
Proof.
  intros Hcap Hl Ha Hb Hc Henv. pose proof (load_program_resident _ _ _ _ _ _ _ Hcap Hl Ha) as H.
  unfold load_program. rewrite Hc, Hb, Henv. unfold store_key_of in H.
  destruct (store_get _ (w_store s'.2)) as [o st]. simpl in H. by subst o.
Qed.

End Coherence.
