(* ===== verification/DbRefinement.v ===== *)
(** * The account database refines a store with savepoints

    The abstract store of what readers and savepoint users see: a function from
    addresses to reads and a stack of saved functions.  The database, with its
    overlay, tombstones, undo journal and source, implements it: every sequence of
    requests is matched by the abstract store with the same responses and the same
    reads. *)

From Stdlib Require Import ZArith Lia Strings.Byte.
From stdpp Require Import base tactics option list sets gmap strings.
From S2P Require Import Prelude.
From S2P Require Import Types.
From S2P Require Import AccountSource.
From S2P Require Import Errors.
From S2P Require Import Lru.
From S2P Require Import Runtime.
From S2P Require Import AccountsDb.
From S2P Require Import Overlay.
From S2P Require Import OverlayReads.

(** ** The abstract store *)

(** What a read of an address answers. *)
Definition Read : Type := result (option AccountSharedData) AccountSourceError.

Record Store : Type := mkStore {
  st_read : Address -> Read;
  st_saved : list (Address -> Read)
}.

(** What is asked of the store; a checkpoint pushes a savepoint and a rollback names
    one by its position. *)
Inductive request : Type :=
| ReqAdd (pubkey : Address) (account : AccountSharedData)
| ReqRemove (pubkey : Address)
| ReqSync (accounts : list (Address * AccountSharedData))
| ReqPrewarm (addrs : list Address)
| ReqPrewarmPrograms (program_ids : list Address)
| ReqRebuildSysvars
| ReqRebuildPrograms
| ReqCheckpoint
| ReqRollback (position : nat).

(** The reads after an update of one address. *)
Definition updates (k : Address) (r : Read) (before after : Address -> Read) : Prop :=
  forall j, after j = if decide (j = k) then r else before j.

Definition same_reads (before after : Address -> Read) : Prop := forall j, after j = before j.

(** The abstract steps, with whether the request succeeded.  Only two failures are
    visible: a refused add may have taken effect, and a failed or ambiguous sync
    leaves its own addresses undetermined. *)
Inductive store_step : request -> bool -> Store -> Store -> Prop :=
| store_add k acc σ σ' :
    updates k (Ok (written acc)) (st_read σ) (st_read σ') -> st_saved σ' = st_saved σ ->
    store_step (ReqAdd k acc) true σ σ'
| store_add_refused k acc σ σ' :
    same_reads (st_read σ) (st_read σ') \/ updates k (Ok (written acc)) (st_read σ) (st_read σ') ->
    st_saved σ' = st_saved σ -> store_step (ReqAdd k acc) false σ σ'
| store_remove k σ σ' :
    updates k (Ok None) (st_read σ) (st_read σ') -> st_saved σ' = st_saved σ ->
    store_step (ReqRemove k) true σ σ'
| store_sync l σ σ' :
    NoDup l.*1 ->
    (forall j, st_read σ' j = match (list_to_map l : gmap Address AccountSharedData) !! j with
                              | Some acc => Ok (written acc)
                              | None => st_read σ j
                              end) ->
    st_saved σ' = st_saved σ -> store_step (ReqSync l) true σ σ'
| store_sync_other l b σ σ' :
    b = false \/ ~ NoDup l.*1 -> (forall j, j ∉ l.*1 -> st_read σ' j = st_read σ j) ->
    st_saved σ' = st_saved σ -> store_step (ReqSync l) b σ σ'
| store_invisible q b σ σ' :
    match q with
    | ReqPrewarm _ | ReqPrewarmPrograms _ | ReqRebuildSysvars | ReqRebuildPrograms => True
    | _ => False
    end ->
    same_reads (st_read σ) (st_read σ') -> st_saved σ' = st_saved σ -> store_step q b σ σ'
| store_checkpoint σ σ' :
    same_reads (st_read σ) (st_read σ') -> st_saved σ' = st_saved σ ++ [st_read σ] ->
    store_step ReqCheckpoint true σ σ'
| store_rollback i saved σ σ' :
    st_saved σ !! i = Some saved -> same_reads saved (st_read σ') ->
    st_saved σ' = take (S i) (st_saved σ) -> store_step (ReqRollback i) true σ σ'
| store_rollback_unknown i σ :
    st_saved σ !! i = None -> store_step (ReqRollback i) false σ σ.

Inductive store_runs : list request -> list bool -> Store -> Store -> Prop :=
| store_runs_nil σ : store_runs [] [] σ σ
| store_runs_cons q b qs bs σ1 σ2 σ3 :
    store_step q b σ1 σ2 -> store_runs qs bs σ2 σ3 -> store_runs (q :: qs) (b :: bs) σ1 σ3.

Section DbRefinement.
Context {tgt : Target} {ids : SdkIds} {sv : SysvarRuntime} {pr : ProgramRuntime}
        {pc : ProgramCacheOps} {Lst : Lru ProgramEntryKey Entry}.

(** ** The database as an implementation *)

(** A database with the checkpoints its user holds. *)
Definition Db : Type := St * list StateCheckpoint.

Definition run_request (q : request) (c : Db) : bool * Db :=
  let '(s, cps) := c in
  match q with
  | ReqAdd k acc => let '(r, s') := add_account k acc s in (is_ok r, (s', cps))
  | ReqRemove k => (true, (remove_account k s, cps))
  | ReqSync l => let '(r, s') := sync_accounts l s in (is_ok r, (s', cps))
  | ReqPrewarm l => let '(r, a) := prewarm l s.1 in (is_ok r, ((a, s.2), cps))
  | ReqPrewarmPrograms l => let '(r, s') := prewarm_programs l s in (is_ok r, (s', cps))
  | ReqRebuildSysvars => (true, (rebuild_sysvar_cache s, cps))
  | ReqRebuildPrograms => let '(r, s') := rebuild_program_cache s in (is_ok r, (s', cps))
  | ReqCheckpoint => (true, (s, cps ++ [checkpoint s.1]))
  | ReqRollback i =>
      match cps !! i with
      | Some cp => (true, ((rollback cp s.1, s.2), take (S i) cps))
      | None => (false, c)
      end
  end.

Fixpoint run_requests (qs : list request) (c : Db) : list bool * Db :=
  match qs with
  | [] => ([], c)
  | q :: rest =>
      let '(b, c1) := run_request q c in
      let '(bs, c2) := run_requests rest c1 in (b :: bs, c2)
  end.

(** The refinement relation: reads agree, each checkpoint lies in the journal and
    rolling back to it gives the saved reads, and checkpoints are held in order. *)
Definition saved_by (a : Accounts) (cp : StateCheckpoint) (saved : Address -> Read) : Prop :=
  checkpoint_index cp <= length (journal a) /\
  forall k, try_get_account (rollback cp a) k = saved k.

Definition in_order (cps : list StateCheckpoint) : Prop :=
  forall i j cp cp', i <= j -> cps !! i = Some cp -> cps !! j = Some cp' ->
    checkpoint_index cp <= checkpoint_index cp'.

Definition refines (c : Db) (σ : Store) : Prop :=
  (forall k, try_get_account c.1.1 k = st_read σ k) /\
  Forall2 (saved_by c.1.1) c.2 (st_saved σ) /\ in_order c.2.

(** ** Rollbacks of extensions *)

Lemma rollback_cache cp a :
  cache (rollback cp a) = undo_all (drop (checkpoint_index cp) (journal a)) (cache a) /\
  source (rollback cp a) = source a /\
  journal (rollback cp a) = take (checkpoint_index cp) (journal a).
Proof. by rewrite rollback_spec. Qed.

(** An extension rolls back to the same place. *)
Lemma saved_by_extends a a' cp saved :
  extends a a' -> source a' = source a -> saved_by a cp saved -> saved_by a' cp saved.
Proof.
  intros (l & Hj & Hu) Hs [Hi Hr]. split; [rewrite Hj, length_app; lia|].
  intros k. rewrite <- Hr. destruct (rollback_cache cp a) as (Hc & Hsrc & _).
  destruct (rollback_cache cp a') as (Hc' & Hsrc' & _). apply try_get_ext; [|congruence].
  by rewrite Hc, Hc', Hj, drop_app_le, undo_all_app, Hu by lia.
Qed.

(** Rolling back to a later checkpoint first makes no difference. *)
Lemma saved_by_rollback a cp cp' saved :
  checkpoint_index cp <= checkpoint_index cp' -> checkpoint_index cp' <= length (journal a) ->
  saved_by a cp saved -> saved_by (rollback cp' a) cp saved.
Proof.
  intros Hle Hi [_ Hr]. destruct (rollback_cache cp' a) as (Hc' & Hs' & Hj').
  split; [rewrite Hj', length_take; lia|]. intros k. rewrite <- Hr.
  destruct (rollback_cache cp a) as (Hc & Hs & _).
  destruct (rollback_cache cp (rollback cp' a)) as (Hc2 & Hs2 & _).
  apply try_get_ext; [|congruence]. rewrite Hc, Hc2, Hc', Hj', <- undo_all_app. f_equal.
  rewrite <- (take_drop (checkpoint_index cp') (journal a)) at 3.
  rewrite drop_app_le; [done|]. rewrite length_take. lia.
Qed.

(** ** One request *)

(** A request that extends the database keeps the savepoints. *)
Lemma refines_extends s s' cps σ r :
  extends s.1 s'.1 -> source s'.1 = source s.1 -> refines (s, cps) σ ->
  (forall k, try_get_account s'.1 k = r k) -> refines (s', cps) (mkStore r (st_saved σ)).
Proof.
  intros He Hs (_ & Hsaved & Ho) Hr. split; [done|]. split; [|done]. simpl in *.
  eapply Forall2_impl; [exact Hsaved|]. intros cp saved. by apply saved_by_extends.
Qed.

Lemma add_account_source k acc s : source (add_account k acc s).2.1 = source s.1.
Proof. destruct (add_account_overlay k acc s) as [[-> _]|(_ & _ & Hs & _)]; done. Qed.

(** Whatever its result, an add changes no other read. *)
Lemma add_account_other k acc s j :
  j <> k -> try_get_account (add_account k acc s).2.1 j = try_get_account s.1 j.
Proof.
  intros Hj. destruct (add_account_overlay k acc s) as [[-> _]|(Hc & _ & Hs & _)]; [done|].
  etrans; [apply (try_get_ext (write_overlay k acc (record_journal k s.1))); [exact Hc|]|].
  - rewrite Hs. unfold write_overlay. by case_match.
  - by rewrite try_get_write, decide_False.
Qed.

(** A refused add took effect in full or not at all. *)
Lemma add_account_all_or_nothing k acc s :
  same_reads (try_get_account s.1) (try_get_account (add_account k acc s).2.1) \/
  updates k (Ok (written acc)) (try_get_account s.1) (try_get_account (add_account k acc s).2.1).
Proof.
  destruct (add_account_overlay k acc s) as [[-> _]|(Hc & _ & Hs & _)]; [by left|right].
  intros j. rewrite <- try_get_write. apply try_get_ext; [exact Hc|].
  rewrite Hs. unfold write_overlay. by case_match.
Qed.

Lemma sync_accounts_frame l s :
  source (sync_accounts l s).2.1 = source s.1 /\
  forall j, j ∉ l.*1 -> try_get_account (sync_accounts l s).2.1 j = try_get_account s.1 j.
Proof.
  unfold sync_accounts.
  apply (sfor_rel (fun s1 s2 : St => source s2.1 = source s1.1 /\
    forall j, j ∉ l.*1 -> try_get_account s2.1 j = try_get_account s1.1 j)); [done| |].
  - intros s1 s2 s3 [H1 H2] [H3 H4]. split; [congruence|]. intros j Hj. by rewrite H4, H2.
  - intros [k acc] s1 Hin. split; [apply add_account_source|]. intros j Hj.
    apply add_account_other. intros ->. apply Hj.
    rewrite partition_perm in Hin. by apply (list_elem_of_fmap_2 fst) in Hin.
Qed.

Lemma prewarm_source addrs a : source (prewarm addrs a).2 = source a.
Proof. unfold prewarm. repeat case_match; try done. apply insert_loaded_source. Qed.

(** The store after a request that extends the database. *)
Definition after (s : St) (σ : Store) : Store := mkStore (try_get_account s.1) (st_saved σ).

Lemma add_refines k acc s cps σ :
  refines (s, cps) σ ->
  store_step (ReqAdd k acc) (is_ok (add_account k acc s).1) σ (after (add_account k acc s).2 σ).
Proof.
  intros (Hread & _ & _). simpl in Hread. pose proof (add_account_reads_ok k acc s) as Hok.
  pose proof (add_account_all_or_nothing k acc s) as Hany.
  destruct (add_account k acc s) as [[[]|e] s']; simpl in *.
  - constructor; [|done]. intros j. simpl. by rewrite Hok, Hread.
  - constructor; [|done]. destruct Hany as [H|H]; [left|right]; intros j; rewrite <- Hread; apply H.
Qed.

Lemma sync_refines l s cps σ :
  refines (s, cps) σ ->
  store_step (ReqSync l) (is_ok (sync_accounts l s).1) σ (after (sync_accounts l s).2 σ).
Proof.
  intros (Hread & _ & _). simpl in Hread. destruct (sync_accounts_frame l s) as [_ Hframe].
  pose proof (sync_distinct_reads l s) as Hok.
  destruct (sync_accounts l s) as [[[]|e] s']; simpl in *.
  - destruct (decide (NoDup l.*1)) as [Hnd|Hnd].
    + apply store_sync; [done| |done]. intros j. simpl. rewrite <- Hread. by apply Hok.
    + apply store_sync_other; [by right| |done]. intros j Hj. simpl. rewrite <- Hread. by apply Hframe.
  - apply store_sync_other; [by left| |done]. intros j Hj. simpl. rewrite <- Hread. by apply Hframe.
Qed.

Lemma remove_refines k s cps σ :
  refines (s, cps) σ -> store_step (ReqRemove k) true σ (after (remove_account k s) σ).
Proof.
  intros (Hread & _ & _). simpl in Hread. constructor; [|done]. intros j. simpl. rewrite <- Hread.
  destruct (remove_account_overlay k s) as (Hc & _ & Hs & _). rewrite <- (try_get_del k (record_journal k s.1)).
  by apply try_get_ext.
Qed.

Lemma checkpoint_refines s cps σ :
  refines (s, cps) σ ->
  refines (s, cps ++ [checkpoint s.1]) (mkStore (st_read σ) (st_saved σ ++ [st_read σ])).
Proof.
  intros (Hread & Hsaved & Ho). simpl in *. split; [done|]. simpl. split.
  - apply Forall2_app; [done|]. constructor; [|done]. split; [done|]. intros k. rewrite <- Hread.
    destruct (extends_rollback s.1 s.1 (extends_frame _ _ eq_refl eq_refl)) as [Hc _].
    destruct (rollback_cache (checkpoint s.1) s.1) as (_ & Hs & _). by apply try_get_ext.
  - intros i j cp cp' Hij Hi Hj.
    assert (Hall : forall cp, cp ∈ cps -> checkpoint_index cp <= length (journal s.1)).
    { intros x [n Hx]%list_elem_of_lookup. by destruct (Forall2_lookup_l _ _ _ _ _ Hsaved Hx) as (? & _ & ? & _). }
    apply lookup_app_Some in Hi as [Hi|[Hi1 Hi2]]; apply lookup_app_Some in Hj as [Hj|[Hj1 Hj2]].
    + by eapply Ho.
    + apply list_lookup_singleton_Some in Hj2 as [_ <-]. apply Hall. by eapply list_elem_of_lookup_2.
    + apply lookup_lt_Some in Hj. lia.
    + apply list_lookup_singleton_Some in Hj2 as [_ <-].
      by apply list_lookup_singleton_Some in Hi2 as [_ <-].
Qed.

Lemma rollback_refines s cps σ i cp :
  refines (s, cps) σ -> cps !! i = Some cp ->
  exists σ', store_step (ReqRollback i) true σ σ' /\ refines ((rollback cp s.1, s.2), take (S i) cps) σ'.
Proof.
  intros (Hread & Hsaved & Ho) Hi. simpl in *.
  destruct (Forall2_lookup_l _ _ _ _ _ Hsaved Hi) as (saved & Hs & Hidx & Hsv).
  exists (mkStore saved (take (S i) (st_saved σ))). split; [by econstructor|].
  split; [done|]. simpl. split.
  - apply Forall2_take with (n := S i) in Hsaved as Ht. apply Forall2_same_length_lookup. split.
    { by eapply Forall2_length. }
    intros n cp1 v1 Hc1 Hv1. pose proof (Forall2_lookup_lr _ _ _ _ _ _ Ht Hc1 Hv1) as Hsb.
    apply lookup_take_Some in Hc1 as [Hc1 Hn].
    apply saved_by_rollback; [|done|done]. eapply (Ho n i); [lia|done|done].
  - intros n m c1 c2 Hnm H1 H2. apply lookup_take_Some in H1 as [H1 _].
    apply lookup_take_Some in H2 as [H2 _]. by eapply (Ho n m).
Qed.

(** The simulation of one request. *)
Lemma request_refines q c σ :
  SourceLaws (source c.1.1) -> refines c σ ->
  source (run_request q c).2.1.1 = source c.1.1 /\
  exists σ', store_step q (run_request q c).1 σ σ' /\ refines (run_request q c).2 σ'.
Proof.
  intros Hlaws Href. destruct c as [s cps]. simpl in Hlaws.
  assert (Hafter : forall s' b, extends s.1 s'.1 -> source s'.1 = source s.1 ->
    store_step q b σ (after s' σ) -> source s'.1 = source s.1 /\
    exists σ', store_step q b σ σ' /\ refines (s', cps) σ').
  { intros s' b He Hs Hstep. split; [done|]. exists (after s' σ). split; [done|].
    by apply (refines_extends s). }
  assert (Hinv : forall s' b, match q with ReqPrewarm _ | ReqPrewarmPrograms _ | ReqRebuildSysvars
      | ReqRebuildPrograms => True | _ => False end ->
    (forall k, try_get_account s'.1 k = try_get_account s.1 k) -> store_step q b σ (after s' σ)).
  { intros s' b Hq Hr. apply store_invisible; [done| |done]. intros j. simpl.
    rewrite Hr. apply Href. }
  destruct q; simpl.
  - pose proof (add_refines pubkey account s cps σ Href) as Hstep.
    pose proof (add_account_extends pubkey account s). pose proof (add_account_source pubkey account s).
    destruct (add_account pubkey account s) as [r s']. by apply Hafter.
  - apply Hafter; [apply remove_account_extends| |by eapply remove_refines].
    by destruct (remove_account_overlay pubkey s) as (_ & _ & ? & _).
  - pose proof (sync_refines accounts s cps σ Href) as Hstep. pose proof (sync_accounts_extends accounts s).
    destruct (sync_accounts_frame accounts s) as [Hs _].
    destruct (sync_accounts accounts s) as [r s']. by apply Hafter.
  - pose proof (prewarm_extends addrs s.1). pose proof (prewarm_source addrs s.1).
    pose proof (prewarm_reads s.1 addrs Hlaws). destruct (prewarm addrs s.1) as [r a].
    apply (Hafter (a, s.2)); [done|done|by apply Hinv].
  - pose proof (prewarm_programs_accounts program_ids s) as Ha.
    destruct (prewarm_programs program_ids s) as [r s']. simpl in Ha.
    apply (Hafter s'); [apply extends_frame; congruence|congruence|apply Hinv; [done|congruence]].
  - destruct (rebuild_sysvar_cache_frame s) as (Hc & Hj & Hs & _).
    apply Hafter; [by apply extends_frame|done|apply Hinv; [done|]]. intros k. by apply try_get_ext.
  - pose proof (rebuild_program_cache_accounts s) as Ha.
    destruct (rebuild_program_cache s) as [r s']. simpl in Ha.
    apply (Hafter s'); [apply extends_frame; congruence|congruence|apply Hinv; [done|congruence]].
  - split; [done|]. exists (mkStore (st_read σ) (st_saved σ ++ [st_read σ])).
    split; [by constructor|by apply checkpoint_refines].
  - destruct (cps !! position) as [cp|] eqn:Hi.
    + split; [by destruct (rollback_cache cp s.1) as (_ & ? & _)|by apply rollback_refines].
    + split; [done|]. exists σ. split; [|done]. apply store_rollback_unknown.
      destruct Href as (_ & Hsaved & _). simpl in Hsaved. apply lookup_ge_None.
      rewrite <- (Forall2_length _ _ _ Hsaved). by apply lookup_ge_None.
Qed.

(** C3: the account database refines a store with savepoints.  From any database
    over a source whose batch and single reads agree, every sequence of adds,
    removals, syncs, prewarms, rebuilds, checkpoints and rollbacks to held checkpoints
    is a run of the abstract store with the same responses, after which every read of
    the database, and every read after a rollback to a held checkpoint, is the one of
    the abstract store. *)
Theorem db_refines_store (qs : list request) (s : St) :
  SourceLaws (source s.1) ->
  let '(bs, c) := run_requests qs (s, []) in
  exists σ, store_runs qs bs (mkStore (try_get_account s.1) []) σ /\
    (forall k, try_get_account c.1.1 k = st_read σ k) /\
    forall i cp, c.2 !! i = Some cp -> exists saved, st_saved σ !! i = Some saved /\
      forall k, try_get_account (rollback cp c.1.1) k = saved k.
Proof.
  intros Hlaws.
  assert (Hruns : forall c σ, SourceLaws (source c.1.1) -> refines c σ ->
    exists σ', store_runs qs (run_requests qs c).1 σ σ' /\ refines (run_requests qs c).2 σ').
  { induction qs as [|q qs IH]; intros c σ Hl Hr; simpl; [exists σ; split; [constructor|done]|].
    destruct (request_refines q c σ Hl Hr) as (Hs & σ1 & Hstep & Hr1).
    rewrite <- Hs in Hl. destruct (run_request q c) as [b c1].
    destruct (IH c1 σ1 Hl Hr1) as (σ2 & Hruns & Hr2).
    destruct (run_requests qs c1) as [bs c2]. exists σ2. split; [by econstructor|done]. }
  destruct (Hruns (s, []) (mkStore (try_get_account s.1) []) Hlaws) as (σ & Hr & Hread & Hsaved & _).
  { split; [done|]. split; [constructor|]. intros i j cp cp' _ Hi. by destruct i. }
  destruct (run_requests qs (s, [])) as [bs c]. simpl in *. exists σ. split_and!; [done|done|].
  intros i cp Hi. destruct (Forall2_lookup_l _ _ _ _ _ Hsaved Hi) as (saved & Hs & _ & Hsv). eauto.
Qed.

End DbRefinement.
