(* ===== verification/Tiering.v ===== *)
(** * The tier promoter, [programs/tiering.rs] and [programs/tier_stats.rs]

    A [TierPromoter] compiles hot programs on a background pool while VMs keep
    running.  Its shared state is a set of atomics and the program entries
    behind their [Arc]s, so the model is a step relation: each atomic operation
    of a caller of [promote] or of a pool job is one labelled step, and a run is
    any interleaving of them.  The straight-line bodies ([promote],
    [promote_blocking], [observe]) are also given; [promote] is the run of its
    steps without interruption. *)

From Stdlib Require Import ZArith Lia.
From stdpp Require Import base tactics option list gmap.
From S2P Require Import Prelude.
From S2P Require Import Types.
From S2P Require Import Lru.
From S2P Require Import Runtime.
From S2P Require Import AccountsDb.

(** ** Entries behind their [Arc] *)

(** The counters of agave's [ProgramStatistics] the code reads. *)
Record ProgramStatistics : Type := mkProgramStatistics {
  compilations : Z;
  total_compilation_time_us : Z;
  interpreted_invocations : Z;
  jit_invocations : Z
}.

(** The JIT of [solana_sbpf], and [ProgramStatistics::jit_compiled].  A
    compilation writes through interior mutability: [jit_compile] gives the
    executable after it, or fails and leaves it as it was.  [entry_ref] is the
    address of an entry's [Arc]. *)
Class JitRuntime {pr : ProgramRuntime} : Type := {
  Image : Type;
  exe_image : Executable -> Image;
  get_compiled_program : Executable -> bool;
  jit_compile : Executable -> option Executable;
  stats_jit_compiled : Z -> ProgramStatistics -> ProgramStatistics;
  entry_ref : Entry -> positive
}.

Class JitLaws {pr : ProgramRuntime} {jr : JitRuntime} : Prop := {
  jit_compile_image x x' : jit_compile x = Some x' -> exe_image x' = exe_image x;
  jit_compile_compiled x x' : jit_compile x = Some x' -> get_compiled_program x' = true
}.

Section Tiering.
Context {t : Target} {pr : ProgramRuntime} {jr : JitRuntime}.

(** [ProgramCacheEntryType]: only [Loaded] carries an executable. *)
Inductive EntryProgram : Type :=
| Loaded (executable : Executable)
| NotLoaded.

Record TierEntry : Type := mkTierEntry {
  te_program : EntryProgram;
  te_stats : ProgramStatistics
}.

Definition te_set_program (p : EntryProgram) (e : TierEntry) : TierEntry :=
  mkTierEntry p (te_stats e).
Definition te_set_stats (s : ProgramStatistics) (e : TierEntry) : TierEntry :=
  mkTierEntry (te_program e) s.

(** The [cfg] gate of the JIT: x86_64 and not Windows. *)
Definition jit_target : bool := negb windows && x86_64.

Definition has_compiled_program (e : TierEntry) : bool :=
  if jit_target then
    match te_program e with
    | Loaded executable => get_compiled_program executable
    | NotLoaded => false
    end
  else false.

Definition is_loaded (e : TierEntry) : bool :=
  match te_program e with Loaded _ => true | NotLoaded => false end.

(** [compile_entry], run without interruption: the outcome and the entry. *)
Definition compile_entry (e : TierEntry) : bool * TierEntry :=
  if jit_target then
    match te_program e with
    | Loaded executable =>
        if get_compiled_program executable then (true, e)
        else match jit_compile executable with
             | None => (false, e)
             | Some executable' =>
                 (get_compiled_program executable', te_set_program (Loaded executable') e)
             end
    | NotLoaded => (false, e)
    end
  else (false, e).

(** ** Counters and the promoter *)
Record PromotionStats : Type := mkPromotionStats {
  attempted : Z;
  succeeded : Z;
  failed : Z;
  compile_us : Z;
  dropped : Z
}.

Definition PromotionStats_default : PromotionStats := mkPromotionStats 0 0 0 0 0.

(** [fetch_add] wraps around at the width of the atomic. *)
Definition add_attempted (s : PromotionStats) : PromotionStats :=
  mkPromotionStats (wrap_u64 (attempted s + 1)) (succeeded s) (failed s) (compile_us s) (dropped s).
Definition add_succeeded (s : PromotionStats) : PromotionStats :=
  mkPromotionStats (attempted s) (wrap_u64 (succeeded s + 1)) (failed s) (compile_us s) (dropped s).
Definition add_failed (s : PromotionStats) : PromotionStats :=
  mkPromotionStats (attempted s) (succeeded s) (wrap_u64 (failed s + 1)) (compile_us s) (dropped s).
Definition add_compile_us (us : Z) (s : PromotionStats) : PromotionStats :=
  mkPromotionStats (attempted s) (succeeded s) (failed s) (wrap_u64 (compile_us s + us)) (dropped s).
Definition add_dropped (s : PromotionStats) : PromotionStats :=
  mkPromotionStats (attempted s) (succeeded s) (failed s) (compile_us s) (wrap_u64 (dropped s + 1)).

(** [u64::try_from(start.elapsed().as_micros()).unwrap_or(u64::MAX)]. *)
Definition elapsed_us (micros : Z) : Z := if (micros <=? u64_max)%Z then micros else u64_max.

(** The immutable fields of [TierPromoter]; [tp_pool] is the number of threads. *)
Record TierPromoter : Type := mkTierPromoter {
  tp_enabled : bool;
  tp_threshold : Z;
  tp_pool : option Z;
  tp_max_pending : Z
}.

Definition pool_threads (cpus : Z) : Z := Z.min 4 (Z.max 1 ((cpus + 1) / 2)).

(** [TierPromoter::new].  [cpus] is what [available_parallelism] reports and
    [pool_builds] whether the thread pool can be built. *)
Definition promoter_new (cpus : option Z) (pool_builds : bool) (policy : JitPolicy) :
    TierPromoter :=
  let '(enabled0, threshold) :=
    match effective policy with
    | Lazy hot_threshold => (true, hot_threshold)
    | Eager | Off => (false, usize_max)
    end in
  let enabled1 := enabled0 && x86_64 in
  let pool :=
    if enabled1 && pool_builds then Some (pool_threads (default 4%Z cpus)) else None in
  mkTierPromoter (enabled1 && bool_decide (is_Some pool)) threshold pool 64.

(** [TierPromoter::disabled]. *)
Definition promoter_disabled : TierPromoter := mkTierPromoter false usize_max None 64.

(** ** Threads *)

(** Where a caller of [promote] stands: outside, after its [fetch_add] with the
    count it returned, or between giving the slot back and counting the drop. *)
Inductive Caller : Type :=
| CIdle
| CAdded (entry : positive) (old : Z)
| CDropping.

(** Where a pool job stands: queued, after [attempted], inside [compile_entry]
    after its check, after it, after [compile_us], after the entry's own
    statistics, and after the outcome with only the guard left to drop. *)
Inductive Job : Type :=
| JQueued (entry : positive)
| JAttempted (entry : positive)
| JCompiling (entry : positive)
| JCompiled (entry : positive) (outcome : bool)
| JTimed (entry : positive) (outcome : bool) (elapsed : Z)
| JRecorded
| JReleasing.

Record TierState : Type := mkTierState {
  ts_entries : gmap positive TierEntry;
  ts_pending : Z;
  ts_stats : PromotionStats;
  ts_callers : list Caller;
  ts_jobs : list Job
}.

Definition ts_set_entry (h : positive) (e : TierEntry) (s : TierState) : TierState :=
  mkTierState (<[h := e]> (ts_entries s)) (ts_pending s) (ts_stats s) (ts_callers s) (ts_jobs s).
Definition ts_add_pending (d : Z) (s : TierState) : TierState :=
  mkTierState (ts_entries s) (wrap_u64 (ts_pending s + d)) (ts_stats s) (ts_callers s) (ts_jobs s).
Definition ts_map_stats (f : PromotionStats -> PromotionStats) (s : TierState) : TierState :=
  mkTierState (ts_entries s) (ts_pending s) (f (ts_stats s)) (ts_callers s) (ts_jobs s).
Definition ts_set_caller (i : nat) (c : Caller) (s : TierState) : TierState :=
  mkTierState (ts_entries s) (ts_pending s) (ts_stats s) (<[i := c]> (ts_callers s)) (ts_jobs s).
Definition ts_set_job (j : nat) (b : Job) (s : TierState) : TierState :=
  mkTierState (ts_entries s) (ts_pending s) (ts_stats s) (ts_callers s) (<[j := b]> (ts_jobs s)).
Definition ts_spawn (h : positive) (s : TierState) : TierState :=
  mkTierState (ts_entries s) (ts_pending s) (ts_stats s) (ts_callers s)
    (ts_jobs s ++ [JQueued h]).
Definition ts_drop_job (j : nat) (s : TierState) : TierState :=
  mkTierState (ts_entries s) (ts_pending s) (ts_stats s) (ts_callers s) (delete j (ts_jobs s)).

(** A new promoter with [n] threads that may call it, over the entries of the
    process. *)
Definition tier_init (entries : gmap positive TierEntry) (n : nat) : TierState :=
  mkTierState entries 0 PromotionStats_default (replicate n CIdle) [].

Definition started (b : Job) : bool := match b with JQueued _ => false | _ => true end.

Definition running (s : TierState) : Z := Z.of_nat (length (filter (fun b => started b = true) (ts_jobs s))).

(** ** Steps *)
Inductive Label : Type :=
| LCall (i : nat) (h : positive)          (** caller [i] enters [promote(h)] *)
| LCaller (i : nat)                       (** caller [i] goes on *)
| LJob (j : nat) (micros : Z)             (** job [j] goes on; its clock reads [micros] *)
| LInvoke (h : positive) (st : ProgramStatistics)  (** the VM counts invocations *)
| LPublish (h : positive) (e : TierEntry). (** a new entry is published *)

(** The checks of [promote] and its [fetch_add]. *)
Definition call_step (p : TierPromoter) (i : nat) (h : positive) (s : TierState) :
    option TierState :=
  match ts_callers s !! i, ts_entries s !! h with
  | Some CIdle, Some e =>
      if negb (tp_enabled p) || has_compiled_program e then Some s
      else Some (ts_set_caller i (CAdded h (ts_pending s)) (ts_add_pending 1 s))
  | _, _ => None
  end.

(** The rest of [promote]: dropped, returned without a pool, or spawned. *)
Definition caller_step (p : TierPromoter) (i : nat) (s : TierState) : option TierState :=
  match ts_callers s !! i with
  | Some (CAdded h old) =>
      if (tp_max_pending p <=? old)%Z then Some (ts_set_caller i CDropping (ts_add_pending (-1) s))
      else match tp_pool p with
           | None => Some (ts_set_caller i CIdle (ts_add_pending (-1) s))
           | Some _ => Some (ts_set_caller i CIdle (ts_spawn h s))
           end
  | Some CDropping => Some (ts_set_caller i CIdle (ts_map_stats add_dropped s))
  | _ => None
  end.

(** The first half of [compile_entry], up to [jit_compile]. *)
Definition compile_check (e : TierEntry) (h : positive) : Job :=
  if jit_target then
    match te_program e with
    | Loaded executable =>
        if get_compiled_program executable then JCompiled h true else JCompiling h
    | NotLoaded => JCompiled h false
    end
  else JCompiled h false.

(** The closure given to [pool.spawn], one atomic operation at a time.  A queued
    job starts when a thread of the pool is free. *)
Definition job_step (p : TierPromoter) (j : nat) (micros : Z) (s : TierState) :
    option TierState :=
  match ts_jobs s !! j with
  | Some (JQueued h) =>
      match tp_pool p with
      | Some threads =>
          if (running s <? threads)%Z then
            Some (ts_set_job j (JAttempted h) (ts_map_stats add_attempted s))
          else None
      | None => None
      end
  | Some (JAttempted h) =>
      match ts_entries s !! h with
      | Some e => Some (ts_set_job j (compile_check e h) s)
      | None => None
      end
  | Some (JCompiling h) =>
      match ts_entries s !! h with
      | Some e =>
          match te_program e with
          | Loaded executable =>
              match jit_compile executable with
              | None => Some (ts_set_job j (JCompiled h false) s)
              | Some executable' =>
                  Some (ts_set_job j (JCompiled h (get_compiled_program executable'))
                          (ts_set_entry h (te_set_program (Loaded executable') e) s))
              end
          | NotLoaded => None
          end
      | None => None
      end
  | Some (JCompiled h outcome) =>
      let elapsed := elapsed_us micros in
      Some (ts_set_job j (JTimed h outcome elapsed) (ts_map_stats (add_compile_us elapsed) s))
  | Some (JTimed h outcome elapsed) =>
      if outcome then
        match ts_entries s !! h with
        | Some e =>
            Some (ts_set_job j JRecorded
                    (ts_set_entry h (te_set_stats (stats_jit_compiled elapsed (te_stats e)) e) s))
        | None => None
        end
      else Some (ts_set_job j JReleasing (ts_map_stats add_failed s))
  | Some JRecorded => Some (ts_set_job j JReleasing (ts_map_stats add_succeeded s))
  | Some JReleasing => Some (ts_drop_job j (ts_add_pending (-1) s))
  | None => None
  end.

Definition tstep (p : TierPromoter) (l : Label) (s : TierState) : option TierState :=
  match l with
  | LCall i h => call_step p i h s
  | LCaller i => caller_step p i s
  | LJob j micros => job_step p j micros s
  | LInvoke h st =>
      match ts_entries s !! h with
      | Some e => Some (ts_set_entry h (te_set_stats st e) s)
      | None => None
      end
  | LPublish h e =>
      match ts_entries s !! h with Some _ => None | None => Some (ts_set_entry h e s) end
  end.

(** The run of a sequence of labels. *)
Fixpoint trun (p : TierPromoter) (ls : list Label) (s : TierState) : option TierState :=
  match ls with
  | [] => Some s
  | l :: ls' => match tstep p l s with Some s' => trun p ls' s' | None => None end
  end.

(** Reachability as a relation. *)
Inductive reachable (p : TierPromoter) (s0 : TierState) : TierState -> Prop :=
| reach_init : reachable p s0 s0
| reach_step s l s' : reachable p s0 s -> tstep p l s = Some s' -> reachable p s0 s'.

(** ** The straight-line bodies *)

Definition promote (p : TierPromoter) (h : positive) (s : TierState) : TierState :=
  match ts_entries s !! h with
  | None => s
  | Some e =>
      if negb (tp_enabled p) then s
      else if has_compiled_program e then s
      else
        let pending := ts_pending s in
        let s1 := ts_add_pending 1 s in
        if (tp_max_pending p <=? pending)%Z then ts_map_stats add_dropped (ts_add_pending (-1) s1)
        else match tp_pool p with
             | None => ts_add_pending (-1) s1
             | Some _ => ts_spawn h s1
             end
  end.

Definition promote_blocking (p : TierPromoter) (micros : Z) (h : positive) (s : TierState) :
    TierState :=
  match ts_entries s !! h with
  | None => s
  | Some e =>
      if negb (tp_enabled p) then s
      else if has_compiled_program e then s
      else
        let s1 := ts_map_stats add_attempted s in
        let '(outcome, e1) := compile_entry e in
        let elapsed := elapsed_us micros in
        let s2 := ts_map_stats (add_compile_us elapsed) (ts_set_entry h e1 s1) in
        if outcome then
          ts_map_stats add_succeeded
            (ts_set_entry h (te_set_stats (stats_jit_compiled elapsed (te_stats e1)) e1) s2)
        else ts_map_stats add_failed s2
  end.

(** The loops of [observe] over a snapshot of entries, each with the time its
    compilation would take. *)
Definition observe_blocking_one (p : TierPromoter) (s : TierState) (x : positive * Z) :
    TierState :=
  match ts_entries s !! x.1 with
  | None => s
  | Some e =>
      if has_compiled_program e then s
      else if negb (is_loaded e) then s
      else promote_blocking p x.2 x.1 s
  end.

Definition observe_one (p : TierPromoter) (s : TierState) (x : positive * Z) : TierState :=
  match ts_entries s !! x.1 with
  | None => s
  | Some e =>
      if has_compiled_program e then s
      else if negb (is_loaded e) then s
      else if (interpreted_invocations (te_stats e) <? tp_threshold p)%Z then s
      else promote p x.1 s
  end.

Definition observe_entries (p : TierPromoter) (entries : list (positive * Z)) (s : TierState) :
    TierState :=
  if negb (tp_enabled p) then s
  else if (tp_threshold p =? 0)%Z then foldl (observe_blocking_one p) s entries
  else foldl (observe_one p) s entries.

(** ** [PromotionStats::snapshot] and [ProgramTierStats], [programs/tier_stats.rs] *)
Record ProgramTierStats : Type := mkProgramTierStats {
  pts_policy : JitPolicy;
  pts_effective_policy : JitPolicy;
  pts_resident_entries : Z;
  pts_cache_entries : Z;
  pts_compilations : Z;
  pts_total_compile_time_us : Z;
  pts_interpreted_invocations : Z;
  pts_jit_invocations : Z;
  pts_promotions : PromotionStats
}.

(** One round of the loop of [collect], with saturating sums. *)
Definition collect_one (acc : ProgramStatistics) (st : ProgramStatistics) : ProgramStatistics :=
  mkProgramStatistics
    (saturating_add_u64 (compilations acc) (compilations st))
    (saturating_add_u64 (total_compilation_time_us acc) (total_compilation_time_us st))
    (saturating_add_u64 (interpreted_invocations acc) (interpreted_invocations st))
    (saturating_add_u64 (jit_invocations acc) (jit_invocations st)).

Definition collect_entries (policy : JitPolicy) (entries : list ProgramStatistics)
    (resident_entries : Z) (promotion : PromotionStats) : ProgramTierStats :=
  let sums := foldl collect_one (mkProgramStatistics 0 0 0 0) entries in
  mkProgramTierStats policy (effective policy) resident_entries (Z.of_nat (length entries))
    (compilations sums) (total_compilation_time_us sums) (interpreted_invocations sums)
    (jit_invocations sums) promotion.

(** [ProgramTierStats::zero]. *)
Definition tier_stats_zero (policy : JitPolicy) : ProgramTierStats :=
  mkProgramTierStats policy Off 0 0 0 0 0 0 PromotionStats_default.

End Tiering.

(** ** Over the account database *)
Section OverAccounts.
Context {tgt : Target} {ids : SdkIds} {sv : SysvarRuntime} {pr : ProgramRuntime}
        {pc : ProgramCacheOps} {Lst : Lru ProgramEntryKey Entry} {jr : JitRuntime}.

(** [observe], called by [Svm::observe_tier] after every transaction: the
    snapshot of the committed entries, each with the time its compilation takes. *)
Definition observe (p : TierPromoter) (micros : nat -> Z) (a : St) (s : TierState) : TierState :=
  observe_entries p (imap (fun i e => (entry_ref e, micros i)) (program_entries_snapshot a)) s.

(** [ProgramTierStats::collect], called by [Svm::program_tier_stats]. *)
Definition collect (policy : JitPolicy) (a : St) (s : TierState) : ProgramTierStats :=
  collect_entries policy
    (omap (fun e => te_stats <$> ts_entries s !! entry_ref e) (program_entries_snapshot a))
    (Z.of_nat (store_len (w_store a.2))) (ts_stats s).

(** The entries [Svm::prewarm_programs] schedules under [Lazy]: those found in
    the cache without a compiled program. *)
Definition prewarm_targets (program_ids : list Address) (a : St) (s : TierState) :
    list positive :=
  filter (fun h => match ts_entries s !! h with
                   | Some e => negb (has_compiled_program e)
                   | None => false
                   end = true)
    (omap (fun k => entry_ref <$> pc_find (cache_at a.2 (programs_cache a.1)) k) program_ids).

(** The promotions of [Svm::prewarm_programs], after the entries were loaded. *)
Definition prewarm_promotions (p : TierPromoter) (policy : JitPolicy) (micros : nat -> Z)
    (program_ids : list Address) (a : St) (s : TierState) : TierState :=
  if is_lazy policy then
    foldl (fun s x =>
             if bool_decide (hot_threshold_of policy = Some 0%Z)
             then promote_blocking p x.2 x.1 s
             else promote p x.1 s)
      s (imap (fun i h => (h, micros i)) (prewarm_targets program_ids a s))
  else s.

End OverAccounts.
