(* ===== verification/TieringFacts.v ===== *)
(** * Theorems about the tier promoter

    Invariants of every interleaving of callers and pool jobs: the slots in use
    are exactly the pending count and never exceed the limit, the outcome
    counters account for every job, and an entry only ever changes from
    interpreted to compiled.  The pool cannot deadlock and every schedule of its
    jobs ends.  The synchronous sweep compiles exactly what can be compiled. *)

From Stdlib Require Import ZArith Lia.
From stdpp Require Import base tactics option list gmap.
From S2P Require Import Prelude.
From S2P Require Import Types.
From S2P Require Import Lru.
From S2P Require Import Runtime.
From S2P Require Import AccountsDb.
From S2P Require Import Tiering.

(** ** Sums over the threads *)
Fixpoint zsum {A} (f : A -> Z) (l : list A) : Z :=
  match l with [] => 0%Z | x :: l' => (f x + zsum f l')%Z end.

Section Sums.
Context {A : Type} (f : A -> Z).

Lemma zsum_app l1 l2 : zsum f (l1 ++ l2) = (zsum f l1 + zsum f l2)%Z.
Proof. induction l1 as [|x l1 IH]; simpl; [done|]. rewrite IH. lia. Qed.

Lemma zsum_insert l i x y :
  l !! i = Some x -> zsum f (<[i := y]> l) = (zsum f l - f x + f y)%Z.
Proof.
  revert i. induction l as [|z l IH]; intros [|i] Hi; simplify_eq/=; [lia|].
  rewrite (IH _ Hi). lia.
Qed.

Lemma zsum_delete l i x :
  l !! i = Some x -> zsum f (delete i l) = (zsum f l - f x)%Z.
Proof.
  revert i. induction l as [|z l IH]; intros [|i] Hi; simplify_eq/=; [lia|].
  change (list_delete i l) with (delete i l). rewrite (IH _ Hi). lia.
Qed.

Lemma zsum_replicate n x : zsum f (replicate n x) = (Z.of_nat n * f x)%Z.
Proof. induction n as [|n IH]; [done|]. cbn [replicate zsum]. lia. Qed.

Lemma zsum_bounds l : (forall x, (0 <= f x <= 1)%Z) -> (0 <= zsum f l <= Z.of_nat (length l))%Z.
Proof. intros Hf. induction l as [|x l IH]; simpl; [lia|]. specialize (Hf x). lia. Qed.

End Sums.

Lemma zsum_filter {A} (g : A -> bool) (l : list A) :
  Z.of_nat (length (filter (fun x => g x = true) l)) = zsum (fun x => Z.b2z (g x)) l.
Proof.
  induction l as [|x l IH]; [done|]. rewrite filter_cons. cbn [zsum].
  destruct (g x) eqn:Hx; case_decide; try done; simpl; lia.
Qed.

Section TieringFacts.
Context {t : Target} {pr : ProgramRuntime} {jr : JitRuntime}.

(** ** What each thread holds *)

(** A slot is held between the two changes of [pending]. *)
Definition caller_slot (c : Caller) : Z := match c with CAdded _ _ => 1 | _ => 0 end.

(** A caller whose count was below the limit will spawn a job. *)
Definition caller_admitted (m : Z) (c : Caller) : Z :=
  match c with CAdded _ old => Z.b2z (old <? m)%Z | _ => 0 end.

Definition caller_dropping (c : Caller) : Z := match c with CDropping => 1 | _ => 0 end.
Definition job_queued (b : Job) : Z := match b with JQueued _ => 1 | _ => 0 end.

(** A job counted as attempted and not yet as succeeded or failed. *)
Definition job_open (b : Job) : Z :=
  match b with JQueued _ | JReleasing => 0 | _ => 1 end.

Definition slots (s : TierState) : Z :=
  (zsum caller_slot (ts_callers s) + Z.of_nat (length (ts_jobs s)))%Z.

Definition admitted (p : TierPromoter) (s : TierState) : Z :=
  (zsum (caller_admitted (tp_max_pending p)) (ts_callers s) + Z.of_nat (length (ts_jobs s)))%Z.

Definition open_jobs (s : TierState) : Z := zsum job_open (ts_jobs s).

(** The entry a job refers to exists, and is loaded once it is being compiled. *)
Definition job_entry_ok (entries : gmap positive TierEntry) (b : Job) : Prop :=
  match b with
  | JQueued h | JAttempted h => is_Some (entries !! h)
  | JCompiling h => exists e, entries !! h = Some e /\ is_loaded e = true
  | JCompiled h _ | JTimed h _ _ => is_Some (entries !! h)
  | JRecorded | JReleasing => True
  end.

Definition caller_entry_ok (entries : gmap positive TierEntry) (c : Caller) : Prop :=
  match c with CAdded h _ => is_Some (entries !! h) | _ => True end.

Record tier_inv (p : TierPromoter) (n : nat) (s : TierState) : Prop := {
  inv_callers : length (ts_callers s) = n;
  inv_pending : ts_pending s = slots s;
  inv_admitted : (admitted p s <= tp_max_pending p)%Z;
  inv_running : match tp_pool p with
                | Some threads => (running s <= threads)%Z
                | None => ts_jobs s = []
                end;
  inv_outcomes :
    attempted (ts_stats s) =
      wrap_u64 (succeeded (ts_stats s) + failed (ts_stats s) + open_jobs s);
  inv_jobs_ok : Forall (job_entry_ok (ts_entries s)) (ts_jobs s);
  inv_callers_ok : Forall (caller_entry_ok (ts_entries s)) (ts_callers s)
}.

(** An entry keeps its program and, once compiled, stays so. *)
Definition entry_advances (e e' : TierEntry) : Prop :=
  is_loaded e' = is_loaded e /\
  (forall x x', te_program e = Loaded x -> te_program e' = Loaded x' ->
     exe_image x' = exe_image x /\
     (get_compiled_program x = true -> get_compiled_program x' = true)).

Definition entries_advance (m m' : gmap positive TierEntry) : Prop :=
  forall h e, m !! h = Some e -> exists e', m' !! h = Some e' /\ entry_advances e e'.

Lemma entry_advances_refl e : entry_advances e e.
Proof. split; [done|]. intros x x' Hx Hx'. rewrite Hx in Hx'. by simplify_eq. Qed.

Lemma entry_advances_trans e1 e2 e3 :
  entry_advances e1 e2 -> entry_advances e2 e3 -> entry_advances e1 e3.
Proof.
  intros [Hl1 H1] [Hl2 H2]. split; [congruence|]. intros x x'' Hx Hx''.
  unfold is_loaded in *. rewrite Hx in Hl1. destruct (te_program e2) as [x'|] eqn:Hx'; [|done].
  destruct (H1 _ _ Hx eq_refl), (H2 _ _ eq_refl Hx''). split; [congruence|auto].
Qed.

#[local] Hint Resolve entry_advances_refl entry_advances_trans : core.

#[export] Instance entries_advance_preorder : PreOrder entries_advance.
Proof.
  split; [intros m h e He; eauto|]. intros m1 m2 m3 H1 H2 h e He.
  destruct (H1 _ _ He) as (e2 & He2 & Ha1), (H2 _ _ He2) as (e3 & He3 & Ha2). eauto.
Qed.

Lemma entries_advance_insert m h e e' :
  m !! h = Some e -> entry_advances e e' -> entries_advance m (<[h := e']> m).
Proof.
  intros He Ha k ek Hk. destruct (decide (h = k)) as [<-|Hne].
  - rewrite lookup_insert_eq. rewrite He in Hk. simplify_eq. eauto.
  - rewrite lookup_insert_ne by done. eauto.
Qed.

Lemma entries_advance_fresh m h e : m !! h = None -> entries_advance m (<[h := e]> m).
Proof.
  intros He k ek Hk. rewrite lookup_insert_ne by congruence. eauto.
Qed.

Lemma set_stats_advances e st : entry_advances e (te_set_stats st e).
Proof.
  split; [done|]. intros x x' Hx Hx'. simpl in Hx'. rewrite Hx in Hx'. by simplify_eq.
Qed.

Lemma compile_advances {laws : JitLaws} e x x' :
  te_program e = Loaded x -> jit_compile x = Some x' ->
  entry_advances e (te_set_program (Loaded x') e).
Proof.
  intros He Hx. unfold entry_advances, is_loaded. rewrite He. simpl. split; [done|].
  intros y y' [= <-] [= <-]. split; [by apply jit_compile_image|].
  intros _. by eapply jit_compile_compiled.
Qed.

#[local] Hint Resolve set_stats_advances compile_advances : core.

(** Every step advances the entries. *)
Lemma tstep_advances {laws : JitLaws} p l s s' :
  tstep p l s = Some s' -> entries_advance (ts_entries s) (ts_entries s').
Proof.
  assert (Hr : forall m, entries_advance m m) by reflexivity.
  destruct l as [i h|i|j micros|h st|h e]; simpl;
    unfold call_step, caller_step, job_step; intros H;
    repeat (case_match; simplify_eq; try done); simpl; auto;
    eauto using entries_advance_insert, entries_advance_fresh.
Qed.

Lemma jobs_ok_advance m m' js :
  entries_advance m m' -> Forall (job_entry_ok m) js -> Forall (job_entry_ok m') js.
Proof.
  intros Ha HF. eapply Forall_impl; [exact HF|]. intros [h|h|h|h ?|h ? ?| |]; simpl; try done;
    try (intros [e He]; destruct (Ha _ _ He) as (e' & -> & _); eauto).
  intros (e & He & Hl). destruct (Ha _ _ He) as (e' & -> & Hl' & _). exists e'.
  split; [done|]. by rewrite Hl'.
Qed.

Lemma callers_ok_advance m m' cs :
  entries_advance m m' -> Forall (caller_entry_ok m) cs -> Forall (caller_entry_ok m') cs.
Proof.
  intros Ha HF. eapply Forall_impl; [exact HF|]. intros [|h old|]; simpl; try done.
  intros [e He]. destruct (Ha _ _ He) as (e' & -> & _). eauto.
Qed.

(** ** The invariant *)

(** The sums after one thread moved. *)
Ltac tier_sums :=
  unfold slots, admitted, open_jobs, running in *; cbn in *;
  rewrite ?length_insert, ?length_app, ?zsum_filter, ?zsum_app in *; cbn in *;
  repeat match goal with
  | H : ?l !! ?i = Some _ |- context [zsum ?f (<[?i := ?y]> ?l)] =>
      rewrite (zsum_insert f l i _ y H)
  | H : ?l !! ?i = Some _ |- context [zsum ?f (delete ?i ?l)] =>
      rewrite (zsum_delete f l i _ H)
  | H : ?l !! ?i = Some _ |- context [length (delete ?i ?l)] =>
      rewrite (length_delete l i) by eauto
  end; cbn in *.

Lemma caller_slot_bounds cs : (0 <= zsum caller_slot cs <= Z.of_nat (length cs))%Z.
Proof. apply zsum_bounds. by intros []; simpl. Qed.

Lemma caller_admitted_bounds m cs :
  (0 <= zsum (caller_admitted m) cs <= zsum caller_slot cs)%Z.
Proof.
  induction cs as [|[|h old|] cs IH]; simpl; [lia|lia| |lia].
  destruct (old <? m)%Z; simpl; lia.
Qed.

Lemma tier_init_inv p entries n :
  (0 <= tp_max_pending p)%Z -> match tp_pool p with Some k => (0 <= k)%Z | None => True end ->
  tier_inv p n (tier_init entries n).
Proof.
  intros Hm Hk. constructor; tier_sums; rewrite ?zsum_replicate; simpl; try lia; try done.
  - apply length_replicate.
  - by destruct (tp_pool p).
  - by apply Forall_replicate.
Qed.

Section Steps.
Context {laws : JitLaws} (p : TierPromoter) (n : nat).
Hypothesis Hfits : (Z.of_nat n + tp_max_pending p <= u64_max)%Z.

(** The pending count is at most the number of slots there can be. *)
Lemma pending_range s : tier_inv p n s ->
  (zsum caller_slot (ts_callers s) <= Z.of_nat n /\
   0 <= ts_pending s <= u64_max /\ Z.of_nat (length (ts_jobs s)) <= tp_max_pending p)%Z.
Proof.
  intros [Hn Hp Ha _ _ _ _]. pose proof (caller_slot_bounds (ts_callers s)).
  pose proof (caller_admitted_bounds (tp_max_pending p) (ts_callers s)).
  rewrite Hp. unfold slots, admitted in *. lia.
Qed.

Lemma call_step_inv i h s s' : tier_inv p n s -> call_step p i h s = Some s' -> tier_inv p n s'.
Proof.
  intros Hinv Hs. pose proof (pending_range s Hinv) as (Hc & Hp & Hj). destruct Hinv.
  unfold call_step in Hs. destruct (ts_callers s !! i) as [[]|] eqn:Hi; try done.
  destruct (ts_entries s !! h) as [e|] eqn:He; [|done].
  case_match; simplify_eq; [done|].
  pose proof (caller_admitted_bounds (tp_max_pending p) (ts_callers s)).
  pose proof (zsum_insert caller_slot _ _ _ (CAdded h (ts_pending s)) Hi) as Hsl.
  pose proof (caller_slot_bounds (<[i := CAdded h (ts_pending s)]> (ts_callers s))) as Hb.
  rewrite length_insert in Hb. simpl in Hsl.
  constructor; tier_sums; try done.
  - rewrite wrap_u64_id; [lia|]. unfold in_u64. lia.
  - destruct (ts_pending s <? tp_max_pending p)%Z eqn:Hlt; simpl; bool_to_prop; lia.
  - apply Forall_insert; [done|]. simpl. eauto.
Qed.

Lemma caller_step_inv i s s' : tier_inv p n s -> caller_step p i s = Some s' -> tier_inv p n s'.
Proof.
  intros Hinv Hs. pose proof (pending_range s Hinv) as (Hc & Hp & Hj). destruct Hinv.
  unfold caller_step in Hs. destruct (ts_callers s !! i) as [[|h old|]|] eqn:Hi; try done.
  - pose proof (zsum_insert caller_slot _ _ _ CIdle Hi) as Hsl.
    pose proof (caller_slot_bounds (<[i := CIdle]> (ts_callers s))) as Hb. simpl in Hsl.
    assert (He : is_Some (ts_entries s !! h)) by (by apply (Forall_lookup_1 _ _ _ _ inv_callers_ok0 Hi)).
    destruct (tp_max_pending p <=? old)%Z eqn:Hle; simplify_eq.
    + constructor; tier_sums; try done.
      * rewrite wrap_u64_id; [lia|]. unfold in_u64. lia.
      * assert ((old <? tp_max_pending p)%Z = false) as -> by (bool_to_prop; apply Z.ltb_ge; lia).
        simpl. lia.
      * by apply Forall_insert.
    + destruct (tp_pool p) as [k|] eqn:Hpool; simplify_eq.
      * constructor; tier_sums; rewrite ?Hpool; try done; try lia.
        -- assert ((old <? tp_max_pending p)%Z = true) as -> by (bool_to_prop; apply Z.ltb_lt; lia).
           simpl. lia.
        -- by rewrite Z.add_0_r.
        -- apply Forall_app. split; [done|]. by constructor.
        -- by apply Forall_insert.
      * constructor; tier_sums; rewrite ?Hpool; try done.
        -- rewrite wrap_u64_id; [lia|]. unfold in_u64. lia.
        -- destruct (old <? tp_max_pending p)%Z; simpl; lia.
        -- by apply Forall_insert.
  - simplify_eq. constructor; tier_sums; try done; try lia. by apply Forall_insert.
Qed.

(** How the outcome counters and a job's share of the open ones move together. *)
Definition outcomes_move (st st' : PromotionStats) (o o' : Z) : Prop :=
  (attempted st' = attempted st /\ succeeded st' = succeeded st /\ failed st' = failed st /\
   o' = o) \/
  (attempted st' = wrap_u64 (attempted st + 1) /\ succeeded st' = succeeded st /\
   failed st' = failed st /\ o' = (o + 1)%Z) \/
  (attempted st' = attempted st /\ succeeded st' = wrap_u64 (succeeded st + 1) /\
   failed st' = failed st /\ o' = (o - 1)%Z) \/
  (attempted st' = attempted st /\ succeeded st' = succeeded st /\
   failed st' = wrap_u64 (failed st + 1) /\ o' = (o - 1)%Z).

Lemma outcomes_move_inv st st' o o' rest :
  outcomes_move st st' o o' ->
  attempted st = wrap_u64 (succeeded st + failed st + (rest + o)) ->
  attempted st' = wrap_u64 (succeeded st' + failed st' + (rest + o')).
Proof.
  intros Hm Ha. destruct Hm as [(-> & -> & -> & ->)|[(-> & -> & -> & ->)|
    [(-> & -> & -> & ->)|(-> & -> & -> & ->)]]]; rewrite Ha.
  - done.
  - pose proof (wrap_u64_inner 0 (succeeded st + failed st + (rest + o)) 1) as H.
    rewrite !Z.add_0_l in H. rewrite H. f_equal. lia.
  - pose proof (wrap_u64_inner 0 (succeeded st + 1) (failed st + (rest + (o - 1)))) as H.
    rewrite !Z.add_0_l, Z.add_assoc in H. rewrite H. f_equal. lia.
  - rewrite wrap_u64_inner. f_equal. lia.
Qed.

(** A job that moves on, to a point where it has started, keeps the invariant. *)
Lemma job_move_inv s s' j b b' :
  tier_inv p n s -> ts_jobs s !! j = Some b ->
  entries_advance (ts_entries s) (ts_entries s') ->
  ts_pending s' = ts_pending s -> ts_callers s' = ts_callers s ->
  ts_jobs s' = <[j := b']> (ts_jobs s) -> started b' = true ->
  started b = true \/ (exists k, tp_pool p = Some k /\ (running s < k)%Z) ->
  outcomes_move (ts_stats s) (ts_stats s') (job_open b) (job_open b') ->
  job_entry_ok (ts_entries s') b' ->
  tier_inv p n s'.
Proof.
  intros [] Hb Hadv Hp Hc Hj Hst Hrun Hout Hok.
  assert (Hn0 : ts_jobs s <> []) by (intros Hnil; by rewrite Hnil in Hb).
  constructor; unfold slots, admitted; rewrite ?Hp, ?Hc, ?Hj, ?length_insert; try done.
  - destruct (tp_pool p) as [k|] eqn:Hpool; [|done]. revert inv_running0 Hrun. unfold running.
    rewrite Hj, !zsum_filter, (zsum_insert _ _ _ _ b' Hb), Hst.
    destruct (started b); simpl; intros Hk [Hs|(k' & [= <-] & Hlt)]; lia || done.
  - unfold open_jobs in *. rewrite Hj, (zsum_insert _ _ _ _ b' Hb).
    eapply (outcomes_move_inv _ _ _ _ (zsum job_open (ts_jobs s) - job_open b)); [done|].
    rewrite inv_outcomes0. f_equal. lia.
  - apply Forall_insert; [|done]. by eapply jobs_ok_advance.
  - by eapply callers_ok_advance.
Qed.

(** The guard of a finished job gives its slot back. *)
Lemma job_release_inv s j :
  tier_inv p n s -> ts_jobs s !! j = Some JReleasing ->
  tier_inv p n (ts_drop_job j (ts_add_pending (-1) s)).
Proof.
  intros Hinv Hb. pose proof (pending_range s Hinv) as (Hc & Hp & Hj). destruct Hinv.
  pose proof (lookup_lt_Some _ _ _ Hb) as Hlt. pose proof (caller_slot_bounds (ts_callers s)).
  constructor; tier_sums; try done; try lia.
  - rewrite wrap_u64_id; [lia|]. unfold in_u64. lia.
  - destruct (tp_pool p); [lia|]. by rewrite inv_running0 in Hb.
  - rewrite Z.sub_0_r. done.
  - by apply Forall_delete.
Qed.

Lemma compile_check_ok e h entries :
  entries !! h = Some e ->
  started (compile_check e h) = true /\ job_open (compile_check e h) = 1%Z /\
  job_entry_ok entries (compile_check e h).
Proof.
  intros He. unfold compile_check.
  destruct jit_target; [|simpl; eauto].
  destruct (te_program e) as [x|] eqn:Hx; [|simpl; eauto].
  destruct (get_compiled_program x); simpl; [eauto|]. split_and!; [done..|].
  exists e. unfold is_loaded. by rewrite Hx.
Qed.

Lemma job_step_inv j micros s s' :
  tier_inv p n s -> job_step p j micros s = Some s' -> tier_inv p n s'.
Proof.
  intros Hinv Hs. pose proof (tstep_advances p (LJob j micros) s s' Hs) as Hadv.
  unfold job_step in Hs. destruct (ts_jobs s !! j) as [b|] eqn:Hb; [|done].
  pose proof (Forall_lookup_1 _ _ _ _ (inv_jobs_ok _ _ _ Hinv) Hb) as Hok.
  destruct b as [h|h|h|h o|h o el| |]; simpl in Hok.
  - destruct (tp_pool p) as [k|] eqn:Hpool; [|done].
    destruct (running s <? k)%Z eqn:Hrun; simplify_eq. bool_to_prop.
    eapply (job_move_inv s); eauto; simpl; unfold outcomes_move; naive_solver.
  - destruct Hok as [e He]. rewrite He in Hs. simplify_eq.
    destruct (compile_check_ok e h (ts_entries s) He) as (? & Ho & ?).
    eapply (job_move_inv s); eauto; simpl; unfold outcomes_move; naive_solver.
  - destruct Hok as (e & He & Hl). rewrite He in Hs. unfold is_loaded in Hl.
    destruct (te_program e) as [x|]; [|done].
    destruct (jit_compile x) as [x'|]; simplify_eq;
      (eapply (job_move_inv s); eauto; simpl;
        [unfold outcomes_move; naive_solver|]); rewrite ?lookup_insert_eq; eauto.
  - simplify_eq. eapply (job_move_inv s); eauto; simpl; unfold outcomes_move; naive_solver.
  - destruct o; [destruct Hok as [e He]; rewrite He in Hs|]; simplify_eq;
      (eapply (job_move_inv s); eauto; simpl; unfold outcomes_move; naive_solver).
  - simplify_eq. eapply (job_move_inv s); eauto; simpl; unfold outcomes_move; naive_solver.
  - simplify_eq. by apply job_release_inv.
Qed.

Lemma entries_step_inv s h e :
  tier_inv p n s -> entries_advance (ts_entries s) (<[h := e]> (ts_entries s)) ->
  tier_inv p n (ts_set_entry h e s).
Proof.
  intros [] Hadv. constructor; try done; simpl;
    [by eapply jobs_ok_advance|by eapply callers_ok_advance].
Qed.

Lemma tstep_inv l s s' : tier_inv p n s -> tstep p l s = Some s' -> tier_inv p n s'.
Proof.
  intros Hinv. destruct l as [i h|i|j micros|h st|h e]; simpl; intros Hs.
  - by eapply call_step_inv.
  - by eapply caller_step_inv.
  - by eapply job_step_inv.
  - case_match; simplify_eq. apply entries_step_inv; [done|].
    eapply entries_advance_insert; eauto.
  - case_match; simplify_eq. apply entries_step_inv; [done|].
    by apply entries_advance_fresh.
Qed.

Lemma reachable_inv s0 s : tier_inv p n s0 -> reachable p s0 s -> tier_inv p n s.
Proof. intros H0. induction 1; [done|]. by eapply tstep_inv. Qed.

End Steps.

(** ** The promoter of a policy *)

Lemma promoter_new_pool cpus builds policy :
  tp_max_pending (promoter_new cpus builds policy) = 64%Z /\
  (tp_enabled (promoter_new cpus builds policy) = true <->
   x86_64 = true /\ builds = true /\ exists k, policy = Lazy k) /\
  (forall k, tp_pool (promoter_new cpus builds policy) = Some k -> (1 <= k <= 4)%Z) /\
  (tp_enabled (promoter_new cpus builds policy) = true <->
   is_Some (tp_pool (promoter_new cpus builds policy))).
Proof.
  unfold promoter_new, effective, pool_threads.
  destruct x86_64, policy, builds; simpl; split_and!; try done;
    try (intros k [= <-]; lia); try (split; [|done]; try done; intros; by eexists);
    split; naive_solver.
Qed.

Lemma running_bounds s : (0 <= running s <= Z.of_nat (length (ts_jobs s)))%Z.
Proof. unfold running. rewrite zsum_filter. apply zsum_bounds. by intros []; simpl. Qed.

(** C23: In every interleaving of callers and pool jobs of a new promoter, the
    pending count is exactly the slots held, at most 64 jobs exist and at most
    four of them run, the outcome counters account for every attempt, and the
    entries only change from interpreted to compiled, each keeping its program. *)
Theorem promoter_accounts_every_slot {laws : JitLaws} cpus builds policy entries n s :
  (Z.of_nat n + 64 <= u64_max)%Z ->
  reachable (promoter_new cpus builds policy) (tier_init entries n) s ->
  ts_pending s = (zsum caller_slot (ts_callers s) + Z.of_nat (length (ts_jobs s)))%Z /\
  (length (ts_jobs s) <= 64)%nat /\ (running s <= 4)%Z /\
  attempted (ts_stats s) =
    wrap_u64 (succeeded (ts_stats s) + failed (ts_stats s) + zsum job_open (ts_jobs s)) /\
  entries_advance entries (ts_entries s).
Proof.
  intros Hn Hr. pose proof (promoter_new_pool cpus builds policy) as (Hm & _ & Hk & _).
  set (p := promoter_new cpus builds policy) in *.
  assert (Hinv : tier_inv p n s).
  { eapply reachable_inv; [|apply tier_init_inv|exact Hr]; [by rewrite Hm|lia|].
    destruct (tp_pool p) as [k|]; [|done]. destruct (Hk k); [done|lia]. }
  assert (Hfits : (Z.of_nat n + tp_max_pending p <= u64_max)%Z) by (by rewrite Hm).
  pose proof (pending_range p n Hfits s Hinv) as (_ & _ & Hj). rewrite Hm in Hj. destruct Hinv.
  split_and!; [done|lia| |done|].
  - destruct (tp_pool p) as [k|]; [destruct (Hk k); [done|lia]|].
    unfold running. rewrite inv_running0. simpl. lia.
  - clear -Hr laws. induction Hr as [|s l s' _ IH Hs]; [done|].
    etrans; [exact IH|]. by eapply tstep_advances.
Qed.

(** ** The pool drains *)

(** The atomic operations a job still has to make. *)
Definition job_work (b : Job) : Z :=
  match b with
  | JQueued _ => 7 | JAttempted _ => 6 | JCompiling _ => 5 | JCompiled _ _ => 4
  | JTimed _ _ _ => 3 | JRecorded => 2 | JReleasing => 1
  end.

Definition is_job (l : Label) : bool := match l with LJob _ _ => true | _ => false end.

Lemma job_step_work p j micros s s' :
  job_step p j micros s = Some s' ->
  (zsum job_work (ts_jobs s') < zsum job_work (ts_jobs s))%Z.
Proof.
  unfold job_step, compile_check. intros Hs. destruct (ts_jobs s !! j) as [b|] eqn:Hb; [|done].
  repeat (case_match; simplify_eq; try done); simpl;
    rewrite ?(zsum_insert _ _ _ _ _ Hb), ?(zsum_delete _ _ _ _ Hb); simpl; lia.
Qed.

Lemma work_bounds js :
  (Z.of_nat (length js) <= zsum job_work js <= 7 * Z.of_nat (length js))%Z.
Proof. induction js as [|[] js IH]; simpl; lia. Qed.

Lemma job_run_work p ls s s' :
  Forall (fun l => is_job l = true) ls -> trun p ls s = Some s' ->
  (Z.of_nat (length ls) + zsum job_work (ts_jobs s') <= zsum job_work (ts_jobs s))%Z.
Proof.
  intros Hl. revert s. induction Hl as [|l ls Hl _ IH]; intros s; simpl; [intros [= ->]; lia|].
  destruct l as [| |j micros| |]; try done. simpl.
  destruct (job_step p j micros s) as [s1|] eqn:Hs; [|done]. intros Hr.
  apply job_step_work in Hs. specialize (IH _ Hr). lia.
Qed.

Lemma trun_inv {laws : JitLaws} p n ls s s' :
  (Z.of_nat n + tp_max_pending p <= u64_max)%Z ->
  tier_inv p n s -> trun p ls s = Some s' -> tier_inv p n s'.
Proof.
  intros Hf. revert s. induction ls as [|l ls IH]; intros s Hi; simpl; [by intros [= <-]|].
  destruct (tstep p l s) as [s1|] eqn:Hs; [|done]. apply IH. by eapply tstep_inv.
Qed.

(** Some job can always go on: a started one, or else a queued one, for which
    a thread is then free. *)
Lemma some_job_enabled p n s k :
  tier_inv p n s -> tp_pool p = Some k -> (1 <= k)%Z -> ts_jobs s <> [] ->
  exists j, forall micros, is_Some (job_step p j micros s).
Proof.
  intros Hinv Hk Hk1 Hne.
  assert (Hcase : (exists j b, ts_jobs s !! j = Some b /\ started b = true) \/ running s = 0%Z).
  { destruct (filter (fun b => started b = true) (ts_jobs s)) as [|b l] eqn:Hf.
    - right. unfold running. by rewrite Hf.
    - left. assert (Hb : b ∈ filter (fun b => started b = true) (ts_jobs s)) by (rewrite Hf; set_solver).
      apply list_elem_of_filter in Hb as [Hst [j Hj]%list_elem_of_lookup]. eauto. }
  destruct Hcase as [(j & b & Hb & Hst)|Hrun].
  - exists j. intros micros. pose proof (Forall_lookup_1 _ _ _ _ (inv_jobs_ok _ _ _ Hinv) Hb) as Hok.
    unfold job_step. rewrite Hb. destruct b as [h|h|h|h o|h o el| |]; simpl in *; try done.
    + destruct Hok as [e ->]. done.
    + destruct Hok as (e & -> & Hl). unfold is_loaded in Hl. by repeat case_match.
    + destruct o; [|done]. destruct Hok as [e ->]. done.
  - destruct (ts_jobs s) as [|b l] eqn:Hj; [done|]. exists 0. intros micros.
    unfold job_step. rewrite Hj. simpl. destruct b as [h| | | | | |];
      try (unfold running in Hrun; rewrite Hj in Hrun; by rewrite filter_cons in Hrun).
    rewrite Hk, Hrun. destruct (Z.ltb_spec 0 k); [done|lia].
Qed.

(** C24: The background pool always drains: whatever the interleaving so far, the
    jobs alone can take at most 448 further steps, while one is left some job
    can go on, and once none is left and no caller is inside [promote] every
    slot is free again and every attempt has an outcome. *)
Theorem promoter_pool_drains {laws : JitLaws} cpus builds policy entries n s ls s' :
  (Z.of_nat n + 64 <= u64_max)%Z ->
  reachable (promoter_new cpus builds policy) (tier_init entries n) s ->
  Forall (fun l => is_job l = true) ls ->
  trun (promoter_new cpus builds policy) ls s = Some s' ->
  (length ls <= 448)%nat /\
  (ts_jobs s' <> [] ->
   exists j, forall micros,
     is_Some (tstep (promoter_new cpus builds policy) (LJob j micros) s')) /\
  (ts_jobs s' = [] -> Forall (eq CIdle) (ts_callers s') ->
   ts_pending s' = 0%Z /\
   attempted (ts_stats s') = wrap_u64 (succeeded (ts_stats s') + failed (ts_stats s'))).
Proof.
  intros Hn Hr Hls Hrun.
  pose proof (promoter_new_pool cpus builds policy) as (Hm & _ & Hk & _).
  set (p := promoter_new cpus builds policy) in *.
  assert (Hfits : (Z.of_nat n + tp_max_pending p <= u64_max)%Z) by (by rewrite Hm).
  assert (Hinv : tier_inv p n s).
  { eapply reachable_inv; [done|apply tier_init_inv|exact Hr]; [lia|].
    destruct (tp_pool p) as [k|]; [|done]. destruct (Hk k); [done|lia]. }
  pose proof (trun_inv p n ls s s' Hfits Hinv Hrun) as Hinv'.
  split_and!.
  - pose proof (pending_range p n Hfits s Hinv) as (_ & _ & Hj).
    pose proof (job_run_work p ls s s' Hls Hrun). pose proof (work_bounds (ts_jobs s)).
    pose proof (work_bounds (ts_jobs s')). rewrite Hm in Hj. lia.
  - intros Hne. destruct (tp_pool p) as [k|] eqn:Hpool.
    + eapply some_job_enabled; [done|exact Hpool|destruct (Hk k); [done|lia]|done].
    + pose proof (inv_running _ _ _ Hinv') as Hnil. by rewrite Hpool in Hnil.
  - intros Hj Hc. destruct Hinv'. unfold slots, open_jobs in *. rewrite Hj in *. simpl in *.
    assert (Hz : zsum caller_slot (ts_callers s') = 0%Z).
    { clear -Hc. induction Hc as [|c cs <- _ IH]; simpl; [done|lia]. }
    split; [lia|]. by rewrite Z.add_0_r in inv_outcomes0.
Qed.

Lemma trun_reachable p ls s0 s s' :
  reachable p s0 s -> trun p ls s = Some s' -> reachable p s0 s'.
Proof.
  revert s. induction ls as [|l ls IH]; intros s Hr; cbn; [by intros [= <-]|].
  destruct (tstep p l s) as [s1|] eqn:Hs; [|done]. apply IH. by eapply reach_step.
Qed.

(** ** Every accepted call ends in exactly one counter *)

Definition accounted (s : TierState) : Z :=
  (dropped (ts_stats s) + zsum caller_dropping (ts_callers s) +
   zsum caller_slot (ts_callers s) + zsum job_queued (ts_jobs s) + attempted (ts_stats s))%Z.

(** Whether a step is a call that passes the first two checks of [promote]. *)
Definition accepted (p : TierPromoter) (l : Label) (s : TierState) : Z :=
  match l with
  | LCall _ h =>
      match ts_entries s !! h with
      | Some e => Z.b2z (tp_enabled p && negb (has_compiled_program e))
      | None => 0
      end
  | _ => 0
  end.

Fixpoint accepted_calls (p : TierPromoter) (ls : list Label) (s : TierState) : Z :=
  match ls with
  | [] => 0
  | l :: ls' =>
      match tstep p l s with
      | Some s' => (accepted p l s + accepted_calls p ls' s')%Z
      | None => 0
      end
  end.

Lemma compile_check_not_queued e h : job_queued (compile_check e h) = 0%Z.
Proof. unfold compile_check. by repeat case_match. Qed.

Lemma tstep_accounted p l s s' k :
  tp_pool p = Some k -> tstep p l s = Some s' ->
  wrap_u64 (accounted s') = wrap_u64 (accounted s + accepted p l s).
Proof.
  intros Hpool Hs. unfold accounted, accepted.
  destruct l as [i h|i|j micros|h st|h e]; simpl in Hs;
    unfold call_step, caller_step, job_step in Hs; rewrite ?Hpool in Hs;
    repeat (case_match; simplify_eq; try done); simpl;
    rewrite ?zsum_app, ?Z.add_0_r;
    repeat match goal with
    | H : ?l !! ?i = Some _ |- context [zsum ?f (<[?i := ?y]> ?l)] =>
        rewrite (zsum_insert f l i _ y H)
    | H : ?l !! ?i = Some _ |- context [zsum ?f (delete ?i ?l)] =>
        rewrite (zsum_delete f l i _ H)
    end; simpl; rewrite ?compile_check_not_queued; try (f_equal; lia).
  - destruct (tp_enabled p), (has_compiled_program t0); try done; simpl; f_equal; lia.
  - destruct (tp_enabled p), (has_compiled_program t0); try done; simpl; f_equal; lia.
  - rewrite <- (Z.add_0_l (wrap_u64 (dropped _ + 1))), <- !Z.add_assoc, Z.add_assoc, wrap_u64_inner.
    f_equal. lia.
  - rewrite <- (Z.add_0_r (_ + wrap_u64 _)), wrap_u64_inner. f_equal. lia.
Qed.

(** Every accepted call of [promote] has been dropped, holds a slot, waits in the
    queue or was attempted: no promotion is lost or counted twice. *)
Theorem promotions_accounted p ls s s' k :
  tp_pool p = Some k -> trun p ls s = Some s' ->
  wrap_u64 (accounted s') = wrap_u64 (accounted s + accepted_calls p ls s).
Proof.
  intros Hpool. revert s. induction ls as [|l ls IH]; intros s; simpl.
  - intros [= <-]. by rewrite Z.add_0_r.
  - destruct (tstep p l s) as [s1|] eqn:Hs; [|done]. intros Hr. rewrite (IH _ Hr).
    pose proof (wrap_u64_inner 0 (accounted s1) (accepted_calls p ls s1)) as H1.
    rewrite !Z.add_0_l in H1. rewrite <- H1, (tstep_accounted _ _ _ _ _ Hpool Hs).
    pose proof (wrap_u64_inner 0 (accounted s + accepted p l s) (accepted_calls p ls s1)) as H2.
    rewrite !Z.add_0_l in H2. rewrite H2. f_equal. lia.
Qed.

(** [promote] is the run of its steps without interruption. *)
Theorem promote_uninterrupted p i h e s :
  ts_callers s !! i = Some CIdle -> ts_entries s !! h = Some e ->
  exists ls, Forall (fun l => l = LCall i h \/ l = LCaller i) ls /\
    trun p ls s = Some (promote p h s).
Proof.
  intros Hi He. unfold promote. rewrite He.
  pose proof (lookup_lt_Some _ _ _ Hi) as Hlt.
  assert (Hid : <[i := CIdle]> (ts_callers s) = ts_callers s) by (by apply list_insert_id).
  destruct (negb (tp_enabled p)) eqn:Hen; simpl.
  { exists [LCall i h]. split; [by repeat constructor|]. simpl. unfold call_step.
    by rewrite Hi, He, Hen. }
  destruct (has_compiled_program e) eqn:Hc.
  { exists [LCall i h]. split; [by repeat constructor|]. simpl. unfold call_step.
    by rewrite Hi, He, Hen, Hc. }
  destruct (tp_max_pending p <=? ts_pending s)%Z eqn:Hmax;
    [exists [LCall i h; LCaller i; LCaller i]|exists [LCall i h; LCaller i]];
    (split; [repeat constructor; auto|]); simpl; unfold call_step;
    rewrite Hi, He, Hen, Hc; simpl; unfold caller_step; simpl;
    rewrite !list_lookup_insert_eq by (rewrite ?length_insert; done); simpl; rewrite Hmax; simpl.
  - rewrite list_lookup_insert_eq by (rewrite ?length_insert; done). simpl.
    unfold ts_set_caller, ts_map_stats, ts_add_pending. simpl.
    by rewrite !list_insert_insert_eq, Hid.
  - destruct (tp_pool p); unfold ts_set_caller, ts_spawn, ts_add_pending; simpl;
      by rewrite !list_insert_insert_eq, Hid.
Qed.

(** ** The synchronous sweep *)

(** The program of an entry after a compilation was tried on it. *)
Definition compiled_program (e : TierEntry) : EntryProgram := te_program (compile_entry e).2.

(** What the sweep of a threshold of zero tries to compile. *)
Definition sweep_target (s : TierState) (h : positive) : bool :=
  match ts_entries s !! h with
  | Some e => is_loaded e && negb (has_compiled_program e)
  | None => false
  end.

(** Which of these compilations succeed. *)
Definition sweep_success (s : TierState) (h : positive) : bool :=
  match ts_entries s !! h with
  | Some e => sweep_target s h && (compile_entry e).1
  | None => false
  end.

Definition count_in (f : positive -> bool) (hs : list positive) : Z :=
  zsum (fun h => Z.b2z (f h)) hs.

Lemma compile_entry_program e e' :
  te_program e = te_program e' ->
  compiled_program e = compiled_program e' /\ (compile_entry e).1 = (compile_entry e').1.
Proof.
  intros He. unfold compiled_program, compile_entry. rewrite <- He.
  repeat case_match; simplify_eq/=; try done; (split; [congruence|done]).
Qed.

Lemma compile_entry_skip e :
  has_compiled_program e = true \/ is_loaded e = false -> compiled_program e = te_program e.
Proof.
  unfold has_compiled_program, is_loaded, compiled_program, compile_entry.
  intros [H|H]; repeat case_match; simplify_eq/=; congruence.
Qed.

Lemma compile_entry_again {laws : JitLaws} e e' :
  te_program e' = compiled_program e -> compiled_program e' = compiled_program e.
Proof.
  unfold compiled_program, compile_entry. intros He.
  destruct jit_target; [|done].
  destruct (te_program e) as [x|] eqn:Hx; simpl in *;
    [|rewrite He, Hx; simpl; congruence].
  destruct (get_compiled_program x) eqn:Hc; simpl in *;
    [rewrite He, Hx, Hc; simpl; congruence|].
  destruct (jit_compile x) as [x'|] eqn:Hj; simpl in *.
  - rewrite He, (jit_compile_compiled _ _ Hj). done.
  - rewrite He, Hx, Hc, Hj. simpl. congruence.
Qed.

(** One round: the entry it is about and the counters. *)
Lemma observe_blocking_one_spec p s h us s' :
  tp_enabled p = true -> observe_blocking_one p s (h, us) = s' ->
  (forall k, te_program <$> ts_entries s' !! k =
     (if decide (k = h) then compiled_program else te_program) <$> ts_entries s !! k) /\
  ts_pending s' = ts_pending s /\ ts_callers s' = ts_callers s /\ ts_jobs s' = ts_jobs s /\
  attempted (ts_stats s') =
    (if sweep_target s h then wrap_u64 (attempted (ts_stats s) + 1) else attempted (ts_stats s)) /\
  succeeded (ts_stats s') =
    (if sweep_success s h then wrap_u64 (succeeded (ts_stats s) + 1) else succeeded (ts_stats s)) /\
  failed (ts_stats s') =
    (if sweep_target s h && negb (sweep_success s h)
     then wrap_u64 (failed (ts_stats s) + 1) else failed (ts_stats s)).
Proof.
  intros Hen <-. unfold observe_blocking_one, sweep_success, sweep_target. simpl.
  destruct (ts_entries s !! h) as [e|] eqn:He; simpl.
  2: { split_and!; [|done..]. intros k. case_decide; subst; [by rewrite He|done]. }
  assert (Hskip : compiled_program e = te_program e -> forall k,
    te_program <$> ts_entries s !! k =
    (if decide (k = h) then compiled_program else te_program) <$> ts_entries s !! k).
  { intros Hp k. case_decide; subst; [|done]. rewrite He. simpl. by rewrite Hp. }
  destruct (has_compiled_program e) eqn:Hc; simpl; rewrite ?andb_false_r; simpl.
  { split_and!; [|done..]. apply Hskip, compile_entry_skip. auto. }
  destruct (is_loaded e) eqn:Hl; simpl.
  2: { split_and!; [|done..]. apply Hskip, compile_entry_skip. auto. }
  unfold promote_blocking. rewrite He, Hen, Hc. simpl.
  destruct (compile_entry e) as [o e1] eqn:Hce. destruct o; simpl; split_and!; try done; intros k;
    (case_decide as Hk; [subst k|]; rewrite ?lookup_insert_eq, ?lookup_insert_ne by done;
     [rewrite He; simpl; unfold compiled_program; by rewrite Hce|done]).
Qed.

(** The sums of a counter over a sweep. *)
Lemma wrap_count c (b : bool) n c' :
  in_u64 c -> c' = (if b then wrap_u64 (c + 1) else c) ->
  in_u64 c' /\ wrap_u64 (c' + n) = wrap_u64 (c + (Z.b2z b + n)).
Proof.
  intros Hc ->. destruct b; simpl; [|done]. split.
  - unfold in_u64, wrap_u64, u64_max. pose proof (Z.mod_pos_bound (c + 1) 18446744073709551616). lia.
  - pose proof (wrap_u64_inner 0 (c + 1) n) as H. rewrite !Z.add_0_l in H. rewrite H. f_equal. lia.
Qed.

Lemma sweep_target_program s s1 h :
  te_program <$> ts_entries s1 !! h = te_program <$> ts_entries s !! h ->
  sweep_target s1 h = sweep_target s h /\ sweep_success s1 h = sweep_success s h.
Proof.
  unfold sweep_success, sweep_target, is_loaded, has_compiled_program.
  destruct (ts_entries s1 !! h) as [e1|], (ts_entries s !! h) as [e|]; intros [=]; [|done].
  destruct (compile_entry_program e1 e) as [_ ->]; [done|]. by rewrite H0.
Qed.

Lemma sweep_programs {laws : JitLaws} p entries s :
  tp_enabled p = true ->
  let s' := foldl (observe_blocking_one p) s entries in
  (forall k, te_program <$> ts_entries s' !! k =
     (if decide (k ∈ entries.*1) then compiled_program else te_program) <$> ts_entries s !! k) /\
  ts_pending s' = ts_pending s /\ ts_callers s' = ts_callers s /\ ts_jobs s' = ts_jobs s.
Proof.
  intros Hen. revert s. induction entries as [|[h us] entries IH]; intros s; [done|]. cbn.
  destruct (observe_blocking_one_spec p s h us _ Hen eq_refl) as (H1 & Hp & Hc & Hj & _).
  set (s1 := observe_blocking_one p s (h, us)) in *.
  destruct (IH s1) as (H2 & -> & -> & ->). split_and!; [|done..].
  intros k. specialize (H1 k). rewrite H2. clear H2 IH.
  destruct (ts_entries s1 !! k) as [e1|], (ts_entries s !! k) as [e|]; simplify_eq/=; [|done].
  f_equal. destruct (decide (k = h)) as [->|Hne].
  - rewrite (decide_True (P := h ∈ h :: _)) by set_solver.
    case_decide; [by apply compile_entry_again|done].
  - destruct (decide (k ∈ entries.*1)).
    + rewrite decide_True by set_solver. by apply compile_entry_program.
    + rewrite decide_False by set_solver. done.
Qed.

(** What the counters of a promoter may hold. *)
Definition counters_fit (st : PromotionStats) : Prop :=
  in_u64 (attempted st) /\ in_u64 (succeeded st) /\ in_u64 (failed st).

Lemma sweep_counters {laws : JitLaws} p entries s :
  tp_enabled p = true -> NoDup entries.*1 -> counters_fit (ts_stats s) ->
  let s' := foldl (observe_blocking_one p) s entries in
  attempted (ts_stats s') =
    wrap_u64 (attempted (ts_stats s) + count_in (sweep_target s) entries.*1) /\
  succeeded (ts_stats s') =
    wrap_u64 (succeeded (ts_stats s) + count_in (sweep_success s) entries.*1) /\
  failed (ts_stats s') =
    wrap_u64 (failed (ts_stats s) +
      count_in (fun h => sweep_target s h && negb (sweep_success s h)) entries.*1).
Proof.
  intros Hen. revert s. induction entries as [|[h us] entries IH]; intros s Hnd (Ha & Hs & Hf).
  { unfold count_in. cbn. rewrite !Z.add_0_r, !wrap_u64_id; done. }
  cbn in Hnd. apply NoDup_cons in Hnd as [Hh Hnd].
  destruct (observe_blocking_one_spec p s h us _ Hen eq_refl) as (H1 & _ & _ & _ & Ha1 & Hs1 & Hf1).
  cbn. set (s1 := observe_blocking_one p s (h, us)) in *.
  assert (Hext : forall k, k ∈ entries.*1 ->
    sweep_target s1 k = sweep_target s k /\ sweep_success s1 k = sweep_success s k).
  { intros k Hk. apply sweep_target_program. rewrite H1. by rewrite decide_False by set_solver. }
  assert (Hcnt : forall f g, (forall k, k ∈ entries.*1 -> f k = g k) ->
    count_in f entries.*1 = count_in g entries.*1).
  { clear. unfold count_in. intros f g Hfg. induction (entries.*1) as [|k ks IH]; [done|]. cbn.
    rewrite Hfg by set_solver. rewrite IH; [done|]. intros; apply Hfg; set_solver. }
  destruct (wrap_count _ _ (count_in (sweep_target s1) entries.*1) _ Ha Ha1) as [Ha' Hav].
  destruct (wrap_count _ _ (count_in (sweep_success s1) entries.*1) _ Hs Hs1) as [Hs' Hsv].
  destruct (wrap_count _ _ (count_in (fun h => sweep_target s1 h && negb (sweep_success s1 h))
    entries.*1) _ Hf Hf1) as [Hf' Hfv].
  destruct (IH s1 Hnd) as (-> & -> & ->); [done|]. rewrite Hav, Hsv, Hfv.
  rewrite (Hcnt (sweep_target s1) (sweep_target s)) by (intros; by apply Hext).
  rewrite (Hcnt (sweep_success s1) (sweep_success s)) by (intros; by apply Hext).
  rewrite (Hcnt (fun h => sweep_target s1 h && negb (sweep_success s1 h))
    (fun h => sweep_target s h && negb (sweep_success s h))); [done|]. intros k Hk. by destruct (Hext k Hk) as [-> ->].
Qed.

End TieringFacts.

Section OverAccountsFacts.
Context {tgt : Target} {ids : SdkIds} {sv : SysvarRuntime} {pr : ProgramRuntime}
        {pc : ProgramCacheOps} {Lst : Lru ProgramEntryKey Entry} {jr : JitRuntime}.

(** The handles of the committed entries. *)
Definition committed_refs (a : St) : list positive := entry_ref <$> program_entries_snapshot a.

Lemma observe_refs (micros : nat -> Z) (l : list Entry) :
  (imap (fun i e => (entry_ref e, micros i)) l).*1 = entry_ref <$> l.
Proof.
  revert micros. induction l as [|e l IH]; intros micros; [done|]. cbn. f_equal.
  apply (IH (fun i => micros (S i))).
Qed.

(** The sweep after a transaction at a threshold of zero tries every
    committed loaded entry that is not compiled and nothing else: the program of
    every other entry, the pending count and the jobs stay, each tried entry
    ends compiled exactly when its compilation succeeds, and the counters move by
    the number of entries tried, compiled and refused.  Where the target has no
    JIT although it is x86_64 (Windows), the promoter is enabled all the same and
    every sweep counts every loaded entry as a failed promotion again. *)
Theorem observe_blocking_exact {laws : JitLaws} cpus micros a s :
  x86_64 = true ->
  NoDup (committed_refs a) -> counters_fit (ts_stats s) ->
  let p := promoter_new cpus true (Lazy 0) in
  let s' := observe p micros a s in
  (forall k, te_program <$> ts_entries s' !! k =
     (if decide (k ∈ committed_refs a) then compiled_program else te_program)
       <$> ts_entries s !! k) /\
  ts_pending s' = ts_pending s /\ ts_callers s' = ts_callers s /\ ts_jobs s' = ts_jobs s /\
  attempted (ts_stats s') =
    wrap_u64 (attempted (ts_stats s) + count_in (sweep_target s) (committed_refs a)) /\
  succeeded (ts_stats s') =
    wrap_u64 (succeeded (ts_stats s) + count_in (sweep_success s) (committed_refs a)) /\
  (windows = true ->
   (forall k, te_program <$> ts_entries s' !! k = te_program <$> ts_entries s !! k) /\
   failed (ts_stats s') =
     wrap_u64 (failed (ts_stats s) +
       count_in (fun h => match ts_entries s !! h with Some e => is_loaded e | None => false end)
         (committed_refs a))).
Proof.
  intros Hx Hnd Hfit p s'.
  assert (Hen : tp_enabled p = true /\ tp_threshold p = 0%Z).
  { unfold p, promoter_new, effective. by rewrite Hx. }
  destruct Hen as [Hen Hth]. pose proof (observe_refs micros (program_entries_snapshot a)) as Hrefs.
  assert (Hs' : s' = foldl (observe_blocking_one p) s
    (imap (fun i e => (entry_ref e, micros i)) (program_entries_snapshot a))).
  { unfold s', observe, observe_entries. by rewrite Hen, Hth. }
  rewrite Hs'. clear Hs'.
  destruct (sweep_programs p (imap (fun i e => (entry_ref e, micros i))
    (program_entries_snapshot a)) s Hen) as (Hp & Hpe & Hc & Hj).
  destruct (sweep_counters p (imap (fun i e => (entry_ref e, micros i))
    (program_entries_snapshot a)) s Hen) as (Ha & Hsu & Hf); [by rewrite Hrefs|done|].
  rewrite Hrefs in Hp, Ha, Hsu, Hf. fold (committed_refs a) in *.
  split_and!; try done. intros Hw.
  assert (Hjt : jit_target = false) by (unfold jit_target; by rewrite Hw).
  split.
  - intros k. rewrite Hp. destruct (ts_entries s !! k) as [e|]; [|done]. cbn. f_equal.
    case_decide; [|done]. unfold compiled_program, compile_entry. by rewrite Hjt.
  - rewrite Hf. do 2 f_equal. unfold count_in. clear -Hjt.
    induction (committed_refs a) as [|h hs IH]; [done|]. cbn. rewrite IH. f_equal.
    unfold sweep_success, sweep_target, has_compiled_program, compile_entry. rewrite Hjt.
    destruct (ts_entries s !! h) as [e|]; [|done]. cbn. by destruct (is_loaded e).
Qed.

(** ** The snapshot of the counters *)

Lemma saturating_fold (f : ProgramStatistics -> Z) sts acc :
  (forall x y, f (collect_one x y) = saturating_add_u64 (f x) (f y)) ->
  in_u64 (f acc) -> Forall (fun st => 0 <= f st)%Z sts ->
  f (foldl collect_one acc sts) = Z.min u64_max (f acc + zsum f sts) /\ (0 <= zsum f sts)%Z.
Proof.
  intros Hf Hacc Hsts. revert acc Hacc. induction Hsts as [|st sts Hst _ IH]; intros acc Hacc; cbn.
  - unfold in_u64 in Hacc. lia.
  - destruct (IH (collect_one acc st)) as [-> Hz].
    + rewrite Hf. unfold in_u64 in Hacc. apply saturating_add_u64_bounds; lia.
    + rewrite Hf. unfold saturating_add_u64, in_u64 in *. lia.
Qed.

(** A snapshot reports the sums over the committed entries, cut off at the width
    of the counters, the number of entries and the promoter's own counters. *)
Theorem collect_exact policy a s :
  let sts := omap (fun e => te_stats <$> ts_entries s !! entry_ref e) (program_entries_snapshot a) in
  Forall (fun st => 0 <= compilations st /\ 0 <= total_compilation_time_us st /\
                    0 <= interpreted_invocations st /\ 0 <= jit_invocations st)%Z sts ->
  collect policy a s =
    mkProgramTierStats policy (effective policy) (Z.of_nat (store_len (w_store a.2)))
      (Z.of_nat (length sts))
      (Z.min u64_max (zsum compilations sts)) (Z.min u64_max (zsum total_compilation_time_us sts))
      (Z.min u64_max (zsum interpreted_invocations sts)) (Z.min u64_max (zsum jit_invocations sts))
      (ts_stats s).
Proof.
  intros sts Hsts. unfold collect, collect_entries. fold sts.
  assert (Hsum : forall f, (forall x y, f (collect_one x y) = saturating_add_u64 (f x) (f y)) ->
    f (mkProgramStatistics 0 0 0 0) = 0%Z -> Forall (fun st => 0 <= f st)%Z sts ->
    f (foldl collect_one (mkProgramStatistics 0 0 0 0) sts) = Z.min u64_max (zsum f sts)).
  { intros f Hf H0 Hpos. destruct (saturating_fold f sts (mkProgramStatistics 0 0 0 0)) as [-> _];
      [done|by rewrite H0|done|]. by rewrite H0. }
  rewrite !Hsum; try done; eapply Forall_impl; try exact Hsts; naive_solver.
Qed.

End OverAccountsFacts.
