(* ===== verification/RuntimeModel.v ===== *)
(** * A concrete runtime

    A small executable model of every interface of [Runtime]: distinct program
    ids, little-endian clocks and one-byte codecs for the other sysvars, entries that remember how they were loaded and
    a map-backed program cache.  It satisfies all the laws, so every theorem
    proved against the interfaces can be run on concrete inputs. *)

From Stdlib Require Import ZArith Lia Strings.Byte.
From stdpp Require Import base tactics option list sets gmap strings.
From S2P Require Import Prelude.
From S2P Require Import Types.
From S2P Require Import Lru.
From S2P Require Import Runtime.
From S2P Require Import AccountsDb.

#[export] Instance linux_x86_64 : Target := {| x86_64 := true; windows := false |}.

#[export] Instance model_ids : SdkIds := {|
  native_loader_id := Addr 1;
  bpf_loader_id := Addr 2;
  bpf_loader_deprecated_id := Addr 3;
  bpf_loader_upgradeable_id := Addr 4;
  loader_v4_id := Addr 5;
  system_program_id := Addr 0;
  address_lookup_table_id := Addr 7;
  incinerator_id := Addr 8;
  sysvar_owner_id := Addr 9;
  instructions_sysvar_id := Addr 10;
  CLOCK_ID := Addr 11;
  EPOCH_REWARDS_ID := Addr 12;
  EPOCH_SCHEDULE_ID := Addr 13;
  LAST_RESTART_SLOT_ID := Addr 14;
  RENT_ID := Addr 15;
  SLOT_HASHES_ID := Addr 16;
  STAKE_HISTORY_ID := Addr 17
|}.

#[export] Instance model_ids_ok : SdkIdsOk.
Proof. constructor; apply (bool_decide_unpack _); vm_compute; exact I. Qed.

Definition byte_to_Z (b : byte) : Z := Z.of_N (to_N b).

(** Little-endian numbers of [len] bytes; missing bytes read as zero. *)
Fixpoint le_encode (len : nat) (n : N) : list byte :=
  match len with
  | O => []
  | S len' => default x00 (of_N (n mod 256)) :: le_encode len' (n / 256)
  end.

Fixpoint le_decode (len : nat) (data : list byte) : N :=
  match len, data with
  | S len', b :: data' => to_N b + 256 * le_decode len' data'
  | _, _ => 0
  end.

Lemma le_decode_encode len n rest :
  (n < 256 ^ N.of_nat len)%N -> le_decode len (le_encode len n ++ rest) = n.
Proof.
  revert n. induction len as [|len IH]; intros n Hn; simpl.
  - change (256 ^ N.of_nat 0)%N with 1%N in Hn. lia.
  - rewrite IH.
    + pose proof (N.mod_lt n 256 ltac:(done)). pose proof (N.div_mod n 256 ltac:(done)).
      destruct (of_N (n mod 256)) as [b|] eqn:Hb; simpl.
      * apply to_of_N in Hb. lia.
      * apply of_N_None_iff in Hb. lia.
    + rewrite Nat2N.inj_succ, N.pow_succ_r' in Hn. apply N.Div0.div_lt_upper_bound. lia.
Qed.

(** Rent is the price of a byte; a clock is five little-endian fields. *)
Definition model_rent_minimum (rent len : Z) : Z := ((128 + len) * Z.max 0 rent)%Z.

Record model_sysvars : Type := mkModelSysvars {
  ms_clock : option Clock;
  ms_rent : option Z;
  ms_slot_hashes : option unit
}.

(** A 64-bit field at an offset, unsigned or in two's complement. *)
Definition model_u64_at (offset : nat) (data : list byte) : Z :=
  Z.of_N (le_decode 8 (drop offset data)).

Definition model_i64_at (offset : nat) (data : list byte) : Z :=
  let n := model_u64_at offset data in if (n <? 2 ^ 63)%Z then n else (n - 2 ^ 64)%Z.

Definition model_clock (data : list byte) : option Clock :=
  match data with
  | [] => None
  | _ => Some (mkClock (model_u64_at 0 data) (model_i64_at 8 data) (model_u64_at 16 data)
                 (model_u64_at 24 data) (model_i64_at 32 data))
  end.

Definition model_byte (data : list byte) : option Z :=
  match data with [] => None | b :: _ => Some (byte_to_Z b) end.

Definition model_nonempty (data : list byte) : bool :=
  match data with [] => false | _ => true end.

#[export] Instance model_sysvar_runtime : SysvarRuntime := {|
  Rent := Z;
  SlotHashes := unit;
  rent_default := 1%Z;
  rent_minimum_balance := model_rent_minimum;
  rent_is_exempt rent lamports len := (model_rent_minimum rent len <=? lamports)%Z;
  decode_clock := model_clock;
  decode_rent := model_byte;
  decode_slot_hashes data := if model_nonempty data then Some tt else None;
  decodes_epoch_rewards := model_nonempty;
  decodes_epoch_schedule := model_nonempty;
  decodes_fees := model_nonempty;
  decodes_last_restart_slot := model_nonempty;
  decodes_recent_blockhashes := model_nonempty;
  decodes_stake_history := model_nonempty;
  SysvarCache := model_sysvars;
  sc_default := mkModelSysvars None None None;
  sc_fill read :=
    mkModelSysvars (read (Addr 11) ≫= model_clock) (read (Addr 15) ≫= model_byte)
      (read (Addr 16) ≫= (fun data => if model_nonempty data then Some tt else None));
  sc_get_clock := ms_clock;
  sc_get_rent := ms_rent;
  sc_get_slot_hashes := ms_slot_hashes
|}.

#[export] Instance model_sysvar_laws : SysvarLaws.
Proof.
  constructor; try done. intros read1 read2 H. cbn.
  rewrite (H (Addr 11)), (H (Addr 15)), (H (Addr 16)); [done|..];
    apply (bool_decide_unpack _); vm_compute; exact I.
Qed.

#[export] Instance model_rent_laws : RentLaws.
Proof.
  constructor; cbn; unfold model_rent_minimum; intros.
  - rewrite Z.leb_le. done.
  - nia.
Qed.

(** What an entry was made from; a compiled one remembers its environment. *)
Inductive model_entry : Type :=
| MLoaded (loader : Address) (elf : list byte) (env : option Z)
| MBuiltin (f : positive)
| MClosed (slot : Z).

#[export] Instance model_entry_eq_dec : EqDecision model_entry.
Proof. solve_decision. Defined.

Definition model_elf_ok (elf : list byte) : bool :=
  match elf with x7f :: _ => true | _ => false end.

Definition model_hash (bytes : list byte) : Hash :=
  mkHash (foldl (fun h b => (h * 257 + to_N b + 1)%N) 0%N bytes).

Definition model_upgradeable_state (data : list byte) : option UpgradeableLoaderState :=
  match data with
  | x00 :: _ => Some LoaderUninitialized
  | x01 :: _ => Some (LoaderBuffer None)
  | x02 :: rest => Some (LoaderProgram (Addr (le_decode 32 rest)))
  | x03 :: _ => Some (LoaderProgramData 0 None)
  | _ => None
  end.

Definition model_owner (k : Address) : option Address :=
  if bool_decide (k ∈ [Addr 2; Addr 3; Addr 4; Addr 5]) then Some k else None.

#[export] Instance model_program_runtime : ProgramRuntime := {|
  Entry := model_entry;
  RuntimeEnv := Z;
  RuntimeEnvs := Z;
  BuiltinFn := positive;
  Executable := list byte;
  EntryOwner := Address;
  get_env_for_execution env := env;
  runtime_envs_default := 0%Z;
  cache_entry_load loader env _ elf :=
    if model_elf_ok elf then Some (MLoaded loader elf (Some env)) else None;
  executable_load elf _ := if model_nonempty elf then Some elf else None;
  executable_verify := model_elf_ok;
  entry_owner_try_from := model_owner;
  loaded_entry exe owner _ := MLoaded owner exe None;
  new_builtin := MBuiltin;
  new_closed_tombstone := MClosed;
  upgradeable_state := model_upgradeable_state;
  size_of_programdata_metadata := 45%nat;
  loader_v4_program_data_offset := 48%nat;
  sha256 := model_hash;
  BUILTINS := [(Addr 20, 1%positive, "system_program", None);
               (Addr 21, 2%positive, "vote_program", None)]
|}.

Record model_cache : Type := mkModelCache {
  mc_slot : Z;
  mc_entries : gmap Address model_entry;
  mc_modified : gmap Address model_entry
}.

#[export] Instance model_program_cache : @ProgramCacheOps model_program_runtime := {|
  PCache := model_cache;
  pc_new s := mkModelCache s ∅ ∅;
  pc_slot := mc_slot;
  pc_set_slot s c := mkModelCache s (mc_entries c) (mc_modified c);
  pc_replenish k e c := mkModelCache (mc_slot c) (<[k := e]> (mc_entries c)) (mc_modified c);
  pc_remove_entry k c := mkModelCache (mc_slot c) (delete k (mc_entries c)) (mc_modified c);
  pc_find c k := match mc_modified c !! k with Some e => Some e | None => mc_entries c !! k end;
  pc_drain c := mkModelCache (mc_slot c) (mc_entries c) ∅;
  pc_entries := mc_entries;
  pc_view _ e := e
|}.

#[export] Instance model_program_cache_laws : ProgramCacheLaws.
Proof.
  constructor; try done.
  - intros c1 c2 Hs He. cbn in *. by rewrite Hs, He.
  - intros c k. cbn. rewrite lookup_empty. by destruct (mc_entries c !! k).
Qed.

#[export] Instance model_store : Lru ProgramEntryKey model_entry :=
  ListLru ProgramEntryKey model_entry.
#[export] Instance model_store_laws : LruLaws ProgramEntryKey model_entry :=
  ListLru_laws ProgramEntryKey model_entry.

Definition model_world : World := mkWorld ∅ store_new ∅ None.

(** A fresh database with a clock at slot 5 in its overlay. *)
Definition clock_account : AccountSharedData := mkAccount 1 [x05] (Addr 9) false 0.
Definition model_db : St := (add_account (Addr 11) clock_account (accounts_default 1 1 model_world)).2.

(** A program account owned by the BPF loader, and a system account. *)
Definition program_account : AccountSharedData := mkAccount 10 [x7f; x01] (Addr 2) true 0.
Definition broken_program : AccountSharedData := mkAccount 10 [x00; x01] (Addr 2) true 0.
Definition wallet (l : Z) : AccountSharedData := mkAccount l [] (Addr 0) false 0.
