(* ===== verification/FeePayer.v ===== *)
(** * Rent states and the fee payer, [utils/rent.rs] and [helpers.rs]

    The rent-state transition rule, the validation and debit of the fee payer,
    and the helpers of the execution path over plain data: the fee payer of
    synthetic transactions, account comparison and SPL token balances. *)

From Stdlib Require Import ZArith Lia Strings.Byte.
From stdpp Require Import base tactics option list sets gmap strings.
From S2P Require Import Prelude.
From S2P Require Import Types.
From S2P Require Import AccountSource.
From S2P Require Import Lru.
From S2P Require Import Runtime.
From S2P Require Import AccountsDb.

(** ** Rent states *)

Inductive RentState : Type :=
| Uninitialized
| RentPaying (rs_lamports : Z) (rs_data_size : Z)
| RentExempt.

#[export] Instance RentState_eq_dec : EqDecision RentState.
Proof. solve_decision. Defined.

(** [solana_system_program::SystemAccountKind]. *)
Inductive SystemAccountKind : Type := System | Nonce.

(** [solana_system_program::get_system_account_kind], [State::size()] of a nonce
    account, and the unpacking of SPL token accounts and mints. *)
Class SystemProgram : Type := {
  get_system_account_kind : AccountSharedData -> option SystemAccountKind;
  nonce_state_size : Z;
  token_account_len : nat;
  token_mint_len : nat;
  (** mint, owner, amount. *)
  unpack_token_account : list byte -> option (Address * Address * Z);
  (** decimals. *)
  unpack_token_mint : list byte -> option Z
}.

Section Rent.
Context {ids : SdkIds} {sv : SysvarRuntime}.

Definition transition_allowed (pre_rent_state post_rent_state : RentState) : bool :=
  match post_rent_state with
  | Uninitialized | RentExempt => true
  | RentPaying post_lamports post_data_size =>
      match pre_rent_state with
      | Uninitialized | RentExempt => false
      | RentPaying pre_lamports pre_data_size =>
          (post_data_size =? pre_data_size)%Z && (post_lamports <=? pre_lamports)%Z
      end
  end.

Definition check_rent_state_with_account (pre_rent_state post_rent_state : RentState)
    (address : Address) (account_index : Z) : result unit TransactionError :=
  if negb (bool_decide (address = incinerator_id)) &&
     negb (transition_allowed pre_rent_state post_rent_state)
  then Err (InsufficientFundsForRent (wrap_u8 account_index))
  else Ok tt.

Definition get_account_rent_state (rent : Rent) (account_lamports account_size : Z) : RentState :=
  if (account_lamports =? 0)%Z then Uninitialized
  else if rent_is_exempt rent account_lamports account_size then RentExempt
  else RentPaying account_lamports account_size.

(** ** The fee payer *)
Context {sp : SystemProgram}.

(** [validate_fee_payer]: the result and the account as the call leaves it;
    [None] is the panic of its [expect]. *)
Definition validate_fee_payer (payer_address : Address) (payer_account : AccountSharedData)
    (payer_index : Z) (rent : Rent) (fee : Z) :
    option (result unit TransactionError * AccountSharedData) :=
  if (lamports payer_account =? 0)%Z then Some (Err AccountNotFound, payer_account)
  else
    match get_system_account_kind payer_account with
    | None => Some (Err InvalidAccountForFee, payer_account)
    | Some system_account_kind =>
        let min_balance := match system_account_kind with
                           | System => 0%Z
                           | Nonce => rent_minimum_balance rent nonce_state_size
                           end in
        match checked_sub_u64 (lamports payer_account) min_balance ≫=
              (fun v => checked_sub_u64 v fee) with
        | None => Some (Err InsufficientFundsForFee, payer_account)
        | Some _ =>
            let payer_len := data_len payer_account in
            let pre := get_account_rent_state rent (lamports payer_account) payer_len in
            match checked_sub_lamports payer_account fee with
            | None => None
            | Some debited =>
                let post := get_account_rent_state rent (lamports debited) payer_len in
                Some (check_rent_state_with_account pre post payer_address payer_index, debited)
            end
        end
    end.

(** The balance a payer of this kind must keep. *)
Definition kept_balance (rent : Rent) (k : SystemAccountKind) : Z :=
  match k with System => 0%Z | Nonce => rent_minimum_balance rent nonce_state_size end.

(** ** Other helpers *)

Definition fee_payer_for_instructions (instructions : list Instruction) (fallback : Address) :
    Address :=
  let metas := instructions ≫= ix_accounts in
  match list_find (fun m => is_signer m = true) metas with
  | Some (_, m) => meta_pubkey m
  | None =>
      match list_find (fun m => is_writable m = true) metas with
      | Some (_, m) => meta_pubkey m
      | None => fallback
      end
  end.

(** [public_account_from_shared]: an account without lamports is no account. *)
Definition public_account_from_shared (account : AccountSharedData) : option AccountSharedData :=
  if (lamports account =? 0)%Z then None else Some account.

Definition accounts_differ (pre post : AccountSharedData) : bool :=
  negb (lamports pre =? lamports post)%Z || negb (bool_decide (acc_owner pre = acc_owner post)) ||
  negb (Bool.eqb (executable pre) (executable post)) ||
  negb (rent_epoch pre =? rent_epoch post)%Z ||
  negb (bool_decide (acc_data pre = acc_data post)).

Section TokenBalances.
Context {pr : ProgramRuntime}.

Definition mint_of (account : AccountSharedData) : option Z :=
  if (length (acc_data account) =? token_mint_len)%nat
  then unpack_token_mint (acc_data account) else None.

(** The pre-scan of the mints among the accounts: the first one wins. *)
Definition scan_mints (accounts : list (Address * AccountSharedData)) : gmap Address (option Z) :=
  foldl (fun m p =>
    match mint_of p.2 with
    | Some decimals =>
        match m !! p.1 with
        | Some _ => m
        | None => <[p.1 := Some decimals]> m
        end
    | None => m
    end) ∅ accounts.

Definition token_balance_of (mint_decimals : gmap Address (option Z)) (account_db : Accounts)
    (account_index : nat) (p : Address * AccountSharedData) : option TokenBalance :=
  if (length (acc_data p.2) =? token_account_len)%nat then
    match unpack_token_account (acc_data p.2) with
    | None => None
    | Some (mint, owner, amount) =>
        let decimals :=
          match mint_decimals !! mint with
          | Some d => d
          | None => get_account account_db mint ≫= mint_of
          end in
        Some (mkTokenBalance account_index p.1 mint owner amount decimals)
    end
  else None.

Definition token_balances (accounts : list (Address * AccountSharedData)) (account_db : Accounts) :
    list TokenBalance :=
  let mint_decimals := scan_mints accounts in
  omap (fun x => x) (imap (token_balance_of mint_decimals account_db) accounts).

End TokenBalances.

(** ** Facts *)

Lemma accounts_differ_spec pre post : accounts_differ pre post = true <-> pre <> post.
Proof.
  destruct pre as [l d o e r], post as [l' d' o' e' r']. unfold accounts_differ. simpl.
  rewrite !orb_true_iff, !negb_true_iff, !bool_decide_eq_false, !Z.eqb_neq, eqb_false_iff.
  split; [naive_solver|]. intros Hne. destruct (decide (l = l')); [|naive_solver].
  destruct (decide (o = o')); [|naive_solver]. destruct (decide (e = e')); [|naive_solver].
  destruct (decide (r = r')); [|naive_solver]. destruct (decide (d = d')); [|naive_solver].
  congruence.
Qed.

Section WithLaws.
Context {rl : RentLaws}.

(** What the transition rule says of a debit: it may close the account, leave it
    exempt, or keep an already rent-paying account rent-paying. *)
Lemma debit_allowed rent l fee len :
  (0 <= fee <= l)%Z -> (0 < l)%Z ->
  transition_allowed (get_account_rent_state rent l len)
    (get_account_rent_state rent (l - fee) len) = true <->
  (l - fee = 0 \/ rent_minimum_balance rent len <= l - fee \/ l < rent_minimum_balance rent len)%Z.
Proof.
  intros Hfee Hl. unfold get_account_rent_state.
  destruct (Z.eqb_spec (l - fee) 0) as [H0|H0]; [simpl; tauto|].
  destruct (Z.eqb_spec l 0); [lia|].
  pose proof (rent_exempt_spec rent (l - fee) len) as Hpost.
  pose proof (rent_exempt_spec rent l len) as Hpre.
  destruct (rent_is_exempt rent (l - fee) len).
  - simpl. split; [|done]. intros _. right; left. by apply Hpost.
  - assert (~ (rent_minimum_balance rent len <= l - fee)%Z) by (rewrite <- Hpost; done).
    destruct (rent_is_exempt rent l len); simpl.
    + assert (rent_minimum_balance rent len <= l)%Z by (by apply Hpre). split; [done|lia].
    + assert (~ (rent_minimum_balance rent len <= l)%Z) by (rewrite <- Hpre; done).
      rewrite andb_true_iff, Z.eqb_eq, Z.leb_le. lia.
Qed.

(** C8: [validate_fee_payer] never panics, and it accepts exactly the payers
    that exist, are system or nonce accounts, can pay the fee on top of the
    balance their kind must keep, and whose debit leaves them closed, rent
    exempt, or as rent-paying as they were (the incinerator is exempt from
    that); it then debits exactly the fee and changes nothing else. *)
Theorem validate_fee_payer_exact (addr : Address) (acc : AccountSharedData) (index fee : Z)
    (rent : Rent) :
  (0 <= lamports acc)%Z -> (0 <= fee)%Z -> (0 <= nonce_state_size)%Z ->
  exists r acc', validate_fee_payer addr acc index rent fee = Some (r, acc') /\
  (r = Ok tt <->
   exists k, lamports acc <> 0%Z /\ get_system_account_kind acc = Some k /\
     (kept_balance rent k + fee <= lamports acc)%Z /\
     (addr = incinerator_id \/ lamports acc - fee = 0 \/
      rent_minimum_balance rent (data_len acc) <= lamports acc - fee \/
      lamports acc < rent_minimum_balance rent (data_len acc))%Z) /\
  (r = Ok tt -> acc' = with_lamports acc (lamports acc - fee)).
Proof.
  intros Hl Hf Hn. unfold validate_fee_payer.
  destruct (Z.eqb_spec (lamports acc) 0) as [H0|H0]; [eexists _, _; naive_solver|].
  destruct (get_system_account_kind acc) as [k|] eqn:Hk; [|eexists _, _; naive_solver].
  change (match k with System => _ | Nonce => _ end) with (kept_balance rent k).
  assert (Hkb : (0 <= kept_balance rent k)%Z).
  { destruct k; simpl; [lia|by apply rent_minimum_nonneg]. }
  destruct (checked_sub_u64 (lamports acc) (kept_balance rent k) ≫= _) as [v|] eqn:Hs.
  - assert ((kept_balance rent k + fee <= lamports acc)%Z) as Hle.
    { destruct (checked_sub_u64 (lamports acc) _) eqn:H1; [|done]. simpl in Hs.
      apply checked_sub_u64_Some in H1, Hs. lia. }
    unfold checked_sub_lamports.
    assert (checked_sub_u64 (lamports acc) fee = Some (lamports acc - fee)%Z) as ->.
    { apply checked_sub_u64_Some. lia. }
    simpl.
    eexists _, _. split; [reflexivity|]. split; [|done].
    unfold check_rent_state_with_account.
    pose proof (debit_allowed rent (lamports acc) fee (data_len acc) ltac:(lia) ltac:(lia)) as Hd.
    destruct (bool_decide (addr = incinerator_id)) eqn:Hi; bool_to_prop; simpl.
    + split; [|done]. intros _. exists k. naive_solver.
    + destruct (transition_allowed _ _); simpl.
      * split; [|done]. intros _. exists k. split_and!; try done. right. by apply Hd.
      * split; [done|]. intros (k' & _ & _ & _ & [?|Hx]); [done|]. by apply Hd in Hx.
  - eexists _, _. split; [reflexivity|]. split; [|done]. split; [done|].
    intros (k' & _ & [= <-] & Hle & _). exfalso.
    destruct (checked_sub_u64 (lamports acc) (kept_balance rent k)) eqn:H1; simpl in Hs.
    + apply checked_sub_u64_Some in H1. apply checked_sub_u64_None in Hs. lia.
    + apply checked_sub_u64_None in H1. lia.
Qed.

End WithLaws.

End Rent.
