(* ===== verification/InstructionTrace.v ===== *)
(** * The instruction trace, [utils/inner_instructions.rs]

    [extract_instruction_trace_data] turns the frames of a finished transaction
    into the execution trace and into the inner instructions of each top-level
    instruction.  A frame names its caller; the loop that walks to the top-level
    ancestor is run with fuel, and [None] stands for a panic (an index out of
    range) or an endless walk.  On frames whose callers precede them the
    extraction is total and groups the frames by their root, in order. *)

From Stdlib Require Import ZArith Lia Strings.Byte.
From stdpp Require Import base tactics option list strings.
From S2P Require Import Prelude.
From S2P Require Import Types.

(** [InstructionFrame] and [InstructionAccount] of [solana_transaction_context]. *)
Record InstructionFrame : Type := mkFrame {
  index_of_caller_instruction : Z;
  nesting_level : Z;
  program_account_index_in_tx : Z
}.

Record InstructionAccount : Type := mkInstructionAccount {
  index_in_transaction : Z;
  ia_is_signer : bool;
  ia_is_writable : bool
}.

(** [frames.iter().take_while(..).count()]. *)
Fixpoint num_top_level (frames : list InstructionFrame) : nat :=
  match frames with
  | [] => 0
  | f :: fs => if (index_of_caller_instruction f =? u16_max)%Z then S (num_top_level fs) else 0
  end.

(** The [while] loop to the top-level ancestor. *)
Fixpoint ancestor_loop (fuel top : nat) (frames : list InstructionFrame) (ancestor : nat) :
    option nat :=
  if (ancestor <? top)%nat then Some ancestor
  else
    match fuel with
    | O => None
    | S fuel' =>
        match frames !! ancestor with
        | None => None
        | Some f => ancestor_loop fuel' top frames (Z.to_nat (index_of_caller_instruction f))
        end
    end.

(** [nesting_level.saturating_add(1) as u8], on a [u16]. *)
Definition stack_height_of (f : InstructionFrame) : Z :=
  wrap_u8 (Z.min u16_max (nesting_level f + 1)).

Definition trace_program_id (account_keys : list Address) (f : InstructionFrame) : Address :=
  default Address_default (account_keys !! Z.to_nat (program_account_index_in_tx f)).

Definition trace_metas (account_keys : list Address) (accounts : list InstructionAccount) :
    list AccountMeta :=
  omap (fun acc =>
    match account_keys !! Z.to_nat (index_in_transaction acc) with
    | None => None
    | Some pubkey => Some (mkAccountMeta pubkey (ia_is_signer acc) (ia_is_writable acc))
    end) accounts.

Definition trace_inner (f : InstructionFrame) (accounts : list InstructionAccount)
    (data : list byte) : InnerInstruction :=
  mkInnerInstruction
    (mkCompiledInstruction (wrap_u8 (program_account_index_in_tx f))
       (map (fun acc => wrap_u8 (index_in_transaction acc)) accounts) data)
    (stack_height_of f).

(** [all_inner_instructions[ancestor].push(..)]. *)
Definition push_inner (ancestor : nat) (x : InnerInstruction)
    (all : list (list InnerInstruction)) : option (list (list InnerInstruction)) :=
  match all !! ancestor with
  | None => None
  | Some l => Some (<[ancestor := l ++ [x]]> all)
  end.

Section Extract.
Variables (account_keys : list Address) (frames : list InstructionFrame)
          (accounts : list (list InstructionAccount)) (data : list (list byte)).

(** The loop over the frames from index [i]. *)
Fixpoint extract_loop (n i : nat) (inner : list (list InnerInstruction))
    (trace : list ExecutedInstruction) :
    option (list (list InnerInstruction) * list ExecutedInstruction) :=
  match n with
  | O => Some (inner, trace)
  | S n' =>
      match frames !! i, accounts !! i, data !! i with
      | Some f, Some accs, Some d =>
          let executed := mkExecutedInstruction (stack_height_of f)
                            (trace_program_id account_keys f) (trace_metas account_keys accs) d in
          if (num_top_level frames <=? i)%nat then
            match ancestor_loop (length frames) (num_top_level frames) frames i with
            | None => None
            | Some ancestor =>
                match push_inner ancestor (trace_inner f accs d) inner with
                | None => None
                | Some inner' => extract_loop n' (S i) inner' (trace ++ [executed])
                end
            end
          else extract_loop n' (S i) inner (trace ++ [executed])
      | _, _, _ => None
      end
  end.

Definition extract_instruction_trace_data :
    option (list (list InnerInstruction) * ExecutionTrace) :=
  match extract_loop (length frames) 0 (replicate (num_top_level frames) []) [] with
  | None => None
  | Some (inner, trace) => Some (inner, mkExecutionTrace trace)
  end.

(** ** Specification *)

(** Frame [i] runs on behalf of the top-level instruction [r]. *)
Inductive root_of : nat -> nat -> Prop :=
| root_top i : i < num_top_level frames -> root_of i i
| root_call i f r :
    num_top_level frames <= i -> frames !! i = Some f ->
    root_of (Z.to_nat (index_of_caller_instruction f)) r -> root_of i r.

(** Every nested frame was called by an earlier one, and the three lists describe
    the same frames. *)
Record frames_wf : Prop := {
  wf_callers i f : num_top_level frames <= i -> frames !! i = Some f ->
                   (0 <= index_of_caller_instruction f < Z.of_nat i)%Z;
  wf_accounts : length accounts = length frames;
  wf_data : length data = length frames
}.

Lemma num_top_level_le : num_top_level frames <= length frames.
Proof. induction frames as [|f fs IH]; simpl; [done|]. case_match; lia. Qed.

Lemma ancestor_loop_root fuel i r :
  ancestor_loop fuel (num_top_level frames) frames i = Some r -> root_of i r.
Proof.
  revert i. induction fuel as [|fuel IH]; intros i; simpl;
    destruct (Nat.ltb_spec i (num_top_level frames)); try done;
    try (intros [= <-]; by constructor).
  destruct (frames !! i) as [f|] eqn:Hf; [|done]. intros H'. eapply root_call; eauto.
Qed.

Lemma root_of_lt i r : root_of i r -> r < num_top_level frames.
Proof. by induction 1. Qed.

Lemma root_of_fun i r1 r2 : root_of i r1 -> root_of i r2 -> r1 = r2.
Proof.
  intros H1. revert r2. induction H1 as [i Hi|i f r Hi Hf _ IH]; intros r2 H2;
    inversion H2; subst; try lia. by simplify_eq; apply IH.
Qed.

Lemma ancestor_loop_total (Hwf : frames_wf) fuel i :
  i < length frames -> i < fuel + num_top_level frames ->
  exists r, ancestor_loop fuel (num_top_level frames) frames i = Some r.
Proof.
  revert i. induction fuel as [|fuel IH]; intros i Hi Hfuel; simpl;
    destruct (Nat.ltb_spec i (num_top_level frames)) as [Hlt|Hge]; eauto; [lia|].
  destruct (lookup_lt_is_Some_2 frames i Hi) as [f Hf]. rewrite Hf.
  pose proof (wf_callers Hwf i f Hge Hf). apply IH; lia.
Qed.

(** The root of a frame as the loop computes it. *)
Definition root (i : nat) : option nat :=
  ancestor_loop (length frames) (num_top_level frames) frames i.

Lemma root_spec (Hwf : frames_wf) i :
  i < length frames -> exists r, root i = Some r /\ root_of i r.
Proof.
  intros Hi. destruct (ancestor_loop_total Hwf (length frames) i) as [r Hr]; [lia|lia|].
  exists r. split; [done|]. by eapply ancestor_loop_root.
Qed.

Definition frame_inner (i : nat) : option InnerInstruction :=
  match frames !! i, accounts !! i, data !! i with
  | Some f, Some accs, Some d => Some (trace_inner f accs d)
  | _, _, _ => None
  end.

Definition frame_executed (i : nat) : option ExecutedInstruction :=
  match frames !! i, accounts !! i, data !! i with
  | Some f, Some accs, Some d =>
      Some (mkExecutedInstruction (stack_height_of f) (trace_program_id account_keys f)
              (trace_metas account_keys accs) d)
  | _, _, _ => None
  end.

(** The nested frames below [n] whose root is [t], in order. *)
Definition group (n t : nat) : list InnerInstruction :=
  omap frame_inner
    (filter (fun i => num_top_level frames <= i /\ root i = Some t) (seq 0 n)).

Lemma group_S n t x :
  frame_inner n = Some x ->
  group (S n) t =
  group n t ++ (if decide (num_top_level frames <= n /\ root n = Some t) then [x] else []).
Proof.
  intros Hx. unfold group. rewrite seq_S, filter_app, omap_app. simpl. f_equal.
  rewrite filter_cons, filter_nil. simpl. case_decide; simpl; [by rewrite Hx|done].
Qed.

Lemma extract_loop_spec (Hwf : frames_wf) n i :
  i + n = length frames ->
  extract_loop n i (map (group i) (seq 0 (num_top_level frames))) (omap frame_executed (seq 0 i)) =
  Some (map (group (length frames)) (seq 0 (num_top_level frames)),
        omap frame_executed (seq 0 (length frames))).
Proof.
  revert i. induction n as [|n IH]; intros i Hi; simpl.
  { rewrite Nat.add_0_r in Hi. by subst. }
  destruct (lookup_lt_is_Some_2 frames i ltac:(lia)) as [f Hf].
  destruct (lookup_lt_is_Some_2 accounts i) as [accs Haccs]; [rewrite (wf_accounts Hwf); lia|].
  destruct (lookup_lt_is_Some_2 data i) as [d Hd]; [rewrite (wf_data Hwf); lia|].
  rewrite Hf, Haccs, Hd.
  assert (Hx : frame_inner i = Some (trace_inner f accs d)).
  { unfold frame_inner. by rewrite Hf, Haccs, Hd. }
  assert (Htr : omap frame_executed (seq 0 (S i)) = omap frame_executed (seq 0 i) ++
     [mkExecutedInstruction (stack_height_of f) (trace_program_id account_keys f)
        (trace_metas account_keys accs) d]).
  { rewrite seq_S, omap_app. simpl. unfold frame_executed at 2. by rewrite Hf, Haccs, Hd. }
  rewrite <- Htr. fold (root i). destruct (Nat.leb_spec (num_top_level frames) i) as [Hge|Hlt].
  - destruct (root_spec Hwf i ltac:(lia)) as (r & Hr & Hroot). rewrite Hr.
    apply root_of_lt in Hroot. unfold push_inner.
    rewrite list_lookup_fmap, lookup_seq_lt by done. simpl.
    rewrite <- (IH (S i)) by lia. f_equal.
    apply list_eq. intros t. destruct (decide (t = r)) as [->|Hne].
    + rewrite list_lookup_insert_eq by (by rewrite length_fmap, length_seq).
      rewrite list_lookup_fmap, lookup_seq_lt by done. simpl.
      by rewrite (group_S i r _ Hx), decide_True.
    + rewrite list_lookup_insert_ne by done. rewrite !list_lookup_fmap.
      destruct (seq 0 (num_top_level frames) !! t) as [t'|] eqn:Ht; [|done]. simpl.
      apply lookup_seq in Ht as [-> _]. simpl.
      rewrite (group_S i t _ Hx), decide_False, app_nil_r by (intros [_ [=]]; congruence). done.
  - rewrite <- (IH (S i)) by lia. f_equal. apply map_ext. intros t.
    rewrite (group_S i t _ Hx), decide_False, app_nil_r by lia. done.
Qed.

(** C19: trace extraction is total and right on well-formed frames.  When every
    nested frame was called by an earlier one, extraction neither panics nor
    loops: it returns one list of inner instructions per top-level instruction,
    the [t]-th holding exactly the nested frames whose chain of callers ends in
    [t], in execution order, and a trace with one entry per frame. *)
Theorem extract_groups_by_root :
  frames_wf ->
  exists inner trace,
    extract_instruction_trace_data = Some (inner, trace) /\
    inner = map (group (length frames)) (seq 0 (num_top_level frames)) /\
    trace_instructions trace = omap frame_executed (seq 0 (length frames)) /\
    length (trace_instructions trace) = length frames /\
    (forall i, i < length frames -> exists r, root_of i r) /\
    (forall i r, i < length frames -> (root i = Some r <-> root_of i r)).
Proof.
  intros Hwf. unfold extract_instruction_trace_data.
  pose proof (extract_loop_spec Hwf (length frames) 0 eq_refl) as H. simpl in H.
  replace (replicate (num_top_level frames) []) with
    (map (group 0) (seq 0 (num_top_level frames))).
  2: { apply list_eq_same_length with (n := num_top_level frames);
         rewrite ?length_map, ?length_replicate, ?length_seq; [done..|].
       intros i x y Hi Hx Hy. rewrite lookup_replicate in Hy. destruct Hy as [-> _].
       rewrite list_lookup_fmap, lookup_seq_lt in Hx by done. by simplify_eq/=. }
  rewrite H. do 2 eexists. split; [reflexivity|]. split; [done|]. split; [done|]. split.
  - simpl. assert (Hall : forall n, n <= length frames ->
      length (omap frame_executed (seq 0 n)) = n); [|by apply Hall].
    intros n. induction n as [|n IH]; intros Hn; [done|].
    rewrite seq_S, omap_app, length_app, IH by lia. simpl.
    destruct (lookup_lt_is_Some_2 frames n ltac:(lia)) as [f Hf].
    destruct (lookup_lt_is_Some_2 accounts n) as [accs Ha]; [rewrite (wf_accounts Hwf); lia|].
    destruct (lookup_lt_is_Some_2 data n) as [d Hd]; [rewrite (wf_data Hwf); lia|].
    unfold frame_executed. rewrite Hf, Ha, Hd. simpl. lia.
  - split; [intros i Hi; destruct (root_spec Hwf i Hi) as (r & _ & ?); eauto|].
    intros i r Hi. destruct (root_spec Hwf i Hi) as (r' & Hr & Hroot).
    split; [intros Hr'; by simplify_eq|]. intros Hr'. by rewrite (root_of_fun i r r').
Qed.

End Extract.

(** Two top-level instructions, a nested call of each and one nested two deep. *)
Definition sample_frames : list InstructionFrame :=
  [mkFrame u16_max 0 0; mkFrame u16_max 0 1; mkFrame 0 1 2; mkFrame 2 2 1; mkFrame 1 1 2].
