(* ===== verification/Version.v ===== *)
(** * Protocol configuration, [version.rs], and the block environment, [env.rs]

    Cluster profiles, the [Version] value with its base table and overrides, and
    the per-transaction feature flags resolved once from the feature set. *)

From Stdlib Require Import ZArith.
From stdpp Require Import base tactics option list gmap strings.
From S2P Require Import Prelude.
From S2P Require Import Types.
From S2P Require Import Runtime.

(** ** Feature sets and budgets, [agave_feature_set] and [solana_compute_budget] *)
Class FeatureSets : Type := {
  FeatureSet : Type;
  fs_default : FeatureSet;
  fs_all_enabled : FeatureSet;
  fs_is_active : FeatureSet -> Address -> bool;
  fs_activate : Address -> Z -> FeatureSet -> FeatureSet;
  fs_deactivate : Address -> FeatureSet -> FeatureSet;
  raise_cpi_nesting_limit_to_8_ID : Address;
  deprecate_rent_exemption_threshold_ID : Address;
  increase_tx_v1_account_lock_limit_ID : Address;
  replace_spl_token_with_p_token_ID : Address
}.

Class FeatureSetLaws {fs : FeatureSets} : Prop := {
  fs_activate_active id slot s k :
    fs_is_active (fs_activate id slot s) k = if decide (k = id) then true else fs_is_active s k;
  fs_deactivate_active id s k :
    fs_is_active (fs_deactivate id s) k = if decide (k = id) then false else fs_is_active s k
}.

(** [ComputeBudget]: the fields the repository sets; the rest is determined by
    [new_with_defaults]. *)
Record ComputeBudget : Type := mkComputeBudget {
  cb_compute_unit_limit : Z;
  cb_heap_size : Z;
  cb_defaults_simd_0268 : bool
}.

(** [ComputeBudget::new_with_defaults(simd_0268_active)], over the defaults of
    its two settable fields. *)
Class Budgets : Type := {
  default_compute_unit_limit : Z;
  default_heap_size : Z
}.

Definition budget_new_with_defaults {b : Budgets} (simd : bool) : ComputeBudget :=
  mkComputeBudget default_compute_unit_limit default_heap_size simd.

(** [FeeStructure]: only the price of a signature is read. *)
Record FeeStructure : Type := mkFeeStructure { lamports_per_signature : Z }.

Definition FeeStructure_default : FeeStructure := mkFeeStructure 5000.

(** ** Profiles *)

Inductive ClusterSpecId : Type := MainnetBeta | Testnet | Devnet | Next.

#[export] Instance ClusterSpecId_eq_dec : EqDecision ClusterSpecId.
Proof. solve_decision. Defined.

Definition spec_id_discriminant (s : ClusterSpecId) : nat :=
  match s with MainnetBeta => 0 | Testnet => 1 | Devnet => 2 | Next => 3 end.

Definition ClusterSpecId_ALL : list ClusterSpecId := [MainnetBeta; Testnet; Devnet; Next].

Definition spec_id_name (s : ClusterSpecId) : string :=
  match s with
  | MainnetBeta => "mainnet-beta"
  | Testnet => "testnet"
  | Devnet => "devnet"
  | Next => "next"
  end.

Record RuntimeLimits : Type := mkRuntimeLimits { log_bytes_limit : option Z }.

Definition RuntimeLimits_default : RuntimeLimits := mkRuntimeLimits (Some 10000%Z).

Record ClusterInfo : Type := mkClusterInfo {
  cluster_spec_id : ClusterSpecId;
  cluster_name : string
}.

(** ** Feature gates *)

Inductive FeatureGate : Type :=
| RaiseCpiNestingLimitTo8
| DeprecateRentExemptionThreshold
| IncreaseTxV1AccountLockLimit
| ReplaceSplTokenWithPToken.

Definition FeatureGate_ALL : list FeatureGate :=
  [RaiseCpiNestingLimitTo8; DeprecateRentExemptionThreshold; IncreaseTxV1AccountLockLimit;
   ReplaceSplTokenWithPToken].

Record TxFeatureFlags : Type := mkTxFeatureFlags {
  flag_raise_cpi_nesting_limit_to_8 : bool;
  flag_deprecate_rent_exemption_threshold : bool;
  flag_increase_tx_v1_account_lock_limit : bool;
  flag_replace_spl_token_with_p_token : bool
}.

Definition flags_is_enabled (flags : TxFeatureFlags) (gate : FeatureGate) : bool :=
  match gate with
  | RaiseCpiNestingLimitTo8 => flag_raise_cpi_nesting_limit_to_8 flags
  | DeprecateRentExemptionThreshold => flag_deprecate_rent_exemption_threshold flags
  | IncreaseTxV1AccountLockLimit => flag_increase_tx_v1_account_lock_limit flags
  | ReplaceSplTokenWithPToken => flag_replace_spl_token_with_p_token flags
  end.

Section Version.
Context {sv : SysvarRuntime} {fs : FeatureSets}.

Definition gate_id (gate : FeatureGate) : Address :=
  match gate with
  | RaiseCpiNestingLimitTo8 => raise_cpi_nesting_limit_to_8_ID
  | DeprecateRentExemptionThreshold => deprecate_rent_exemption_threshold_ID
  | IncreaseTxV1AccountLockLimit => increase_tx_v1_account_lock_limit_ID
  | ReplaceSplTokenWithPToken => replace_spl_token_with_p_token_ID
  end.

(** [TxFeatureFlags::load]. *)
Definition flags_load (feature_set : FeatureSet) : TxFeatureFlags :=
  mkTxFeatureFlags
    (fs_is_active feature_set raise_cpi_nesting_limit_to_8_ID)
    (fs_is_active feature_set deprecate_rent_exemption_threshold_ID)
    (fs_is_active feature_set increase_tx_v1_account_lock_limit_ID)
    (fs_is_active feature_set replace_spl_token_with_p_token_ID).

Record Version : Type := mkVersion {
  v_feature_set : FeatureSet;
  v_fee_structure : FeeStructure;
  v_compute_budget : option ComputeBudget;
  v_rent : Rent;
  v_limits : RuntimeLimits;
  v_cluster : ClusterInfo;
  v_sigverify : bool;
  v_blockhash_check : bool;
  v_compute_diagnostics : bool;
  v_jit_policy : JitPolicy
}.

(** [build_base_table] and [Version::base]. *)
Definition base_version (spec_id : ClusterSpecId) : Version :=
  mkVersion fs_all_enabled FeeStructure_default None rent_default RuntimeLimits_default
    (mkClusterInfo spec_id (spec_id_name spec_id)) true true true JitPolicy_DEFAULT.

Definition build_base_table : list Version := map base_version ClusterSpecId_ALL.

(** Indexing the table; out of range would panic. *)
Definition version_base (spec_id : ClusterSpecId) : option Version :=
  build_base_table !! spec_id_discriminant spec_id.

Definition version_with_jit_policy (v : Version) (policy : JitPolicy) : Version :=
  mkVersion (v_feature_set v) (v_fee_structure v) (v_compute_budget v) (v_rent v) (v_limits v)
    (v_cluster v) (v_sigverify v) (v_blockhash_check v) (v_compute_diagnostics v) policy.

Definition version_with_feature (v : Version) (id : Address) (enabled : bool) : Version :=
  let feature_set := if enabled then fs_activate id 0 (v_feature_set v)
                     else fs_deactivate id (v_feature_set v) in
  mkVersion feature_set (v_fee_structure v) (v_compute_budget v) (v_rent v) (v_limits v)
    (v_cluster v) (v_sigverify v) (v_blockhash_check v) (v_compute_diagnostics v)
    (v_jit_policy v).

(** The setters of [Svm] that write one field. *)
Definition version_set_sigverify (b : bool) (v : Version) : Version :=
  mkVersion (v_feature_set v) (v_fee_structure v) (v_compute_budget v) (v_rent v) (v_limits v)
    (v_cluster v) b (v_blockhash_check v) (v_compute_diagnostics v) (v_jit_policy v).
Definition version_set_feature_set (f : FeatureSet) (v : Version) : Version :=
  mkVersion f (v_fee_structure v) (v_compute_budget v) (v_rent v) (v_limits v)
    (v_cluster v) (v_sigverify v) (v_blockhash_check v) (v_compute_diagnostics v)
    (v_jit_policy v).

(** The flags a transaction reads are the feature set's own decisions, for
    every gate; flipping one feature changes exactly that decision and no other
    field; and the base table has an entry for every profile, indexed by its
    discriminant, with diagnostics on. *)
Theorem feature_flags_faithful {fl : FeatureSetLaws} (v : Version) (id : Address) (enabled : bool) :
  (forall gate, flags_is_enabled (flags_load (v_feature_set v)) gate =
                fs_is_active (v_feature_set v) (gate_id gate)) /\
  (forall gate,
     flags_is_enabled (flags_load (v_feature_set (version_with_feature v id enabled))) gate =
     if decide (gate_id gate = id) then enabled
     else flags_is_enabled (flags_load (v_feature_set v)) gate) /\
  version_set_feature_set (v_feature_set v) (version_with_feature v id enabled) = v /\
  (forall spec_id, version_base spec_id = Some (base_version spec_id)).
Proof.
  assert (Hload : forall f gate, flags_is_enabled (flags_load f) gate = fs_is_active f (gate_id gate))
    by (by intros f []).
  split; [apply Hload|]. split.
  - intros gate. rewrite !Hload. unfold version_with_feature. simpl.
    destruct enabled; [by rewrite fs_activate_active|by rewrite fs_deactivate_active].
  - split; [by destruct v|]. by intros [].
Qed.

End Version.

(** [BlockEnv]: the extension slot is carried, never interpreted. *)
Record BlockEnv (E : Type) : Type := mkBlockEnv {
  latest_blockhash : Hash;
  be_slot : Z;
  be_ext : E
}.
Arguments mkBlockEnv {E} _ _ _.
Arguments latest_blockhash {E} _.
Arguments be_slot {E} _.
Arguments be_ext {E} _.
