(* ===== verification/TxRuntime.v ===== *)
(** * Transactions, the invoke context and inspectors

    [TxRuntime] lists what the execution path calls of the Solana transaction
    and runtime crates: envelopes and their sanitization, fees, budgets, durable
    nonces and the invoke context that runs instructions.  [TxRuntimeLaws] states
    what the code relies on of the invoke context's program cache.  The inspector
    modes and origins of [inspector.rs] are here too. *)

From Stdlib Require Import ZArith Strings.Byte.
From stdpp Require Import base tactics option list sets gmap strings.
From S2P Require Import Prelude.
From S2P Require Import Types.
From S2P Require Import Lru.
From S2P Require Import Runtime.
From S2P Require Import AccountsDb.
From S2P Require Import InstructionTrace.
From S2P Require Import Version.

(** ** Inspectors, [inspector.rs] *)

Inductive TransactionOrigin : Type :=
| User
| InternalAirdrop
| Batch (stage_index : nat) (transaction_index : nat).

#[export] Instance TransactionOrigin_eq_dec : EqDecision TransactionOrigin.
Proof. solve_decision. Defined.

Definition is_user (o : TransactionOrigin) : bool :=
  match o with User => true | _ => false end.

Inductive InspectMode : Type := NoInspector | DynInspector.

Definition is_live (m : InspectMode) : bool :=
  match m with DynInspector => true | NoInspector => false end.

Inductive OriginFilter : Type := UserOnly | All | BatchStages | FilterInternalAirdrop | NonUser.

Definition origin_allows (f : OriginFilter) (o : TransactionOrigin) : bool :=
  match f, o with
  | All, _ => true
  | UserOnly, User => true
  | BatchStages, Batch _ _ => true
  | FilterInternalAirdrop, InternalAirdrop => true
  | NonUser, User => false
  | NonUser, _ => true
  | _, _ => false
  end.

(** An installed inspector: a recorder of the origins it accepts, possibly
    wrapped by [OriginFiltered]. *)
Inductive InspectorRef : Type :=
| UserInspector (id : N)
| OriginFiltered (inner : InspectorRef) (filter : OriginFilter).

(** [accepts_origin]: a user inspector answers for itself, a filtered one asks
    its filter first. *)
Fixpoint accepts_origin (user : N -> TransactionOrigin -> bool) (i : InspectorRef)
    (o : TransactionOrigin) : bool :=
  match i with
  | UserInspector id => user id o
  | OriginFiltered inner f => origin_allows f o && accepts_origin user inner o
  end.

(** ** Message-hash policy, [execution.rs] *)
Inductive MessageHashPolicy : Type := Compute | Skip.

(** [for_mode]: [callback] is the [invocation-inspect-callback] feature. *)
Definition policy_for_mode (callback : bool) (m : InspectMode) : MessageHashPolicy :=
  if is_live m || callback then Compute else Skip.

(** ** Transactions *)

Inductive MessageKind : Type := MsgLegacy | MsgV0 | MsgV1.

Inductive TransactionVersion : Type := VersionLegacy | VersionNumber (n : Z).

Record ComputeBudgetLimits : Type := mkComputeBudgetLimits {
  cbl_compute_unit_limit : Z;
  cbl_updated_heap_bytes : Z;
  cbl_prioritization_fee : Z
}.

(** What a finished transaction context holds. *)
Record TraceData : Type := mkTraceData {
  td_account_keys : list Address;
  td_frames : list InstructionFrame;
  td_accounts : list (list InstructionAccount);
  td_data : list (list byte)
}.

(** [EnvironmentConfig]. *)
Record EnvironmentConfig (Envs SC FS : Type) : Type := mkEnvironmentConfig {
  ec_blockhash : Hash;
  ec_lamports_per_signature : Z;
  ec_feature_set : FS;
  ec_environments : Envs;
  ec_sysvar_cache : SC
}.
Arguments mkEnvironmentConfig {_ _ _} _ _ _ _ _.

Class TxRuntime {sv : SysvarRuntime} {pr : ProgramRuntime} {pc : ProgramCacheOps}
    {fs : FeatureSets} : Type := {
  (** [VersionedTransaction]. *)
  VersionedTransaction : Type;
  tx_signatures : VersionedTransaction -> list Signature;
  tx_kind : VersionedTransaction -> MessageKind;
  tx_version : VersionedTransaction -> TransactionVersion;
  tx_static_account_keys : VersionedTransaction -> list Address;
  tx_address_table_lookups : VersionedTransaction -> option (list MessageAddressTableLookup);
  (** [SanitizedTransaction] and its message. *)
  SanitizedTransaction : Type;
  stx_signature : SanitizedTransaction -> Signature;
  stx_account_keys : SanitizedTransaction -> list Address;
  stx_is_writable : SanitizedTransaction -> nat -> bool;
  stx_is_invoked : SanitizedTransaction -> nat -> bool;
  stx_is_instruction_account : SanitizedTransaction -> nat -> bool;
  stx_recent_blockhash : SanitizedTransaction -> Hash;
  stx_instructions : SanitizedTransaction -> list CompiledInstruction;
  (** [program_instructions_iter]: the program id of every instruction. *)
  stx_program_ids : SanitizedTransaction -> list Address;
  (** [AccountSharedData] of the instructions sysvar; [None] is a panic. *)
  construct_instructions_data : SanitizedTransaction -> option (list byte);
  ReservedKeys : Type;
  reserved_for : FeatureSet -> ReservedKeys;
  (** [SanitizedTransaction::try_create]: it may call the address loader. *)
  try_create : forall C : Type,
    VersionedTransaction -> MessageHashPolicy -> ReservedKeys ->
    (list MessageAddressTableLookup -> M C AddressLoaderError LoadedAddresses) ->
    M C TransactionError SanitizedTransaction;
  stx_verify : SanitizedTransaction -> result unit TransactionError;
  stx_validate_account_locks : SanitizedTransaction -> Z -> result unit TransactionError;
  process_compute_budget_instructions :
    SanitizedTransaction -> FeatureSet -> result ComputeBudgetLimits TransactionError;
  calculate_fee : SanitizedTransaction -> Z -> Z -> Z;
  (** Durable nonces. *)
  stx_get_durable_nonce : SanitizedTransaction -> option Address;
  verify_nonce_account : AccountSharedData -> Hash -> option Address;
  stx_get_ix_signers : SanitizedTransaction -> nat -> list Address;
  durable_nonce_from_blockhash : Hash -> Hash;
  (** The transaction and invoke contexts, as one value. *)
  Ctx : Type;
  ctx_new : ComputeBudget -> list (Address * AccountSharedData) -> nat -> Rent -> PCache ->
            EnvironmentConfig RuntimeEnvs SysvarCache FeatureSet -> Ctx;
  ctx_prepare_top_level_instructions :
    SanitizedTransaction -> Ctx -> result unit (Z * InstructionError) * Ctx;
  ctx_is_precompile : Ctx -> Address -> bool;
  ctx_process_precompile :
    Address -> list byte -> list (list byte) -> Ctx -> result unit InstructionError * Ctx;
  (** The units consumed by the call, its result and the context after it. *)
  ctx_process_instruction : Ctx -> Z * result unit InstructionError * Ctx;
  ctx_logs : Ctx -> list string;
  ctx_cache : Ctx -> PCache;
  ctx_trace : Ctx -> TraceData;
  (** [ExecutionRecord]: the accounts of the message, and the return data. *)
  ctx_accounts : Ctx -> list (Address * AccountSharedData);
  ctx_return_data : Ctx -> TransactionReturnData;
  (** Type-family and feature choices. *)
  BlockEnvExt : Type;
  invocation_inspect_callback_enabled : bool
}.

(** What running instructions does to the program cache it borrows: entries
    loaded or deployed on the way are scratch, the committed entries and the slot
    stay. *)
Class TxRuntimeLaws `{tx : TxRuntime} : Prop := {
  ctx_new_cache b accs n rent c env : ctx_cache (ctx_new b accs n rent c env) = c;
  ctx_prepare_cache stx ctx :
    pc_equiv (ctx_cache (ctx_prepare_top_level_instructions stx ctx).2) (ctx_cache ctx);
  ctx_precompile_cache k d ds ctx :
    pc_equiv (ctx_cache (ctx_process_precompile k d ds ctx).2) (ctx_cache ctx);
  ctx_instruction_cache ctx :
    pc_equiv (ctx_cache (ctx_process_instruction ctx).2) (ctx_cache ctx);
  (** The accounts of a transaction context keep their keys. *)
  ctx_new_keys b accs n rent c env : (ctx_accounts (ctx_new b accs n rent c env)).*1 = accs.*1;
  ctx_prepare_keys stx ctx :
    (ctx_accounts (ctx_prepare_top_level_instructions stx ctx).2).*1 = (ctx_accounts ctx).*1;
  ctx_precompile_keys k d ds ctx :
    (ctx_accounts (ctx_process_precompile k d ds ctx).2).*1 = (ctx_accounts ctx).*1;
  ctx_instruction_keys ctx :
    (ctx_accounts (ctx_process_instruction ctx).2).*1 = (ctx_accounts ctx).*1;
  (** A sanitized message has one program id per instruction. *)
  stx_program_ids_length stx : length (stx_program_ids stx) = length (stx_instructions stx)
}.
