(* ===== verification/Svm.v ===== *)
(** * The VM value, [lib.rs] and [vm.rs]

    The fields of [Svm], grouped as in the source, its clones, and the inspector
    consultation.  Handlers, inspectors and precompile providers are behind
    pointers in the source; here they are references, interpreted where they are
    called. *)

From Stdlib Require Import ZArith Strings.Byte.
From stdpp Require Import base tactics option list sets gmap strings.
From S2P Require Import Prelude.
From S2P Require Import Types.
From S2P Require Import AccountSource.
From S2P Require Import Errors.
From S2P Require Import Lru.
From S2P Require Import History.
From S2P Require Import Runtime.
From S2P Require Import AccountsDb.
From S2P Require Import Version.
From S2P Require Import TxRuntime.

(** [TxTag] as a map key. *)
Definition tag_encode (t : TxTag) : Z + unit + unit + unit :=
  match t with
  | TagCustom id => inl (inl (inl id))
  | TagLegacy => inl (inl (inr tt))
  | TagV0 => inl (inr tt)
  | TagV1 => inr tt
  end.

Definition tag_decode (x : Z + unit + unit + unit) : TxTag :=
  match x with
  | inl (inl (inl id)) => TagCustom id
  | inl (inl (inr _)) => TagLegacy
  | inl (inr _) => TagV0
  | inr _ => TagV1
  end.

#[export] Instance TxTag_countable : Countable TxTag.
Proof. by apply (inj_countable' tag_encode tag_decode); intros []. Defined.

(** The [Arc<dyn AnyTxHandler>] of a registry entry. *)
Inductive HandlerRef : Type :=
| DefaultExecutionHandler
| CustomHandler (id : N).

(** [MaterializedState]. *)
Record MaterializedState : Type := mkMaterialized {
  mat_builtins : bool;
  mat_default_programs : bool;
  mat_spl_programs : bool;
  mat_feature_accounts : bool;
  mat_sysvars : bool
}.

Definition MaterializedState_default : MaterializedState :=
  mkMaterialized false false false false false.

Section Svm.
Context {tgt : Target} {ids : SdkIds} {sv : SysvarRuntime} {pr : ProgramRuntime}
        {pc : ProgramCacheOps} {Lst : Lru ProgramEntryKey Entry}
        {Lhist : Lru Signature TransactionResult} {fs : FeatureSets} {tx : TxRuntime}.

(** [RuntimeExtensionRegistry]. *)
Record RuntimeExtensionRegistry : Type := mkRuntimeRegistry {
  custom_syscalls : list (string * BuiltinFn);
  standard_precompiles : bool
}.

(** [SvmExtensions]. *)
Record SvmExtensions : Type := mkSvmExtensions {
  ext_inspector : option InspectorRef;
  inspection_origin : TransactionOrigin;
  registry : gmap TxTag HandlerRef;
  precompiles : N;
  (** The policy the current [TierPromoter] was built for. *)
  tier_promoter : JitPolicy;
  runtime_registry : RuntimeExtensionRegistry;
  reserved_account_keys : ReservedKeys
}.

(** [SvmState]. *)
Record SvmState : Type := mkSvmState {
  accounts : Accounts;
  history : TransactionHistory
}.

(** [Svm]. *)
Record Svm : Type := mkSvm {
  state : SvmState;
  version : Version;
  block_env : BlockEnv BlockEnvExt;
  extensions : SvmExtensions;
  materialized : MaterializedState;
  airdrop_pubkey : Address
}.

Definition set_state (s : SvmState) (v : Svm) : Svm :=
  mkSvm s (version v) (block_env v) (extensions v) (materialized v) (airdrop_pubkey v).
Definition set_accounts (a : Accounts) (v : Svm) : Svm :=
  set_state (mkSvmState a (history (state v))) v.
Definition set_history (h : TransactionHistory) (v : Svm) : Svm :=
  set_state (mkSvmState (accounts (state v)) h) v.
Definition set_version (ver : Version) (v : Svm) : Svm :=
  mkSvm (state v) ver (block_env v) (extensions v) (materialized v) (airdrop_pubkey v).
Definition set_extensions (e : SvmExtensions) (v : Svm) : Svm :=
  mkSvm (state v) (version v) (block_env v) e (materialized v) (airdrop_pubkey v).
Definition set_block_env (b : BlockEnv BlockEnvExt) (v : Svm) : Svm :=
  mkSvm (state v) (version v) b (extensions v) (materialized v) (airdrop_pubkey v).
Definition set_origin (o : TransactionOrigin) (v : Svm) : Svm :=
  let e := extensions v in
  set_extensions (mkSvmExtensions (ext_inspector e) o (registry e) (precompiles e)
    (tier_promoter e) (runtime_registry e) (reserved_account_keys e)) v.
Definition set_tier_promoter (p : JitPolicy) (v : Svm) : Svm :=
  let e := extensions v in
  set_extensions (mkSvmExtensions (ext_inspector e) (inspection_origin e) (registry e)
    (precompiles e) p (runtime_registry e) (reserved_account_keys e)) v.
Definition set_registry (r : gmap TxTag HandlerRef) (v : Svm) : Svm :=
  let e := extensions v in
  set_extensions (mkSvmExtensions (ext_inspector e) (inspection_origin e) r
    (precompiles e) (tier_promoter e) (runtime_registry e) (reserved_account_keys e)) v.

(** A VM and the state it shares with its clones. *)
Definition VmSt : Type := Svm * World.

(** The database of a VM, with the world. *)
Definition db_of (s : VmSt) : St := (accounts (state s.1), s.2).
Definition with_db (d : St) (s : VmSt) : VmSt := (set_accounts d.1 s.1, d.2).

(** Running a database method on the VM's accounts. *)
Definition on_db {E A} (m : M St E A) : M VmSt E A := fun s =>
  let '(r, d) := m (db_of s) in (r, with_db d s).

(** [clone_with_state]: the inspector is never inherited. *)
Definition clone_with_state (v : Svm) (st : SvmState) (origin : TransactionOrigin) : Svm :=
  let e := extensions v in
  mkSvm st (version v) (block_env v)
    (mkSvmExtensions None origin (registry e) (precompiles e) (tier_promoter e)
       (runtime_registry e) (reserved_account_keys e))
    (materialized v) (airdrop_pubkey v).

(** [Clone]: the program cache handle is shared. *)
Definition svm_clone (v : Svm) : Svm :=
  clone_with_state v (mkSvmState (accounts_clone (accounts (state v))) (history (state v)))
    (inspection_origin (extensions v)).

(** [has_inspector], [inspector_accepts_origin] and [inspector_live]; [user] is
    the code of the user's inspectors. *)
Definition has_inspector (v : Svm) : bool :=
  match ext_inspector (extensions v) with Some _ => true | None => false end.

Definition inspector_accepts_origin (user : N -> TransactionOrigin -> bool) (v : Svm)
    (o : TransactionOrigin) : bool :=
  match ext_inspector (extensions v) with
  | Some i => accepts_origin user i o
  | None => false
  end.

Definition inspector_live (user : N -> TransactionOrigin -> bool) (v : Svm) : bool :=
  inspector_accepts_origin user v (inspection_origin (extensions v)).

(** [sync_jit_policy] of [Svm]. *)
Definition svm_sync_jit_policy (v : Svm) : Svm :=
  let policy := v_jit_policy (version v) in
  if bool_decide (jit_policy (accounts (state v)) = policy) then v
  else set_tier_promoter policy (set_accounts (sync_jit_policy policy (accounts (state v))) v).

(** [sync_block_env_slot]. *)
Definition sync_block_env_slot (v : Svm) : Svm :=
  set_block_env (mkBlockEnv (latest_blockhash (block_env v)) (current_slot (accounts (state v)))
                   (be_ext (block_env v))) v.

(** [set_account]. *)
Definition set_account (address : Address) (data : AccountSharedData) :
    M VmSt HPSVMError unit :=
  do! smodify (fun s => (svm_sync_jit_policy s.1, s.2)) in
  do! on_db (add_account address data) in
  smodify (fun s => (sync_block_env_slot s.1, s.2)).

(** [register_tx_handler] and [set_transaction_history]. *)
Definition register_tx_handler (tag : TxTag) (h : HandlerRef) (v : Svm) : Svm :=
  set_registry (<[tag := h]> (registry (extensions v))) v.
Definition set_transaction_history (capacity : Z) (v : Svm) : Svm :=
  set_history (set_capacity (history (state v)) capacity) v.

(** [require_sysvars_loaded]. *)
Definition require_sysvars_loaded (v : Svm) : result unit HPSVMError :=
  if mat_sysvars (materialized v) then Ok tt else Err (MissingRuntimeComponent "sysvars").

End Svm.
