(* ===== verification/Execution.v ===== *)
(** * Readonly execution, [execution.rs], [message_processor.rs] and [vm.rs]

    From an envelope to an [ExecutionResult]: sanitization, the admission checks
    in their order, account loading with the fee payer, program resolution, the
    instruction loop with its inspector hooks, and the post-state.  The program
    cache is borrowed from the [World] for the instructions and written back
    drained.  [None] stands for a panic ([expect], an index out of range); the
    list returned next to a result is the inspector's view of the execution. *)

From Stdlib Require Import ZArith Lia Strings.Byte.
From stdpp Require Import base tactics option list sets gmap strings.
From S2P Require Import Prelude.
From S2P Require Import Types.
From S2P Require Import AccountSource.
From S2P Require Import Errors.
From S2P Require Import Lru.
From S2P Require Import History.
From S2P Require Import Runtime.
From S2P Require Import AccountsDb.
From S2P Require Import FeePayer.
From S2P Require Import InstructionTrace.
From S2P Require Import Version.
From S2P Require Import TxRuntime.
From S2P Require Import Svm.

(** ** Results *)

(** [ExecutionResult] of [types.rs]. *)
Record ExecutionResult : Type := mkExecutionResult {
  er_post_accounts : list (Address * AccountSharedData);
  er_tx_result : result unit TransactionError;
  er_signature : Signature;
  er_compute_units_consumed : Z;
  er_inner_instructions : list (list InnerInstruction);
  er_return_data : TransactionReturnData;
  er_execution_trace : ExecutionTrace;
  er_included : bool;
  er_fee : Z;
  er_fee_payer : option Address;
  er_account_source_failures : list AccountSourceFailure;
  er_fatal_error : option ExecutionError;
  er_inspector_live : bool
}.

Definition ExecutionResult_default : ExecutionResult :=
  mkExecutionResult [] (Err UnsupportedVersion) Signature_default 0 [] TransactionReturnData_default
    (mkExecutionTrace []) false 0 None [] None false.

(** The literals [ExecutionResult { tx_result: Err(e), .. }] of the code: with the
    units and the fee, and with account-source failures. *)
Definition rejected_full (e : TransactionError) (units fee : Z)
    (failures : list AccountSourceFailure) : ExecutionResult :=
  mkExecutionResult [] (Err e) Signature_default units [] TransactionReturnData_default
    (mkExecutionTrace []) false fee None failures None false.

Definition rejected_at (e : TransactionError) (units fee : Z) : ExecutionResult :=
  rejected_full e units fee [].

Definition rejected (e : TransactionError) : ExecutionResult := rejected_at e 0 0.

(** [execution_result_with_account_source_error]. *)
Definition execution_result_with_account_source_error (pubkey : Address)
    (source : AccountSourceError) (tx_error : TransactionError) (fee : Z) : ExecutionResult :=
  mkExecutionResult [] (Err tx_error) Signature_default 0 [] TransactionReturnData_default
    (mkExecutionTrace []) false fee None
    [mkAccountSourceFailure pubkey (display_account_source_error source)]
    (Some (ExecAccountSource pubkey source)) false.

(** [sanitize_error_into_execution_result], on the loader's cell. *)
Definition sanitize_error_into_execution_result (cell : option AccountSourceLoadFailure)
    (err : TransactionError) : ExecutionResult :=
  match cell with
  | Some failure =>
      execution_result_with_account_source_error (lf_pubkey failure) (lf_source failure) err 0
  | None => rejected err
  end.

(** [map_sanitize_result] is a match; [get_transaction_account_lock_limit]. *)
Definition DEFAULT_TX_ACCOUNT_LOCKS : Z := 64.
Definition V1_TX_ACCOUNT_LOCKS : Z := 96.

Definition get_transaction_account_lock_limit (flags : TxFeatureFlags)
    (version : TransactionVersion) : Z :=
  match version with
  | VersionNumber n =>
      if (n =? 1)%Z then
        if flags_is_enabled flags IncreaseTxV1AccountLockLimit
        then V1_TX_ACCOUNT_LOCKS else DEFAULT_TX_ACCOUNT_LOCKS
      else DEFAULT_TX_ACCOUNT_LOCKS
  | VersionLegacy => DEFAULT_TX_ACCOUNT_LOCKS
  end.

Section Execution.
Context {tgt : Target} {ids : SdkIds} {sv : SysvarRuntime} {pr : ProgramRuntime}
        {pc : ProgramCacheOps} {Lst : Lru ProgramEntryKey Entry}
        {Lhist : Lru Signature TransactionResult} {fs : FeatureSets} {bud : Budgets}
        {tx : TxRuntime} {lt : LookupTables} {sp : SystemProgram}.

(** What an inspector observes. *)
Inductive InspectorEvent : Type :=
| EvTransactionStart (stx : SanitizedTransaction)
| EvInstructionStart (index : nat) (program_id : Address)
| EvInstructionEnd (index : nat) (program_id : Address)
| EvLog (message : string)
| EvAccountChange (change : AccountChange)
| EvTransactionEnd (r : result unit TransactionError).

(** The dispatchers [on_*]: empty unless the mode is live. *)
Definition hook (mode : InspectMode) (e : InspectorEvent) : list InspectorEvent :=
  match mode with DynInspector => [e] | NoInspector => [] end.

(** ** Sanitization *)

Definition sanitize_transaction_no_verify_with_policy (v : Svm) (t : VersionedTransaction)
    (policy : MessageHashPolicy) : result SanitizedTransaction ExecutionResult :=
  let '(r, cell) :=
    try_create (option AccountSourceLoadFailure) t policy
      (reserved_account_keys (extensions v))
      (fun lookups cell => tracking_load_addresses (accounts (state v)) lookups cell) None in
  map_err (sanitize_error_into_execution_result cell) r.

Definition sanitize_transaction_with_flags_and_policy (v : Svm) (t : VersionedTransaction)
    (flags : TxFeatureFlags) (policy : MessageHashPolicy) :
    result SanitizedTransaction ExecutionResult :=
  let limit := get_transaction_account_lock_limit flags (tx_version t) in
  let? stx := sanitize_transaction_no_verify_with_policy v t policy in
  let? _ := map_err rejected (stx_verify stx) in
  let? _ := map_err rejected (stx_validate_account_locks stx limit) in
  Ok stx.

Definition sanitize_transaction_no_verify (v : Svm) (t : VersionedTransaction) :
    result SanitizedTransaction ExecutionResult :=
  sanitize_transaction_no_verify_with_policy v t Compute.

Definition sanitize_transaction (v : Svm) (t : VersionedTransaction) :
    result SanitizedTransaction ExecutionResult :=
  sanitize_transaction_with_flags_and_policy v t (flags_load (v_feature_set (version v))) Compute.

(** ** Admission checks, [vm.rs] *)

Definition NONCED_TX_MARKER_IX_INDEX : nat := 0.

Definition check_message_for_nonce (v : Svm) (stx : SanitizedTransaction) : bool :=
  match (stx_get_durable_nonce stx ≫= get_account (accounts (state v))) ≫=
        (fun acc => verify_nonce_account acc (stx_recent_blockhash stx)) with
  | Some authority => bool_decide (authority ∈ stx_get_ix_signers stx NONCED_TX_MARKER_IX_INDEX)
  | None => false
  end.

Definition check_transaction_for_nonce (v : Svm) (stx : SanitizedTransaction)
    (next_durable_nonce : Hash) : bool :=
  negb (bool_decide (stx_recent_blockhash stx = next_durable_nonce)) &&
  check_message_for_nonce v stx.

Definition check_transaction_age_inner (v : Svm) (stx : SanitizedTransaction) :
    result unit TransactionError :=
  let latest := latest_blockhash (block_env v) in
  if bool_decide (stx_recent_blockhash stx = latest) ||
     check_transaction_for_nonce v stx (durable_nonce_from_blockhash latest)
  then Ok tt else Err BlockhashNotFound.

Definition check_transaction_age (v : Svm) (stx : SanitizedTransaction) :
    result unit ExecutionResult := map_err rejected (check_transaction_age_inner v stx).

Definition maybe_blockhash_check (v : Svm) (stx : SanitizedTransaction) :
    result unit ExecutionResult :=
  if v_blockhash_check (version v) then check_transaction_age v stx else Ok tt.

Definition maybe_history_check (v : Svm) (stx : SanitizedTransaction) :
    result unit ExecutionResult :=
  if v_sigverify (version v) && check_transaction (history (state v)) (stx_signature stx)
  then Err (rejected AlreadyProcessed) else Ok tt.

Definition get_compute_budget_limits (stx : SanitizedTransaction) (feature_set : FeatureSet) :
    result ComputeBudgetLimits ExecutionResult :=
  map_err rejected (process_compute_budget_instructions stx feature_set).

(** ** Loading accounts *)

(** [construct_instructions_account] of [utils/mod.rs]. *)
Definition construct_instructions_account (stx : SanitizedTransaction) :
    option AccountSharedData :=
  match construct_instructions_data stx with
  | None => None
  | Some data => Some (mkAccount 0 data sysvar_owner_id false 0)
  end.

(** The accounts of the message as loaded so far, whether a fee payer was
    validated, and which. *)
Record LoadedAccounts : Type := mkLoadedAccounts {
  la_accounts : list (Address * AccountSharedData);
  la_validated_fee_payer : bool;
  la_payer_key : option Address
}.

Definition la_push (key : Address) (acc : AccountSharedData) (l : LoadedAccounts) :
    LoadedAccounts :=
  mkLoadedAccounts (la_accounts l ++ [(key, acc)]) (la_validated_fee_payer l) (la_payer_key l).

(** One iteration of the loop over the account keys. *)
Definition load_account (v : Svm) (stx : SanitizedTransaction) (rent : Rent) (fee : Z)
    (i : nat) (key : Address) (l : LoadedAccounts) :
    option (result LoadedAccounts ExecutionResult) :=
  if bool_decide (key = instructions_sysvar_id) then
    match construct_instructions_account stx with
    | None => None
    | Some account => Some (Ok (la_push key account l))
    end
  else
    match try_get_account (accounts (state v)) key with
    | Err error =>
        Some (Err (execution_result_with_account_source_error key error AccountNotFound fee))
    | Ok found =>
        let account := default AccountSharedData_default found in
        if negb (la_validated_fee_payer l) &&
           (negb (stx_is_invoked stx i) || stx_is_instruction_account stx i) then
          match validate_fee_payer key account (Z.of_nat i mod 65536) rent fee with
          | None => None
          | Some (Err error, _) => Some (Err (rejected_at error 0 fee))
          | Some (Ok _, debited) =>
              Some (Ok (mkLoadedAccounts (la_accounts l ++ [(key, debited)]) true (Some key)))
          end
        else Some (Ok (la_push key account l))
    end.

Fixpoint load_accounts (v : Svm) (stx : SanitizedTransaction) (rent : Rent) (fee : Z)
    (i : nat) (keys : list Address) (l : LoadedAccounts) :
    option (result LoadedAccounts ExecutionResult) :=
  match keys with
  | [] => Some (Ok l)
  | key :: rest =>
      match load_account v stx rent fee i key l with
      | None => None
      | Some (Err e) => Some (Err e)
      | Some (Ok l') => load_accounts v stx rent fee (S i) rest l'
      end
  end.

(** ** Program resolution *)

(** The check of one instruction's program; [inr] pushes an account-source
    failure before rejecting. *)
Definition resolve_program (a : Accounts) (accs : list (Address * AccountSharedData))
    (fee units : Z) (failures : list AccountSourceFailure) (ix : CompiledInstruction) :
    result Z ExecutionResult :=
  let program_index := ci_program_id_index ix in
  match accs !! Z.to_nat program_index with
  | None => Err (rejected_at InvalidProgramForExecution units fee)
  | Some (program_id, program_account) =>
      if bool_decide (program_id = native_loader_id) then Ok program_index
      else if negb (executable program_account) then
        Err (rejected_at InvalidProgramForExecution units fee)
      else
        let owner_id := acc_owner program_account in
        if bool_decide (owner_id = native_loader_id) then Ok program_index
        else
          let check (owner_account : AccountSharedData) (failures' : list AccountSourceFailure) :=
            if negb (bool_decide (acc_owner owner_account = native_loader_id)) then
              Err (rejected_full InvalidProgramForExecution units fee failures')
            else if negb (executable owner_account) then
              Err (rejected_full InvalidProgramForExecution units fee failures')
            else Ok program_index in
          match try_get_account a owner_id with
          | Ok (Some owner_account) => check owner_account failures
          | Ok None => Err (rejected_at ProgramAccountNotFound units fee)
          | Err error =>
              check AccountSharedData_default
                (failures ++ [mkAccountSourceFailure owner_id (display_account_source_error error)])
          end
  end.

(** [resolve_program_indices]: a source failure always rejects (the default
    account is not owned by the native loader), so the list of failures of a
    successful resolution is the one it started with. *)
Definition resolve_program_indices (a : Accounts) (stx : SanitizedTransaction)
    (accs : list (Address * AccountSharedData)) (fee units : Z)
    (failures : list AccountSourceFailure) : result (list Z) ExecutionResult :=
  traverse (resolve_program a accs fee units failures) (stx_instructions stx).

(** ** Instructions, [message_processor.rs] *)

Fixpoint process_message_loop (mode : InspectMode) (stx : SanitizedTransaction)
    (l : list (Address * CompiledInstruction)) (index : nat) (units : Z) (ctx : Ctx) :
    result unit TransactionError * Z * Ctx * list InspectorEvent :=
  match l with
  | [] => (Ok tt, units, ctx, [])
  | (program_id, instruction) :: rest =>
      let '(consumed, r, ctx1) :=
        if ctx_is_precompile ctx program_id then
          let '(r, c) := ctx_process_precompile program_id (ci_data instruction)
                           (map ci_data (stx_instructions stx)) ctx in
          (0%Z, r, c)
        else ctx_process_instruction ctx in
      let units1 := saturating_add_u64 units consumed in
      let events := hook mode (EvInstructionStart index program_id) ++
                    hook mode (EvInstructionEnd index program_id) in
      match r with
      | Err err => (Err (TxInstructionError (wrap_u8 (Z.of_nat index)) err), units1, ctx1, events)
      | Ok _ =>
          let '(r', units2, ctx2, events') :=
            process_message_loop mode stx rest (S index) units1 ctx1 in
          (r', units2, ctx2, events ++ events')
      end
  end.

Definition process_message (mode : InspectMode) (stx : SanitizedTransaction)
    (program_indices : list Z) (units : Z) (ctx : Ctx) :
    result unit TransactionError * Z * Ctx * list InspectorEvent :=
  match ctx_prepare_top_level_instructions stx ctx with
  | (Err (index, err), ctx1) => (Err (TxInstructionError index err), units, ctx1, [])
  | (Ok _, ctx1) =>
      process_message_loop mode stx
        (take (length program_indices) (zip (stx_program_ids stx) (stx_instructions stx)))
        0 units ctx1
  end.

(** ** [process_transaction] *)

(** What an execution leaves beside its result: the hooks fired and the logs
    collected. *)
Record Observed : Type := mkObserved {
  ob_events : list InspectorEvent;
  ob_logs : list string
}.

Definition nothing_observed : Observed := mkObserved [] [].

(** [CheckAndProcessTransactionSuccess] with its core. *)
Record CheckAndProcessTransactionSuccess : Type := mkProcessed {
  cs_result : result unit TransactionError;
  cs_compute_units_consumed : Z;
  cs_context : option Ctx;
  cs_fee : Z;
  cs_payer_key : option Address;
  cs_account_source_failures : list AccountSourceFailure;
  cs_inspector_live : bool
}.

(** The compute budget: the override, or the defaults under the feature gate with
    the limits the transaction asks for. *)
Definition compute_budget_for (v : Svm) (limits : ComputeBudgetLimits) (flags : TxFeatureFlags) :
    ComputeBudget :=
  match v_compute_budget (version v) with
  | Some b => b
  | None =>
      let b := budget_new_with_defaults (flags_is_enabled flags RaiseCpiNestingLimitTo8) in
      mkComputeBudget (cbl_compute_unit_limit limits) (cbl_updated_heap_bytes limits)
        (cb_defaults_simd_0268 b)
  end.

Definition environment_config (v : Svm) (stx : SanitizedTransaction) :
    EnvironmentConfig RuntimeEnvs SysvarCache FeatureSet :=
  mkEnvironmentConfig (stx_recent_blockhash stx)
    (lamports_per_signature (v_fee_structure (version v))) (v_feature_set (version v))
    (environments (accounts (state v))).2 (sysvar_cache (accounts (state v))).

Definition process_transaction (mode : InspectMode) (s : VmSt) (stx : SanitizedTransaction)
    (limits : ComputeBudgetLimits) (flags : TxFeatureFlags) :
    option (result CheckAndProcessTransactionSuccess ExecutionResult * World *
            Observed) :=
  let '(v, w) := s in
  let a := accounts (state v) in
  match sc_get_rent (sysvar_cache a) with
  | None => Some (Err (rejected SanitizeFailure), w, nothing_observed)
  | Some rent =>
      let fee := calculate_fee stx (lamports_per_signature (v_fee_structure (version v)))
                   (cbl_prioritization_fee limits) in
      match load_accounts v stx rent fee 0 (stx_account_keys stx) (mkLoadedAccounts [] false None) with
      | None => None
      | Some (Err e) => Some (Err e, w, nothing_observed)
      | Some (Ok l) =>
          if negb (la_validated_fee_payer l) then
            Some (Err (rejected_at AccountNotFound 0 fee), w, nothing_observed)
          else
            match resolve_program_indices a stx (la_accounts l) fee 0 [] with
            | Err e => Some (Err e, w, nothing_observed)
            | Ok program_indices =>
                let ctx := ctx_new (compute_budget_for v limits flags) (la_accounts l)
                             (length (stx_instructions stx)) rent
                             (cache_at w (programs_cache a)) (environment_config v stx) in
                let '(r, units, ctx', events) := process_message mode stx program_indices 0 ctx in
                let logs := if is_live mode then map EvLog (ctx_logs ctx') else [] in
                Some (Ok (mkProcessed r units (Some ctx') fee (la_payer_key l) [] (is_live mode)),
                      set_cache (programs_cache a) (pc_drain (ctx_cache ctx')) w,
                      mkObserved
                        (hook mode (EvTransactionStart stx) ++ events ++ logs ++
                         hook mode (EvTransactionEnd r)) (ctx_logs ctx'))
            end
      end
  end.

(** [check_and_process_transaction]: the checks in their order. *)
Definition check_and_process_transaction (mode : InspectMode) (s : VmSt)
    (stx : SanitizedTransaction) (flags : TxFeatureFlags) :
    option (result CheckAndProcessTransactionSuccess ExecutionResult * World *
            Observed) :=
  let v := s.1 in
  if is_err (require_sysvars_loaded v) then Some (Err (rejected SanitizeFailure), s.2, nothing_observed)
  else
    match maybe_blockhash_check v stx with
    | Err e => Some (Err e, s.2, nothing_observed)
    | Ok _ =>
        match get_compute_budget_limits stx (v_feature_set (version v)) with
        | Err e => Some (Err e, s.2, nothing_observed)
        | Ok limits =>
            match maybe_history_check v stx with
            | Err e => Some (Err e, s.2, nothing_observed)
            | Ok _ => process_transaction mode s stx limits flags
            end
        end
    end.

(** ** The outcome *)

(** [execute_tx_helper] of [helpers.rs]: the writable accounts are the post-state. *)
Definition post_accounts_of (stx : SanitizedTransaction) (l : list (Address * AccountSharedData)) :
    list (Address * AccountSharedData) :=
  omap (fun x => x)
    (imap (fun idx pair => if stx_is_writable stx idx then Some pair else None) l).

(** [execution_result_if_context], with the liveness the caller sets. *)
Definition execution_result_if_context (stx : SanitizedTransaction) (ctx : Ctx)
    (r : result unit TransactionError) (units fee : Z) (fee_payer : option Address)
    (failures : list AccountSourceFailure) (live : bool) : option ExecutionResult :=
  let td := ctx_trace ctx in
  match extract_instruction_trace_data (td_account_keys td) (td_frames td) (td_accounts td)
          (td_data td) with
  | None => None
  | Some (inner, trace) =>
      Some (mkExecutionResult (post_accounts_of stx (ctx_accounts ctx)) r (stx_signature stx)
              units inner (ctx_return_data ctx) trace true fee fee_payer failures None live)
  end.

Definition execute_sanitized_transaction (mode : InspectMode) (s : VmSt)
    (stx : SanitizedTransaction) (flags : TxFeatureFlags) :
    option (ExecutionResult * World * Observed) :=
  match check_and_process_transaction mode s stx flags with
  | None => None
  | Some (Err e, w, events) => Some (e, w, events)
  | Some (Ok p, w, events) =>
      match cs_context p with
      | Some ctx =>
          match execution_result_if_context stx ctx (cs_result p) (cs_compute_units_consumed p)
                  (cs_fee p) (cs_payer_key p) (cs_account_source_failures p)
                  (cs_inspector_live p) with
          | None => None
          | Some outcome => Some (outcome, w, events)
          end
      | None =>
          Some (mkExecutionResult [] (cs_result p) Signature_default (cs_compute_units_consumed p)
                  [] TransactionReturnData_default (mkExecutionTrace []) false (cs_fee p) None
                  (cs_account_source_failures p) None (cs_inspector_live p), w, events)
      end
  end.

(** [execute_transaction_readonly] and [execute_transaction_no_verify_readonly],
    selected by [execute_readonly_impl]. *)
Definition execute_readonly_impl (mode : InspectMode) (s : VmSt) (t : VersionedTransaction) :
    option (ExecutionResult * World * Observed) :=
  let v := s.1 in
  let flags := flags_load (v_feature_set (version v)) in
  let policy := policy_for_mode invocation_inspect_callback_enabled mode in
  let sanitized :=
    if v_sigverify (version v) then sanitize_transaction_with_flags_and_policy v t flags policy
    else sanitize_transaction_no_verify_with_policy v t policy in
  match sanitized with
  | Err e => Some (e, s.2, nothing_observed)
  | Ok stx => execute_sanitized_transaction mode s stx flags
  end.

(** [execute_readonly] up to its sweep: one consultation of the inspector selects the
    mode.  The sweep, which changes nothing of the world, follows in [TierSweep]. *)
Definition execute_readonly (user : N -> TransactionOrigin -> bool) (s : VmSt)
    (t : VersionedTransaction) : option (ExecutionResult * World * Observed) :=
  execute_readonly_impl (if inspector_live user s.1 then DynInspector else NoInspector) s t.

End Execution.
