(* ===== verification/ExecutionFacts.v ===== *)
(** * Facts about readonly execution

    Execution leaves nothing of the world changed but a drained cache, charges exactly the fee to one
    account, gives the same outcome whether or not an inspector watches, and has
    results of a fixed shape: what is not included has no effects. *)

From Stdlib Require Import ZArith Lia Strings.Byte.
From stdpp Require Import base tactics option list sets gmap strings.
From S2P Require Import Prelude.
From S2P Require Import Types.
From S2P Require Import AccountSource.
From S2P Require Import Errors.
From S2P Require Import Lru.
From S2P Require Import History.
From S2P Require Import Runtime.
From S2P Require Import AccountsDb.
From S2P Require Import FeePayer.
From S2P Require Import InstructionTrace.
From S2P Require Import Version.
From S2P Require Import TxRuntime.
From S2P Require Import Svm.
From S2P Require Import Execution.
From S2P Require Import CacheCoherence.

Section ExecutionFacts.
Context {tgt : Target} {ids : SdkIds} {sv : SysvarRuntime} {pr : ProgramRuntime}
        {pc : ProgramCacheOps} {Lst : Lru ProgramEntryKey Entry}
        {Lhist : Lru Signature TransactionResult} {fs : FeatureSets} {bud : Budgets}
        {tx : TxRuntime} {lt : LookupTables} {sp : SystemProgram}.

(** ** Inspection is transparent *)

Lemma process_message_loop_mode m1 m2 stx l i units ctx :
  (process_message_loop m1 stx l i units ctx).1 = (process_message_loop m2 stx l i units ctx).1.
Proof.
  revert i units ctx. induction l as [|[k ix] l IH]; intros i units ctx; [done|]. simpl.
  destruct (if ctx_is_precompile ctx k then _ else _) as [[consumed [u|e]] ctx1]; [|done].
  specialize (IH (S i) (saturating_add_u64 units consumed) ctx1).
  destruct (process_message_loop m1 _ _ _ _ _) as [[[? ?] ?] ?].
  destruct (process_message_loop m2 _ _ _ _ _) as [[[? ?] ?] ?]. simpl in *. congruence.
Qed.

Lemma process_message_mode m1 m2 stx idx units ctx :
  (process_message m1 stx idx units ctx).1 = (process_message m2 stx idx units ctx).1.
Proof.
  unfold process_message. destruct (ctx_prepare_top_level_instructions stx ctx) as [[u|[i e]] ctx1];
    [apply process_message_loop_mode|done].
Qed.

Lemma process_message_silent stx idx units ctx :
  (process_message NoInspector stx idx units ctx).2 = [].
Proof.
  unfold process_message. destruct (ctx_prepare_top_level_instructions stx ctx) as [[u|[i e]] ctx1];
    [|done]. generalize 0 at 1. generalize (take (length idx) (zip (stx_program_ids stx) (stx_instructions stx))).
  intros l. revert units ctx1. induction l as [|[k ix] l IH]; intros units' ctx2 n; [done|]. simpl.
  destruct (if ctx_is_precompile ctx2 k then _ else _) as [[consumed [u'|e]] ctx3]; [|done].
  specialize (IH (saturating_add_u64 units' consumed) ctx3 (S n)).
  by destruct (process_message_loop NoInspector _ _ _ _ _) as [[[? ?] ?] ?].
Qed.

(** An outcome up to the liveness bit. *)
Definition forget_live (er : ExecutionResult) : ExecutionResult :=
  mkExecutionResult (er_post_accounts er) (er_tx_result er) (er_signature er)
    (er_compute_units_consumed er) (er_inner_instructions er) (er_return_data er)
    (er_execution_trace er) (er_included er) (er_fee er) (er_fee_payer er)
    (er_account_source_failures er) (er_fatal_error er) false.

(** What an execution returns, without what only inspectors see. *)
Definition unobserved (o : option (ExecutionResult * World * Observed)) :
    option (ExecutionResult * World * list string) :=
  match o with
  | None => None
  | Some (er, w, ob) => Some (forget_live er, w, ob_logs ob)
  end.

Definition forget_processed
    (o : option (result CheckAndProcessTransactionSuccess ExecutionResult * World * Observed)) :=
  match o with
  | None => None
  | Some (Err e, w, ob) => Some (Err e, w, ob_logs ob)
  | Some (Ok p, w, ob) =>
      Some (Ok (cs_result p, cs_compute_units_consumed p, cs_context p, cs_fee p, cs_payer_key p,
                cs_account_source_failures p), w, ob_logs ob)
  end.

Lemma process_transaction_mode m1 m2 s stx limits flags :
  forget_processed (process_transaction m1 s stx limits flags) =
  forget_processed (process_transaction m2 s stx limits flags).
Proof.
  unfold process_transaction. destruct s as [v w].
  destruct (sc_get_rent _) as [rent|]; [|done].
  destruct (load_accounts _ _ _ _ _ _ _) as [[l|e]|]; [|done|done].
  destruct (negb (la_validated_fee_payer l)); [done|].
  destruct (resolve_program_indices _ _ _ _ _ _) as [pi|e]; [|done].
  set (ctx := ctx_new _ _ _ _ _ _).
  pose proof (process_message_mode m1 m2 stx pi 0 ctx) as Hm.
  destruct (process_message m1 stx pi 0 ctx) as [[[r1 u1] c1] e1].
  destruct (process_message m2 stx pi 0 ctx) as [[[r2 u2] c2] e2].
  simpl in Hm. simplify_eq. done.
Qed.

(** ** The shape of rejections *)

(** A result without effects: nothing to commit, no payer, an error. *)
Definition rejection (er : ExecutionResult) : Prop :=
  er_included er = false /\ er_post_accounts er = [] /\ er_fee_payer er = None /\
  er_inspector_live er = false /\ is_err (er_tx_result er) = true.

Lemma rejected_rejection e units fee l : rejection (rejected_full e units fee l).
Proof. done. Qed.

Lemma source_error_rejection k e te fee :
  rejection (execution_result_with_account_source_error k e te fee).
Proof. done. Qed.

Lemma map_err_rejection {A} (r : result A TransactionError) e :
  map_err rejected r = Err e -> rejection e.
Proof. destruct r; simpl; [done|]. by intros [= <-]. Qed.

Lemma load_accounts_rejection v stx rent fee i keys l e :
  load_accounts v stx rent fee i keys l = Some (Err e) -> rejection e.
Proof.
  revert i l. induction keys as [|k keys IH]; intros i l; [done|]. simpl.
  destruct (load_account v stx rent fee i k l) as [[l'|e']|] eqn:Hl; [apply IH| |done].
  intros [= <-]. unfold load_account in Hl.
  repeat (case_match; simplify_eq/=; try done).
Qed.

Lemma resolve_program_rejection a accs fee units fl ix e :
  resolve_program a accs fee units fl ix = Err e -> rejection e.
Proof.
  unfold resolve_program. intros H. repeat (case_match; simplify_eq/=; try done).
Qed.

Lemma resolve_indices_rejection a stx accs fee units fl e :
  resolve_program_indices a stx accs fee units fl = Err e -> rejection e.
Proof.
  unfold resolve_program_indices. induction (stx_instructions stx) as [|ix l IH]; [done|]. simpl.
  destruct (resolve_program a accs fee units fl ix) eqn:Hr; simpl.
  - destruct (traverse _ l) eqn:Ht; [done|]. simpl. intros [= <-]. by apply IH.
  - intros [= <-]. by eapply resolve_program_rejection.
Qed.

(** The fee payer a successful load validated. *)
Lemma load_accounts_payer v stx rent fee i keys l l' :
  (la_validated_fee_payer l = true -> is_Some (la_payer_key l)) ->
  load_accounts v stx rent fee i keys l = Some (Ok l') ->
  la_validated_fee_payer l' = true -> is_Some (la_payer_key l').
Proof.
  revert i l. induction keys as [|k keys IH]; intros i l Hl; simpl; [by intros [= <-]|].
  destruct (load_account v stx rent fee i k l) as [[l1|e]|] eqn:H1; [|done|done].
  apply IH. unfold load_account in H1. repeat (case_match; simplify_eq/=; try done).
Qed.

(** A successful load has the keys of the message, in order. *)
Lemma load_accounts_keys v stx rent fee i keys l l' :
  load_accounts v stx rent fee i keys l = Some (Ok l') ->
  (la_accounts l').*1 = (la_accounts l).*1 ++ keys.
Proof.
  revert i l. induction keys as [|k keys IH]; intros i l; simpl.
  { intros [= <-]. by rewrite app_nil_r. }
  destruct (load_account v stx rent fee i k l) as [[l1|e]|] eqn:H1; [|done|done].
  intros ->%IH. assert ((la_accounts l1).*1 = (la_accounts l).*1 ++ [k]) as ->.
  { unfold load_account in H1. repeat (case_match; simplify_eq/=; try done); by rewrite fmap_app. }
  by rewrite <- (assoc_L (++)).
Qed.

(** Every way out of the checks: a rejection that touches nothing, or a processed
    transaction with its context. *)
Lemma check_and_process_cases mode s stx flags r w ob :
  check_and_process_transaction mode s stx flags = Some (r, w, ob) ->
  match r with
  | Err e => rejection e /\ w = s.2 /\ ob = nothing_observed
  | Ok p =>
      is_Some (cs_context p) /\ is_Some (cs_payer_key p) /\
      cs_inspector_live p = is_live mode /\ (is_live mode = false -> ob_events ob = []) /\
      exists accs budget n rent env idx ctx,
        ctx_new budget accs n rent (cache_at s.2 (programs_cache (accounts (state s.1)))) env = ctx /\
        cs_context p = Some (process_message mode stx idx 0 ctx).1.2 /\
        w = set_cache (programs_cache (accounts (state s.1)))
              (pc_drain (ctx_cache (process_message mode stx idx 0 ctx).1.2)) s.2 /\
        accs.*1 = stx_account_keys stx
  end.
Proof.
  unfold check_and_process_transaction.
  destruct (is_err _); [by intros [= <- <- <-]|].
  destruct (maybe_blockhash_check s.1 stx) as [u|e] eqn:Hb; last first.
  { intros [= <- <- <-]. split; [|done]. unfold maybe_blockhash_check in Hb.
    case_match; [by eapply map_err_rejection|done]. }
  destruct (get_compute_budget_limits _ _) as [limits|e] eqn:Hc; last first.
  { intros [= <- <- <-]. split; [by eapply map_err_rejection|done]. }
  destruct (maybe_history_check s.1 stx) as [u'|e] eqn:Hh; last first.
  { intros [= <- <- <-]. split; [|done]. unfold maybe_history_check in Hh. by case_match; simplify_eq. }
  unfold process_transaction. destruct s as [v w0]. cbn [fst snd].
  destruct (sc_get_rent _) as [rent|]; [|by intros [= <- <- <-]].
  destruct (load_accounts _ _ _ _ _ _ _) as [[l|e]|] eqn:Hl; [| |done].
  2: { intros [= <- <- <-]. split; [by eapply load_accounts_rejection|done]. }
  destruct (la_validated_fee_payer l) eqn:Hv; simpl; [|by intros [= <- <- <-]].
  destruct (resolve_program_indices _ _ _ _ _ _) as [idx|e] eqn:Hr.
  2: { intros [= <- <- <-]. split; [by eapply resolve_indices_rejection|done]. }
  set (ctx := ctx_new _ _ _ _ _ _).
  pose proof (process_message_silent stx idx 0 ctx) as Hsil.
  destruct (process_message mode stx idx 0 ctx) as [[[r0 units] ctx'] events] eqn:Hp.
  intros [= <- <- <-]. simpl. split; [done|]. split; [by eapply load_accounts_payer; [|exact Hl|exact Hv]|].
  split; [done|]. split.
  - destruct mode; [|done]. intros _. rewrite Hp in Hsil. simpl in *. by rewrite Hsil.
  - do 5 eexists. exists idx, ctx. split; [reflexivity|]. rewrite Hp.
    split; [done|]. split; [done|]. by apply load_accounts_keys in Hl.
Qed.

(** Inspection is transparent.  Running a transaction with a live inspector
    or without one gives the same result, post-state, logs and world, panics
    included; only the recorded liveness and the hooks differ, and without a
    live inspector no hook fires. *)
Theorem inspection_transparent (s : VmSt) (stx : SanitizedTransaction) (flags : TxFeatureFlags) :
  unobserved (execute_sanitized_transaction DynInspector s stx flags) =
  unobserved (execute_sanitized_transaction NoInspector s stx flags) /\
  (forall er w ob, execute_sanitized_transaction NoInspector s stx flags = Some (er, w, ob) ->
     ob_events ob = [] /\ er_inspector_live er = false).
Proof.
  split.
  - unfold execute_sanitized_transaction, check_and_process_transaction.
    destruct (is_err _); [done|]. destruct (maybe_blockhash_check _ _); [|done].
    destruct (get_compute_budget_limits _ _) as [limits|]; [|done].
    destruct (maybe_history_check _ _); [|done].
    pose proof (process_transaction_mode DynInspector NoInspector s stx limits flags) as Hm.
    destruct (process_transaction DynInspector s stx limits flags) as [[[[p1|e1] w1] ob1]|];
      destruct (process_transaction NoInspector s stx limits flags) as [[[[p2|e2] w2] ob2]|];
        simpl in Hm; simplify_eq; [|simpl; congruence|done].
    destruct p1 as [r1 u1 c1 f1 k1 l1 b1], p2 as [r2 u2 c2 f2 k2 l2 b2]. simpl in *. simplify_eq.
    unfold unobserved, forget_live.
    destruct c2 as [ctx|]; simpl; [|congruence].
    unfold execution_result_if_context.
    destruct (extract_instruction_trace_data _ _ _ _) as [[? ?]|]; [simpl; congruence|done].
  - intros er w ob. unfold execute_sanitized_transaction.
    destruct (check_and_process_transaction _ _ _ _) as [[[r w'] ob']|] eqn:Hc; [|done].
    apply check_and_process_cases in Hc. destruct r as [p|e].
    + destruct Hc as ([ctx Hctx] & _ & Hlive & Hev & _). rewrite Hctx. unfold execution_result_if_context.
      destruct (extract_instruction_trace_data _ _ _ _) as [[inner trace]|]; [|done].
      intros [= <- <- <-]. simpl. rewrite Hlive. auto.
    + destruct Hc as ((_ & _ & _ & Hlive & _) & -> & ->). intros [= <- <- <-]. done.
Qed.

(** ** The shape of outcomes *)

Lemma sanitize_rejection v t policy e :
  sanitize_transaction_no_verify_with_policy v t policy = Err e -> rejection e.
Proof.
  unfold sanitize_transaction_no_verify_with_policy.
  destruct (try_create _ _ _ _ _ _) as [[stx|te] [f|]]; simpl; try done; by intros [= <-].
Qed.

Lemma sanitize_verify_rejection v t flags policy e :
  sanitize_transaction_with_flags_and_policy v t flags policy = Err e -> rejection e.
Proof.
  unfold sanitize_transaction_with_flags_and_policy.
  destruct (sanitize_transaction_no_verify_with_policy v t policy) as [stx|e'] eqn:Hs; simpl.
  - destruct (stx_verify stx); simpl; [|by intros [= <-]].
    destruct (stx_validate_account_locks _ _); simpl; [done|by intros [= <-]].
  - intros [= <-]. by eapply sanitize_rejection.
Qed.

(** What is not included has no effects.  An execution that is not included
    carries no post-state and no fee payer and is an error; an included one has
    a validated fee payer and no fatal error, so a fatal account-source failure
    never reaches the commit path. *)
Theorem outcome_shape (mode : InspectMode) (s : VmSt) (t : VersionedTransaction)
    (er : ExecutionResult) (w : World) (ob : Observed) :
  execute_readonly_impl mode s t = Some (er, w, ob) ->
  if er_included er
  then is_Some (er_fee_payer er) /\ er_fatal_error er = None
  else er_post_accounts er = [] /\ er_fee_payer er = None /\ is_err (er_tx_result er) = true.
Proof.
  unfold execute_readonly_impl.
  destruct (if v_sigverify _ then _ else _) as [stx|e] eqn:Hs; last first.
  { intros [= <- _ _]. assert (rejection e) as (-> & ? & ? & _ & ?); [|done].
    destruct (v_sigverify _); [by eapply sanitize_verify_rejection|by eapply sanitize_rejection]. }
  unfold execute_sanitized_transaction.
  destruct (check_and_process_transaction _ _ _ _) as [[[r w'] ob']|] eqn:Hc; [|done].
  apply check_and_process_cases in Hc. destruct r as [p|e].
  - destruct Hc as ([ctx Hctx] & Hpay & _). rewrite Hctx. unfold execution_result_if_context.
    destruct (extract_instruction_trace_data _ _ _ _) as [[inner trace]|]; [|done].
    intros [= <- _ _]. done.
  - destruct Hc as ((Hi & Hpost & Hpay & _ & Herr) & _). intros [= <- _ _]. by rewrite Hi.
Qed.

(** ** Execution is readonly *)
Section Readonly.
Context {pcl : ProgramCacheLaws} {txl : TxRuntimeLaws}.

Lemma process_message_loop_cache mode stx l i units ctx :
  pc_equiv (ctx_cache (process_message_loop mode stx l i units ctx).1.2) (ctx_cache ctx).
Proof.
  revert i units ctx. induction l as [|[k ix] l IH]; intros i units ctx; [done|]. simpl.
  assert (Hstep : pc_equiv (ctx_cache
    (if ctx_is_precompile ctx k then
       let '(r, c) := ctx_process_precompile k (ci_data ix) (map ci_data (stx_instructions stx)) ctx in
       (0%Z, r, c)
     else ctx_process_instruction ctx).2) (ctx_cache ctx)).
  { destruct (ctx_is_precompile ctx k).
    - pose proof (ctx_precompile_cache k (ci_data ix) (map ci_data (stx_instructions stx)) ctx) as H.
      by destruct (ctx_process_precompile _ _ _ _).
    - pose proof (ctx_instruction_cache ctx) as H. by destruct (ctx_process_instruction ctx). }
  destruct (if ctx_is_precompile ctx k then _ else _) as [[consumed [u|e]] ctx1]; [|done].
  specialize (IH (S i) (saturating_add_u64 units consumed) ctx1).
  destruct (process_message_loop mode stx l _ _ _) as [[[? ?] ?] ?]. simpl in *. by etrans.
Qed.

Lemma process_message_cache mode stx idx units ctx :
  pc_equiv (ctx_cache (process_message mode stx idx units ctx).1.2) (ctx_cache ctx).
Proof.
  unfold process_message. pose proof (ctx_prepare_cache stx ctx) as H.
  destruct (ctx_prepare_top_level_instructions stx ctx) as [[u|[i e]] ctx1]; [|done].
  etrans; [apply process_message_loop_cache|done].
Qed.

(** Storing back what a cache holds. *)
Lemma set_cache_id h c w : w_caches w !! h = Some c -> set_cache h c w = w.
Proof. intros H. unfold set_cache. rewrite insert_id by done. by destruct w. Qed.

(** An execution that is not rejected before it runs leaves the cache it borrowed
    drained; nothing else of the world changes. *)
Lemma execute_readonly_world (user : N -> TransactionOrigin -> bool) s t er w ob :
  execute_readonly user s t = Some (er, w, ob) ->
  let h := programs_cache (accounts (state s.1)) in
  w = s.2 \/ w = set_cache h (pc_drain (cache_at s.2 h)) s.2.
Proof.
  unfold execute_readonly, execute_readonly_impl.
  destruct (if v_sigverify _ then _ else _) as [stx|e]; [|intros [= _ <- _]; by left].
  unfold execute_sanitized_transaction.
  set (mode := if inspector_live user s.1 then DynInspector else NoInspector).
  destruct (check_and_process_transaction _ _ _ _) as [[[r w'] ob']|] eqn:Hc; [|done].
  apply check_and_process_cases in Hc.
  assert (Hw : w' = s.2 \/ w' = set_cache (programs_cache (accounts (state s.1)))
                (pc_drain (cache_at s.2 (programs_cache (accounts (state s.1))))) s.2).
  { destruct r as [p|e]; [|destruct Hc as (_ & -> & _); by left].
    destruct Hc as (_ & _ & _ & _ & accs & b & n & rent & env & idx & ctx & Hctx & _ & -> & _).
    right. subst ctx. f_equal.
    match goal with |- pc_drain (ctx_cache ?m) = pc_drain ?c => assert (Heq : pc_equiv (ctx_cache m) c) end.
    { etrans; [apply process_message_cache|]. by rewrite ctx_new_cache. }
    apply pc_drained_ext; apply Heq. }
  destruct r as [p|e]; [|by intros [= _ <- _]].
  destruct (cs_context p); [|by intros [= _ <- _]].
  case_match; [|done]. by intros [= _ <- _].
Qed.

End Readonly.

(** ** The post-state is write-locked *)
Section WriteLocked.
Context {txl : TxRuntimeLaws}.

Lemma process_message_loop_keys mode stx l i units ctx :
  (ctx_accounts (process_message_loop mode stx l i units ctx).1.2).*1 = (ctx_accounts ctx).*1.
Proof.
  revert i units ctx. induction l as [|[k ix] l IH]; intros i units ctx; [done|]. simpl.
  assert (Hstep : (ctx_accounts
    (if ctx_is_precompile ctx k then
       let '(r, c) := ctx_process_precompile k (ci_data ix) (map ci_data (stx_instructions stx)) ctx in
       (0%Z, r, c)
     else ctx_process_instruction ctx).2).*1 = (ctx_accounts ctx).*1).
  { destruct (ctx_is_precompile ctx k); [|by rewrite ctx_instruction_keys].
    rewrite <- (ctx_precompile_keys k (ci_data ix) (map ci_data (stx_instructions stx)) ctx).
    by destruct (ctx_process_precompile _ _ _ _). }
  destruct (if ctx_is_precompile ctx k then _ else _) as [[consumed [u|e]] ctx1]; [|done].
  specialize (IH (S i) (saturating_add_u64 units consumed) ctx1).
  destruct (process_message_loop mode stx l _ _ _) as [[[? ?] ?] ?]. simpl in *. congruence.
Qed.

Lemma process_message_keys mode stx idx units ctx :
  (ctx_accounts (process_message mode stx idx units ctx).1.2).*1 = (ctx_accounts ctx).*1.
Proof.
  unfold process_message. pose proof (ctx_prepare_keys stx ctx) as H.
  destruct (ctx_prepare_top_level_instructions stx ctx) as [[u|[i e]] ctx1]; [|done].
  by rewrite process_message_loop_keys.
Qed.

Lemma post_accounts_writable stx l k acc :
  (k, acc) ∈ post_accounts_of stx l ->
  exists i, l.*1 !! i = Some k /\ stx_is_writable stx i = true.
Proof.
  unfold post_accounts_of. intros (o & Ho & ->)%list_elem_of_omap.
  apply list_elem_of_lookup in Ho as [i Hi]. rewrite list_lookup_imap in Hi.
  destruct (l !! i) as [[k' acc']|] eqn:Hl; simplify_eq/=. exists i.
  rewrite list_lookup_fmap, Hl. simpl. by destruct (stx_is_writable stx i); simplify_eq.
Qed.

(** Every account of an execution's post-state is a writable account of the
    sanitized transaction that ran. *)
Lemma execution_post_writable mode s stx flags er w ob k acc :
  execute_sanitized_transaction mode s stx flags = Some (er, w, ob) ->
  (k, acc) ∈ er_post_accounts er ->
  exists i, stx_account_keys stx !! i = Some k /\ stx_is_writable stx i = true.
Proof.
  unfold execute_sanitized_transaction.
  destruct (check_and_process_transaction _ _ _ _) as [[[r w'] ob']|] eqn:Hc; [|done].
  apply check_and_process_cases in Hc. destruct r as [p|e].
  - destruct Hc as (_ & _ & _ & _ & accs & b & n & rent & env & idx & ctx & <- & Hctx & _ & Hk).
    rewrite Hctx. unfold execution_result_if_context.
    destruct (extract_instruction_trace_data _ _ _ _) as [[? ?]|]; [|done].
    intros [= <- <- <-] (i & Hi & Hw)%post_accounts_writable.
    exists i. by rewrite process_message_keys, ctx_new_keys, Hk in Hi.
  - intros [= <- <- <-] Hin. destruct Hc as ((_ & Hpost & _) & _). rewrite Hpost in Hin. set_solver.
Qed.

End WriteLocked.

(** ** The fee *)

(** The account a key denotes before the fee is charged. *)
Definition base_account (v : Svm) (stx : SanitizedTransaction) (key : Address) :
    option AccountSharedData :=
  if bool_decide (key = instructions_sysvar_id) then construct_instructions_account stx
  else match try_get_account (accounts (state v)) key with
       | Ok found => Some (default AccountSharedData_default found)
       | Err _ => None
       end.

Definition total_lamports (l : list AccountSharedData) : Z := foldr (fun a t => lamports a + t)%Z 0%Z l.

Lemma total_lamports_app l1 l2 :
  total_lamports (l1 ++ l2) = (total_lamports l1 + total_lamports l2)%Z.
Proof. induction l1 as [|a l1 IH]; simpl; [done|]. rewrite IH. lia. Qed.

Lemma validate_fee_payer_debit addr acc index rent fee u acc' :
  validate_fee_payer addr acc index rent fee = Some (Ok u, acc') ->
  lamports acc' = (lamports acc - fee)%Z /\ (fee <= lamports acc)%Z.
Proof.
  unfold validate_fee_payer, checked_sub_lamports. intros H.
  destruct (lamports acc =? 0)%Z; [done|]. destruct (get_system_account_kind acc); [|done].
  destruct (checked_sub_u64 _ _ ≫= _); [|done].
  destruct (checked_sub_u64 (lamports acc) fee) eqn:Hs; [|done]. simpl in H. simplify_eq.
  apply checked_sub_u64_Some in Hs as [? ->]. done.
Qed.

(** One iteration keeps the balance: what was loaded plus the fee if it has been
    charged is what the keys denote. *)
Definition fee_charged (fee : Z) (l : LoadedAccounts) : Z :=
  if la_validated_fee_payer l then fee else 0%Z.

Lemma load_account_balance v stx rent fee i key l l' :
  load_account v stx rent fee i key l = Some (Ok l') ->
  exists base, base_account v stx key = Some base /\
  (la_accounts l').*1 = (la_accounts l).*1 ++ [key] /\
  (total_lamports (la_accounts l').*2 + fee_charged fee l' =
   total_lamports (la_accounts l).*2 + fee_charged fee l + lamports base)%Z.
Proof.
  unfold load_account, base_account, la_push, fee_charged.
  case_bool_decide.
  { destruct (construct_instructions_account stx) as [acc|]; [|done]. intros [= <-].
    exists acc. simpl. rewrite !fmap_app, total_lamports_app. simpl. split_and!; [done..|lia]. }
  destruct (try_get_account _ key) as [found|e]; [|done].
  set (acc := default AccountSharedData_default found).
  destruct (la_validated_fee_payer l) eqn:Hv; simpl.
  - intros [= <-]. exists acc. simpl. rewrite !fmap_app, total_lamports_app. simpl.
    split_and!; [done..|lia].
  - destruct (_ || _).
    + destruct (validate_fee_payer key acc _ rent fee) as [[[u|e] debited]|] eqn:Hf; try done.
      intros [= <-]. apply validate_fee_payer_debit in Hf as [Hd _].
      exists acc. simpl. rewrite !fmap_app, total_lamports_app. simpl. split_and!; [done..|lia].
    + intros [= <-]. exists acc. simpl. rewrite !fmap_app, total_lamports_app. simpl.
      split_and!; [done..|lia].
Qed.

(** Exactly the fee is charged.  When the account loop of
    [process_transaction] succeeds it has loaded one account per account key, in
    the message's order, and the lamports of the loaded accounts are those the
    keys denote minus the fee, charged once if a payer was validated and not at
    all otherwise. *)
Theorem load_accounts_charges_fee (v : Svm) (stx : SanitizedTransaction) (rent : Rent) (fee : Z)
    (l : LoadedAccounts) :
  load_accounts v stx rent fee 0 (stx_account_keys stx) (mkLoadedAccounts [] false None) =
    Some (Ok l) ->
  exists base, mapM (base_account v stx) (stx_account_keys stx) = Some base /\
  (la_accounts l).*1 = stx_account_keys stx /\
  (total_lamports (la_accounts l).*2 =
   total_lamports base - if la_validated_fee_payer l then fee else 0)%Z.
Proof.
  assert (Hgen : forall keys i l0,
    load_accounts v stx rent fee i keys l0 = Some (Ok l) ->
    exists base, mapM (base_account v stx) keys = Some base /\
      (la_accounts l).*1 = (la_accounts l0).*1 ++ keys /\
      (total_lamports (la_accounts l).*2 + fee_charged fee l =
       total_lamports (la_accounts l0).*2 + fee_charged fee l0 + total_lamports base)%Z).
  { induction keys as [|k keys IH]; intros i l0; simpl.
    { intros [= ->]. exists []. rewrite app_nil_r. simpl. split_and!; [done..|lia]. }
    destruct (load_account v stx rent fee i k l0) as [[l1|e]|] eqn:H1; [|done|done].
    intros Hrest. apply load_account_balance in H1 as (b & Hb & Hk1 & Ht1).
    destruct (IH _ _ Hrest) as (base & Hm & Hk & Ht). exists (b :: base).
    rewrite Hb. simpl. rewrite Hm. simpl. split; [done|]. split.
    - by rewrite Hk, Hk1, <- (assoc_L (++)).
    - lia. }
  intros Hl. destruct (Hgen _ _ _ Hl) as (base & Hm & Hk & Ht). exists base.
  split; [done|]. split; [done|]. unfold fee_charged in Ht. simpl in Ht. lia.
Qed.

(** ** Program resolution *)

(** A resolved instruction runs a real program: its index is the
    instruction's own, and the program is the native loader itself, or an
    executable owned by it or by an executable account it owns; a failing
    account source while looking for the owner account rejects the transaction
    as an invalid program and leaves the outcome without a fatal error. *)
Theorem resolve_program_sound (a : Accounts) (accs : list (Address * AccountSharedData))
    (fee units : Z) (failures : list AccountSourceFailure) (ix : CompiledInstruction) :
  system_program_id <> native_loader_id -> Address_default = system_program_id ->
  (forall i, resolve_program a accs fee units failures ix = Ok i ->
   i = ci_program_id_index ix /\
   exists program_id acc, accs !! Z.to_nat i = Some (program_id, acc) /\
     (program_id = native_loader_id \/
      executable acc = true /\
      (acc_owner acc = native_loader_id \/
       exists owner, try_get_account a (acc_owner acc) = Ok (Some owner) /\
         acc_owner owner = native_loader_id /\ executable owner = true))) /\
  (forall program_id acc e,
     accs !! Z.to_nat (ci_program_id_index ix) = Some (program_id, acc) ->
     program_id <> native_loader_id -> executable acc = true ->
     acc_owner acc <> native_loader_id -> try_get_account a (acc_owner acc) = Err e ->
     exists er, resolve_program a accs fee units failures ix = Err er /\
       er_tx_result er = Err InvalidProgramForExecution /\ er_fatal_error er = None /\
       er_account_source_failures er =
         failures ++ [mkAccountSourceFailure (acc_owner acc) (display_account_source_error e)]).
Proof.
  intros Hsys Hdef. unfold resolve_program. split.
  - intros i. destruct (accs !! _) as [[program_id acc]|] eqn:Hacc; [|done].
    case_bool_decide as Hn; [intros [= <-]; eauto 10|].
    destruct (executable acc) eqn:Hex; simpl; [|done].
    case_bool_decide as Ho; [intros [= <-]; eauto 10|].
    destruct (try_get_account a (acc_owner acc)) as [[owner|]|e] eqn:Hget; [|done|].
    + case_bool_decide as Hoo; simpl; [|done]. destruct (executable owner) eqn:Hoe; simpl; [|done].
      intros [= <-]. eauto 15.
    + case_bool_decide as Hoo; simpl; [|done]. cbn in Hoo. congruence.
  - intros program_id acc e Hacc Hn Hex Ho Hget.
    rewrite Hacc, bool_decide_false, Hex by done. simpl. rewrite bool_decide_false, Hget by done.
    rewrite bool_decide_false by (cbn; congruence). simpl. eauto 10.
Qed.

End ExecutionFacts.
