(* ===== verification/TierSweep.v ===== *)
(** * A readonly execution with its sweep

    [Svm::execute_readonly] as a whole: the execution of [Execution], and the sweep of
    the tier promoter after it, which works on the entries behind their [Arc]s
    ([Tiering]).  The rest of the development takes the execution alone: an entry of a
    world is the [Arc], and what is behind it is only the promoter's state. *)

From Stdlib Require Import ZArith Lia.
From stdpp Require Import base tactics option list sets gmap.
From S2P Require Import Prelude.
From S2P Require Import Types.
From S2P Require Import Errors.
From S2P Require Import Lru.
From S2P Require Import History.
From S2P Require Import Runtime.
From S2P Require Import AccountsDb.
From S2P Require Import Tiering.
From S2P Require Import TieringFacts.
From S2P Require Import FeePayer.
From S2P Require Import Version.
From S2P Require Import TxRuntime.
From S2P Require Import Svm.
From S2P Require Import Execution.
From S2P Require Import ExecutionFacts.

Section TierSweep.
Context {tgt : Target} {ids : SdkIds} {sv : SysvarRuntime} {pr : ProgramRuntime}
        {pc : ProgramCacheOps} {Lst : Lru ProgramEntryKey Entry}
        {Lhist : Lru Signature TransactionResult} {fs : FeatureSets} {bud : Budgets}
        {tx : TxRuntime} {lt : LookupTables} {sp : SystemProgram} {jr : JitRuntime}.

(** [Svm::observe_tier]: [cpus] and [builds] are what the promoter of the VM was made
    with, [micros] the clock of the compilations. *)
Definition observe_tier (cpus : option Z) (builds : bool) (micros : nat -> Z) (v : Svm) (w : World)
    (ts : TierState) : TierState :=
  observe (promoter_new cpus builds (tier_promoter (extensions v))) micros (accounts (state v), w) ts.

(** [Svm::execute_readonly]. *)
Definition execute_readonly_swept (user : N -> TransactionOrigin -> bool) (cpus : option Z)
    (builds : bool) (micros : nat -> Z) (s : VmSt) (t : VersionedTransaction) (ts : TierState) :
    option (ExecutionResult * World * Observed * TierState) :=
  match execute_readonly user s t with
  | None => None
  | Some (output, w, ob) => Some (output, w, ob, observe_tier cpus builds micros s.1 w ts)
  end.

(** ** What a sweep touches *)
Section Sweeps.
Context {laws : JitLaws}.

(** From some entries to others: the same ones, each as it was or further. *)
Definition swept (hs : list positive) (m m' : gmap positive TierEntry) : Prop :=
  dom m' = dom m /\ entries_advance m m' /\ forall k, k ∉ hs -> m' !! k = m !! k.

Lemma swept_refl hs m : swept hs m m.
Proof. by split_and!. Qed.

Lemma swept_trans hs m1 m2 m3 : swept hs m1 m2 -> swept hs m2 m3 -> swept hs m1 m3.
Proof.
  intros (Hd1 & Ha1 & Hk1) (Hd2 & Ha2 & Hk2). split_and!; [congruence|by etrans|].
  intros k Hk. rewrite Hk2, Hk1; done.
Qed.

Lemma swept_insert hs m h e e' :
  m !! h = Some e -> entry_advances e e' -> h ∈ hs -> swept hs m (<[h := e']> m).
Proof.
  intros He Ha Hh. split_and!.
  - by apply dom_insert_lookup_L.
  - by eapply entries_advance_insert.
  - intros k Hk. by rewrite lookup_insert_ne by (intros ->; done).
Qed.

Lemma promote_entries p h s : ts_entries (promote p h s) = ts_entries s.
Proof. unfold promote. by repeat case_match. Qed.

Lemma compile_entry_advances e : entry_advances e (compile_entry e).2.
Proof.
  unfold compile_entry. repeat case_match; cbn; try apply entry_advances_refl.
  by eapply compile_advances.
Qed.

Lemma promote_blocking_swept p us h hs s :
  h ∈ hs -> swept hs (ts_entries s) (ts_entries (promote_blocking p us h s)).
Proof.
  intros Hh. unfold promote_blocking. destruct (ts_entries s !! h) as [e|] eqn:He; [|apply swept_refl].
  destruct (negb (tp_enabled p)); [apply swept_refl|].
  destruct (has_compiled_program e); [apply swept_refl|].
  pose proof (compile_entry_advances e) as Ha. destruct (compile_entry e) as [o e1]. cbn in Ha.
  destruct o; cbn; [|by eapply swept_insert]. rewrite insert_insert_eq. eapply swept_insert; [done| |done].
  eapply entry_advances_trans; [exact Ha|apply set_stats_advances].
Qed.

Lemma foldl_swept (f : TierState -> positive * Z -> TierState) entries s :
  (forall s x, x ∈ entries -> swept entries.*1 (ts_entries s) (ts_entries (f s x))) ->
  swept entries.*1 (ts_entries s) (ts_entries (foldl f s entries)).
Proof.
  generalize (entries.*1) as hs. intros hs. revert s.
  induction entries as [|x l IH]; intros s H; [apply swept_refl|]. cbn.
  eapply swept_trans; [apply H, list_elem_of_here|]. apply IH. intros s' y Hy. apply H. by right.
Qed.

Lemma observe_swept p micros a s :
  swept (committed_refs a) (ts_entries s) (ts_entries (observe p micros a s)).
Proof.
  unfold observe, observe_entries, committed_refs. destruct (negb (tp_enabled p)); [apply swept_refl|].
  rewrite <- (observe_refs micros). case_match; apply foldl_swept; intros s' [h us] Hx.
  - unfold observe_blocking_one. repeat case_match; try apply swept_refl.
    apply promote_blocking_swept. by apply (list_elem_of_fmap_2 fst) in Hx.
  - unfold observe_one. repeat case_match; rewrite ?promote_entries; apply swept_refl.
Qed.

Lemma observe_idle cpus builds micros policy a s :
  is_lazy policy = false -> observe (promoter_new cpus builds policy) micros a s = s.
Proof. unfold is_lazy, observe, observe_entries, promoter_new. by destruct (effective policy). Qed.

End Sweeps.

(** ** Execution is readonly *)
Section Readonly.
Context {pcl : ProgramCacheLaws} {txl : TxRuntimeLaws} {laws : JitLaws}.

(** C9: execution is readonly.  Whatever a transaction does (succeeds, fails, is
    rejected, deploys programs), running it leaves the world as it was, except that
    scratch an earlier user left in the VM's own program cache is gone: no other cache
    and no stored entry changes, and from a drained cache, the state every execution
    leaves, the world after is the world before exactly, so the next transaction runs as
    if this one had not.  The sweep after it works behind the entries committed to the
    VM's cache and no others: it adds and removes none, keeps the image of each and turns
    none from compiled to interpreted; unless the effective policy is lazy it does
    nothing. *)
Theorem execution_readonly (user : N -> TransactionOrigin -> bool) (cpus : option Z) (builds : bool)
    (micros : nat -> Z) (s : VmSt) (t : VersionedTransaction) (ts : TierState) (er : ExecutionResult)
    (w : World) (ob : Observed) (ts' : TierState) (c : PCache) :
  let h := programs_cache (accounts (state s.1)) in
  w_caches s.2 !! h = Some c ->
  execute_readonly_swept user cpus builds micros s t ts = Some (er, w, ob, ts') ->
  (w = s.2 \/ w = set_cache h (pc_drain c) s.2) /\
  (pc_drain c = c -> w = s.2) /\
  pc_drain (pc_drain c) = pc_drain c /\
  dom (ts_entries ts') = dom (ts_entries ts) /\ entries_advance (ts_entries ts) (ts_entries ts') /\
  (forall k, k ∉ committed_refs (accounts (state s.1), w) -> ts_entries ts' !! k = ts_entries ts !! k) /\
  (is_lazy (tier_promoter (extensions s.1)) = false -> ts' = ts).
Proof.
  intros h Hc. unfold execute_readonly_swept.
  destruct (execute_readonly user s t) as [[[er0 w0] ob0]|] eqn:He; [|done].
  intros [= -> -> -> <-]. apply execute_readonly_world in He.
  cbv zeta in He. fold h in He. unfold cache_at in He. rewrite Hc in He. cbn [default] in He.
  destruct (observe_swept (promoter_new cpus builds (tier_promoter (extensions s.1))) micros
              (accounts (state s.1), w) ts) as (Hd & Ha & Hk).
  split_and!; [exact He| | |exact Hd|exact Ha|exact Hk|apply observe_idle].
  - intros Hdr. destruct He as [-> | ->]; [done|]. cbn. rewrite Hdr. by apply set_cache_id.
  - apply pc_drained_ext; [apply pc_drain_slot|apply pc_drain_entries].
Qed.

End Readonly.

End TierSweep.
