(* ===== verification/Staging.v ===== *)
(** * Dispatch, staging and commit

    The transaction registry ([tx_registry.rs]), the owned outcome of a readonly
    execution with its diagnostics ([vm.rs], [executed.rs]), commit deltas
    ([commit.rs], [state_change_set.rs]) and the staged transaction that is
    committed, streamed into a sink or discarded ([executed.rs]).  An
    [ExecutedTx] borrows the VM mutably, so its methods run on the VM state the
    staging left; [None] is a panic. *)

From Stdlib Require Import ZArith Lia Strings.Byte.
From stdpp Require Import base tactics option list sets gmap sorting strings.
From S2P Require Import Prelude.
From S2P Require Import Types.
From S2P Require Import AccountSource.
From S2P Require Import Errors.
From S2P Require Import Lru.
From S2P Require Import History.
From S2P Require Import Runtime.
From S2P Require Import AccountsDb.
From S2P Require Import FeePayer.
From S2P Require Import InstructionTrace.
From S2P Require Import Version.
From S2P Require Import TxRuntime.
From S2P Require Import Svm.
From S2P Require Import Execution.

(** [DetachedTx]. *)
Record DetachedTx : Type := mkDetachedTx {
  dt_meta : TransactionMetadata;
  dt_post_accounts : list (Address * AccountSharedData);
  dt_status : result unit TransactionError;
  dt_included : bool;
  dt_fee_payer : option Address;
  dt_fatal_error : option ExecutionError;
  dt_inspector_live : bool
}.

(** [TransactionMetadata { signature, ..Default::default() }]. *)
Definition metadata_with_signature (signature : Signature) : TransactionMetadata :=
  mkTransactionMetadata signature [] [] 0 TransactionReturnData_default 0
    ExecutionDiagnostics_default.

Definition for_dispatch_failure (error : TxError) (signature : Signature) : DetachedTx :=
  mkDetachedTx (metadata_with_signature signature) [] (Err (tx_transaction_error error)) false
    None None false.

(** [take_fatal]. *)
Definition without_fatal (d : DetachedTx) : DetachedTx :=
  mkDetachedTx (dt_meta d) (dt_post_accounts d) (dt_status d) (dt_included d) (dt_fee_payer d)
    None (dt_inspector_live d).

(** [CommitDelta] and [StateChangeSet]: two records with the same fields, one
    converted into the other. *)
Record StateChangeSet : Type := mkStateChangeSet {
  scs_post_accounts : list (Address * AccountSharedData);
  scs_history_entry : option (Signature * TransactionResult)
}.

Definition StateChangeSet_new : StateChangeSet := mkStateChangeSet [] None.

Definition mutates_state (c : StateChangeSet) : bool :=
  match scs_post_accounts c with [] => false | _ => true end ||
  match scs_history_entry c with Some _ => true | None => false end.

Definition result_of_detached (d : DetachedTx) : TransactionResult :=
  match dt_status d with
  | Ok _ => Ok (dt_meta d)
  | Err err => Err (mkFailedTransactionMetadata err (dt_meta d))
  end.

(** [detached_into_result_and_delta]. *)
Definition detached_into_result_and_delta (d : DetachedTx) (history_enabled : bool) :
    TransactionResult * StateChangeSet :=
  let r := result_of_detached d in
  (r, if dt_included d
      then mkStateChangeSet (dt_post_accounts d)
             (if history_enabled then Some (tm_signature (dt_meta d), r) else None)
      else StateChangeSet_new).

(** [StagedFailure]. *)
Record StagedFailure : Type := mkStagedFailure {
  sf_error : HPSVMError;
  sf_result : TransactionResult
}.

(** [ExecutedTx], without the borrowed VM. *)
Record ExecutedTx : Type := mkExecutedTx {
  xt_checkpoint : StateCheckpoint;
  xt_result : TransactionResult;
  xt_history_entry : option (Signature * TransactionResult);
  xt_cache_dirty : bool;
  xt_changes : list AccountChange;
  xt_inspector_live : bool
}.

(** The order of [tags]: [sort_by_key] on the tag's rank. *)
Definition tag_rank (t : TxTag) : Z * Z :=
  match t with
  | TagLegacy => (0, 0)
  | TagV0 => (1, 0)
  | TagV1 => (2, 0)
  | TagCustom id => (3, id)
  end%Z.

Definition tag_le (t1 t2 : TxTag) : Prop :=
  ((tag_rank t1).1 < (tag_rank t2).1 \/
   (tag_rank t1).1 = (tag_rank t2).1 /\ (tag_rank t1).2 <= (tag_rank t2).2)%Z.

#[export] Instance tag_le_dec : RelDecision tag_le.
Proof. intros t1 t2. unfold tag_le. apply _. Defined.

Definition registry_tags (r : gmap TxTag HandlerRef) : list TxTag :=
  merge_sort tag_le (map_to_list r).*1.

(** [TxRegistry::with_defaults]. *)
Definition registry_with_defaults : gmap TxTag HandlerRef :=
  <[TagV1 := DefaultExecutionHandler]>
    (<[TagV0 := DefaultExecutionHandler]> (<[TagLegacy := DefaultExecutionHandler]> ∅)).

Section Staging.
Context {tgt : Target} {ids : SdkIds} {sv : SysvarRuntime} {pr : ProgramRuntime}
        {pc : ProgramCacheOps} {Lst : Lru ProgramEntryKey Entry}
        {Lhist : Lru Signature TransactionResult} {fs : FeatureSets} {bud : Budgets}
        {tx : TxRuntime} {lt : LookupTables} {sp : SystemProgram}.

(** Code the user installs: inspectors (what they accept) and handlers. *)
Class UserCode : Type := {
  user_accepts : N -> TransactionOrigin -> bool;
  custom_validate : N -> VersionedTransaction -> Svm -> result unit TxValidationError;
  custom_execute :
    N -> VersionedTransaction -> VmSt -> option (result DetachedTx ExecutionError * World * Observed)
}.

Context {uc : UserCode}.

(** ** Diagnostics *)

(** [execution_diagnostics]: one pass over the post-state. *)
Definition execution_diagnostics (v : Svm) (post_accounts : list (Address * AccountSharedData))
    (trace : ExecutionTrace) (failures : list AccountSourceFailure) : ExecutionDiagnostics :=
  let a := accounts (state v) in
  let pre_of (address : Address) := default AccountSharedData_default (get_account a address) in
  let pre_accounts := map (fun p => (p.1, pre_of p.1)) post_accounts in
  mkExecutionDiagnostics
    (map (fun p => lamports (pre_of p.1)) post_accounts)
    (map (fun p => lamports p.2) post_accounts)
    (omap (fun p =>
       if accounts_differ (pre_of p.1) p.2
       then Some (mkAccountDiff p.1 (public_account_from_shared (pre_of p.1))
                    (public_account_from_shared p.2))
       else None) post_accounts)
    failures
    (token_balances pre_accounts a)
    (token_balances post_accounts a)
    trace.

(** [execution_into_detached]. *)
Definition execution_into_detached (v : Svm) (er : ExecutionResult) (logs : list string) :
    DetachedTx :=
  let diagnostics :=
    if v_compute_diagnostics (version v) then
      execution_diagnostics v (er_post_accounts er) (er_execution_trace er)
        (er_account_source_failures er)
    else mkExecutionDiagnostics [] [] [] (er_account_source_failures er) [] []
           (er_execution_trace er) in
  mkDetachedTx
    (mkTransactionMetadata (er_signature er) logs (er_inner_instructions er)
       (er_compute_units_consumed er) (er_return_data er) (er_fee er) diagnostics)
    (er_post_accounts er) (er_tx_result er) (er_included er) (er_fee_payer er)
    (er_fatal_error er) (er_inspector_live er).

(** [default_execute_detached]. *)
Definition default_execute_detached (s : VmSt) (t : VersionedTransaction) :
    option (DetachedTx * World * Observed) :=
  match execute_readonly user_accepts s t with
  | None => None
  | Some (er, w, ob) => Some (execution_into_detached s.1 er (ob_logs ob), w, ob)
  end.

(** ** The registry *)

Definition tag_of (t : VersionedTransaction) : TxTag :=
  match tx_kind t with MsgLegacy => TagLegacy | MsgV0 => TagV0 | MsgV1 => TagV1 end.

Definition handler_validate (h : HandlerRef) (t : VersionedTransaction) (v : Svm) :
    result unit TxValidationError :=
  match h with
  | DefaultExecutionHandler => Ok tt
  | CustomHandler id => custom_validate id t v
  end.

Definition handler_execute (h : HandlerRef) (t : VersionedTransaction) (s : VmSt) :
    option (result DetachedTx ExecutionError * World * Observed) :=
  match h with
  | DefaultExecutionHandler =>
      match default_execute_detached s t with
      | None => None
      | Some (d, w, ob) => Some (Ok d, w, ob)
      end
  | CustomHandler id => custom_execute id t s
  end.

(** [TxRegistry::dispatch]. *)
Definition dispatch (tag : TxTag) (t : VersionedTransaction) (s : VmSt) :
    option (result DetachedTx TxError * World * Observed) :=
  match registry (extensions s.1) !! tag with
  | None => Some (Err (TxUnknownTag tag), s.2, nothing_observed)
  | Some h =>
      match handler_validate h t s.1 with
      | Err e => Some (Err (TxValidation e), s.2, nothing_observed)
      | Ok _ =>
          match handler_execute h t s with
          | None => None
          | Some (r, w, ob) => Some (map_err TxExecution r, w, ob)
          end
      end
  end.

Definition dispatch_detached (s : VmSt) (t : VersionedTransaction) :
    option (result DetachedTx TxError * World * Observed) := dispatch (tag_of t) t s.

Definition first_signature (t : VersionedTransaction) : Signature :=
  default Signature_default (head (tx_signatures t)).

(** [try_transact] and [transact_detached]. *)
Definition try_transact (s : VmSt) (t : VersionedTransaction) :
    option (result DetachedTx HPSVMError * World * Observed) :=
  match dispatch_detached s t with
  | None => None
  | Some (Err e, w, ob) => Some (Err (hpsvm_from_tx e), w, ob)
  | Some (Ok d, w, ob) =>
      match dt_fatal_error d with
      | Some e => Some (Err (hpsvm_from_execution e), w, ob)
      | None => Some (Ok d, w, ob)
      end
  end.

Definition transact_detached (s : VmSt) (t : VersionedTransaction) :
    option (DetachedTx * World * Observed) :=
  match dispatch_detached s t with
  | None => None
  | Some (Ok d, w, ob) => Some (d, w, ob)
  | Some (Err e, w, ob) => Some (for_dispatch_failure e (first_signature t), w, ob)
  end.

(** ** Staging *)

(** [staging_touches_caches]. *)
Definition touches_cache (overlay : Accounts) (p : Address * AccountSharedData) : bool :=
  executable p.2 || is_managed_sysvar_account p.1 ||
  match get_account_ref overlay p.1 with Some pre => executable pre | None => false end.

Definition staging_touches_caches (post_accounts : list (Address * AccountSharedData))
    (overlay : Accounts) : bool := existsb (touches_cache overlay) post_accounts.

(** The change records captured before the post-state is synced. *)
Definition change_records (a : Accounts) (post_accounts : list (Address * AccountSharedData)) :
    list AccountChange :=
  map (fun p => mkAccountChange p.1 (get_account a p.1)
                  (if (lamports p.2 =? 0)%Z then None else Some p.2)) post_accounts.

(** Staging an outcome that carries no fatal error. *)
Definition stage (d : DetachedTx) (s : VmSt) : result ExecutedTx StagedFailure * VmSt :=
  let a := accounts (state s.1) in
  let cp := checkpoint a in
  let cache_dirty := staging_touches_caches (dt_post_accounts d) a in
  let '(r, delta) := detached_into_result_and_delta d (is_enabled (history (state s.1))) in
  let changes := change_records a (scs_post_accounts delta) in
  match on_db (sync_accounts (scs_post_accounts delta)) s with
  | (Err error, s1) =>
      (Err (mkStagedFailure error r),
       (set_accounts (rollback cp (accounts (state s1.1))) s1.1, s1.2))
  | (Ok _, s1) =>
      (Ok (mkExecutedTx cp r (scs_history_entry delta) cache_dirty changes (dt_inspector_live d)),
       s1)
  end.

(** [transact_core]. *)
Definition transact_core (s : VmSt) (t : VersionedTransaction) :
    option (result ExecutedTx StagedFailure * VmSt * Observed) :=
  let s0 : VmSt := (svm_sync_jit_policy s.1, s.2) in
  match dispatch_detached s0 t with
  | None => None
  | Some (Err e, w, ob) =>
      let d := for_dispatch_failure e (first_signature t) in
      Some (Err (mkStagedFailure (hpsvm_from_tx e) (result_of_detached d)), (s0.1, w), ob)
  | Some (Ok d, w, ob) =>
      match dt_fatal_error d with
      | Some e =>
          Some (Err (mkStagedFailure (hpsvm_from_execution e) (result_of_detached d)),
                (s0.1, w), ob)
      | None => let '(r, s1) := stage d (s0.1, w) in Some (r, s1, ob)
      end
  end.

(** [transact]: a failure keeps only its error. *)
Definition transact (s : VmSt) (t : VersionedTransaction) :
    option (result ExecutedTx HPSVMError * VmSt * Observed) :=
  match transact_core s t with
  | None => None
  | Some (r, s1, ob) => Some (map_err sf_error r, s1, ob)
  end.

(** ** Resolving a staged transaction *)

Definition record_history (x : ExecutedTx) (s : VmSt) : VmSt :=
  match xt_history_entry x with
  | Some (signature, entry) =>
      (set_history (add_new_transaction (history (state s.1)) signature entry) s.1, s.2)
  | None => s
  end.

Definition change_events (x : ExecutedTx) : list InspectorEvent :=
  if xt_inspector_live x then map EvAccountChange (xt_changes x) else [].

Definition commit (x : ExecutedTx) (s : VmSt) : TransactionResult * VmSt * list InspectorEvent :=
  (xt_result x, record_history x s, change_events x).

(** The rollback both [discard] and a failed [commit_with] run; the rebuild is
    followed by an [expect]. *)
Definition unstage (x : ExecutedTx) (s : VmSt) : option VmSt :=
  let s1 : VmSt := (set_accounts (rollback (xt_checkpoint x) (accounts (state s.1))) s.1, s.2) in
  if xt_cache_dirty x then
    let s2 := with_db (rebuild_sysvar_cache (db_of s1)) s1 in
    let s3 : VmSt := (svm_sync_jit_policy s2.1, s2.2) in
    match on_db rebuild_program_cache s3 with
    | (Ok _, s4) => Some s4
    | (Err _, _) => None
    end
  else Some s1.

Definition discard (x : ExecutedTx) (s : VmSt) : option (TransactionResult * VmSt) :=
  match unstage x s with None => None | Some s' => Some (xt_result x, s') end.

Definition commit_with {S E} (sink : StateChangeSink S E) (x : ExecutedTx) (s : VmSt) (k : S) :
    option (result TransactionResult E * VmSt * S * list InspectorEvent) :=
  match sfor (xt_changes x) sink k with
  | (Err error, k') =>
      match unstage x s with
      | None => None
      | Some s' => Some (Err error, s', k', [])
      end
  | (Ok _, k') => Some (Ok (xt_result x), record_history x s, k', change_events x)
  end.

(** [send_transaction]. *)
Definition send_transaction (s : VmSt) (t : VersionedTransaction) :
    option (TransactionResult * VmSt * list InspectorEvent) :=
  match transact_core s t with
  | None => None
  | Some (Ok x, s1, ob) =>
      let '(r, s2, events) := commit x s1 in Some (r, s2, ob_events ob ++ events)
  | Some (Err f, s1, ob) => Some (sf_result f, s1, ob_events ob)
  end.

(** [simulate_transaction]. *)
Definition simulate_transaction (s : VmSt) (t : VersionedTransaction) :
    option (result SimulatedTransactionInfo FailedTransactionMetadata * World * Observed) :=
  match transact_detached s t with
  | None => None
  | Some (d, w, ob) =>
      Some (match dt_status d with
            | Err e => Err (mkFailedTransactionMetadata e (dt_meta d))
            | Ok _ => Ok (mkSimulatedTransactionInfo (dt_meta d) (dt_post_accounts d))
            end, w, ob)
  end.

(** [apply_commit_delta]. *)
Definition apply_commit_delta (c : StateChangeSet) : M VmSt HPSVMError unit :=
  do! on_db (sync_accounts (scs_post_accounts c)) in
  smodify (fun s =>
    match scs_history_entry c with
    | Some (signature, entry) =>
        (set_history (add_new_transaction (history (state s.1)) signature entry) s.1, s.2)
    | None => s
    end).

End Staging.
