(* ===== verification/StagingFacts.v ===== *)
(** * Facts about dispatch, staging and commit

    Discarding a staged transaction restores the VM, a failed one stages nothing,
    the sink of [commit_with] decides between commit and discard and sees the
    committed changes, a committed signature is a duplicate from then on, and the
    registry routes every envelope.  Two results state the limits: when the
    rebuild behind [discard] panics, and that a clone's [set_account] reaches the
    original's program cache. *)

From Stdlib Require Import ZArith Lia Strings.Byte.
From stdpp Require Import base tactics option list sets gmap sorting strings.
From S2P Require Import Prelude.
From S2P Require Import Types.
From S2P Require Import AccountSource.
From S2P Require Import Errors.
From S2P Require Import Lru.
From S2P Require Import History.
From S2P Require Import Runtime.
From S2P Require Import AccountsDb.
From S2P Require Import Overlay.
From S2P Require Import OverlayReads.
From S2P Require Import CacheCoherence.
From S2P Require Import FeePayer.
From S2P Require Import InstructionTrace.
From S2P Require Import Version.
From S2P Require Import TxRuntime.
From S2P Require Import Svm.
From S2P Require Import Execution.
From S2P Require Import Staging.

Section StagingFacts.
Context {tgt : Target} {ids : SdkIds} {sv : SysvarRuntime} {pr : ProgramRuntime}
        {pc : ProgramCacheOps} {Lst : Lru ProgramEntryKey Entry}
        {Lhist : Lru Signature TransactionResult} {fs : FeatureSets} {bud : Budgets}
        {tx : TxRuntime} {lt : LookupTables} {sp : SystemProgram} {uc : UserCode}.

(** The database of a VM. *)
Notation db v := (accounts (state v)).

(** ** Staging a clean post-state *)

(** An account whose write cannot concern the derived caches. *)
Definition clean (a : Accounts) (p : Address * AccountSharedData) : Prop :=
  executable p.2 = false /\ is_managed_sysvar_account p.1 = false /\
  forall pre, get_account_ref a p.1 = Some pre -> executable pre = false.

Lemma touches_cache_clean a l :
  staging_touches_caches l a = false <-> Forall (clean a) l.
Proof.
  unfold staging_touches_caches. induction l as [|p l IH]; simpl; [by split|].
  rewrite orb_false_iff, IH, Forall_cons. unfold touches_cache, clean.
  rewrite !orb_false_iff. destruct (get_account_ref a p.1); naive_solver.
Qed.

Lemma not_executable_not_program k acc :
  executable acc = false -> is_cached_program_account k acc = false.
Proof. unfold is_cached_program_account. by intros ->. Qed.

Lemma add_account_clean k acc a w :
  clean a (k, acc) ->
  add_account k acc (a, w) = (Ok tt, (write_overlay k acc (record_journal k a), w)).
Proof.
  intros (He & Hs & Hpre). unfold add_account, sbind, add_account_prepare. simpl in *.
  rewrite Hs, (not_executable_not_program k acc He), andb_false_r. simpl.
  unfold get_account_ref in Hpre. destruct (inner (cache a) !! k) as [pre|]; [|done].
  by rewrite (not_executable_not_program k pre (Hpre _ eq_refl)).
Qed.

Lemma clean_write a k acc p :
  clean a (k, acc) -> clean a p -> clean (write_overlay k acc (record_journal k a)) p.
Proof.
  intros (He & _ & _) (Hp1 & Hp2 & Hp3). split; [done|]. split; [done|].
  intros pre. unfold get_account_ref. rewrite write_overlay_inner. unfold written.
  case_decide; [|apply Hp3]. case_match; [done|]. intros [= <-]. done.
Qed.

(** Only the overlay and the journal changed. *)
Definition same_derived (a a' : Accounts) : Prop :=
  sysvar_cache a' = sysvar_cache a /\ frame a a'.

Lemma sync_clean_loop l a w :
  Forall (clean a) l ->
  exists a', sfor l (fun p => add_account p.1 p.2) (a, w) = (Ok tt, (a', w)) /\ same_derived a a'.
Proof.
  revert a. induction l as [|[k acc] l IH]; intros a Hc; simpl.
  { exists a. done. }
  apply Forall_cons in Hc as [Hk Hc]. unfold sbind. rewrite add_account_clean by done.
  destruct (IH (write_overlay k acc (record_journal k a))) as (a' & Ha' & Hs & Hf).
  { eapply Forall_impl; [exact Hc|]. intros p Hp. by apply clean_write. }
  exists a'. split; [done|].
  assert (same_derived a (write_overlay k acc (record_journal k a))) as [Hs1 Hf1].
  { unfold write_overlay. by case_match. }
  split; [congruence|]. unfold frame in *. intuition congruence.
Qed.

Lemma sync_clean l a w :
  Forall (clean a) l ->
  exists a', sync_accounts l (a, w) = (Ok tt, (a', w)) /\ same_derived a a'.
Proof.
  intros Hc. apply sync_clean_loop. by rewrite partition_perm.
Qed.

(** ** Staging and unstaging *)

Lemma set_accounts_id v : set_accounts (db v) v = v.
Proof. by destruct v as [[? ?] ? ? ? ? ?]. Qed.

Lemma with_db_id s : with_db (db_of s) s = s.
Proof. destruct s as [v w]. unfold with_db, db_of. simpl. by rewrite set_accounts_id. Qed.

Lemma set_accounts_twice a1 a2 v : set_accounts a2 (set_accounts a1 v) = set_accounts a2 v.
Proof. done. Qed.

Lemma accounts_ext a a' :
  cache a' = cache a -> journal a' = journal a -> same_derived a a' -> a' = a.
Proof. destruct a, a'. unfold same_derived, frame. simpl. intuition congruence. Qed.

(** What [stage] leaves, in terms of the database. *)
Lemma stage_ok d s x s1 :
  stage d s = (Ok x, s1) ->
  xt_checkpoint x = checkpoint (db s.1) /\ xt_result x = result_of_detached d /\
  xt_cache_dirty x = staging_touches_caches (dt_post_accounts d) (db s.1) /\
  exists a w, s1 = (set_accounts a s.1, w) /\ extends (db s.1) a /\
    sync_accounts (if dt_included d then dt_post_accounts d else []) (db_of s) = (Ok tt, (a, w)) /\
    xt_changes x = change_records (db s.1) (if dt_included d then dt_post_accounts d else []).
Proof.
  unfold stage, detached_into_result_and_delta, on_db.
  set (post := if dt_included d then dt_post_accounts d else []).
  assert (Hpost : scs_post_accounts (if dt_included d then mkStateChangeSet (dt_post_accounts d)
     (if is_enabled (history (state s.1)) then Some (tm_signature (dt_meta d), result_of_detached d)
      else None) else StateChangeSet_new) = post) by (subst post; by destruct (dt_included d)).
  rewrite Hpost. pose proof (sync_accounts_extends post (db_of s)) as Hext.
  destruct (sync_accounts post (db_of s)) as [[[]|e] [a w]]; [|done].
  intros [= <- <-]. simpl in *. split_and!; try done. exists a, w. done.
Qed.

Lemma rollback_same_derived cp a : same_derived a (rollback cp a).
Proof. rewrite rollback_spec. done. Qed.

Lemma unstage_db x s s' :
  unstage x s = Some s' ->
  cache (db s'.1) = cache (rollback (xt_checkpoint x) (db s.1)) /\
  journal (db s'.1) = journal (rollback (xt_checkpoint x) (db s.1)) /\
  history (state s'.1) = history (state s.1).
Proof.
  unfold unstage. destruct (xt_cache_dirty x); [|by intros [= <-]].
  set (s1 := (set_accounts _ s.1, s.2)).
  set (s2 := with_db (rebuild_sysvar_cache (db_of s1)) s1).
  set (s3 := (svm_sync_jit_policy s2.1, s2.2)).
  assert (H3 : cache (db s3.1) = cache (db s1.1) /\ journal (db s3.1) = journal (db s1.1) /\
               history (state s3.1) = history (state s1.1)).
  { unfold s3, svm_sync_jit_policy. cbn [fst snd]. by case_bool_decide. }
  unfold on_db. pose proof (rebuild_program_cache_accounts (db_of s3)) as Hr.
  destruct (rebuild_program_cache (db_of s3)) as [[u|e] d] eqn:Hd; [|done].
  intros [= <-]. simpl in Hr |- *. rewrite Hr. exact H3.
Qed.

Lemma sync_policy_db v :
  cache (db (svm_sync_jit_policy v)) = cache (db v) /\
  journal (db (svm_sync_jit_policy v)) = journal (db v) /\
  history (state (svm_sync_jit_policy v)) = history (state v).
Proof. unfold svm_sync_jit_policy. by case_bool_decide. Qed.

(** Unstaging what was just staged: the overlay, the journal and the history are those of
    before; and the whole VM is, without a panic, when no derived cache could be touched. *)
Lemma stage_unstage d s x s1 s2 :
  stage d s = (Ok x, s1) -> unstage x s1 = Some s2 ->
  cache (db s2.1) = cache (db s.1) /\ journal (db s2.1) = journal (db s.1) /\
  history (state s2.1) = history (state s.1).
Proof.
  intros Hst Hu. apply stage_ok in Hst as (Hcp & _ & _ & a & w & -> & Hext & _).
  destruct (extends_rollback (db s.1) a Hext) as [Hrc Hrj].
  apply unstage_db in Hu as (Hc & Hj & Hh). rewrite Hcp in Hc, Hj. by rewrite Hc, Hj, Hh.
Qed.

Lemma stage_unstage_clean d s x s1 :
  stage d s = (Ok x, s1) -> xt_cache_dirty x = false -> unstage x s1 = Some s.
Proof.
  intros Hst Hcl. apply stage_ok in Hst as (Hcp & _ & Hdirty & a & w & -> & Hext & Hsync & _).
  destruct (extends_rollback (db s.1) a Hext) as [Hrc Hrj].
  unfold unstage. rewrite Hcl, Hcp. cbn [fst snd]. rewrite set_accounts_twice.
  rewrite Hcl in Hdirty. symmetry in Hdirty. apply touches_cache_clean in Hdirty.
  destruct (sync_clean (if dt_included d then dt_post_accounts d else []) (db s.1) s.2)
    as (a' & Ha' & Hsd); [by destruct (dt_included d)|].
  unfold db_of in Hsync. rewrite Ha' in Hsync. injection Hsync as -> <-. change (db (set_accounts a s.1)) with a.
  rewrite (accounts_ext (db s.1) (rollback (checkpoint (db s.1)) a) Hrc Hrj);
    [rewrite set_accounts_id; by destruct s|].
  pose proof (rollback_same_derived (checkpoint (db s.1)) a) as [Hs2 Hf2].
  destruct Hsd as [Hs1 Hf1]. split; [congruence|]. unfold frame in *. intuition congruence.
Qed.

(** C2: discard restores the VM.  After any staged transaction, [discard]
    returns the execution's result and leaves the overlay, the journal and the
    history as they were before [transact]; and when staging could not touch
    the derived caches it never panics and the whole VM value is the one before,
    up to the synced tiering policy, with the shared world exactly as the
    readonly execution left it. *)
Theorem discard_restores (s s1 : VmSt) (t : VersionedTransaction) (x : ExecutedTx) (ob : Observed) :
  transact_core s t = Some (Ok x, s1, ob) ->
  (forall r s2, discard x s1 = Some (r, s2) ->
     r = xt_result x /\ cache (db s2.1) = cache (db s.1) /\ journal (db s2.1) = journal (db s.1) /\
     history (state s2.1) = history (state s.1)) /\
  (xt_cache_dirty x = false ->
   exists d w, dispatch_detached (svm_sync_jit_policy s.1, s.2) t = Some (Ok d, w, ob) /\
     discard x s1 = Some (xt_result x, (svm_sync_jit_policy s.1, w))).
Proof.
  unfold transact_core. cbn zeta. cbn [fst snd]. set (v0 := svm_sync_jit_policy s.1).
  destruct (dispatch_detached (v0, s.2) t) as [[[[d|e] w] ob0]|] eqn:Hd; try done.
  destruct (dt_fatal_error d); [done|].
  destruct (stage d (v0, w)) as [rx s1'] eqn:Hst. intros Heq. simplify_eq.
  destruct (sync_policy_db s.1) as (Hc0 & Hj0 & Hh0). fold v0 in Hc0, Hj0, Hh0. split.
  - intros r s2. unfold discard. destruct (unstage x s1) as [s2'|] eqn:Hu; [|done].
    intros [= <- <-]. destruct (stage_unstage _ _ _ _ _ Hst Hu) as (Hc & Hj & Hh). cbn in Hc, Hj, Hh.
    split_and!; congruence.
  - intros Hcl. exists d, w. split; [done|]. unfold discard.
    by rewrite (stage_unstage_clean _ _ _ _ Hst Hcl).
Qed.

(** A failure stages nothing.  When [transact] fails (no handler, a handler's
    rejection, a fatal error of the execution, a rejected post-state), the
    overlay, the journal and the history are those of before the call. *)
Theorem transact_failure_stages_nothing (s s1 : VmSt) (t : VersionedTransaction)
    (f : StagedFailure) (ob : Observed) :
  transact_core s t = Some (Err f, s1, ob) ->
  cache (db s1.1) = cache (db s.1) /\ journal (db s1.1) = journal (db s.1) /\
  history (state s1.1) = history (state s.1).
Proof.
  destruct (sync_policy_db s.1) as (Hc0 & Hj0 & Hh0).
  unfold transact_core. cbn zeta. cbn [fst snd]. set (v0 := svm_sync_jit_policy s.1) in *.
  destruct (dispatch_detached (v0, s.2) t) as [[[[d|e] w] ob0]|]; [| |done].
  2: { intros Heq. by simplify_eq. }
  destruct (dt_fatal_error d); [intros Heq; by simplify_eq|].
  unfold stage. destruct (detached_into_result_and_delta d _) as [r delta].
  unfold on_db. pose proof (sync_accounts_extends (scs_post_accounts delta) (db_of (v0, w))) as Hext.
  destruct (sync_accounts _ _) as [[u|e] [a w']]; [done|].
  intros Heq. simplify_eq. cbn [fst snd] in *.
  destruct (extends_rollback (db v0) a Hext) as [Hrc Hrj].
  split_and!; [by rewrite <- Hc0|by rewrite <- Hj0|exact Hh0].
Qed.

(** ** Commit *)

Lemma change_records_reads l a a' j acc :
  NoDup l.*1 -> (j, acc) ∈ l ->
  (forall k, try_get_account a' k =
     match (list_to_map l : gmap Address AccountSharedData) !! k with
     | Some acc => Ok (written acc)
     | None => try_get_account a k
     end) ->
  try_get_account a' j = Ok (written acc).
Proof.
  intros Hnd Hin Hr. rewrite Hr. by rewrite (elem_of_list_to_map_1 l j acc Hnd Hin).
Qed.

(** A sink together with what it was given so far. *)
Definition recording {S E} (sink : StateChangeSink S E) : StateChangeSink (S * list AccountChange) E :=
  fun c s => let '(r, k) := sink c s.1 in (r, (k, s.2 ++ [c])).

Lemma sfor_recording {S E} (sink : StateChangeSink S E) l k log r k' log' :
  sfor l (recording sink) (k, log) = (r, (k', log')) ->
  match r with
  | Ok _ => log' = log ++ l
  | Err e => exists before c after k1, l = before ++ c :: after /\ log' = log ++ before ++ [c] /\
      sfor before sink k = (Ok tt, k1) /\ sink c k1 = (Err e, k')
  end.
Proof.
  revert k log. induction l as [|c l IH]; intros k log; cbn [sfor].
  { intros [= <- <- <-]. by rewrite app_nil_r. }
  unfold sbind, recording at 1. cbn [fst snd].
  destruct (sink c k) as [[[]|e] k1] eqn:Hc.
  - intros H. apply IH in H. destruct r as [u|e].
    + by rewrite H, <- app_assoc.
    + destruct H as (before & x & after & k2 & -> & -> & Hb & Hx).
      exists (c :: before), x, after, k2. split_and!; [done|by rewrite <- !app_assoc| |done].
      cbn. unfold sbind. by rewrite Hc.
  - intros [= <- <- <-]. exists [], c, l, k. by split_and!.
Qed.

(** C14: the sink decides, and sees the truth.  A sink is given the changes of the staged
    accounts in staging order, each once, up to the first it refuses.  If it accepts them
    all, [commit_with] is [commit]: the staged database stays, the result and the hooks
    are those of the commit.  If it refuses one, its error is returned, no hook fires,
    and the overlay, the tombstones, the journal and the history are those of before the
    staging; when staging could not touch the derived caches the whole VM is, and
    [commit_with] cannot panic.  Every address of the post-state has its record.  Its
    before is what the VM read there before staging: the account of the overlay, nothing
    for a removed address, and for an address the overlay does not know the account of
    the source (which the documentation of the record leaves out).  When the addresses
    are distinct, its after is what the staged database reads there. *)
Theorem commit_with_exact {S E} (sink : StateChangeSink S E) (d : DetachedTx) (s s1 : VmSt)
    (x : ExecutedTx) (k : S) :
  stage d s = (Ok x, s1) ->
  (xt_cache_dirty x = false -> is_Some (commit_with (recording sink) x s1 (k, []))) /\
  (forall res s2 k' log events,
     commit_with (recording sink) x s1 (k, []) = Some (res, s2, (k', log), events) ->
     match res with
     | Ok r => r = result_of_detached d /\ log = xt_changes x /\ commit x s1 = (r, s2, events) /\
         db s2.1 = db s1.1 /\ s2.2 = s1.2
     | Err e => events = [] /\
         (exists before c after k1, xt_changes x = before ++ c :: after /\ log = before ++ [c] /\
            sfor before sink k = (Ok tt, k1) /\ sink c k1 = (Err e, k')) /\
         cache (db s2.1) = cache (db s.1) /\ journal (db s2.1) = journal (db s.1) /\
         history (state s2.1) = history (state s.1) /\ (xt_cache_dirty x = false -> s2 = s)
     end) /\
  map change_address (xt_changes x) = (if dt_included d then dt_post_accounts d else []).*1 /\
  (forall c, c ∈ xt_changes x ->
     change_before c =
       match inner (cache (db s.1)) !! change_address c with
       | Some account => Some account
       | None =>
           if bool_decide (change_address c ∈ removed (cache (db s.1))) then None
           else match source_get_account (source (db s.1)) (change_address c) with
                | Ok account => account
                | Err _ => None
                end
       end) /\
  (NoDup (dt_post_accounts d).*1 -> forall c, c ∈ xt_changes x ->
     try_get_account (db s1.1) (change_address c) = Ok (change_after c)).
Proof.
  intros Hst. split_and!.
  - intros Hcl. unfold commit_with. destruct (sfor _ _ _) as [[u|e] k']; [by eexists|].
    rewrite (stage_unstage_clean _ _ _ _ Hst Hcl). by eexists.
  - intros res s2 k' log events. unfold commit_with.
    destruct (sfor (xt_changes x) (recording sink) (k, [])) as [r [k1 log1]] eqn:Hf.
    apply sfor_recording in Hf. destruct r as [u|e]; cbn [app] in Hf.
    + intros [= <- <- <- <- <-]. pose proof (proj1 (proj2 (stage_ok _ _ _ _ Hst))) as Hr.
      split_and!; try done; unfold record_history; by case_match; [case_match|].
    + destruct (unstage x s1) as [s2'|] eqn:Hu; [|done]. intros [= <- <- <- <- <-].
      destruct (stage_unstage _ _ _ _ _ Hst Hu) as (Hc & Hj & Hh). split_and!; try done.
      intros Hcl. rewrite (stage_unstage_clean _ _ _ _ Hst Hcl) in Hu. by injection Hu.
  - apply stage_ok in Hst as (_ & _ & _ & a & w & _ & _ & _ & ->).
    unfold change_records. by rewrite map_map.
  - apply stage_ok in Hst as (_ & _ & _ & a & w & _ & _ & _ & ->). unfold change_records.
    intros c ([j acc] & -> & _)%list_elem_of_fmap. cbn.
    unfold get_account, try_get_account, get_account_ref.
    destruct (inner _ !! j); [done|]. by case_bool_decide.
  - intros Hnd c Hc. apply stage_ok in Hst as (_ & _ & _ & a & w & -> & _ & Hsync & Hch).
    rewrite Hch in Hc. set (post := if dt_included d then dt_post_accounts d else []) in *.
    assert (Hnd' : NoDup post.*1) by (subst post; case_match; [done|constructor]).
    unfold change_records in Hc. apply list_elem_of_fmap in Hc as ([j acc] & -> & Hin). simpl.
    change (if (lamports acc =? 0)%Z then None else Some acc) with (written acc).
    pose proof (sync_distinct_reads post (db_of s) Hnd') as Hr. rewrite Hsync in Hr.
    by apply (change_records_reads post (db s.1) a j acc Hnd' Hin (Hr eq_refl)).
Qed.

(** What is not included commits nothing: staging it, and then committing
    it, leaves the VM and the world exactly as they were, and no hook fires. *)
Theorem not_included_commits_nothing (d : DetachedTx) (s : VmSt) :
  dt_included d = false ->
  exists x, stage d s = (Ok x, s) /\ commit x s = (result_of_detached d, s, []) /\
            xt_changes x = [].
Proof.
  intros Hi. unfold stage, detached_into_result_and_delta, on_db. rewrite Hi. cbn [scs_post_accounts].
  change (scs_post_accounts StateChangeSet_new) with (@nil (Address * AccountSharedData)).
  change (sync_accounts [] (db_of s)) with (@Ok unit HPSVMError tt, db_of s).
  cbn beta iota. rewrite with_db_id. eexists. split; [reflexivity|]. split; [|done].
  unfold commit, change_events, record_history. simpl. by case_match.
Qed.

(** ** History *)

(** A committed transaction is a duplicate from then on.  Once an included
    outcome is staged and committed on a VM that keeps a history, a sanitized
    transaction with that signature is rejected as already processed whenever
    signatures are verified, and its result can be looked up. *)
Theorem committed_signature_is_duplicate {Hl : LruLaws Signature TransactionResult}
    (d : DetachedTx) (s s1 : VmSt) (x : ExecutedTx) (stx : SanitizedTransaction) :
  history_wf (history (state s.1)) -> is_enabled (history (state s.1)) = true ->
  dt_included d = true -> stage d s = (Ok x, s1) ->
  stx_signature stx = tm_signature (dt_meta d) ->
  let s2 := (commit x s1).1.2 in
  history_get_transaction (history (state s2.1)) (stx_signature stx) = Some (result_of_detached d) /\
  (v_sigverify (version s2.1) = true ->
   maybe_history_check s2.1 stx = Err (rejected AlreadyProcessed)).
Proof.
  intros (Hwf & _ & Hen) Hon Hi Hst Hsig.
  assert (Hx : xt_history_entry x = Some (tm_signature (dt_meta d), result_of_detached d)).
  { revert Hst. unfold stage, detached_into_result_and_delta. rewrite Hi, Hon.
    destruct (on_db _ s) as [[u|e] s']; [|done]. by intros [= <- _]. }
  apply stage_ok in Hst as (_ & _ & _ & a & w & -> & _).
  unfold is_enabled in Hon. apply negb_true_iff in Hon.
  unfold commit, record_history. rewrite Hx. simpl. rewrite <- Hsig.
  unfold history_get_transaction, maybe_history_check, check_transaction, add_new_transaction. simpl.
  rewrite Hon. simpl. rewrite Hon.
  assert (Hcap : (1 <= lru_cap (entries (history (state s.1))))%Z) by apply Hwf.
  rewrite lru_peek_put_eq by done. split; [done|]. by intros ->.
Qed.

(** ** The registry *)

#[local] Instance tag_le_total : Total tag_le.
Proof. intros t1 t2. unfold tag_le. lia. Qed.

#[local] Instance tag_le_trans : Transitive tag_le.
Proof. intros t1 t2 t3. unfold tag_le. lia. Qed.

(** The registry routes every envelope.  The default registry has a handler
    for the tag of every envelope; a dispatch fails for want of a handler exactly
    when the tag is not registered; a handler that rejects the envelope is not
    run; registering a handler affects its tag only; and [tags] lists exactly
    the registered tags, once each, in rank order. *)
Theorem registry_routes (t : VersionedTransaction) (s : VmSt) (tag : TxTag) (h : HandlerRef)
    (r : gmap TxTag HandlerRef) :
  registry_with_defaults !! tag_of t = Some DefaultExecutionHandler /\
  (forall tag', (exists w ob, dispatch tag t s = Some (Err (TxUnknownTag tag'), w, ob)) <->
     registry (extensions s.1) !! tag = None /\ tag' = tag) /\
  (forall h' e, registry (extensions s.1) !! tag = Some h' -> handler_validate h' t s.1 = Err e ->
   dispatch tag t s = Some (Err (TxValidation e), s.2, nothing_observed)) /\
  (forall tag', registry (extensions (register_tx_handler tag h s.1)) !! tag' =
     if decide (tag' = tag) then Some h else registry (extensions s.1) !! tag') /\
  Sorted tag_le (registry_tags r) /\ NoDup (registry_tags r) /\
  (forall tag', tag' ∈ registry_tags r <-> is_Some (r !! tag')).
Proof.
  split_and!.
  - unfold tag_of. by destruct (tx_kind t).
  - intros tag'. unfold dispatch. destruct (registry (extensions s.1) !! tag) as [h'|].
    + split; [|naive_solver]. intros (w & ob & H). exfalso. revert H.
      destruct (handler_validate h' t s.1); [|done].
      destruct (handler_execute h' t s) as [[[[d|e] w'] ob']|]; done.
    + split; [intros (w & ob & [= -> _ _]); done|]. intros [_ ->]. eauto.
  - intros h' e Hh Hv. unfold dispatch. by rewrite Hh, Hv.
  - intros tag'. simpl. destruct (decide (tag' = tag)) as [->|Hne].
    + by rewrite lookup_insert_eq.
    + by rewrite lookup_insert_ne.
  - apply Sorted_merge_sort, _.
  - unfold registry_tags. rewrite merge_sort_Permutation. apply NoDup_fst_map_to_list.
  - intros tag'. unfold registry_tags. rewrite merge_sort_Permutation, list_elem_of_fmap.
    split.
    + intros ([k v] & -> & Hin). apply elem_of_map_to_list in Hin. by eexists.
    + intros [v Hv]. exists (tag', v). split; [done|]. by apply elem_of_map_to_list.
Qed.

(** ** Limits *)

Lemma load_program_unresolved a w acc e :
  resolve_elf a acc = Err e -> exists e', (load_program acc (a, w)).1 = Err e'.
Proof. intros H. unfold load_program. rewrite H. case_match; eauto. Qed.

Lemma load_all_unresolved l c a w k acc e :
  (k, acc) ∈ l -> resolve_elf a acc = Err e -> exists e', (load_all l c (a, w)).1 = Err e'.
Proof.
  intros Hin Hres. revert c w. induction l as [|[k1 acc1] l IH]; intros c w; [set_solver|].
  simpl. unfold sbind. apply elem_of_cons in Hin as [Heq|Hin].
  - simplify_eq. destruct (load_program_unresolved a w acc1 e Hres) as [e' He].
    destruct (load_program acc1 (a, w)) as [[x|e1] s1]; simpl in *; [done|eauto].
  - pose proof (load_program_accounts acc1 (a, w)) as Ha.
    destruct (load_program acc1 (a, w)) as [[x|e1] [a1 w1]]; simpl in *; [|eauto].
    subst a1. by apply IH.
Qed.

Lemma rebuild_unresolved a w k acc e :
  inner (cache a) !! k = Some acc -> is_cached_program_account k acc = true ->
  resolve_elf a acc = Err e -> exists e', (rebuild_program_cache (a, w)).1 = Err e'.
Proof.
  intros Hin Hp Hres. unfold rebuild_program_cache, sbind. cbn [fst snd].
  destruct (load_all_unresolved (program_accounts a)
    (replenish_builtins a (pc_new (clock_slot (default Clock_default
       (sc_get_clock (sysvar_cache a)))))) a w k acc e) as [e' He'].
  - unfold program_accounts. apply list_elem_of_filter. split; [done|].
    by apply elem_of_map_to_list.
  - done.
  - destruct (load_all _ _ (a, w)) as [[c|e''] s4]; simpl in He'; [done|eauto].
Qed.

(** When the rebuild behind [discard] panics.  If the overlay a staged
    transaction is rolled back to holds a program account whose bytes cannot be
    resolved (as an unchecked write of a foreign program account leaves it), then
    resolving any transaction that may have touched the derived caches by
    [discard], or by [commit_with] under a failing sink, panics. *)
Theorem discard_panics_on_unloadable_program {S E} (sink : StateChangeSink S E) (x : ExecutedTx)
    (s : VmSt) (key : Address) (acc : AccountSharedData) (e : InstructionError) (k k' : S) (err : E) :
  let a := rollback (xt_checkpoint x) (db s.1) in
  xt_cache_dirty x = true -> inner (cache a) !! key = Some acc ->
  is_cached_program_account key acc = true -> resolve_elf a acc = Err e ->
  discard x s = None /\
  (sfor (xt_changes x) sink k = (Err err, k') -> commit_with sink x s k = None).
Proof.
  intros a Hd Hin Hprog Hres.
  assert (Hu : unstage x s = None).
  { unfold unstage. rewrite Hd. fold a.
    set (s1 := (set_accounts a s.1, s.2)).
    set (s2 := with_db (rebuild_sysvar_cache (db_of s1)) s1).
    set (s3 := (svm_sync_jit_policy s2.1, s2.2)).
    assert (Hc3 : cache (db s3.1) = cache a /\ source (db s3.1) = source a).
    { unfold s3, svm_sync_jit_policy. cbn [fst snd]. by case_bool_decide. }
    destruct Hc3 as [Hc3 Hs3].
    assert (Hres3 : resolve_elf (db s3.1) acc = Err e).
    { rewrite <- Hres. unfold resolve_elf, get_account, try_get_account, get_account_ref.
      by rewrite Hc3, Hs3. }
    destruct (rebuild_unresolved (db s3.1) s3.2 key acc e) as [e' He']; [by rewrite Hc3|exact Hprog|exact Hres3|].
    unfold on_db. change (db_of s3) with (db s3.1, s3.2).
    by destruct (rebuild_program_cache (db s3.1, s3.2)) as [[u|e''] s4]; simpl in He'. }
  unfold discard, commit_with. rewrite Hu. split; [done|]. by intros ->.
Qed.

(** A successful write of a loadable program replenishes the shared cache. *)
Lemma add_account_program k acc a w :
  is_managed_sysvar_account k = false -> lamports acc <> 0%Z ->
  is_cached_program_account k acc = true -> (add_account k acc (a, w)).1 = Ok tt ->
  exists e, (load_program acc (a, w)).1 = Ok e /\
    cache_at (add_account k acc (a, w)).2.2 (programs_cache a) =
    pc_replenish k e (cache_at w (programs_cache a)).
Proof.
  intros Hk Hl Hp. unfold add_account, sbind, add_account_prepare. rewrite Hk, Hp.
  rewrite (proj2 (Z.eqb_neq _ _) Hl). cbn [negb andb].
  pose proof (load_program_accounts acc (a, w)) as Ha.
  pose proof (load_program_committed acc (a, w)) as Hc.
  destruct (load_program acc (a, w)) as [[e|e] [a1 w1]]; cbn beta iota; cbn [fst snd] in *; [|done].
  intros _. exists e. split; [done|]. subst a1.
  unfold write_overlay. rewrite (proj2 (Z.eqb_neq _ _) Hl).
  change (programs_cache (put_inner _ _ _)) with (programs_cache a).
  rewrite cache_at_update. f_equal. exact Hc.
Qed.

(** A clone is not isolated.  [Clone] copies the overlay but shares the
    program cache, so writing a program account into a clone (as
    [process_instruction_case] and the [simulate_*_with_accounts] entry points do
    with their explicit accounts) leaves the original's overlay as it was and
    its committed program cache with an entry for an account it does not have. *)
Theorem clone_shares_program_cache {pcl : ProgramCacheLaws} (v : Svm) (w : World) (k : Address)
    (acc : AccountSharedData) (s' : VmSt) :
  is_managed_sysvar_account k = false -> lamports acc <> 0%Z ->
  is_cached_program_account k acc = true ->
  set_account k acc (svm_clone v, w) = (Ok tt, s') ->
  is_Some (pc_entries (committed (db v, s'.2)) !! k) /\
  (forall j, j <> k ->
     pc_entries (committed (db v, s'.2)) !! j = pc_entries (committed (db v, w)) !! j).
Proof.
  intros Hk Hl Hp. unfold set_account, sbind, smodify. cbn [fst snd].
  set (v1 := svm_sync_jit_policy (svm_clone v)).
  assert (Hh : programs_cache (db v1) = programs_cache (db v)).
  { unfold v1, svm_sync_jit_policy. by case_bool_decide. }
  unfold on_db. change (db_of (v1, w)) with (db v1, w).
  pose proof (add_account_program k acc (db v1) w Hk Hl Hp) as Hadd.
  destruct (add_account k acc (db v1, w)) as [[[]|e] [a1 w1]]; [|done].
  intros [= <-]. destruct (Hadd eq_refl) as (e & Hw & Hs). cbn [snd with_db].
  unfold committed. cbn [fst snd] in *. rewrite <- Hh, Hs. split.
  - rewrite pc_replenish_entries, lookup_insert_eq. done.
  - intros j Hj. rewrite pc_replenish_entries. by rewrite lookup_insert_ne.
Qed.

End StagingFacts.
