(* ===== verification/Batch.v ===== *)
(** * Transaction batches, [batch.rs]

    Lock sets, the best-fit planner, the read set that is prewarmed and the
    execution of a plan stage by stage: a stage with one transaction runs on the
    live VM, a larger one on worker VMs whose deltas are merged in index order.
    [worker] names the program-cache handle of the worker VM that runs a
    transaction; transactions that share a worker run on the same clone. *)

From Stdlib Require Import ZArith Lia Strings.Byte Permutation.
From stdpp Require Import base tactics option list sets gmap sorting strings.
From S2P Require Import Prelude.
From S2P Require Import Types.
From S2P Require Import AccountSource.
From S2P Require Import Errors.
From S2P Require Import Lru.
From S2P Require Import History.
From S2P Require Import Runtime.
From S2P Require Import AccountsDb.
From S2P Require Import FeePayer.
From S2P Require Import Version.
From S2P Require Import TxRuntime.
From S2P Require Import Svm.
From S2P Require Import Execution.
From S2P Require Import Staging.

(** ** Lock sets *)

Record TransactionLockSet : Type := mkLockSet {
  ls_readonly : gset Address;
  ls_writable : gset Address
}.

Definition conflicts_with (self other : TransactionLockSet) : bool :=
  existsb (fun key => bool_decide (key ∈ ls_writable other) || bool_decide (key ∈ ls_readonly other))
    (elements (ls_writable self)) ||
  existsb (fun key => bool_decide (key ∈ ls_writable other)) (elements (ls_readonly self)).

Definition lock_len (l : TransactionLockSet) : nat := size (ls_writable l) + size (ls_readonly l).

Definition lock_extend (self other : TransactionLockSet) : TransactionLockSet :=
  mkLockSet (ls_readonly self ∪ ls_readonly other) (ls_writable self ∪ ls_writable other).

(** [ScheduledTransactionBatchStage]; a [TransactionBatchStage] is its indexes. *)
Record ScheduledStage : Type := mkScheduledStage {
  st_indexes : list nat;
  st_lock_set : TransactionLockSet
}.

(** [best_fit_stage]: the loop over the stages with the best index and weight so
    far. *)
Fixpoint best_fit_loop (stages : list ScheduledStage) (index : nat) (lock_set : TransactionLockSet)
    (best : option (nat * nat)) : option (nat * nat) :=
  match stages with
  | [] => best
  | stage :: rest =>
      if conflicts_with (st_lock_set stage) lock_set then best_fit_loop rest (S index) lock_set best
      else
        let weight := lock_len (st_lock_set stage) in
        let better := match best with
                      | None => true
                      | Some (_, best_weight) => weight <? best_weight
                      end in
        best_fit_loop rest (S index) lock_set (if better then Some (index, weight) else best)
  end.

Definition best_fit_stage (stages : list ScheduledStage) (lock_set : TransactionLockSet) :
    option nat := fst <$> best_fit_loop stages 0 lock_set None.

(** One iteration of the planner: join the best stage or open a new one. *)
Definition schedule (stages : list ScheduledStage) (index : nat) (lock_set : TransactionLockSet) :
    list ScheduledStage :=
  match best_fit_stage stages lock_set with
  | Some stage_index =>
      alter (fun st => mkScheduledStage (st_indexes st ++ [index])
                         (lock_extend (st_lock_set st) lock_set)) stage_index stages
  | None => stages ++ [mkScheduledStage [index] lock_set]
  end.

(** The planner on lock sets alone, from index [n]. *)
Fixpoint schedule_all (stages : list ScheduledStage) (n : nat) (locks : list TransactionLockSet) :
    list ScheduledStage :=
  match locks with
  | [] => stages
  | l :: rest => schedule_all (schedule stages n l) (S n) rest
  end.

(** ** Errors *)

Inductive TransactionBatchError : Type :=
| BatchSanitize (index : nat) (source : TransactionError)
| BatchAccountSource (index : nat) (pubkey : Address) (source : AccountSourceError).

Inductive BatchSanitizeError : Type :=
| BsTransaction (e : TransactionError)
| BsAccountSource (pubkey : Address) (source : AccountSourceError).

Definition into_batch_error (e : BatchSanitizeError) (index : nat) : TransactionBatchError :=
  match e with
  | BsTransaction source => BatchSanitize index source
  | BsAccountSource pubkey source => BatchAccountSource index pubkey source
  end.

Definition TransactionBatchPlan : Type := list (list nat).

Record TransactionBatchExecutionResult : Type := mkBatchResult {
  br_plan : TransactionBatchPlan;
  br_results : list TransactionResult
}.

(** The key the results of a stage are sorted by. *)
Definition result_le (x y : nat * TransactionResult * StateChangeSet) : Prop := (x.1.1 <= y.1.1)%nat.

#[export] Instance result_le_dec : RelDecision result_le.
Proof. intros x y. unfold result_le. apply _. Defined.

Section Batch.
Context {tgt : Target} {ids : SdkIds} {sv : SysvarRuntime} {pr : ProgramRuntime}
        {pc : ProgramCacheOps} {Lst : Lru ProgramEntryKey Entry}
        {Lhist : Lru Signature TransactionResult} {fs : FeatureSets} {bud : Budgets}
        {tx : TxRuntime} {lt : LookupTables} {sp : SystemProgram} {uc : UserCode}
        {disp : ExternalDisplay}.

(** [TransactionLockSet::from_transaction]: the keys of the message by
    writability, and the lookup tables themselves as readonly. *)
Definition lock_set_from_transaction (stx : SanitizedTransaction) (t : VersionedTransaction) :
    TransactionLockSet :=
  let l := imap (fun i key => (i, key)) (stx_account_keys stx) in
  mkLockSet
    (list_to_set (omap (fun p => if stx_is_writable stx p.1 then None else Some p.2) l) ∪
     list_to_set (match tx_address_table_lookups t with
                  | Some lookups => map tl_account_key lookups
                  | None => []
                  end))
    (list_to_set (omap (fun p => if stx_is_writable stx p.1 then Some p.2 else None) l)).

(** [sanitize_transaction_for_batch]. *)
Definition batch_sanitize_error (er : ExecutionResult) : BatchSanitizeError :=
  match er_fatal_error er with
  | Some (ExecAccountSource pubkey source) => BsAccountSource pubkey source
  | _ => BsTransaction (default SanitizeFailure (err (er_tx_result er)))
  end.

Definition sanitize_transaction_for_batch (v : Svm) (t : VersionedTransaction) :
    result SanitizedTransaction BatchSanitizeError :=
  map_err batch_sanitize_error
    (if v_sigverify (version v) then sanitize_transaction v t
     else sanitize_transaction_no_verify v t).

(** The loop of [plan_transaction_batch]. *)
Fixpoint plan_loop (v : Svm) (stages : list ScheduledStage) (index : nat)
    (txs : list VersionedTransaction) : result (list ScheduledStage) TransactionBatchError :=
  match txs with
  | [] => Ok stages
  | t :: rest =>
      let? stx := map_err (fun e => into_batch_error e index) (sanitize_transaction_for_batch v t) in
      plan_loop v (schedule stages index (lock_set_from_transaction stx t)) (S index) rest
  end.

Definition plan_transaction_batch (v : Svm) (txs : list VersionedTransaction) :
    result TransactionBatchPlan TransactionBatchError :=
  rmap (map st_indexes) (plan_loop v [] 0 txs).

(** [stage_read_set]: the union of the static keys in order of appearance. *)
Fixpoint push_new (keys : list Address) (seen : gset Address) (union : list Address) :
    gset Address * list Address :=
  match keys with
  | [] => (seen, union)
  | key :: rest =>
      if bool_decide (key ∈ seen) then push_new rest seen union
      else push_new rest ({[key]} ∪ seen) (union ++ [key])
  end.

Fixpoint read_set_loop (indexes : list nat) (transactions : list VersionedTransaction)
    (seen : gset Address) (union : list Address) : list Address :=
  match indexes with
  | [] => union
  | index :: rest =>
      match transactions !! index with
      | None => read_set_loop rest transactions seen union
      | Some t =>
          let '(seen', union') := push_new (tx_static_account_keys t) seen union in
          read_set_loop rest transactions seen' union'
      end
  end.

Definition stage_read_set (indexes : list nat) (transactions : list VersionedTransaction) :
    list Address := read_set_loop indexes transactions ∅ [].

(** ** Execution *)

(** [with_transaction_origin]. *)
Definition with_transaction_origin {A} (origin : TransactionOrigin)
    (op : VmSt -> option (A * VmSt * list InspectorEvent)) (s : VmSt) :
    option (A * VmSt * list InspectorEvent) :=
  let previous := inspection_origin (extensions s.1) in
  match op (set_origin origin s.1, s.2) with
  | None => None
  | Some (r, s1, events) => Some (r, (set_origin previous s1.1, s1.2), events)
  end.

(** [Svm::prewarm_programs]; the promotions it schedules under [Lazy] change how
    an entry runs, not which entry a program has. *)
Definition svm_prewarm_programs (program_ids : list Address) : M VmSt HPSVMError unit :=
  do! smodify (fun s => (svm_sync_jit_policy s.1, s.2)) in
  (fun s => let '(r, s1) := on_db (prewarm_programs program_ids) s in (map_err HDatabase r, s1)).

(** The error of a failed prewarm, attributed to the head of the stage. *)
Definition prewarm_source (e : HPSVMError) : AccountSourceError :=
  match e with
  | HDatabase db =>
      default (account_source_error_with_kind OtherKind (display_db db))
        (db_downcast_ref AccountSourceError db)
  | other => account_source_error_with_kind OtherKind (display_hpsvm other)
  end.

(** [worker_vm]: a clone of the VM over a private copy of the committed cache. *)
Definition worker_vm (v : Svm) (handle : positive) (origin : TransactionOrigin) (w : World) : VmSt :=
  let '(a, w1) := clone_for_worker handle (accounts_clone (accounts (state v)), w) in
  (clone_with_state v (mkSvmState a (history (state v))) origin, w1).

(** The stage on its workers: [live] are the worker handles already initialised.
    Returns every transaction's result and change set, in stage order. *)
Fixpoint run_stage (v : Svm) (worker : nat -> positive) (stage_index : nat)
    (indexes : list nat) (transactions : list VersionedTransaction) (live : gset positive)
    (w : World) : option (list (nat * TransactionResult * StateChangeSet) * World) :=
  match indexes with
  | [] => Some ([], w)
  | index :: rest =>
      let handle := worker index in
      let w1 := if bool_decide (handle ∈ live) then w
                else (worker_vm v handle (Batch stage_index 0) w).2 in
      let local := clone_with_state v
                     (mkSvmState (with_handle handle (accounts_clone (accounts (state v))))
                        (history (state v))) (Batch stage_index index) in
      match transactions !! index with
      | None => None
      | Some t =>
          match transact_detached (local, w1) t with
          | None => None
          | Some (d, w2, _) =>
              let '(r, delta) :=
                detached_into_result_and_delta d (is_enabled (history (state local))) in
              match run_stage v worker stage_index rest transactions ({[handle]} ∪ live) w2 with
              | None => None
              | Some (l, w3) => Some ((index, r, delta) :: l, w3)
              end
          end
      end
  end.

(** Merging the deltas of a stage; [None] is the [expect]. *)
Fixpoint merge_stage (l : list (nat * TransactionResult * StateChangeSet))
    (results : list (option TransactionResult)) (s : VmSt) :
    option (list (option TransactionResult) * VmSt) :=
  match l with
  | [] => Some (results, s)
  | (index, r, delta) :: rest =>
      match apply_commit_delta delta s with
      | (Err _, _) => None
      | (Ok _, s1) => merge_stage rest (<[index := Some r]> results) s1
      end
  end.

(** A stage of one transaction: the live VM sends it. *)
Definition execute_single (stage_index index : nat) (transactions : list VersionedTransaction)
    (results : list (option TransactionResult)) (s : VmSt) :
    option (result (list (option TransactionResult)) TransactionBatchError * VmSt) :=
  match transactions !! index with
  | None => None
  | Some t =>
      match with_transaction_origin (Batch stage_index index) (fun s => send_transaction s t) s with
      | None => None
      | Some (r, s1, _) => Some (Ok (<[index := Some r]> results), s1)
      end
  end.

(** The two prewarms of a larger stage. *)
Definition prewarm_stage (read_set : list Address) (s : VmSt) : result unit AccountSourceError * VmSt :=
  let '(p, a1) := prewarm read_set (accounts (state s.1)) in
  let s1 : VmSt := (set_accounts a1 s.1, s.2) in
  match p with
  | Err db => (Err (prewarm_source (HDatabase db)), s1)
  | Ok _ => let '(r, s2) := svm_prewarm_programs read_set s1 in (map_err prewarm_source r, s2)
  end.

(** A larger stage: prewarm, run on workers, merge in index order. A prewarm
    failure is attributed to the head of the stage; [None] covers the panics of
    indexing and of the merge's [expect]. *)
Definition execute_parallel (worker : nat -> positive) (stage_index : nat) (indexes : list nat)
    (transactions : list VersionedTransaction) (results : list (option TransactionResult))
    (s : VmSt) : option (result (list (option TransactionResult)) TransactionBatchError * VmSt) :=
  let read_set := stage_read_set indexes transactions in
  match prewarm_stage read_set s with
  | (Err source, s1) =>
      match indexes, read_set with
      | index :: _, pubkey :: _ => Some (Err (BatchAccountSource index pubkey source), s1)
      | _, _ => None
      end
  | (Ok _, s1) =>
      match run_stage s1.1 worker stage_index indexes transactions ∅ s1.2 with
      | None => None
      | Some (l, w2) =>
          match merge_stage (merge_sort result_le l) results (s1.1, w2) with
          | None => None
          | Some (results', s3) => Some (Ok results', s3)
          end
      end
  end.

(** One stage of the plan. *)
Definition execute_stage (worker : nat -> positive) (stage_index : nat) (indexes : list nat)
    (transactions : list VersionedTransaction) (results : list (option TransactionResult))
    (s : VmSt) : option (result (list (option TransactionResult)) TransactionBatchError * VmSt) :=
  match indexes with
  | [index] => execute_single stage_index index transactions results s
  | _ => execute_parallel worker stage_index indexes transactions results s
  end.

Fixpoint execute_stages (worker : nat -> positive) (stage_index : nat) (stages : list (list nat))
    (transactions : list VersionedTransaction) (results : list (option TransactionResult))
    (s : VmSt) : option (result (list (option TransactionResult)) TransactionBatchError * VmSt) :=
  match stages with
  | [] => Some (Ok results, s)
  | indexes :: rest =>
      match execute_stage worker stage_index indexes transactions results s with
      | None => None
      | Some (Err e, s1) => Some (Err e, s1)
      | Some (Ok results', s1) =>
          execute_stages worker (S stage_index) rest transactions results' s1
      end
  end.

(** [send_transaction_batch]; the final [expect] needs every slot filled. *)
Definition send_transaction_batch (worker : nat -> positive) (s : VmSt)
    (transactions : list VersionedTransaction) :
    option (result TransactionBatchExecutionResult TransactionBatchError * VmSt) :=
  match plan_transaction_batch s.1 transactions with
  | Err e => Some (Err e, s)
  | Ok plan =>
      match execute_stages worker 0 plan transactions (replicate (length transactions) None) s with
      | None => None
      | Some (Err e, s1) => Some (Err e, s1)
      | Some (Ok results, s1) =>
          match mapM id results with
          | None => None
          | Some l => Some (Ok (mkBatchResult plan l), s1)
          end
      end
  end.

End Batch.
