(* ===== verification/BatchFacts.v ===== *)
(** * Batches: the planner, the read set and the merge

    The plan partitions the batch into stages whose transactions are pairwise
    free of lock conflicts, the best-fit choice is the first lightest stage, the
    read set is the union of the static keys, and a plan's stages fill every
    result slot.  Stages do not keep the submission order of conflicting
    transactions. *)

From Stdlib Require Import ZArith Lia Strings.Byte Permutation.
From stdpp Require Import base tactics option list sets gmap sorting strings.
From S2P Require Import Prelude.
From S2P Require Import Types.
From S2P Require Import AccountSource.
From S2P Require Import Errors.
From S2P Require Import Lru.
From S2P Require Import History.
From S2P Require Import Runtime.
From S2P Require Import AccountsDb.
From S2P Require Import Overlay.
From S2P Require Import OverlayReads.
From S2P Require Import FeePayer.
From S2P Require Import Version.
From S2P Require Import TxRuntime.
From S2P Require Import Svm.
From S2P Require Import Execution.
From S2P Require Import ExecutionFacts.
From S2P Require Import Staging.
From S2P Require Import StagingFacts.
From S2P Require Import Batch.

(** ** Conflicts *)

(** Two lock sets conflict when one writes an account the other locks. *)
Definition conflict (a b : TransactionLockSet) : Prop :=
  exists k, (k ∈ ls_writable a /\ (k ∈ ls_writable b \/ k ∈ ls_readonly b)) \/
            (k ∈ ls_readonly a /\ k ∈ ls_writable b).

Lemma conflicts_with_spec a b : conflicts_with a b = true <-> conflict a b.
Proof.
  unfold conflicts_with, conflict. rewrite orb_true_iff, !existsb_exists. split.
  - intros [(k & Hk & Hb)|(k & Hk & Hb)]; exists k;
      apply list_elem_of_In, elem_of_elements in Hk.
    + left. split; [done|]. apply orb_true_iff in Hb. by rewrite !bool_decide_eq_true in Hb.
    + right. by rewrite bool_decide_eq_true in Hb.
  - intros (k & [[Hk Hb]|[Hk Hb]]); [left|right]; exists k;
      rewrite <- list_elem_of_In, elem_of_elements; (split; [done|]).
    + by rewrite orb_true_iff, !bool_decide_eq_true.
    + by rewrite bool_decide_eq_true.
Qed.

Lemma conflicts_with_false a b : conflicts_with a b = false <-> ~ conflict a b.
Proof. rewrite <- conflicts_with_spec. by destruct (conflicts_with a b). Qed.

Lemma conflict_sym a b : conflict a b -> conflict b a.
Proof. unfold conflict. naive_solver. Qed.

Lemma conflict_extend a b c : conflict (lock_extend a b) c <-> conflict a c \/ conflict b c.
Proof. unfold conflict, lock_extend; simpl. set_solver. Qed.

(** ** Best fit *)

(** [i] is the first of the lightest stages that do not conflict with [l], and
    [w] its weight. *)
Definition best_fit (stages : list ScheduledStage) (l : TransactionLockSet) (i w : nat) : Prop :=
  (exists st, stages !! i = Some st /\ ~ conflict (st_lock_set st) l /\
     w = lock_len (st_lock_set st)) /\
  forall j st', stages !! j = Some st' -> ~ conflict (st_lock_set st') l ->
    w < lock_len (st_lock_set st') \/ (w = lock_len (st_lock_set st') /\ i <= j).

Definition is_best (stages : list ScheduledStage) (l : TransactionLockSet)
    (best : option (nat * nat)) : Prop :=
  match best with
  | Some (i, w) => best_fit stages l i w
  | None => Forall (fun st => conflict (st_lock_set st) l) stages
  end.

(** The best of a prefix and the next stage give the best of the longer prefix. *)
Lemma is_best_skip pre l best st :
  conflict (st_lock_set st) l -> is_best pre l best -> is_best (pre ++ [st]) l best.
Proof.
  intros Hc. destruct best as [[i w]|]; simpl.
  - intros [(st0 & Hi & Hst0) Hall]. split.
    { exists st0. by rewrite (lookup_app_l_Some _ _ _ _ Hi). }
    intros j st' [Hj|[_ Hj]]%lookup_app_Some; [by apply Hall|].
    apply list_lookup_singleton_Some in Hj as [_ <-]. done.
  - intros H. by apply Forall_app_2; [|constructor].
Qed.

Lemma is_best_take pre l best st :
  ~ conflict (st_lock_set st) l -> is_best pre l best ->
  match best with Some (_, w) => lock_len (st_lock_set st) < w | None => True end ->
  is_best (pre ++ [st]) l (Some (length pre, lock_len (st_lock_set st))).
Proof.
  intros Hc Hb Hlt. split.
  { exists st. split; [|done]. by apply list_lookup_middle. }
  intros j st' Hj Hn. apply lookup_app_Some in Hj as [Hj|[Hle Hj]].
  - left. destruct best as [[i w]|]; simpl in *.
    + destruct (proj2 Hb j st' Hj Hn); lia.
    + rewrite Forall_lookup in Hb. by apply Hb in Hj.
  - apply list_lookup_singleton_Some in Hj as [? <-]. right. lia.
Qed.

Lemma is_best_keep pre l st i w :
  ~ conflict (st_lock_set st) l -> is_best pre l (Some (i, w)) ->
  w <= lock_len (st_lock_set st) -> is_best (pre ++ [st]) l (Some (i, w)).
Proof.
  intros Hc [(st0 & Hi & Hst0) Hall] Hle. split.
  { exists st0. by rewrite (lookup_app_l_Some _ _ _ _ Hi). }
  intros j st' [Hj|[Hj Hj']]%lookup_app_Some; [by apply Hall|]. intros _.
  apply list_lookup_singleton_Some in Hj' as [_ <-]. apply lookup_lt_Some in Hi. lia.
Qed.

Lemma best_fit_loop_best rest pre l best :
  is_best pre l best -> is_best (pre ++ rest) l (best_fit_loop rest (length pre) l best).
Proof.
  revert pre best. induction rest as [|st rest IH]; intros pre best Hb; simpl.
  { by rewrite app_nil_r. }
  rewrite cons_middle, (assoc_L (++)), <- Nat.add_1_r.
  change 1 with (length [st]). rewrite <- length_app.
  destruct (conflicts_with _ _) eqn:Hc.
  - apply conflicts_with_spec in Hc. by apply IH, is_best_skip.
  - apply conflicts_with_false in Hc. apply IH.
    destruct best as [[i w]|]; [|by apply (is_best_take _ _ None)].
    destruct (Nat.ltb_spec (lock_len (st_lock_set st)) w).
    + by apply (is_best_take _ _ (Some (i, w))).
    + by apply is_best_keep.
Qed.

Lemma best_fit_stage_best stages l :
  is_best stages l (best_fit_loop stages 0 l None).
Proof. apply (best_fit_loop_best stages [] l None). constructor. Qed.

Lemma best_fit_unique stages l i w j w' :
  best_fit stages l i w -> best_fit stages l j w' -> i = j.
Proof.
  intros [(st & Hi & Hn & ->) Ha] [(st' & Hj & Hn' & ->) Ha'].
  specialize (Ha _ _ Hj Hn'). specialize (Ha' _ _ Hi Hn). lia.
Qed.

(** The planner's choice.  [best_fit_stage] answers [i] exactly when [i] is
    the first stage among those with the fewest locks that do not conflict with
    the transaction, and answers [None] exactly when every stage conflicts. *)
Theorem best_fit_stage_exact (stages : list ScheduledStage) (l : TransactionLockSet) :
  (forall i, best_fit_stage stages l = Some i <-> exists w, best_fit stages l i w) /\
  (best_fit_stage stages l = None <->
   Forall (fun st => conflict (st_lock_set st) l) stages).
Proof.
  unfold best_fit_stage. pose proof (best_fit_stage_best stages l) as Hb.
  destruct (best_fit_loop stages 0 l None) as [[i w]|]; simpl in *.
  - split.
    + intros j. split; [intros [= <-]; eauto|]. intros [w' Hj].
      by rewrite (best_fit_unique _ _ _ _ _ _ Hb Hj).
    + split; [done|]. intros Hf. destruct Hb as [(st & Hi & Hn & _) _].
      rewrite Forall_lookup in Hf. by apply Hf in Hi.
  - split; [|done]. intros j. split; [done|]. intros (w & (st & Hi & Hn & _) & _).
    rewrite Forall_lookup in Hb. by apply Hb in Hi.
Qed.

(** ** Plans *)

(** What the planner maintains of a stage, [f] giving the lock set of an index. *)
Record stage_inv (f : nat -> TransactionLockSet) (st : ScheduledStage) : Prop := mkStageInv {
  si_nonempty : st_indexes st <> [];
  si_sorted : StronglySorted lt (st_indexes st);
  si_locks : forall l, conflict (st_lock_set st) l <-> exists i, i ∈ st_indexes st /\ conflict (f i) l;
  si_free : forall i j, i ∈ st_indexes st -> j ∈ st_indexes st -> i <> j -> ~ conflict (f i) (f j)
}.

Definition plan_inv (f : nat -> TransactionLockSet) (n : nat) (stages : list ScheduledStage) : Prop :=
  concat (map st_indexes stages) ≡ₚ seq 0 n /\ Forall (stage_inv f) stages.

Lemma StronglySorted_snoc (l : list nat) n :
  StronglySorted lt l -> (forall i, i ∈ l -> i < n) -> StronglySorted lt (l ++ [n]).
Proof.
  induction 1 as [|x l Hl IH Hx]; simpl; intros Hn.
  - by repeat constructor.
  - constructor; [apply IH; set_solver|]. apply Forall_app_2; [done|].
    constructor; [apply Hn; set_solver|constructor].
Qed.

Lemma stage_inv_join f n st :
  stage_inv f st -> (forall i, i ∈ st_indexes st -> i < n) -> ~ conflict (st_lock_set st) (f n) ->
  stage_inv f (mkScheduledStage (st_indexes st ++ [n]) (lock_extend (st_lock_set st) (f n))).
Proof.
  intros [H1 H2 H3 H4] Hn Hc. rewrite H3 in Hc. constructor; simpl.
  - by destruct (st_indexes st).
  - by apply StronglySorted_snoc.
  - intros l. rewrite conflict_extend, H3. set_solver.
  - intros i j Hi Hj Hij Hcij. apply elem_of_app in Hi as [Hi|Hi%list_elem_of_singleton];
      apply elem_of_app in Hj as [Hj|Hj%list_elem_of_singleton]; subst; [|..|done].
    + by apply (H4 i j).
    + apply Hc. by exists i.
    + apply Hc. exists j. split; [done|]. by apply conflict_sym.
Qed.

Lemma stage_inv_open f n : stage_inv f (mkScheduledStage [n] (f n)).
Proof.
  constructor; simpl; [done|by repeat constructor| |].
  - intros l. set_solver.
  - intros i j. set_solver.
Qed.

Lemma concat_split (l1 l2 : list ScheduledStage) st :
  concat (map st_indexes (l1 ++ st :: l2)) =
  concat (map st_indexes l1) ++ st_indexes st ++ concat (map st_indexes l2).
Proof. by rewrite map_app, concat_app. Qed.

Lemma schedule_inv f n stages :
  plan_inv f n stages -> plan_inv f (S n) (schedule stages n (f n)).
Proof.
  intros [Hp Hf]. unfold schedule, best_fit_stage.
  pose proof (best_fit_stage_best stages (f n)) as Hb. unfold plan_inv. rewrite seq_S. simpl.
  destruct (best_fit_loop stages 0 (f n) None) as [[i w]|]; simpl in *.
  - destruct Hb as [(st & Hi & Hn & _) _].
    apply list_elem_of_split_length in Hi as (l1 & l2 & -> & ->).
    rewrite <- (Nat.add_0_r (length l1)), alter_app_r. simpl.
    rewrite !concat_split in *. simpl. split.
    + rewrite <- Hp. rewrite <- !(assoc_L (++)). do 2 f_equiv. apply Permutation_app_comm.
    + apply Forall_app in Hf as [? [Hst ?]%Forall_cons]. apply Forall_app_2; [done|].
      constructor; [|done]. apply stage_inv_join; [done| |done].
      intros j Hj. assert (Hs : j ∈ seq 0 n) by (rewrite <- Hp; set_solver).
      apply elem_of_seq in Hs. lia.
  - rewrite concat_split. simpl. split; [by rewrite <- Hp|].
    apply Forall_app_2; [done|]. constructor; [apply stage_inv_open|constructor].
Qed.

Lemma schedule_all_inv f stages n locks :
  (forall i l, locks !! i = Some l -> f (n + i) = l) ->
  plan_inv f n stages -> plan_inv f (n + length locks) (schedule_all stages n locks).
Proof.
  revert stages n. induction locks as [|l locks IH]; intros stages n Hf Hp; simpl.
  { by rewrite Nat.add_0_r. }
  rewrite Nat.add_succ_r, <- Nat.add_succ_l. apply IH.
  - intros i l' Hi. rewrite Nat.add_succ_l, <- Nat.add_succ_r. by apply Hf.
  - rewrite <- (Hf 0 l), Nat.add_0_r by done. by apply schedule_inv.
Qed.

(** The planner does not preserve the order of conflicting transactions.
    For transactions that write A, A and B, and B, the second conflicts with
    both others, yet the third joins the first stage and runs before it. *)
Theorem best_fit_reorders_conflicts (A B : Address) :
  let locks := [mkLockSet ∅ {[A]}; mkLockSet ∅ {[A; B]}; mkLockSet ∅ {[B]}] in
  A <> B ->
  map st_indexes (schedule_all [] 0 locks) = [[0; 2]; [1]] /\
  exists l1 l2, locks !! 1 = Some l1 /\ locks !! 2 = Some l2 /\ conflict l1 l2.
Proof.
  intros locks HAB. split.
  - assert (H1 : conflicts_with (mkLockSet ∅ {[A]}) (mkLockSet ∅ {[A; B]}) = true).
    { apply conflicts_with_spec. exists A. simpl. set_solver. }
    assert (H2 : conflicts_with (mkLockSet ∅ {[A]}) (mkLockSet ∅ {[B]}) = false).
    { apply conflicts_with_false. intros (k & H). simpl in H. set_solver. }
    assert (H3 : conflicts_with (mkLockSet ∅ {[A; B]}) (mkLockSet ∅ {[B]}) = true).
    { apply conflicts_with_spec. exists B. simpl. set_solver. }
    unfold locks. unfold schedule_all, schedule, best_fit_stage.
    cbn [best_fit_loop st_lock_set st_indexes app fmap option_fmap option_map].
    by rewrite H1; simpl; rewrite H2, H3.
  - exists (mkLockSet ∅ {[A; B]}), (mkLockSet ∅ {[B]}). split; [done|]. split; [done|].
    exists B. simpl. set_solver.
Qed.

Section BatchFacts.
Context {tgt : Target} {ids : SdkIds} {sv : SysvarRuntime} {pr : ProgramRuntime}
        {pc : ProgramCacheOps} {Lst : Lru ProgramEntryKey Entry}
        {Lhist : Lru Signature TransactionResult} {fs : FeatureSets} {bud : Budgets}
        {tx : TxRuntime} {lt : LookupTables} {sp : SystemProgram} {uc : UserCode}
        {disp : ExternalDisplay}.

Implicit Types (v : Svm) (txs : list VersionedTransaction) (s : VmSt).

(** The lock set the planner gives a transaction. *)
Definition locks_of v (t : VersionedTransaction) (l : TransactionLockSet) : Prop :=
  exists stx, sanitize_transaction_for_batch v t = Ok stx /\ l = lock_set_from_transaction stx t.

Lemma plan_loop_ok v stages n txs stages' :
  plan_loop v stages n txs = Ok stages' <->
  exists locks, Forall2 (locks_of v) txs locks /\ stages' = schedule_all stages n locks.
Proof.
  revert stages n. induction txs as [|t txs IH]; intros stages n; simpl.
  - split; [intros [= <-]; by exists []|]. by intros (? & ->%Forall2_nil_inv_l & ->).
  - destruct (sanitize_transaction_for_batch v t) as [stx|e] eqn:Hs; simpl.
    + rewrite IH. split.
      * intros (locks & Hf & ->). exists (lock_set_from_transaction stx t :: locks).
        split; [|done]. constructor; [by exists stx|done].
      * intros (locks & Hf & ->). apply Forall2_cons_inv_l in Hf as (l & locks' & Hl & Hf & ->).
        destruct Hl as (stx' & Hs' & ->). rewrite Hs in Hs'. injection Hs' as <-. by exists locks'.
    + split; [done|]. intros (locks & Hf & ->).
      apply Forall2_cons_inv_l in Hf as (l & locks' & (stx & Hs' & _) & _ & _). by rewrite Hs in Hs'.
Qed.

Lemma plan_loop_err v stages n txs e :
  plan_loop v stages n txs = Err e <->
  exists i t be, txs !! i = Some t /\ sanitize_transaction_for_batch v t = Err be /\
    e = into_batch_error be (n + i) /\
    forall j t', j < i -> txs !! j = Some t' -> is_ok (sanitize_transaction_for_batch v t') = true.
Proof.
  revert stages n. induction txs as [|t txs IH]; intros stages n; simpl.
  { split; [done|]. intros (i & t & be & Hi & _). by rewrite lookup_nil in Hi. }
  destruct (sanitize_transaction_for_batch v t) as [stx|be] eqn:Hs; simpl.
  - rewrite IH. split.
    + intros (i & t' & be & Hi & Hbe & -> & Hall). exists (S i), t', be.
      split; [done|]. split; [done|]. split; [by rewrite Nat.add_succ_r|].
      intros [|j] t'' Hj Hjt; simpl in *; [|by apply (Hall j t''); [lia|]].
      injection Hjt as <-. by rewrite Hs.
    + intros ([|i] & t' & be & Hi & Hbe & -> & Hall); simpl in *.
      { injection Hi as <-. by rewrite Hs in Hbe. }
      exists i, t', be. split; [done|]. split; [done|]. split; [by rewrite Nat.add_succ_r|].
      intros j t'' Hj Hjt. apply (Hall (S j)); [lia|done].
  - split.
    + intros [= <-]. exists 0, t, be. rewrite Nat.add_0_r. repeat split; auto. lia.
    + intros ([|i] & t' & be' & Hi & Hbe & -> & Hall); simpl in *.
      * injection Hi as <-. rewrite Hs in Hbe. injection Hbe as <-. by rewrite Nat.add_0_r.
      * specialize (Hall 0 t ltac:(lia) eq_refl). by rewrite Hs in Hall.
Qed.

Lemma plan_inv_of v txs plan :
  plan_transaction_batch v txs = Ok plan ->
  exists f stages, plan = map st_indexes stages /\ plan_inv f (length txs) stages /\
    forall i t, txs !! i = Some t -> locks_of v t (f i).
Proof.
  unfold plan_transaction_batch. destruct (plan_loop v [] 0 txs) as [stages|] eqn:Hl; [|done].
  intros [= <-]. apply plan_loop_ok in Hl as (locks & Hf & ->).
  exists (fun i => default (mkLockSet ∅ ∅) (locks !! i)), (schedule_all [] 0 locks).
  split; [done|]. split.
  - rewrite (Forall2_length _ _ _ Hf).
    apply (schedule_all_inv _ [] 0); [intros i l Hi; simpl; by rewrite Hi|]. by split.
  - intros i t Hi. eapply Forall2_lookup_l in Hf as (l & Hl & ?); [|exact Hi]. by rewrite Hl.
Qed.

(** C7: a plan is a partition of the batch into conflict-free stages: every
    index occurs in exactly one stage, no stage is empty, the indexes of a stage
    ascend, and no two transactions of a stage have conflicting lock sets.  The
    planner fails only on a transaction that cannot be sanitized, and then
    reports the first one. *)
Theorem plan_conflict_free (v : Svm) (txs : list VersionedTransaction) :
  match plan_transaction_batch v txs with
  | Ok plan =>
      concat plan ≡ₚ seq 0 (length txs) /\
      forall stage, stage ∈ plan ->
        stage <> [] /\ StronglySorted Peano.lt stage /\
        forall i j, i ∈ stage -> j ∈ stage -> i <> j ->
          exists ti tj li lj, txs !! i = Some ti /\ txs !! j = Some tj /\
            locks_of v ti li /\ locks_of v tj lj /\ ~ conflict li lj
  | Err e =>
      exists i t be, txs !! i = Some t /\ sanitize_transaction_for_batch v t = Err be /\
        e = into_batch_error be i /\
        forall j t', j < i -> txs !! j = Some t' ->
          is_ok (sanitize_transaction_for_batch v t') = true
  end.
Proof.
  destruct (plan_transaction_batch v txs) as [plan|e] eqn:Hp.
  - apply plan_inv_of in Hp as (f & stages & -> & [Hperm Hinv] & Hlocks). split; [done|].
    intros stage (st & -> & Hst)%list_elem_of_fmap.
    rewrite Forall_forall in Hinv. destruct (Hinv st Hst) as [H1 H2 _ H4].
    split; [done|]. split; [done|]. intros i j Hi Hj Hij.
    assert (Hin : forall i, i ∈ st_indexes st -> is_Some (txs !! i)).
    { intros k Hk. apply lookup_lt_is_Some. assert (Hs : k ∈ seq 0 (length txs)).
      { rewrite <- Hperm. apply elem_of_concat. exists (st_indexes st). split; [|done].
        apply list_elem_of_fmap. eauto. }
      apply elem_of_seq in Hs. lia. }
    destruct (Hin i Hi) as [ti Hti], (Hin j Hj) as [tj Htj].
    exists ti, tj, (f i), (f j). repeat split; auto.
  - unfold plan_transaction_batch in Hp. destruct (plan_loop v [] 0 txs) eqn:Hl; [done|].
    simpl in Hp. injection Hp as <-. by apply plan_loop_err in Hl.
Qed.

(** ** The read set *)

Lemma push_new_spec keys seen union :
  (forall k, k ∈ seen <-> k ∈ union) -> NoDup union ->
  let '(seen', union') := push_new keys seen union in
  (forall k, k ∈ seen' <-> k ∈ union') /\ NoDup union' /\
  (forall k, k ∈ union' <-> k ∈ union \/ k ∈ keys).
Proof.
  revert seen union. induction keys as [|key keys IH]; intros seen union Hs Hn; simpl.
  { set_solver. }
  case_bool_decide as Hk.
  - specialize (IH seen union Hs Hn). destruct (push_new keys seen union) as [seen' union'].
    destruct IH as (? & ? & ?). set_solver.
  - specialize (IH ({[key]} ∪ seen) (union ++ [key])).
    destruct (push_new keys _ _) as [seen' union']. destruct IH as (? & ? & Hu).
    + set_solver.
    + apply NoDup_app. split; [done|]. split; [set_solver|apply NoDup_singleton].
    + split; [done|]. split; [done|]. intros k. rewrite Hu. set_solver.
Qed.

Lemma read_set_loop_spec indexes txs seen union :
  (forall k, k ∈ seen <-> k ∈ union) -> NoDup union ->
  NoDup (read_set_loop indexes txs seen union) /\
  forall k, k ∈ read_set_loop indexes txs seen union <->
    k ∈ union \/ exists i t, i ∈ indexes /\ txs !! i = Some t /\ k ∈ tx_static_account_keys t.
Proof.
  revert seen union. induction indexes as [|i indexes IH]; intros seen union Hs Hn; simpl.
  { set_solver. }
  destruct (txs !! i) as [t|] eqn:Hi.
  - pose proof (push_new_spec (tx_static_account_keys t) seen union Hs Hn) as Hp.
    destruct (push_new _ _ _) as [seen' union']. destruct Hp as (Hs' & Hn' & Hu).
    destruct (IH seen' union' Hs' Hn') as [? Hk]. split; [done|]. intros k.
    rewrite Hk, Hu. setoid_rewrite elem_of_cons. naive_solver.
  - destruct (IH seen union Hs Hn) as [? Hk]. split; [done|]. intros k. rewrite Hk.
    setoid_rewrite elem_of_cons. naive_solver.
Qed.

(** The prewarm set of a stage holds every static account key of its
    transactions, once, and nothing else. *)
Theorem stage_read_set_exact (indexes : list nat) (txs : list VersionedTransaction) :
  NoDup (stage_read_set indexes txs) /\
  forall k, k ∈ stage_read_set indexes txs <->
    exists i t, i ∈ indexes /\ txs !! i = Some t /\ k ∈ tx_static_account_keys t.
Proof.
  destruct (read_set_loop_spec indexes txs ∅ []) as [? Hk]; [set_solver|constructor|].
  split; [done|]. intros k. unfold stage_read_set. rewrite Hk. set_solver.
Qed.

(** ** Deltas and their merge *)

Lemma lock_set_writable stx t i k :
  stx_account_keys stx !! i = Some k -> stx_is_writable stx i = true ->
  k ∈ ls_writable (lock_set_from_transaction stx t).
Proof.
  intros Hk Hw. simpl. apply elem_of_list_to_set, list_elem_of_omap. exists (i, k).
  simpl. rewrite Hw. split; [|done].
  apply list_elem_of_lookup. exists i. by rewrite list_lookup_imap, Hk.
Qed.

(** C20: a transaction changes only what it locks for writing.  Every address in
    the post-state of an execution is in the writable lock set the planner
    computes from the sanitized transaction that ran. *)
Theorem post_state_is_write_locked {txl : TxRuntimeLaws} (mode : InspectMode) (s : VmSt)
    (stx : SanitizedTransaction) (t : VersionedTransaction) (flags : TxFeatureFlags)
    (er : ExecutionResult) (w : World) (ob : Observed) (k : Address) :
  execute_sanitized_transaction mode s stx flags = Some (er, w, ob) ->
  k ∈ (er_post_accounts er).*1 ->
  k ∈ ls_writable (lock_set_from_transaction stx t).
Proof.
  intros He ([k' acc] & -> & Hin)%list_elem_of_fmap. simpl.
  destruct (execution_post_writable _ _ _ _ _ _ _ _ _ He Hin) as (i & Hi & Hw).
  by apply (lock_set_writable stx t i).
Qed.

Notation db v := (accounts (state v)).

Lemma apply_commit_delta_reads c s s' :
  NoDup (scs_post_accounts c).*1 -> apply_commit_delta c s = (Ok tt, s') -> forall j,
  try_get_account (db s'.1) j =
  match (list_to_map (scs_post_accounts c) : gmap Address AccountSharedData) !! j with
  | Some acc => Ok (written acc)
  | None => try_get_account (db s.1) j
  end.
Proof.
  intros Hnd. unfold apply_commit_delta, sbind, on_db, smodify.
  pose proof (sync_distinct_reads (scs_post_accounts c) (db_of s) Hnd) as Hr.
  destruct (sync_accounts (scs_post_accounts c) (db_of s)) as [[[]|e] d]; [|done].
  intros [= <-] j. specialize (Hr eq_refl j). by destruct (scs_history_entry c) as [[? ?]|].
Qed.

(** The accounts the deltas of a stage write. *)
Definition stage_writes (l : list (nat * TransactionResult * StateChangeSet)) :
    list (Address * AccountSharedData) := concat (map (fun x => scs_post_accounts x.2) l).

Lemma merge_stage_reads l results s results' s' :
  NoDup (stage_writes l).*1 -> merge_stage l results s = Some (results', s') -> forall j,
  try_get_account (db s'.1) j =
  match (list_to_map (stage_writes l) : gmap Address AccountSharedData) !! j with
  | Some acc => Ok (written acc)
  | None => try_get_account (db s.1) j
  end.
Proof.
  revert results s. induction l as [|[[i r] c] l IH]; intros results s Hnd; simpl.
  { by intros [= _ <-]. }
  unfold stage_writes in *. simpl in *. rewrite fmap_app in Hnd.
  apply NoDup_app in Hnd as (Hc & Hdis & Hl).
  destruct (apply_commit_delta c s) as [[[]|e] s1] eqn:Ha; [|done].
  intros Hm j. rewrite (IH _ _ Hl Hm j), list_to_map_app, lookup_union.
  pose proof (apply_commit_delta_reads c s s1 Hc Ha j) as Hr.
  set (mc := list_to_map (scs_post_accounts c) : gmap Address AccountSharedData) in *.
  set (ml := list_to_map (concat _) : gmap Address AccountSharedData).
  destruct (ml !! j) as [acc|] eqn:Hj.
  - destruct (mc !! j) as [acc'|] eqn:Hj'; [exfalso|done].
    apply elem_of_list_to_map_2, (list_elem_of_fmap_2 fst) in Hj.
    apply elem_of_list_to_map_2, (list_elem_of_fmap_2 fst) in Hj'. by eapply Hdis.
  - rewrite Hr. by destruct (mc !! j).
Qed.

Lemma stage_writes_perm l l' : l ≡ₚ l' -> stage_writes l ≡ₚ stage_writes l'.
Proof. intros H. unfold stage_writes. by rewrite H. Qed.

(** Deltas confined to pairwise non-conflicting lock sets write distinct accounts. *)
Lemma stage_writes_distinct f l :
  NoDup (map (fun x => x.1.1) l) ->
  Forall (fun x => NoDup (scs_post_accounts x.2).*1 /\
            forall k, k ∈ (scs_post_accounts x.2).*1 -> k ∈ ls_writable (f x.1.1)) l ->
  (forall i j, i ∈ map (fun x => x.1.1) l -> j ∈ map (fun x => x.1.1) l -> i <> j ->
     ~ conflict (f i) (f j)) ->
  NoDup (stage_writes l).*1.
Proof.
  induction l as [|x l IH]; simpl; [constructor|].
  intros [Hx Hnd]%NoDup_cons [[Hd Hw] Hf]%Forall_cons Hfree. unfold stage_writes. simpl.
  rewrite fmap_app. apply NoDup_app. split; [done|]. split.
  - intros k Hk Hk'. apply list_elem_of_fmap in Hk' as ([k' acc] & -> & Hin).
    apply elem_of_concat in Hin as (pl & (y & -> & Hy)%list_elem_of_fmap & Hin). simpl in *.
    rewrite Forall_forall in Hf. destruct (Hf y Hy) as [_ Hwy].
    apply (list_elem_of_fmap_2 fst) in Hin. simpl in Hin.
    assert (Hyi : y.1.1 ∈ map (fun x => x.1.1) l) by (apply list_elem_of_fmap; eauto).
    apply (Hfree x.1.1 y.1.1); [set_solver..| |].
    + intros Heq. apply Hx. by rewrite Heq.
    + exists k'. left. split; [by apply Hw|left; by apply Hwy].
  - apply IH; [done|done|]. intros i j Hi Hj. apply Hfree; set_solver.
Qed.

(** C18: merging a conflict-free stage is order-independent for readers.  When
    the deltas of a stage stay within pairwise non-conflicting lock sets, every
    merge order that succeeds leaves the same reads: each written account has
    the value its one writer gave it and nothing else changed. *)
Theorem stage_merge_order_irrelevant (f : nat -> TransactionLockSet)
    (l l' : list (nat * TransactionResult * StateChangeSet))
    (results results1 results2 : list (option TransactionResult)) (s s1 s2 : VmSt) :
  NoDup (map (fun x => x.1.1) l) ->
  Forall (fun x => NoDup (scs_post_accounts x.2).*1 /\
            forall k, k ∈ (scs_post_accounts x.2).*1 -> k ∈ ls_writable (f x.1.1)) l ->
  (forall i j, i ∈ map (fun x => x.1.1) l -> j ∈ map (fun x => x.1.1) l -> i <> j ->
     ~ conflict (f i) (f j)) ->
  l ≡ₚ l' -> merge_stage l results s = Some (results1, s1) ->
  merge_stage l' results s = Some (results2, s2) ->
  forall j, try_get_account (db s2.1) j = try_get_account (db s1.1) j /\
    try_get_account (db s1.1) j =
    match (list_to_map (stage_writes l) : gmap Address AccountSharedData) !! j with
    | Some acc => Ok (written acc)
    | None => try_get_account (db s.1) j
    end.
Proof.
  intros Hi Hf Hfree Hp H1 H2 j. pose proof (stage_writes_distinct f l Hi Hf Hfree) as Hnd.
  pose proof (stage_writes_perm _ _ Hp) as Hperm.
  assert (Hnd' : NoDup (stage_writes l').*1) by (by rewrite <- Hperm).
  rewrite (merge_stage_reads _ _ _ _ _ Hnd H1), (merge_stage_reads _ _ _ _ _ Hnd' H2).
  by rewrite (list_to_map_proper (M := gmap Address) _ _ Hnd Hperm).
Qed.

(** ** Result slots *)

Definition filled (results : list (option TransactionResult)) (i : nat) : Prop :=
  exists r, results !! i = Some (Some r).

(** [results'] has the slots of [results] filled, and those of [indexes]. *)
Definition fills (results results' : list (option TransactionResult)) (indexes : list nat) : Prop :=
  length results' = length results /\
  forall i, i < length results -> filled results i \/ i ∈ indexes -> filled results' i.

Lemma fills_refl results : fills results results [].
Proof. split; [done|]. intros i _ [?|?]; [done|set_solver]. Qed.

Lemma fills_insert results i r : fills results (<[i := Some r]> results) [i].
Proof.
  split; [by rewrite length_insert|]. intros j Hj Hf. unfold filled.
  destruct (decide (j = i)) as [->|Hne].
  - exists r. by rewrite list_lookup_insert_eq.
  - rewrite list_lookup_insert_ne by done. set_solver.
Qed.

Lemma fills_trans r1 r2 r3 l1 l2 : fills r1 r2 l1 -> fills r2 r3 l2 -> fills r1 r3 (l1 ++ l2).
Proof.
  intros [Hl1 H1] [Hl2 H2]. split; [congruence|]. intros i Hi.
  rewrite elem_of_app. intros [?|[?|?]]; apply H2; try lia; auto.
Qed.

Lemma merge_stage_fills l results s results' s' :
  merge_stage l results s = Some (results', s') -> fills results results' (map (fun x => x.1.1) l).
Proof.
  revert results s. induction l as [|[[i r] c] l IH]; intros results s; simpl.
  { intros [= <- _]. apply fills_refl. }
  destruct (apply_commit_delta c s) as [[u|e] s1]; [|done]. intros H%IH.
  eapply (fills_trans _ _ _ [i]); [apply fills_insert|exact H].
Qed.

Lemma run_stage_indexes v worker n indexes txs live w l w' :
  run_stage v worker n indexes txs live w = Some (l, w') -> map (fun x => x.1.1) l = indexes.
Proof.
  revert live w l. induction indexes as [|i indexes IH]; intros live w l; simpl; [by intros [= <- _]|].
  destruct (txs !! i) as [t|]; [|done].
  destruct (transact_detached _ t) as [[[d w2] ob]|]; [|done].
  destruct (run_stage v worker n indexes _ _ _) as [[l' w3]|] eqn:Hr; [|done].
  intros [= <- <-]. simpl. by rewrite (IH _ _ _ Hr).
Qed.

Lemma fills_perm r1 r2 l1 l2 : l1 ≡ₚ l2 -> fills r1 r2 l1 -> fills r1 r2 l2.
Proof. intros Hp [? H]. split; [done|]. intros i. rewrite <- Hp. apply H. Qed.

Lemma execute_stage_fills worker n indexes txs results s results' s' :
  execute_stage worker n indexes txs results s = Some (Ok results', s') ->
  fills results results' indexes.
Proof.
  assert (Hpar : execute_parallel worker n indexes txs results s = Some (Ok results', s') ->
                 fills results results' indexes).
  { unfold execute_parallel. destruct (prewarm_stage _ s) as [[u|e] s1]; [|by repeat case_match].
    destruct (run_stage _ _ _ _ _ _ _) as [[l w2]|] eqn:Hr; [|done].
    destruct (merge_stage _ _ _) as [[r3 s3]|] eqn:Hm; [|done]. intros [= <- _].
    apply merge_stage_fills in Hm. eapply fills_perm; [|exact Hm].
    rewrite <- (run_stage_indexes _ _ _ _ _ _ _ _ _ Hr). by rewrite merge_sort_Permutation. }
  unfold execute_stage. destruct indexes as [|i [|j rest]]; [exact Hpar| |exact Hpar].
  unfold execute_single. destruct (txs !! i); [|done].
  destruct (with_transaction_origin _ _ _) as [[[r s1] ev]|]; [|done].
  intros [= <- _]. apply fills_insert.
Qed.

Lemma execute_stages_fills worker n plan txs results s results' s' :
  execute_stages worker n plan txs results s = Some (Ok results', s') ->
  fills results results' (concat plan).
Proof.
  revert n results s. induction plan as [|indexes plan IH]; intros n results s; simpl.
  { intros [= <- _]. apply fills_refl. }
  destruct (execute_stage worker n indexes txs results s) as [[[r1|e] s1]|] eqn:Hs; [|done..].
  intros H%IH. eapply fills_trans; [by eapply execute_stage_fills|exact H].
Qed.

Lemma mapM_filled (results : list (option TransactionResult)) :
  (forall i, i < length results -> filled results i) ->
  exists l, mapM id results = Some l /\ length l = length results.
Proof.
  induction results as [|o results IH]; intros H; [by exists []|].
  destruct (H 0) as [r Hr]; [simpl; lia|]. simpl in Hr. injection Hr as ->.
  destruct IH as (l & Hl & Hlen).
  - intros i Hi. destruct (H (S i)) as [r' Hr']; [simpl; lia|]. by exists r'.
  - exists (r :: l). simpl. rewrite Hl. simpl. by rewrite Hlen.
Qed.

(** C21: every transaction of a batch gets a result.  When the stages of the plan
    run to the end, the final [expect] cannot fail: the batch returns the plan
    with exactly one result per submitted transaction. *)
Theorem batch_results_complete (worker : nat -> positive) (s s1 : VmSt)
    (txs : list VersionedTransaction) (plan : TransactionBatchPlan)
    (results : list (option TransactionResult)) :
  plan_transaction_batch s.1 txs = Ok plan ->
  execute_stages worker 0 plan txs (replicate (length txs) None) s = Some (Ok results, s1) ->
  exists l, send_transaction_batch worker s txs = Some (Ok (mkBatchResult plan l), s1) /\
    length l = length txs /\ forall i, results !! i = Some <$> (l !! i).
Proof.
  intros Hp He. unfold send_transaction_batch. rewrite Hp, He.
  apply plan_inv_of in Hp as (f & stages & -> & [Hperm _] & _).
  apply execute_stages_fills in He as [Hlen Hf]. rewrite length_replicate in *.
  destruct (mapM_filled results) as (l & Hl & Hll).
  { intros i Hi. apply Hf; [lia|]. right. rewrite Hperm. apply elem_of_seq. lia. }
  exists l. rewrite Hl. split; [done|]. split; [lia|].
  intros i. apply mapM_Some in Hl. clear -Hl.
  revert i. induction Hl as [|o r results l Ho _ IH]; intros i; [done|].
  destruct i; simpl; [by rewrite <- Ho|apply IH].
Qed.

(** ** Prewarm failures *)

Lemma prewarm_stage_nil s : (prewarm_stage [] s).1 = Ok tt.
Proof. done. Qed.

(** A failed prewarm is reported, not a panic.  Whatever the source or the
    program loads answer, a failing prewarm of a non-empty stage has a non-empty
    read set, and the batch returns the error attributed to the stage's first
    transaction and the read set's first key. *)
Theorem prewarm_failure_attributed (worker : nat -> positive) (n i : nat) (rest : list nat)
    (txs : list VersionedTransaction) (results : list (option TransactionResult))
    (s s1 : VmSt) (e : AccountSourceError) :
  prewarm_stage (stage_read_set (i :: rest) txs) s = (Err e, s1) ->
  exists k, head (stage_read_set (i :: rest) txs) = Some k /\
    execute_parallel worker n (i :: rest) txs results s =
    Some (Err (BatchAccountSource i k e), s1).
Proof.
  intros He. unfold execute_parallel. rewrite He.
  destruct (stage_read_set (i :: rest) txs) as [|k ks]; [|by exists k].
  pose proof (prewarm_stage_nil s) as Hn. by rewrite He in Hn.
Qed.

End BatchFacts.
