(* ===== verification/VmPrograms.v ===== *)
(** * Programs, builtins and feature reconfiguration, [vm.rs] and [runtime_env.rs]

    Deploying programs through [add_program_internal] with the two-level entry
    resolution of [resolve_program_entry], installing builtins, precompiles and
    feature accounts, refreshing the runtime environments, and the
    all-or-nothing [set_feature_set].  [None] is a panic ([expect], [unwrap]);
    an [Arc] that is allocated takes its address from the caller. *)

From Stdlib Require Import ZArith Lia Strings.Byte.
From stdpp Require Import base tactics option list sets gmap strings.
From S2P Require Import Prelude.
From S2P Require Import Types.
From S2P Require Import AccountSource.
From S2P Require Import Errors.
From S2P Require Import Lru.
From S2P Require Import History.
From S2P Require Import Runtime.
From S2P Require Import AccountsDb.
From S2P Require Import Version.
From S2P Require Import TxRuntime.
From S2P Require Import Svm.

(** A byte slice with its address ([include_bytes!] statics have a stable one). *)
Record ByteSlice : Type := mkByteSlice {
  sl_ptr : positive;
  sl_bytes : list byte
}.

(** What these methods call in the SDK: derived addresses, the bincode of loader
    states, environment construction, feature accounts, precompile providers and
    the embedded programs. *)
Class DeployRuntime {sv : SysvarRuntime} {pr : ProgramRuntime} {fs : FeatureSets} : Type := {
  config_program_id : Address;
  stake_program_id : Address;
  (** [Address::find_program_address(&[seed], program).0]. *)
  find_program_address : Address -> Address -> Address;
  get_program_data_address : Address -> Address;
  (** The serialized [Program { programdata_address }] and
      [ProgramData { slot, upgrade_authority_address }]. *)
  encode_program : Address -> list byte;
  encode_programdata : Z -> option Address -> list byte;
  size_of_program : nat;
  (** The text of a failed [ProgramCacheEntry::load]. *)
  program_load_message : Address -> RuntimeEnv -> list byte -> string;
  (** [create_program_runtime_environment], re-registering the functions of an
      environment into a fresh loader, and a registration function. *)
  create_program_runtime_environment : FeatureSet -> ComputeBudget -> result RuntimeEnv string;
  loader_of_environment : RuntimeEnv -> result RuntimeEnv (string * string);
  register_function : BuiltinFn -> string -> RuntimeEnv -> result RuntimeEnv string;
  runtime_envs_new : RuntimeEnv -> RuntimeEnv -> RuntimeEnvs;
  (** The active features with their activation slots; a feature's account. *)
  fs_active : FeatureSet -> list (Address * Z);
  fs_eqb : FeatureSet -> FeatureSet -> bool;
  feature_size : nat;
  feature_account : Z -> Z -> AccountSharedData;
  (** The precompile providers: program ids, and whether one is enabled. *)
  precompile_program_ids : N -> list Address;
  precompile_enabled : N -> Address -> FeatureSet -> bool;
  (** [include_bytes!]. *)
  include_bytes : string -> ByteSlice
}.

(** The codec of loader states on 32-byte addresses, and that the embedded states
    fit their buffers. *)
Definition valid_address (k : Address) : Prop := (address_num k < 2 ^ 256)%N.

Class DeployLaws `{DeployRuntime} : Prop := {
  find_program_address_valid seed program : valid_address (find_program_address seed program);
  decode_program a rest :
    valid_address a -> upgradeable_state (encode_program a ++ rest) = Some (LoaderProgram a);
  program_state_fits a : (length (encode_program a) <= size_of_program)%nat;
  programdata_state_fits slot auth :
    (length (encode_programdata slot auth) <= size_of_programdata_metadata)%nat
}.

(** [set_state] on a zeroed buffer of the given length. *)
Definition zeros (n : nat) : list byte := replicate n x00.

Definition state_buffer (state : list byte) (len : nat) : list byte :=
  state ++ zeros (len - length state).

Section VmPrograms.
Context {tgt : Target} {ids : SdkIds} {sv : SysvarRuntime} {pr : ProgramRuntime}
        {pc : ProgramCacheOps} {Lst : Lru ProgramEntryKey Entry}
        {Lhist : Lru Signature TransactionResult} {fs : FeatureSets} {bud : Budgets}
        {tx : TxRuntime} {dr : DeployRuntime}.

(** ** The world's process-wide tables *)

Definition set_default_programs (m : gmap (positive * positive * Z * Address) Entry) (w : World) :
    World := mkWorld (w_caches w) (w_store w) m (w_default_env w).
Definition set_default_env (e : positive * RuntimeEnvs) (w : World) : World :=
  mkWorld (w_caches w) (w_store w) (w_default_programs w) (Some e).

(** ** Resolving an entry, [runtime_env.rs] *)

(** [shared_default_env_ptr]. *)
Definition shared_default_env_ptr (env_ptr : positive) (w : World) : option positive :=
  match w_default_env w with
  | Some (p, _) => if bool_decide (p = env_ptr) then Some p else None
  | None => None
  end.

(** [entry(key).or_insert(winner)]: the entry now in the fast path. *)
Definition or_insert (key : positive * positive * Z * Address) (entry : Entry) (w : World) :
    Entry * World :=
  match w_default_programs w !! key with
  | Some resident => (resident, w)
  | None => (entry, set_default_programs (<[key := entry]> (w_default_programs w)) w)
  end.

(** The load on a miss of both caches. *)
Definition load_entry (v : Svm) (loader_id : Address) (program_bytes : list byte) :
    result Entry HPSVMError :=
  let env := get_env_for_execution (environments (accounts (state v))).2 in
  if requires_uncompiled_load (v_jit_policy (version v)) && x86_64 then
    map_err HInstruction (load_program_uncompiled loader_id env program_bytes)
  else
    ok_or (cache_entry_load loader_id env IMMEDIATE_DEPLOYMENT_SLOT program_bytes)
      (ProgramLoad (program_load_message loader_id env program_bytes)).

Definition fast_key (cached : bool) (v : Svm) (w : World) (loader_id : Address) (slot : Z)
    (program : ByteSlice) : option (positive * positive * Z * Address) :=
  if cached && (slot =? 0)%Z then
    (fun p => (p, sl_ptr program, Z.of_nat (length (sl_bytes program)), loader_id)) <$>
    shared_default_env_ptr (environments (accounts (state v))).1 w
  else None.

(** Mirroring a store winner into the fast path when the load is eligible. *)
Definition backfill (key : option (positive * positive * Z * Address)) (entry : Entry) (w : World) :
    Entry * World :=
  match key with Some k => or_insert k entry w | None => (entry, w) end.

Definition resolve_program_entry (cached : bool) (loader_id : Address) (slot : Z)
    (program : ByteSlice) : M VmSt HPSVMError Entry := fun s =>
  let '(v, w) := s in
  let key := fast_key cached v w loader_id slot program in
  match key ≫= (fun k => w_default_programs w !! k) with
  | Some entry => (Ok entry, s)
  | None =>
      let store_key := content_key (environments (accounts (state v))).1 (sl_bytes program)
                         loader_id IMMEDIATE_DEPLOYMENT_SLOT in
      match store_get store_key (w_store w) with
      | (Some entry, st) =>
          let '(winner, w1) := backfill key entry (set_store st w) in (Ok winner, (v, w1))
      | (None, st) =>
          match load_entry v loader_id (sl_bytes program) with
          | Err e => (Err e, (v, set_store st w))
          | Ok loaded =>
              let '(resident, st') := store_insert store_key loaded st in
              let '(winner, w1) := backfill key resident (set_store st' w) in (Ok winner, (v, w1))
          end
      end
  end.

(** ** Deploying a program *)

Definition programdata_account (v : Svm) (program_bytes : list byte) : AccountSharedData :=
  let a := accounts (state v) in
  let len := (size_of_programdata_metadata + length program_bytes)%nat in
  mkAccount (minimum_balance_for_rent_exemption a (Z.of_nat len))
    (state_buffer (encode_programdata (current_slot a) None) size_of_programdata_metadata ++
     program_bytes)
    bpf_loader_upgradeable_id false 0.

Definition upgradeable_program_account (v : Svm) (programdata_address : Address) :
    AccountSharedData :=
  mkAccount (minimum_balance_for_rent_exemption (accounts (state v)) (Z.of_nat size_of_program))
    (state_buffer (encode_program programdata_address) size_of_program)
    bpf_loader_upgradeable_id true 0.

Definition bpf_program_account (v : Svm) (program_bytes : list byte) (loader_id : Address) :
    AccountSharedData :=
  mkAccount
    (minimum_balance_for_rent_exemption (accounts (state v)) (Z.of_nat (length program_bytes)))
    program_bytes loader_id true 0.

(** The accounts of a program under its loader; [None] for a foreign loader. *)
Definition deploy_accounts (program_id : Address) (program_bytes : list byte) (loader_id : Address)
    (v : Svm) : option Accounts :=
  let a := accounts (state v) in
  if bool_decide (loader_id = bpf_loader_upgradeable_id) then
    let programdata_address := find_program_address program_id loader_id in
    Some (add_account_no_checks program_id (upgradeable_program_account v programdata_address)
            (add_account_no_checks programdata_address (programdata_account v program_bytes) a))
  else if bool_decide (loader_id = bpf_loader_id) || bool_decide (loader_id = bpf_loader_deprecated_id)
  then Some (add_account_no_checks program_id (bpf_program_account v program_bytes loader_id) a)
  else None.

Definition add_program_internal (cached : bool) (program_id : Address) (program : ByteSlice)
    (loader_id : Address) : M VmSt HPSVMError unit := fun s =>
  let v := svm_sync_jit_policy s.1 in
  let slot := current_slot (accounts (state v)) in
  match deploy_accounts program_id (sl_bytes program) loader_id v with
  | None => (Err (InvalidLoader program_id loader_id), (v, s.2))
  | Some a =>
      sbind (resolve_program_entry cached loader_id slot program)
        (fun entry => smodify (fun s' => with_db (replenish_program_cache program_id entry (db_of s')) s'))
        (set_accounts a v, s.2)
  end.

Definition add_program (program_id : Address) (program : ByteSlice) : M VmSt HPSVMError unit :=
  add_program_internal false program_id program bpf_loader_upgradeable_id.

(** [add_program_from_file]: [contents] is what reading the file gives. *)
Definition add_program_from_file (program_id : Address) (contents : result ByteSlice string) :
    M VmSt HPSVMError unit :=
  match contents with
  | Err message => sfail (InvalidPath message)
  | Ok bytes => add_program program_id bytes
  end.

Definition add_program_with_loader (program_id : Address) (program : ByteSlice)
    (loader_id : Address) : M VmSt HPSVMError unit :=
  add_program_internal false program_id program loader_id.

Definition add_program_preverified (program_id : Address) (program : ByteSlice)
    (loader_id : Address) : M VmSt HPSVMError unit :=
  add_program_internal true program_id program loader_id.

(** ** Builtins *)

(** [create_loadable_account_for_test] of [utils/mod.rs]. *)
Definition create_loadable_account_for_test (name : string) : AccountSharedData :=
  mkAccount 1 (String.list_byte_of_string name) native_loader_id true u64_max.

Definition add_builtin (program_id : Address) (entrypoint : BuiltinFn) (s : VmSt) : VmSt :=
  let d := replenish_program_cache program_id (new_builtin entrypoint) (db_of s) in
  with_db (add_account_no_checks program_id (mkAccount 1 [x00] native_loader_id true 0) d.1, d.2) s.

(** ** Runtime environments *)

Fixpoint register_syscalls (l : list (string * BuiltinFn)) (env : RuntimeEnv) :
    result RuntimeEnv HPSVMError :=
  match l with
  | [] => Ok env
  | (name, function) :: rest =>
      let? loader := map_err (fun e => CustomSyscallRegistrationError e.1 "runtime" e.2)
                       (loader_of_environment env) in
      let? env' := map_err (fun reason => CustomSyscallRegistrationError name "runtime" reason)
                     (register_function function name loader) in
      register_syscalls rest env'
  end.

(** The configuration whose environment is shared by the whole process. *)
Definition is_default_config (v : Svm) : bool :=
  match v_compute_budget (version v) with None => true | Some _ => false end &&
  match custom_syscalls (runtime_registry (extensions v)) with [] => true | _ => false end &&
  fs_eqb (v_feature_set (version v)) fs_all_enabled.

Definition build_environment (v : Svm) : result RuntimeEnv HPSVMError :=
  let flags := flags_load (v_feature_set (version v)) in
  let budget := default (budget_new_with_defaults (flags_is_enabled flags RaiseCpiNestingLimitTo8))
                  (v_compute_budget (version v)) in
  let? env := map_err (RuntimeEnvironment "v1")
                (create_program_runtime_environment (v_feature_set (version v)) budget) in
  register_syscalls (custom_syscalls (runtime_registry (extensions v))) env.

(** [try_refresh_runtime_environments]; [ptr] is the address of a new [Arc]. *)
Definition try_refresh_runtime_environments (ptr : positive) : M VmSt HPSVMError unit := fun s =>
  let '(v, w) := s in
  let install (e : positive * RuntimeEnvs) (w' : World) : VmSt :=
    (set_accounts (set_runtime_environments_arc e (accounts (state v))) v, w') in
  match (if is_default_config v then w_default_env w else None) with
  | Some shared => (Ok tt, install shared w)
  | None =>
      match build_environment v with
      | Err e => (Err e, s)
      | Ok env =>
          let e := (ptr, runtime_envs_new env env) in
          (Ok tt, install e
             (if is_default_config v
              then match w_default_env w with Some _ => w | None => set_default_env e w end
              else w))
      end
  end.

(** [refresh_runtime_environments] is followed by an [expect]. *)
Definition refresh_runtime_environments (ptr : positive) (s : VmSt) : option VmSt :=
  match try_refresh_runtime_environments ptr s with (Ok _, s') => Some s' | (Err _, _) => None end.

(** ** Materialized state *)

Definition set_materialized (m : MaterializedState) (v : Svm) : Svm :=
  mkSvm (state v) (version v) (block_env v) (extensions v) m (airdrop_pubkey v).

Definition mark_builtins (v : Svm) : Svm :=
  let m := materialized v in
  set_materialized (mkMaterialized true (mat_default_programs m) (mat_spl_programs m)
                      (mat_feature_accounts m) (mat_sysvars m)) v.
Definition mark_default_programs (v : Svm) : Svm :=
  let m := materialized v in
  set_materialized (mkMaterialized (mat_builtins m) true (mat_spl_programs m)
                      (mat_feature_accounts m) (mat_sysvars m)) v.
Definition mark_spl_programs (v : Svm) : Svm :=
  let m := materialized v in
  set_materialized (mkMaterialized (mat_builtins m) (mat_default_programs m) true
                      (mat_feature_accounts m) (mat_sysvars m)) v.
Definition mark_feature_accounts (v : Svm) : Svm :=
  let m := materialized v in
  set_materialized (mkMaterialized (mat_builtins m) (mat_default_programs m) (mat_spl_programs m)
                      true (mat_sysvars m)) v.

(** Running a database method that cannot fail. *)
Definition run_db (f : St -> St) (s : VmSt) : VmSt := with_db (f (db_of s)) s.

Definition remove_all (l : list Address) (d : St) : St := foldl (fun d k => remove_account k d) d l.

Definition clear_feature_accounts (previous_feature_set : FeatureSet) (s : VmSt) : VmSt :=
  run_db (remove_all (map fst (fs_active previous_feature_set))) s.

Definition clear_builtin_accounts (s : VmSt) : VmSt :=
  run_db (remove_all (map (fun b => b.1.1.1) BUILTINS)) s.

(** [clear_default_programs] and [clear_spl_programs]: an upgradeable program
    goes with its programdata. *)
Definition clear_program (d : St) (program_id : Address) : St :=
  let d1 :=
    match get_account_ref d.1 program_id with
    | Some account =>
        if bool_decide (acc_owner account = bpf_loader_upgradeable_id)
        then remove_account (get_program_data_address program_id) d else d
    | None => d
    end in
  remove_account program_id d1.

Definition clear_programs (l : list Address) (s : VmSt) : VmSt :=
  run_db (fun d => foldl clear_program d l) s.

Definition clear_precompile_accounts (s : VmSt) : VmSt :=
  run_db (remove_all (precompile_program_ids (precompiles (extensions s.1)))) s.

Definition materialize_feature_account (d : St) (f : Address * Z) : St :=
  let lamports := minimum_balance_for_rent_exemption d.1 (Z.of_nat feature_size) in
  (add_account_no_checks f.1 (feature_account f.2 lamports) d.1, d.2).

Definition materialize_feature_accounts (s : VmSt) : VmSt :=
  let s1 : VmSt := (mark_feature_accounts s.1, s.2) in
  run_db (fun d => foldl materialize_feature_account d (fs_active (v_feature_set (version s1.1)))) s1.

Definition install_builtin (feature_set : FeatureSet) (d : St)
    (b : Address * BuiltinFn * string * option Address) : St :=
  let '(program_id, register_fn, name, gate) := b in
  if match gate with Some x => fs_is_active feature_set x | None => true end then
    let d1 := replenish_program_cache program_id (new_builtin register_fn) d in
    (add_builtin_account program_id (create_loadable_account_for_test name) d1.1, d1.2)
  else d.

Definition load_builtins (ptr : positive) (s : VmSt) : option VmSt :=
  match refresh_runtime_environments ptr (mark_builtins s.1, s.2) with
  | None => None
  | Some s1 =>
      Some (run_db (fun d => foldl (install_builtin (v_feature_set (version s1.1))) d BUILTINS) s1)
  end.

(** [set_lamports]. *)
Definition set_lamports (lamports : Z) (s : VmSt) : VmSt :=
  run_db (fun d => (add_account_no_checks (airdrop_pubkey s.1)
                      (mkAccount lamports [] system_program_id false 0) d.1, d.2)) s.

(** ** Embedded programs, [programs/mod.rs] *)

Definition token_program_id : Address :=
  Eval vm_compute in from_str_const "TokenkegQfeZyiNwAJbNbGKPFXCWuBvf9Ss623VQ5DA".
Definition token_2022_program_id : Address :=
  Eval vm_compute in from_str_const "TokenzQdBNbLqP5VEhdkAS6EPFLC1PHnBqCXEpPxuEb".
Definition memo_v1_program_id : Address :=
  Eval vm_compute in from_str_const "Memo1UhkJRfHyvLMcVucJwxXeuD728EqVDDwQDxFMNo".
Definition memo_program_id : Address :=
  Eval vm_compute in from_str_const "MemoSq4gqABAXKb96qnH8TysNcWxMyWCqXgDLGmfcHr".
Definition associated_token_program_id : Address :=
  Eval vm_compute in from_str_const "ATokenGPvbdGVxr1b2hvZbsiqW5xWH25efTNsLJA8knL".

Definition DEFAULT_PROGRAM_IDS : list Address :=
  [token_program_id; token_2022_program_id; memo_v1_program_id; memo_program_id;
   associated_token_program_id; config_program_id; address_lookup_table_id; stake_program_id].

Definition SPL_PROGRAM_IDS : list Address :=
  [token_program_id; token_2022_program_id; associated_token_program_id].

(** The programs with their files and loaders, in load order. *)
Definition spl_programs (flags : TxFeatureFlags) : list (Address * string * Address) :=
  [(if flags_is_enabled flags ReplaceSplTokenWithPToken
    then (token_program_id, "pinocchio_token_program.so", bpf_loader_upgradeable_id)
    else (token_program_id, "spl_token-3.5.0.so", bpf_loader_id));
   (token_2022_program_id, "spl_token_2022-10.0.0.so", bpf_loader_upgradeable_id);
   (associated_token_program_id, "spl_associated_token_account-1.1.1.so", bpf_loader_id)].

Definition non_spl_default_programs : list (Address * string * Address) :=
  [(memo_v1_program_id, "spl_memo-1.0.0.so", bpf_loader_deprecated_id);
   (memo_program_id, "spl_memo-3.0.0.so", bpf_loader_id);
   (config_program_id, "config.so", bpf_loader_upgradeable_id);
   (address_lookup_table_id, "address_lookup_table.so", bpf_loader_upgradeable_id);
   (stake_program_id, "core_bpf_stake.so", bpf_loader_upgradeable_id)].

Fixpoint load_programs (l : list (Address * string * Address)) (s : VmSt) : option VmSt :=
  match l with
  | [] => Some s
  | (program_id, file, loader_id) :: rest =>
      match add_program_preverified program_id (include_bytes file) loader_id s with
      | (Ok _, s1) => load_programs rest s1
      | (Err _, _) => None
      end
  end.

Definition load_spl_programs (s : VmSt) : option VmSt :=
  let s1 : VmSt := (mark_spl_programs s.1, s.2) in
  load_programs (spl_programs (flags_load (v_feature_set (version s1.1)))) s1.

Definition load_default_programs (s : VmSt) : option VmSt :=
  let s1 : VmSt := (mark_default_programs s.1, s.2) in
  load_programs (spl_programs (flags_load (v_feature_set (version s1.1))) ++
                 non_spl_default_programs) s1.

(** ** Precompiles, [precompiles.rs] *)

Fixpoint install_precompiles (l : list Address) (s : VmSt) : option VmSt :=
  match l with
  | [] => Some s
  | program_id :: rest =>
      if precompile_enabled (precompiles (extensions s.1)) program_id (v_feature_set (version s.1))
      then match set_account program_id (mkAccount 1 [] native_loader_id true 0) s with
           | (Ok _, s1) => install_precompiles rest s1
           | (Err _, _) => None
           end
      else install_precompiles rest s
  end.

Definition load_precompiles (s : VmSt) : option VmSt :=
  install_precompiles (precompile_program_ids (precompiles (extensions s.1))) s.

(** ** Feature reconfiguration *)

(** [if c { f }] of a step that may panic. *)
Definition when (c : bool) (f : VmSt -> option VmSt) (s : VmSt) : option VmSt :=
  if c then f s else Some s.

Definition and_then (f g : VmSt -> option VmSt) (s : VmSt) : option VmSt :=
  match f s with Some s' => g s' | None => None end.

(** The steps before the final rebuild. *)
Definition reconfigure_features (previous_feature_set : FeatureSet) (s : VmSt) : option VmSt :=
  when (mat_feature_accounts (materialized s.1))
    (fun s => Some (materialize_feature_accounts (clear_feature_accounts previous_feature_set s))) s.

Definition reconfigure_clear_programs (s : VmSt) : option VmSt :=
  and_then
    (fun s => when (mat_default_programs (materialized s.1))
       (fun s => Some (clear_programs DEFAULT_PROGRAM_IDS s)) s)
    (fun s => when (mat_spl_programs (materialized s.1))
       (fun s => Some (clear_programs SPL_PROGRAM_IDS s)) s) s.

Definition reconfigure_builtins (ptr : positive) (s : VmSt) : option VmSt :=
  if mat_builtins (materialized s.1) then load_builtins ptr (clear_builtin_accounts s)
  else when (match custom_syscalls (runtime_registry (extensions s.1)) with
             | [] => false | _ => true end)
         (refresh_runtime_environments ptr) s.

Definition reconfigure_precompiles (s : VmSt) : option VmSt :=
  when (standard_precompiles (runtime_registry (extensions s.1)))
    (fun s => load_precompiles (clear_precompile_accounts s)) s.

Definition reconfigure_load_programs (s : VmSt) : option VmSt :=
  and_then (fun s => when (mat_default_programs (materialized s.1)) load_default_programs s)
    (fun s => when (mat_spl_programs (materialized s.1)) load_spl_programs s) s.

Definition reconfigure_steps (ptr : positive) (previous_feature_set : FeatureSet) :
    VmSt -> option VmSt :=
  and_then (reconfigure_features previous_feature_set)
    (and_then reconfigure_clear_programs
       (and_then (reconfigure_builtins ptr)
          (and_then reconfigure_precompiles reconfigure_load_programs))).

Definition reconfigure_materialized_feature_state (ptr : positive)
    (previous_feature_set : FeatureSet) (s : VmSt) : option (result unit HPSVMError * VmSt) :=
  match reconfigure_steps ptr previous_feature_set s with
  | None => None
  | Some s1 =>
      let '(r, s2) := on_db rebuild_program_cache (svm_sync_jit_policy s1.1, s1.2) in
      Some (map_err HInstruction r, s2)
  end.

Definition set_features (f : FeatureSet) (keys : ReservedKeys) (v : Svm) : Svm :=
  let e := extensions v in
  set_extensions (mkSvmExtensions (ext_inspector e) (inspection_origin e) (registry e)
    (precompiles e) (tier_promoter e) (runtime_registry e) keys)
    (set_version (version_set_feature_set f (version v)) v).

Definition set_feature_set (ptr : positive) (feature_set : FeatureSet) (s : VmSt) :
    option (result unit HPSVMError * VmSt) :=
  let previous_feature_set := v_feature_set (version s.1) in
  let previous_accounts := accounts_clone (accounts (state s.1)) in
  let previous_keys := reserved_account_keys (extensions s.1) in
  let s1 : VmSt := (set_features feature_set (reserved_for feature_set) s.1, s.2) in
  match reconfigure_materialized_feature_state ptr previous_feature_set s1 with
  | None => None
  | Some (Ok _, s2) => Some (Ok tt, s2)
  | Some (Err error, s2) =>
      let v3 := set_accounts previous_accounts (set_features previous_feature_set previous_keys s2.1) in
      let '(_, s4) := on_db rebuild_program_cache (svm_sync_jit_policy v3, s2.2) in
      Some (Err error, s4)
  end.

(** [register_custom_syscall]. *)
Definition push_syscall (name : string) (syscall : BuiltinFn) (v : Svm) : Svm :=
  let e := extensions v in
  let r := runtime_registry e in
  set_extensions (mkSvmExtensions (ext_inspector e) (inspection_origin e) (registry e)
    (precompiles e) (tier_promoter e)
    (mkRuntimeRegistry (custom_syscalls r ++ [(name, syscall)]) (standard_precompiles r))
    (reserved_account_keys e)) v.

Definition register_custom_syscall (ptr : positive) (name : string) (syscall : BuiltinFn) :
    M VmSt HPSVMError unit :=
  do! smodify (fun s => (push_syscall name syscall s.1, s.2)) in
  do! try_refresh_runtime_environments ptr in
  do! smodify (fun s => (svm_sync_jit_policy s.1, s.2)) in
  (fun s => let '(r, s') := on_db rebuild_program_cache s in (map_err HInstruction r, s')).

End VmPrograms.
