(* ===== verification/VmProgramsFacts.v ===== *)
(** * Facts about deployment and reconfiguration

    A deployed program reads back as the bytes given and reloads to the very entry
    it was deployed with; both levels of the entry cache only answer entries built
    from the bytes asked for; a failed [set_feature_set] restores the VM.  Three
    results state limits: a failed [add_program] makes every later rebuild fail, a
    rebuild drops a builtin added by [add_builtin], and a rejected custom syscall
    makes [set_feature_set] panic. *)

From Stdlib Require Import ZArith Lia Strings.Byte.
From stdpp Require Import base tactics option list sets gmap strings.
From S2P Require Import Prelude.
From S2P Require Import Types.
From S2P Require Import AccountSource.
From S2P Require Import Errors.
From S2P Require Import Lru.
From S2P Require Import History.
From S2P Require Import Runtime.
From S2P Require Import AccountsDb.
From S2P Require Import Overlay.
From S2P Require Import CacheCoherence.
From S2P Require Import Version.
From S2P Require Import TxRuntime.
From S2P Require Import Svm.
From S2P Require Import VmPrograms.

Section VmProgramsFacts.
Context {tgt : Target} {ids : SdkIds} {idsok : SdkIdsOk} {sv : SysvarRuntime} {svl : SysvarLaws}
        {pr : ProgramRuntime} {pc : ProgramCacheOps} {pcl : ProgramCacheLaws}
        {Lst : Lru ProgramEntryKey Entry} {LstL : LruLaws ProgramEntryKey Entry}
        {Lhist : Lru Signature TransactionResult} {fs : FeatureSets} {bud : Budgets}
        {tx : TxRuntime} {dr : DeployRuntime}.

Notation db v := (accounts (state v)).

(** ** The deployed accounts *)

Lemma slice_from_buffer state len rest :
  (length state <= len)%nat -> slice_from len (state_buffer state len ++ rest) = Some rest.
Proof.
  intros Hle. assert (Hl : length (state_buffer state len) = len).
  { unfold state_buffer, zeros. rewrite length_app, length_replicate. lia. }
  unfold slice_from. destruct (Nat.leb_spec len (length (state_buffer state len ++ rest))) as [_|H].
  - by rewrite drop_app_length' by done.
  - rewrite length_app in H. lia.
Qed.

Lemma state_buffer_decode {dl : DeployLaws} seed program len :
  upgradeable_state (state_buffer (encode_program (find_program_address seed program)) len) =
  Some (LoaderProgram (find_program_address seed program)).
Proof. apply decode_program, find_program_address_valid. Qed.

Lemma bpf_loaders_not_native loader :
  loader = bpf_loader_upgradeable_id \/ loader = bpf_loader_id \/ loader = bpf_loader_deprecated_id ->
  loader <> native_loader_id.
Proof.
  pose proof loaders_distinct as Hnd. rewrite !NoDup_cons in Hnd. set_solver.
Qed.

(** The program account that a deployment installs resolves to the bytes. *)
Lemma deploy_accounts_resolve {dl : DeployLaws} program_id bytes loader v a :
  find_program_address program_id loader <> program_id ->
  deploy_accounts program_id bytes loader v = Some a ->
  exists acc, get_account_ref a program_id = Some acc /\ acc_owner acc = loader /\
    executable acc = true /\ loader <> native_loader_id /\
    try_program_elf_bytes a program_id = Ok bytes /\ resolve_elf a acc = Ok (ResolvedElf bytes loader).
Proof.
  intros Hne. unfold deploy_accounts. case_bool_decide as Hu.
  - intros [= <-]. exists (upgradeable_program_account v (find_program_address program_id loader)).
    assert (Hown : loader <> bpf_loader_id /\ loader <> bpf_loader_deprecated_id).
    { pose proof loaders_distinct as Hnd. rewrite !NoDup_cons in Hnd. set_solver. }
    unfold try_program_elf_bytes, resolve_elf, get_account, try_get_account, get_account_ref. simpl.
    rewrite lookup_insert_eq. simpl. rewrite !state_buffer_decode.
    rewrite lookup_insert_ne, lookup_insert_eq by done. simpl.
    rewrite !slice_from_buffer by apply programdata_state_fits.
    rewrite <- !Hu, !bool_decide_false, !bool_decide_true by naive_solver. simpl.
    split_and!; try done. apply bpf_loaders_not_native. auto.
  - destruct (bool_decide (loader = bpf_loader_id) || _) eqn:Hl; [|done]. intros [= <-].
    exists (bpf_program_account v bytes loader).
    unfold try_program_elf_bytes, resolve_elf, get_account_ref. simpl. rewrite lookup_insert_eq. simpl.
    rewrite Hl. split_and!; try done. apply bpf_loaders_not_native.
    apply orb_true_iff in Hl as [Hl|Hl]; apply bool_decide_eq_true in Hl; auto.
Qed.

Lemma deploy_accounts_frame program_id bytes loader v a :
  deploy_accounts program_id bytes loader v = Some a ->
  frame (db v) a /\ sysvar_cache a = sysvar_cache (db v).
Proof. unfold deploy_accounts. repeat case_match; intros [= <-]; done. Qed.

Lemma sync_policy_policy v : jit_policy (db (svm_sync_jit_policy v)) = v_jit_policy (version v).
Proof. unfold svm_sync_jit_policy. by case_bool_decide. Qed.

Lemma sync_policy_version v :
  version (svm_sync_jit_policy v) = version v /\
  db (svm_sync_jit_policy v) = with_policy (v_jit_policy (version v)) (db v).
Proof.
  unfold svm_sync_jit_policy. case_bool_decide as Hp; [|done].
  split; [done|]. rewrite <- Hp. by destruct (db v).
Qed.

(** What a VM is configured with: everything but its accounts, the slot of its
    block environment, which follows the clock, and the tier promoter, which
    follows the policy. *)
Definition settings (v : Svm) :=
  (version v, history (state v), materialized v, airdrop_pubkey v,
   latest_blockhash (block_env v), be_ext (block_env v), extensions (set_tier_promoter Eager v)).

Lemma sync_policy_settings v : settings (svm_sync_jit_policy v) = settings v.
Proof. unfold svm_sync_jit_policy. by case_bool_decide. Qed.

Lemma on_db_settings {E A} (m : M St E A) s : settings (on_db m s).2.1 = settings s.1.
Proof. unfold on_db. by destruct (m (db_of s)). Qed.

(** A refresh touches the environments of the database and nothing else of the VM. *)
Lemma refresh_frame ptr s :
  settings (try_refresh_runtime_environments ptr s).2.1 = settings s.1 /\
  exists e, db (try_refresh_runtime_environments ptr s).2.1 = with_environments e (db s.1).
Proof.
  destruct s as [v w]. unfold try_refresh_runtime_environments.
  assert (Hid : with_environments (environments (db v)) (db v) = db v) by by destruct (db v).
  repeat (case_match; simplify_eq/=; eauto).
Qed.

(** ** Resolving an entry *)

(** [load_entry] and the [build_entry] of a database under the same policy. *)
Lemma load_entry_build v loader bytes :
  jit_policy (db v) = v_jit_policy (version v) ->
  match load_entry v loader bytes with
  | Ok e => build_entry (db v) bytes loader = Ok e
  | Err _ => is_err (build_entry (db v) bytes loader) = true
  end.
Proof.
  intros Hp. unfold load_entry, build_entry. rewrite Hp.
  destruct (requires_uncompiled_load _ && x86_64).
  - by destruct (load_program_uncompiled _ _ _).
  - by destruct (cache_entry_load _ _ _ _).
Qed.

(** Resolution changes the shared tables only. *)
Lemma resolve_frame cached loader slot program v w :
  (resolve_program_entry cached loader slot program (v, w)).2.1 = v /\
  w_caches (resolve_program_entry cached loader slot program (v, w)).2.2 = w_caches w.
Proof.
  unfold resolve_program_entry, backfill, or_insert.
  repeat (case_match; simplify_eq/=; try done).
Qed.

(** A failed resolution: nothing resident at the content key, and the load itself
    failed. *)
Lemma resolve_err cached loader slot program v w e s' :
  resolve_program_entry cached loader slot program (v, w) = (Err e, s') ->
  lru_peek (store_key_of (db v) (sl_bytes program) loader) (w_store s'.2) = None /\
  load_entry v loader (sl_bytes program) = Err e.
Proof.
  unfold resolve_program_entry. fold (store_key_of (db v) (sl_bytes program) loader).
  set (key := store_key_of _ _ _). case_match; [done|].
  pose proof (lru_peek_get key key (w_store w)) as Hp. pose proof (lru_get_peek key (w_store w)) as Hv.
  unfold store_get, ProgramEntryStore in *. destruct (lru_get key (w_store w)) as [[x|] st]; simpl in *.
  - by destruct (backfill _ _ _).
  - destruct (load_entry v loader _) as [x|e']; [|intros [= -> <-]; simpl; by rewrite Hp].
    destruct (store_insert _ _ _). by destruct (backfill _ _ _).
Qed.

(** An uncached resolution answers what is then resident at the content key. *)
Lemma resolve_uncached_resident loader slot program v w e s' :
  (1 <= lru_cap (w_store w))%Z ->
  resolve_program_entry false loader slot program (v, w) = (Ok e, s') ->
  fst (store_get (store_key_of (db v) (sl_bytes program) loader) (w_store s'.2)) = Some e.
Proof.
  intros Hcap. unfold resolve_program_entry. fold (store_key_of (db v) (sl_bytes program) loader).
  set (key := store_key_of _ _ _). simpl. unfold fast_key. simpl.
  destruct (store_get key (w_store w)) as [[x|] st] eqn:Hg.
  - intros [= -> <-]. simpl. by eapply lru_get_again.
  - destruct (load_entry v loader _) as [x|e']; [|done].
    assert (Hc : (1 <= lru_cap st)%Z).
    { pose proof (lru_get_cap key (w_store w)) as Hc. unfold store_get in Hg.
      rewrite Hg in Hc. simpl in Hc. lia. }
    pose proof (store_insert_resident key x st Hc) as H.
    destruct (store_insert key x st) as [res st']. intros [= -> <-]. exact H.
Qed.

(** A load whose key is resident answers the resident entry. *)
Lemma load_program_hit acc a w elf loader clock e :
  sc_get_clock (sysvar_cache a) = Some clock -> resolve_elf a acc = Ok (ResolvedElf elf loader) ->
  fst (store_get (store_key_of a elf loader) (w_store w)) = Some e ->
  (load_program acc (a, w)).1 = Ok e.
Proof.
  intros Hc Hr Hg. unfold load_program. rewrite Hc, Hr. unfold store_key_of in Hg.
  destruct (store_get _ (w_store w)) as [o st]. simpl in Hg. by subst o.
Qed.

(** C15: a deployed program reads back and reloads.  After [add_program_with_loader]
    succeeds, the bytes of the program as the VM resolves them are the bytes given,
    the program account is executable and owned by the loader, the program cache
    has an entry for it, and loading the account again, as any rebuild does,
    answers that very entry. *)
Theorem add_program_roundtrip {dl : DeployLaws} (program_id loader : Address) (program : ByteSlice)
    (s s' : VmSt) (clock : Clock) :
  (1 <= lru_cap (w_store s.2))%Z ->
  find_program_address program_id loader <> program_id ->
  sc_get_clock (sysvar_cache (db s.1)) = Some clock ->
  add_program_with_loader program_id program loader s = (Ok tt, s') ->
  try_program_elf_bytes (db s'.1) program_id = Ok (sl_bytes program) /\
  exists acc e, get_account_ref (db s'.1) program_id = Some acc /\ acc_owner acc = loader /\
    executable acc = true /\ pc_entries (committed (db_of s')) !! program_id = Some e /\
    (load_program acc (db_of s')).1 = Ok e.
Proof.
  intros Hcap Hne Hclock. unfold add_program_with_loader, add_program_internal.
  destruct (sync_policy_version s.1) as [Hv Hsv]. apply (f_equal sysvar_cache) in Hsv. simpl in Hsv.
  set (v := svm_sync_jit_policy s.1) in *.
  destruct (deploy_accounts program_id (sl_bytes program) loader v) as [a|] eqn:Hd; [|done].
  destruct (deploy_accounts_resolve _ _ _ _ _ Hne Hd) as (acc & Hacc & Ho & Hx & _ & Helf & Hres).
  destruct (deploy_accounts_frame _ _ _ _ _ Hd) as [_ Hsa].
  intros (e & [v1 w1] & Hr & Hm)%sbind_ok.
  pose proof (resolve_frame false loader (current_slot (db v)) program (set_accounts a v) s.2) as [Hv1 _].
  apply resolve_uncached_resident in Hr as Hg; [|done]. rewrite Hr in Hv1. simpl in Hv1. subst v1.
  unfold smodify in Hm. injection Hm as <-. simpl. split; [done|]. exists acc, e.
  split_and!; [done..| |].
  - unfold committed, db_of. simpl. rewrite cache_at_update, pc_replenish_entries.
    by rewrite lookup_insert_eq.
  - apply (load_program_hit acc a (update_cache (programs_cache a) (pc_replenish program_id e) w1)
             (sl_bytes program) loader clock e); [by rewrite Hsa, Hsv|exact Hres|exact Hg].
Qed.

(** ** A program that cannot be built *)

(** The bytes have no collision under the digest. *)
Definition collision_free (bytes : list byte) : Prop :=
  forall other, sha256 other = sha256 bytes -> other = bytes.

(** While [bytes] cannot be built, no load makes its key resident. *)
Lemma load_program_absent a w acc bytes loader :
  collision_free bytes -> is_err (build_entry a bytes loader) = true ->
  lru_peek (store_key_of a bytes loader) (w_store w) = None ->
  lru_peek (store_key_of a bytes loader) (w_store (load_program acc (a, w)).2.2) = None.
Proof.
  intros Hcf Herr Habs. unfold load_program. set (key := store_key_of a bytes loader) in *.
  destruct (sc_get_clock _); [|done]. destruct (resolve_elf a acc) as [[elf l|]|]; [|done|done].
  set (key1 := content_key _ _ _ _).
  pose proof (lru_peek_get key1 key (w_store w)) as Hp.
  unfold store_get, ProgramEntryStore in *. destruct (lru_get key1 (w_store w)) as [[x|] st]; simpl in *;
    [congruence|].
  destruct (build_entry a elf l) as [e|] eqn:Hb; simpl; [|congruence].
  unfold store_insert. pose proof (lru_peek_get key1 key st) as Hp'.
  destruct (lru_get key1 st) as [[x|] st']; simpl in *; [congruence|].
  destruct (lru_peek key (lru_put key1 e st')) as [x|] eqn:Hx; [|done]. exfalso.
  apply lru_peek_put_inv in Hx; [congruence|]. intros Hk. unfold key, key1, store_key_of in Hk.
  injection Hk as Hh ->. apply Hcf in Hh as ->. by rewrite Hb in Herr.
Qed.

Lemma load_program_unbuilt a w acc bytes loader :
  is_err (build_entry a bytes loader) = true ->
  resolve_elf a acc = Ok (ResolvedElf bytes loader) ->
  lru_peek (store_key_of a bytes loader) (w_store w) = None ->
  exists e, (load_program acc (a, w)).1 = Err e.
Proof.
  intros Herr Hr Habs. unfold load_program. destruct (sc_get_clock _); [|by eexists].
  rewrite Hr. fold (store_key_of a bytes loader). pose proof (lru_get_peek (store_key_of a bytes loader) (w_store w)) as Hg.
  unfold store_get, ProgramEntryStore in *.
  destruct (lru_get _ (w_store w)) as [[x|] st]; simpl in *; [congruence|].
  destruct (build_entry a bytes loader); [done|]. by eexists.
Qed.

Lemma load_all_unbuilt l c a w k acc bytes loader :
  collision_free bytes -> is_err (build_entry a bytes loader) = true -> (k, acc) ∈ l ->
  resolve_elf a acc = Ok (ResolvedElf bytes loader) ->
  lru_peek (store_key_of a bytes loader) (w_store w) = None ->
  exists e, (load_all l c (a, w)).1 = Err e.
Proof.
  intros Hcf Herr Hl Hr. revert c w.
  induction l as [|[k1 acc1] l IH]; intros c w Habs; [set_solver|].
  simpl. unfold sbind. pose proof (load_program_absent a w acc1 bytes loader Hcf Herr Habs) as Hw.
  pose proof (load_program_accounts acc1 (a, w)) as Ha.
  apply elem_of_cons in Hl as [Heq|Hl].
  - injection Heq as -> ->. destruct (load_program_unbuilt a w acc1 bytes loader Herr Hr Habs) as [e He].
    destruct (load_program acc1 (a, w)) as [[x|e1] s1]; simpl in *; [done|eauto].
  - destruct (load_program acc1 (a, w)) as [[x|e1] [a1 w1]]; simpl in *; [|eauto].
    subst a1. by apply IH.
Qed.

Lemma rebuild_unbuilt a w k acc bytes loader :
  collision_free bytes -> is_err (build_entry a bytes loader) = true ->
  inner (cache a) !! k = Some acc -> is_cached_program_account k acc = true ->
  resolve_elf a acc = Ok (ResolvedElf bytes loader) ->
  lru_peek (store_key_of a bytes loader) (w_store w) = None ->
  exists e, (rebuild_program_cache (a, w)).1 = Err e.
Proof.
  intros Hcf Herr Hin Hp Hr Habs. unfold rebuild_program_cache, sbind. cbn [fst snd].
  assert (Hl : (k, acc) ∈ program_accounts a).
  { unfold program_accounts. rewrite list_elem_of_filter, elem_of_map_to_list. done. }
  match goal with |- context [load_all ?l ?c (a, w)] =>
    destruct (load_all_unbuilt l c a w k acc bytes loader Hcf Herr Hl Hr Habs) as [e He];
    destruct (load_all l c (a, w)) as [[x|e1] s1] end; simpl in *; [done|eauto].
Qed.

(** A failed deployment is not undone.  When [add_program_internal] fails for a
    loader it does not know, only the tiering policy was synchronized.  When the
    load itself fails, no program cache has changed but the program account stays
    in the overlay, and from then on every rebuild of the program cache fails, so
    [set_feature_set], [register_custom_syscall] and the replacement of any program
    account fail too. *)
Theorem failed_add_program_poisons_rebuild {dl : DeployLaws} (cached : bool)
    (program_id loader : Address) (program : ByteSlice) (s s' : VmSt) (e : HPSVMError) :
  find_program_address program_id loader <> program_id -> program_id <> Address_default ->
  collision_free (sl_bytes program) ->
  add_program_internal cached program_id program loader s = (Err e, s') ->
  w_caches s'.2 = w_caches s.2 /\
  ((e = InvalidLoader program_id loader /\ s' = (svm_sync_jit_policy s.1, s.2)) \/
   (try_program_elf_bytes (db s'.1) program_id = Ok (sl_bytes program) /\
    exists e', (rebuild_program_cache (db_of s')).1 = Err e')).
Proof.
  intros Hne Hdef Hcf. unfold add_program_internal.
  pose proof (sync_policy_policy s.1) as Hpol. destruct (sync_policy_version s.1) as (Hv & _).
  set (v := svm_sync_jit_policy s.1) in *.
  destruct (deploy_accounts program_id (sl_bytes program) loader v) as [a|] eqn:Hd;
    [|intros [= <- <-]; by auto].
  destruct (deploy_accounts_resolve _ _ _ _ _ Hne Hd) as (acc & Hacc & Ho & Hx & Hnat & Helf & Hres).
  destruct (deploy_accounts_frame _ _ _ _ _ Hd) as [(_ & _ & _ & Hp) _].
  intros [Hr|(x & [v1 w1] & _ & Hm)]%sbind_err; [|done].
  destruct (resolve_frame cached loader (current_slot (db v)) program (set_accounts a v) s.2) as [Hv1 Hw1].
  apply resolve_err in Hr as Hg. rewrite Hr in Hv1, Hw1. destruct s' as [v1 w1]. simpl in *. subst v1.
  split; [done|]. right. split; [done|]. destruct Hg as [Habs Hload].
  pose proof (load_entry_build (set_accounts a v) loader (sl_bytes program)) as Hb.
  rewrite Hload in Hb. simpl in Hb. rewrite Hp, Hpol, Hv in Hb.
  eapply rebuild_unbuilt; [done|by apply Hb|exact Hacc| |exact Hres|exact Habs].
  unfold is_cached_program_account. rewrite Hx, Ho. by rewrite !bool_decide_false.
Qed.

(** ** Builtins added by hand *)

(** A rebuild forgets hand-added builtins.  [add_builtin] makes the program
    callable: its account is in the overlay and its entry in the program cache.
    Any successful [register_custom_syscall] afterwards (or any other rebuild)
    leaves the account in place but drops the entry, unless the id is one of the
    runtime's own builtins. *)
Theorem rebuild_drops_added_builtin (program_id : Address) (entrypoint syscall : BuiltinFn)
    (ptr : positive) (name : string) (s s' : VmSt) :
  let s1 := add_builtin program_id entrypoint s in
  pc_entries (committed (db_of s1)) !! program_id = Some (new_builtin entrypoint) /\
  (builtin_of program_id = None ->
   register_custom_syscall ptr name syscall s1 = (Ok tt, s') ->
   get_account_ref (db s'.1) program_id = get_account_ref (db s1.1) program_id /\
   is_Some (get_account_ref (db s'.1) program_id) /\
   pc_entries (committed (db_of s')) !! program_id = None).
Proof.
  intros s1. assert (Hi : inner (cache (db s1.1)) !! program_id =
                          Some (mkAccount 1 [x00] native_loader_id true 0)).
  { unfold s1, add_builtin. simpl. by rewrite lookup_insert_eq. }
  split.
  { unfold committed, db_of, s1, add_builtin. simpl.
    by rewrite cache_at_update, pc_replenish_entries, lookup_insert_eq. }
  intros Hb. unfold register_custom_syscall.
  intros (? & s2 & H2 & (? & s3 & H3 & (? & s4 & H4 & Hr)%sbind_ok)%sbind_ok)%sbind_ok.
  assert (Hc : cache (db s4.1) = cache (db s1.1)).
  { unfold smodify in *. injection H2 as <- <-. injection H4 as <- <-. cbn [fst snd].
    trans (cache (db s3.1)); [by rewrite (proj2 (sync_policy_version s3.1))|].
    match type of H3 with _ ?s0 = _ => destruct (refresh_frame ptr s0) as [_ [e He]] end.
    rewrite H3 in He. simpl in He. by rewrite He. }
  unfold on_db in Hr. destruct (rebuild_program_cache (db_of s4)) as [[u|err] d] eqn:Hd; [|done].
  simpl in Hr. injection Hr as _ <-. pose proof (rebuild_program_cache_accounts (db_of s4)) as Ha.
  rewrite Hd in Ha. simpl in Ha. unfold get_account_ref. simpl. rewrite Ha, Hc.
  split; [done|]. split; [by rewrite Hi|].
  apply rebuild_program_cache_entries in Hd as [_ He]. specialize (He program_id).
  unfold db_of in He. simpl in He. rewrite Hc, Hi in He. unfold is_cached_program_account in He. simpl in He.
  rewrite (bool_decide_true (native_loader_id = native_loader_id)), andb_false_r, Hb in He by done.
  by destruct d.
Qed.

(** ** Both levels of the entry cache *)

(** [heap] is the static memory the keys of the fast path point into; an entry
    there is justified like one of the store for the bytes its key points to. *)
Definition fast_sound (env_of : positive -> RuntimeEnvs) (heap : positive -> Z -> list byte)
    (m : gmap (positive * positive * Z * Address) Entry) : Prop :=
  forall env_ptr slice_ptr len loader e, m !! (env_ptr, slice_ptr, len, loader) = Some e ->
  justified env_of (content_key env_ptr (heap slice_ptr len) loader IMMEDIATE_DEPLOYMENT_SLOT) e.

Definition tables_sound (env_of : positive -> RuntimeEnvs) (heap : positive -> Z -> list byte)
    (w : World) : Prop :=
  store_sound env_of (w_store w) /\ fast_sound env_of heap (w_default_programs w).

Lemma backfill_sound env_of heap key e w :
  tables_sound env_of heap w ->
  (forall env_ptr slice_ptr len loader, key = Some (env_ptr, slice_ptr, len, loader) ->
   justified env_of (content_key env_ptr (heap slice_ptr len) loader IMMEDIATE_DEPLOYMENT_SLOT) e) ->
  tables_sound env_of heap (backfill key e w).2 /\
  ((backfill key e w).1 = e \/
   exists env_ptr slice_ptr len loader, key = Some (env_ptr, slice_ptr, len, loader) /\
   justified env_of (content_key env_ptr (heap slice_ptr len) loader IMMEDIATE_DEPLOYMENT_SLOT)
     (backfill key e w).1).
Proof.
  intros [Hst Hf] Hk. destruct key as [[[[p q] len] l]|]; [|split; [done|by left]]. simpl. unfold or_insert.
  destruct (w_default_programs w !! (p, q, len, l)) as [x|] eqn:Hl; simpl.
  - split; [done|]. right. exists p, q, len, l. split; [done|]. by apply Hf.
  - split; [|by left]. split; [done|]. intros p' q' len' l' e'. simpl.
    destruct (decide ((p', q', len', l') = (p, q, len, l))) as [Heq|Hne].
    + rewrite Heq, lookup_insert_eq. intros [= <-]. injection Heq as -> -> -> ->. by apply Hk.
    + rewrite lookup_insert_ne by congruence. apply Hf.
Qed.

Lemma fast_key_some cached v w loader slot program p q len l :
  fast_key cached v w loader slot program = Some (p, q, len, l) ->
  p = (environments (db v)).1 /\ q = sl_ptr program /\ len = Z.of_nat (length (sl_bytes program)) /\
  l = loader.
Proof.
  unfold fast_key, shared_default_env_ptr. destruct (cached && _)%bool; [|done].
  destruct (w_default_env w) as [[d ?]|]; [|done]. simpl. case_bool_decide; [|done]. naive_solver.
Qed.

(** Resolution keeps both tables sound and answers a justified entry. *)
Lemma resolve_sound env_of heap cached loader slot program v w :
  tables_sound env_of heap w -> jit_policy (db v) = v_jit_policy (version v) ->
  (environments (db v)).2 = env_of (environments (db v)).1 ->
  heap (sl_ptr program) (Z.of_nat (length (sl_bytes program))) = sl_bytes program ->
  let '(r, s') := resolve_program_entry cached loader slot program (v, w) in
  tables_sound env_of heap s'.2 /\
  forall e, r = Ok e -> justified env_of (store_key_of (db v) (sl_bytes program) loader) e.
Proof.
  intros Hw Hp Henv Hheap. unfold resolve_program_entry.
  fold (store_key_of (db v) (sl_bytes program) loader). set (key := store_key_of _ _ _).
  assert (Hfk : forall p q len l e, fast_key cached v w loader slot program = Some (p, q, len, l) ->
    justified env_of key e <->
    justified env_of (content_key p (heap q len) l IMMEDIATE_DEPLOYMENT_SLOT) e).
  { intros p q len l e (-> & -> & -> & ->)%fast_key_some. by rewrite Hheap. }
  assert (Hback : forall e w1, tables_sound env_of heap w1 -> justified env_of key e ->
    tables_sound env_of heap (backfill (fast_key cached v w loader slot program) e w1).2 /\
    justified env_of key (backfill (fast_key cached v w loader slot program) e w1).1).
  { intros e w1 Hw1 He. edestruct (backfill_sound env_of heap) as [H1 H2]; [done|..].
    - intros p q len l Hk. by apply (Hfk _ _ _ _ _ Hk).
    - split; [done|]. destruct H2 as [->|(p & q & len & l & Hk & Hj)]; [done|]. by apply (Hfk _ _ _ _ _ Hk). }
  destruct (fast_key cached v w loader slot program ≫= _) as [e|] eqn:Hhit.
  { split; [done|]. intros e' [= <-]. apply bind_Some in Hhit as ([[[p q] len] l] & Hk & Hl).
    apply (Hfk _ _ _ _ _ Hk). by apply (proj2 Hw). }
  destruct Hw as [Hst Hf]. pose proof (store_get_sound env_of key _ Hst) as Hg.
  destruct (store_get key (w_store w)) as [[x|] st] eqn:Hsg; simpl in Hg.
  - destruct (Hback x (set_store st w)) as [H1 H2]; [done| |].
    { apply (proj2 Hst). by eapply lru_get_elem. }
    destruct (backfill _ _ _) as [y w1]. split; [done|]. by intros e [= <-].
  - pose proof (load_entry_build v loader (sl_bytes program) Hp) as Hb.
    destruct (load_entry v loader (sl_bytes program)) as [x|e]; [|split; [done|discriminate]].
    assert (Hx : justified env_of key x).
    { exists (db v), (sl_bytes program). split; [|done]. simpl. rewrite <- Henv. by destruct (environments _). }
    pose proof (store_insert_sound env_of key x st Hx Hg) as Hi.
    destruct (store_insert key x st) as [y st'] eqn:Hins. simpl in Hi.
    destruct (Hback y (set_store st' w)) as [H1 H2]; [done| |].
    { unfold store_insert, ProgramEntryStore in *.
      destruct (lru_get key st) as [[z|] st1] eqn:Hlg; simplify_eq; [|done].
      apply (proj2 Hg). by eapply lru_get_elem. }
    destruct (backfill _ _ _) as [z w1]. split; [done|]. by intros e [= <-].
Qed.

(** C16: a deployment never installs a foreign executable.  If the resident store
    and the process-wide fast path only hold entries built, under the environment
    of their key, from the bytes of their key, then they still do after any
    deployment, and a successful one installs for the program an entry built
    under the VM's own environment, for the loader asked for, from bytes with the
    digest of the bytes given: whether it was found in the fast path, in the store
    or built on the spot. *)
Theorem deployed_entry_sound (env_of : positive -> RuntimeEnvs) (heap : positive -> Z -> list byte)
    (cached : bool) (program_id loader : Address) (program : ByteSlice) (s s' : VmSt)
    (r : result unit HPSVMError) :
  tables_sound env_of heap s.2 ->
  (environments (db s.1)).2 = env_of (environments (db s.1)).1 ->
  heap (sl_ptr program) (Z.of_nat (length (sl_bytes program))) = sl_bytes program ->
  add_program_internal cached program_id program loader s = (r, s') ->
  tables_sound env_of heap s'.2 /\
  (r = Ok tt -> exists e a elf, pc_entries (committed (db_of s')) !! program_id = Some e /\
    sha256 elf = sha256 (sl_bytes program) /\ environments a = environments (db s.1) /\
    build_entry a elf loader = Ok e).
Proof.
  intros Hw Henv Hheap. unfold add_program_internal. destruct (sync_policy_version s.1) as [Hv Hdb].
  pose proof (sync_policy_policy s.1) as Hpol. set (v := svm_sync_jit_policy s.1) in *.
  apply (f_equal environments) in Hdb as He. simpl in He.
  destruct (deploy_accounts program_id (sl_bytes program) loader v) as [a|] eqn:Hd;
    [|by intros [= <- <-]].
  destruct (deploy_accounts_frame _ _ _ _ _ Hd) as [(_ & _ & Hea & Hp) _].
  assert (Hae : environments a = environments (db s.1)) by congruence.
  pose proof (resolve_sound env_of heap cached loader (current_slot (db v)) program
    (set_accounts a v) s.2 Hw ltac:(simpl; congruence) ltac:(simpl; congruence) Hheap) as Hr.
  destruct (resolve_frame cached loader (current_slot (db v)) program (set_accounts a v) s.2) as [Hv1 _].
  unfold sbind, smodify.
  destruct (resolve_program_entry _ _ _ _ _) as [[e|e] [v1 w1]]; simpl in Hv1; subst v1;
    destruct Hr as [H1 H2].
  - intros [= <- <-]. split; [done|]. intros _.
    destruct (H2 e eq_refl) as (a' & elf & Ha' & Hk & Hb). exists e, a', elf.
    unfold store_key_of in *. simpl in *. split_and!; [|by injection Hk| |done].
    + unfold committed, db_of. simpl. by rewrite cache_at_update, pc_replenish_entries, lookup_insert_eq.
    + rewrite Ha', Hae, <- Henv. by destruct (environments (db s.1)).
  - by intros [= <- <-].
Qed.

(** ** Reconfiguration keeps the settings *)

Definition preserves (f : VmSt -> option VmSt) : Prop :=
  forall s s', f s = Some s' -> settings s'.1 = settings s.1.

Lemma preserves_and_then f g : preserves f -> preserves g -> preserves (and_then f g).
Proof.
  intros Hf Hg s s'. unfold and_then. destruct (f s) as [s1|] eqn:H; [|done].
  intros ->%Hg. by apply Hf.
Qed.

Lemma preserves_when (c : VmSt -> bool) f :
  (forall s s', c s = true -> f s = Some s' -> settings s'.1 = settings s.1) ->
  preserves (fun s => when (c s) f s).
Proof. intros Hf s s'. unfold when. destruct (c s) eqn:Hc; [by apply Hf|by intros [= <-]]. Qed.

Lemma run_db_settings f s : settings (run_db f s).1 = settings s.1.
Proof. done. Qed.

(** Marking what is already materialized changes nothing. *)
Lemma mark_settings v :
  (mat_builtins (materialized v) = true -> settings (mark_builtins v) = settings v) /\
  (mat_default_programs (materialized v) = true -> settings (mark_default_programs v) = settings v) /\
  (mat_spl_programs (materialized v) = true -> settings (mark_spl_programs v) = settings v) /\
  (mat_feature_accounts (materialized v) = true -> settings (mark_feature_accounts v) = settings v).
Proof. destruct v as [st ver be ext [] ak]. split_and!; simpl; by intros ->. Qed.

Lemma refresh_preserves ptr : preserves (refresh_runtime_environments ptr).
Proof.
  intros s s'. unfold refresh_runtime_environments. destruct (refresh_frame ptr s) as [H _].
  destruct (try_refresh_runtime_environments ptr s) as [[u|e] s1]; [|done]. by intros [= <-].
Qed.

Lemma load_builtins_settings ptr s s' :
  mat_builtins (materialized s.1) = true -> load_builtins ptr s = Some s' ->
  settings s'.1 = settings s.1.
Proof.
  intros Hm. unfold load_builtins.
  destruct (refresh_runtime_environments ptr _) as [s1|] eqn:H; [|done]. intros [= <-].
  rewrite run_db_settings, (refresh_preserves _ _ _ H). by apply mark_settings.
Qed.

Lemma add_program_settings cached program_id program loader s :
  settings (add_program_internal cached program_id program loader s).2.1 = settings s.1.
Proof.
  unfold add_program_internal, sbind, smodify. rewrite <- (sync_policy_settings s.1).
  set (v := svm_sync_jit_policy s.1). destruct (deploy_accounts _ _ _ v) as [a|]; [|done].
  destruct (resolve_frame cached loader (current_slot (db v)) program (set_accounts a v) s.2) as [H _].
  destruct (resolve_program_entry _ _ _ _ _) as [[e|e] s1]; simpl in *; by rewrite H.
Qed.

Lemma load_programs_preserves l : preserves (load_programs l).
Proof.
  induction l as [|[[k f] loader] l IH]; intros s s'; simpl; [by intros [= <-]|].
  unfold add_program_preverified. pose proof (add_program_settings true k (include_bytes f) loader s) as H.
  destruct (add_program_internal _ _ _ _ _) as [[u|e] s1]; [|done]. intros ->%IH. exact H.
Qed.

Lemma set_account_settings k acc s : settings (set_account k acc s).2.1 = settings s.1.
Proof.
  unfold set_account, sbind, smodify. rewrite <- (sync_policy_settings s.1).
  pose proof (on_db_settings (add_account k acc) (svm_sync_jit_policy s.1, s.2)) as H.
  destruct (on_db (add_account k acc) _) as [[u|e] s1]; exact H.
Qed.

Lemma install_precompiles_preserves l : preserves (install_precompiles l).
Proof.
  induction l as [|k l IH]; intros s s'; simpl; [by intros [= <-]|].
  destruct (precompile_enabled _ _ _); [|apply IH].
  pose proof (set_account_settings k (mkAccount 1 [] native_loader_id true 0) s) as H.
  destruct (set_account k _ s) as [[u|e] s1]; [|done]. intros ->%IH. exact H.
Qed.

Lemma reconfigure_features_preserves f : preserves (reconfigure_features f).
Proof.
  apply (preserves_when (fun s => mat_feature_accounts (materialized s.1))). intros s s' Hm [= <-].
  unfold materialize_feature_accounts. rewrite run_db_settings. cbn [fst].
  trans (settings (clear_feature_accounts f s).1); [by apply mark_settings|apply run_db_settings].
Qed.

Lemma reconfigure_clear_preserves : preserves reconfigure_clear_programs.
Proof.
  apply preserves_and_then.
  - apply (preserves_when (fun s => mat_default_programs (materialized s.1))). by intros s s' _ [= <-].
  - apply (preserves_when (fun s => mat_spl_programs (materialized s.1))). by intros s s' _ [= <-].
Qed.

Lemma reconfigure_builtins_preserves ptr : preserves (reconfigure_builtins ptr).
Proof.
  intros s s'. unfold reconfigure_builtins. destruct (mat_builtins _) eqn:Hm.
  - intros ->%load_builtins_settings; [apply run_db_settings|exact Hm].
  - unfold when. destruct (custom_syscalls _); [by intros [= <-]|apply refresh_preserves].
Qed.

Lemma reconfigure_load_preserves : preserves reconfigure_load_programs.
Proof.
  apply preserves_and_then.
  - apply (preserves_when (fun s => mat_default_programs (materialized s.1))).
    intros s s' Hm ->%load_programs_preserves. by apply mark_settings.
  - apply (preserves_when (fun s => mat_spl_programs (materialized s.1))).
    intros s s' Hm ->%load_programs_preserves. by apply mark_settings.
Qed.

Lemma reconfigure_precompiles_preserves : preserves reconfigure_precompiles.
Proof.
  apply (preserves_when (fun s => standard_precompiles (runtime_registry (extensions s.1)))).
  intros s s' _ ->%install_precompiles_preserves. apply run_db_settings.
Qed.

Lemma reconfigure_preserves ptr f : preserves (reconfigure_steps ptr f).
Proof.
  unfold reconfigure_steps. eauto using preserves_and_then, reconfigure_features_preserves,
    reconfigure_clear_preserves, reconfigure_builtins_preserves, reconfigure_precompiles_preserves,
    reconfigure_load_preserves.
Qed.

(** Changing the features back restores the settings. *)
Lemma set_features_settings v v2 f keys :
  settings v2 = settings (set_features f keys v) ->
  settings (set_features (v_feature_set (version v)) (reserved_account_keys (extensions v)) v2) =
  settings v.
Proof.
  destruct v as [[] [] [] [] ? ?], v2 as [[] [] [] [] ? ?]. unfold settings. simpl.
  intros H. injection H. intros. subst. reflexivity.
Qed.

Lemma settings_version v v' : settings v = settings v' -> version v = version v'.
Proof. intros H. exact (f_equal (fun x => x.1.1.1.1.1.1) H). Qed.

(** C17: a failed [set_feature_set] restores the VM.  Its version, history,
    materialization flags, registries and reserved keys are the ones before the
    call, its accounts too (overlay, tombstones, journal, sysvars, environments,
    source and cache handle) with the tiering policy synchronized, and the last
    thing it did was to rebuild the shared program cache from those accounts. *)
Theorem set_feature_set_failure_restores (ptr : positive) (f : FeatureSet) (s s' : VmSt)
    (e : HPSVMError) :
  set_feature_set ptr f s = Some (Err e, s') ->
  settings s'.1 = settings s.1 /\
  db s'.1 = with_policy (v_jit_policy (version s.1)) (db s.1) /\
  exists w r, rebuild_program_cache (db s'.1, w) = (r, db_of s').
Proof.
  unfold set_feature_set, reconfigure_materialized_feature_state.
  destruct (reconfigure_steps ptr _ _) as [s1|] eqn:H; [|done].
  pose proof (on_db_settings rebuild_program_cache (svm_sync_jit_policy s1.1, s1.2)) as H2.
  destruct (on_db rebuild_program_cache _) as [[u|e1] s2] eqn:Hdb; [done|]. clear Hdb. simpl in H2.
  rewrite sync_policy_settings, (reconfigure_preserves _ _ _ _ H) in H2. cbn [fst snd] in H2. clear H.
  apply set_features_settings in H2. simpl map_err. cbv beta iota.
  set (v3 := set_accounts (accounts_clone (db s.1)) _).
  assert (H3 : settings v3 = settings s.1) by exact H2.
  destruct (sync_policy_version v3) as [Hv Ha]. pose proof (sync_policy_settings v3) as Hs.
  set (v4 := svm_sync_jit_policy v3) in *. unfold on_db.
  pose proof (rebuild_program_cache_accounts (db v4, s2.2)) as Hr.
  unfold db_of. cbn [fst snd].
  destruct (rebuild_program_cache (db v4, s2.2)) as [r4 [a4 w4]] eqn:Hb. intros [= _ <-].
  simpl in *. subst a4. split; [by rewrite <- H3, <- Hs|]. split.
  - trans (with_policy (v_jit_policy (version v3)) (db v3)); [exact Ha|].
    by rewrite (settings_version _ _ H3).
  - by exists s2.2, r4.
Qed.

(** ** Rejected syscalls *)

Lemma build_environment_settings v v' :
  settings v' = settings v -> build_environment v' = build_environment v /\
  is_default_config v' = is_default_config v /\ materialized v' = materialized v /\
  runtime_registry (extensions v') = runtime_registry (extensions v).
Proof.
  destruct v as [[] [] [] [] ? ?], v' as [[] [] [] [] ? ?]. unfold settings. simpl.
  intros H. injection H. intros. by subst.
Qed.

(** Without the shared default environment, a refresh fails when the build does. *)
Lemma refresh_fails ptr s e :
  is_default_config s.1 = false -> build_environment s.1 = Err e ->
  try_refresh_runtime_environments ptr s = (Err e, s).
Proof. intros Hd Hb. destruct s as [v w]. unfold try_refresh_runtime_environments. simpl in *. by rewrite Hd, Hb. Qed.

Lemma custom_not_default v :
  custom_syscalls (runtime_registry (extensions v)) <> [] -> is_default_config v = false.
Proof. unfold is_default_config. destruct (custom_syscalls _); [done|]. by rewrite andb_false_r. Qed.

Lemma reconfigure_builtins_panics ptr s e :
  custom_syscalls (runtime_registry (extensions s.1)) <> [] -> build_environment s.1 = Err e ->
  reconfigure_builtins ptr s = None.
Proof.
  intros Hc Hb. unfold reconfigure_builtins. destruct (mat_builtins _) eqn:Hm.
  - unfold load_builtins, refresh_runtime_environments.
    set (s1 := (mark_builtins _, _)). assert (Hs : settings s1.1 = settings s.1).
    { trans (settings (clear_builtin_accounts s).1); [by apply mark_settings|apply run_db_settings]. }
    apply build_environment_settings in Hs as (H1 & _ & _ & H4).
    rewrite (refresh_fails ptr s1 e); [done| |by rewrite H1]. apply custom_not_default. by rewrite H4.
  - unfold when, refresh_runtime_environments. destruct (custom_syscalls _) eqn:Hcs; [done|].
    rewrite (refresh_fails ptr s e); [done| |done]. apply custom_not_default. congruence.
Qed.

(** A rejected custom syscall stays registered.  When the environment cannot be
    built with a new syscall, [register_custom_syscall] reports the error but keeps
    the registration, and from then on even setting the current feature set again
    panics in the [expect] of the refresh. *)
Theorem rejected_syscall_panics_later (ptr ptr' : positive) (name : string) (syscall : BuiltinFn)
    (s : VmSt) (e : HPSVMError) :
  build_environment (push_syscall name syscall s.1) = Err e ->
  exists s', register_custom_syscall ptr name syscall s = (Err e, s') /\
    custom_syscalls (runtime_registry (extensions s'.1)) =
      custom_syscalls (runtime_registry (extensions s.1)) ++ [(name, syscall)] /\
    set_feature_set ptr' (v_feature_set (version s'.1)) s' = None.
Proof.
  intros Hb. set (s' := (push_syscall name syscall s.1, s.2) : VmSt).
  assert (Hc : custom_syscalls (runtime_registry (extensions s'.1)) <> []).
  { simpl. by destruct (custom_syscalls _). }
  exists s'. split; [|split; [done|]].
  - unfold register_custom_syscall, sbind, smodify. fold s'.
    by rewrite (refresh_fails ptr s' e (custom_not_default _ Hc) Hb).
  - unfold set_feature_set, reconfigure_materialized_feature_state, reconfigure_steps.
    set (s1 := (set_features _ _ _, _) : VmSt).
    assert (Hb1 : build_environment s1.1 = Err e).
    { rewrite <- Hb. unfold s1, s'. destruct s as [[? [] ? ? ? ?] ?]. done. }
    unfold and_then at 1. destruct (reconfigure_features _ s1) as [s2|] eqn:H2; [|done].
    unfold and_then at 1. destruct (reconfigure_clear_programs s2) as [s3|] eqn:H3; [|done].
    apply reconfigure_features_preserves in H2. apply reconfigure_clear_preserves in H3.
    rewrite H2 in H3. apply build_environment_settings in H3 as (Hb3 & _ & _ & Hr3).
    unfold and_then at 1. by rewrite (reconfigure_builtins_panics ptr' s3 e); [|rewrite Hr3|rewrite Hb3].
Qed.

End VmProgramsFacts.
