(* ===== verification/VmOps.v ===== *)
(** * Configuration, sysvars and instruction harnesses, [vm.rs] and [host.rs]

    The setters of [Svm], writing and reading sysvars, warping the clock and
    expiring the blockhash, the airdrop under an empty account source, the
    instruction chains that bypass signature verification, the instruction cases
    run on a clone, and the [Host] facade.  Methods that restore a field after a
    panic are written in [U]: a computation that returns or unwinds, with the
    state it left either way. *)

From Stdlib Require Import ZArith Lia Strings.Byte.
From stdpp Require Import base tactics option list sets gmap strings.
From S2P Require Import Prelude.
From S2P Require Import Types.
From S2P Require Import AccountSource.
From S2P Require Import Errors.
From S2P Require Import Lru.
From S2P Require Import History.
From S2P Require Import Runtime.
From S2P Require Import AccountsDb.
From S2P Require Import FeePayer.
From S2P Require Import Version.
From S2P Require Import TxRuntime.
From S2P Require Import Svm.
From S2P Require Import Execution.
From S2P Require Import Staging.
From S2P Require Import VmPrograms.

(** A sysvar value as [set_sysvar] sees it: its id, its encoding, the encoding of
    its type's default and the name of the type. *)
Record Sysvar : Type := mkSysvar {
  sys_id : Address;
  sys_data : list byte;
  sys_default : list byte;
  sys_type : string
}.

(** [InstructionCase] of [instruction.rs]. *)
Record InstructionCase : Type := mkInstructionCase {
  case_program_id : Address;
  case_accounts : list AccountMeta;
  case_data : list byte;
  case_pre_accounts : list (Address * AccountSharedData)
}.

Definition case_instruction (c : InstructionCase) : Instruction :=
  mkInstruction (case_program_id c) (case_accounts c) (case_data c).

(** [fee_payer_for_instruction_case]; [unique] is [Address::new_unique]. *)
Definition fee_payer_for_instruction_case (unique : Address) (c : InstructionCase) : Address :=
  match list_find (fun m => is_signer m = true) (case_accounts c) with
  | Some (_, m) => meta_pubkey m
  | None =>
      match list_find (fun m => is_writable m = true) (case_accounts c) with
      | Some (_, m) => meta_pubkey m
      | None => match case_accounts c with m :: _ => meta_pubkey m | [] => unique end
      end
  end.

(** What these methods call in the SDK: the canonical sizes and the encodings of
    the sysvars, and the construction of messages. *)
Class VmRuntime {ids : SdkIds} {sv : SysvarRuntime} {pr : ProgramRuntime} {pc : ProgramCacheOps}
    {fs : FeatureSets} {tx : TxRuntime} : Type := {
  SLOT_HISTORY_ID : Address;
  recent_blockhashes_SIZE : nat;
  slot_hashes_SIZE : nat;
  slot_history_SIZE : nat;
  encode_clock : Clock -> list byte;
  encode_rent : Rent -> list byte;
  (** [Rent::default()] with a threshold of one and the default price per byte. *)
  rent_without_threshold : Rent;
  encode_slot_hashes : list (Z * Hash) -> list byte;
  encode_recent_blockhashes : list (Hash * Z) -> list byte;
  epoch_rewards_default : list byte;
  epoch_schedule_default : list byte;
  fees_default : list byte;
  fees_default_lamports_per_signature : Z;
  last_restart_slot_default : list byte;
  slot_history_default : list byte;
  stake_history_default : list byte;
  (** The message of bincode's size error. *)
  serialization_message : nat -> nat -> string;
  hash_to_bytes : Hash -> list byte;
  (** A legacy message with the given payer and blockhash, and default
      signatures; and the signed transfer of an airdrop. *)
  unsigned_legacy : list Instruction -> Address -> Hash -> VersionedTransaction;
  airdrop_transaction : Address -> Address -> Z -> Hash -> VersionedTransaction
}.

(** A computation that returns ([Some]) or unwinds ([None]), with the state. *)
Definition U (S A : Type) : Type := S -> option A * S.

(** A computation whose panics are values; [lost] is the state it leaves when it
    panics, about which nothing is assumed. *)
Definition unwinding {S A} (lost : S -> S) (m : S -> option (A * S)) : U S A := fun s =>
  match m s with Some (a, s') => (Some a, s') | None => (None, lost s) end.

(** [catch_unwind] around [op], then a restoring write, then [resume_unwind]. *)
Definition restoring {S A B} (save : S -> B) (prepare : S -> S) (restore : B -> S -> S)
    (op : U S A) : U S A := fun s =>
  let '(r, s1) := op (prepare s) in (r, restore (save s) s1).

Section VmOps.
Context {tgt : Target} {ids : SdkIds} {sv : SysvarRuntime} {pr : ProgramRuntime}
        {pc : ProgramCacheOps} {Lst : Lru ProgramEntryKey Entry}
        {Lhist : Lru Signature TransactionResult} {fs : FeatureSets} {bud : Budgets}
        {tx : TxRuntime} {lt : LookupTables} {sp : SystemProgram} {uc : UserCode}
        {dr : DeployRuntime} {vr : VmRuntime}.

(** ** Setters *)

Definition set_compute_budget (b : ComputeBudget) (v : Svm) : Svm :=
  let x := version v in
  set_version (mkVersion (v_feature_set x) (v_fee_structure x) (Some b) (v_rent x) (v_limits x)
    (v_cluster x) (v_sigverify x) (v_blockhash_check x) (v_compute_diagnostics x)
    (v_jit_policy x)) v.

Definition set_compute_unit_limit (compute_unit_limit : Z) (v : Svm) : Svm :=
  let b := default (budget_new_with_defaults
                      (fs_is_active (v_feature_set (version v)) raise_cpi_nesting_limit_to_8_ID))
             (v_compute_budget (version v)) in
  set_compute_budget (mkComputeBudget compute_unit_limit (cb_heap_size b) (cb_defaults_simd_0268 b)) v.

Definition set_sigverify (b : bool) (v : Svm) : Svm :=
  set_version (version_set_sigverify b (version v)) v.

Definition set_blockhash_check (b : bool) (v : Svm) : Svm :=
  let x := version v in
  set_version (mkVersion (v_feature_set x) (v_fee_structure x) (v_compute_budget x) (v_rent x)
    (v_limits x) (v_cluster x) (v_sigverify x) b (v_compute_diagnostics x) (v_jit_policy x)) v.

Definition set_compute_diagnostics (b : bool) (v : Svm) : Svm :=
  let x := version v in
  set_version (mkVersion (v_feature_set x) (v_fee_structure x) (v_compute_budget x) (v_rent x)
    (v_limits x) (v_cluster x) (v_sigverify x) (v_blockhash_check x) b (v_jit_policy x)) v.

Definition set_log_bytes_limit (limit : option Z) (v : Svm) : Svm :=
  let x := version v in
  set_version (mkVersion (v_feature_set x) (v_fee_structure x) (v_compute_budget x) (v_rent x)
    (mkRuntimeLimits limit) (v_cluster x) (v_sigverify x) (v_blockhash_check x)
    (v_compute_diagnostics x) (v_jit_policy x)) v.

(** [set_jit_policy]: version, database and promoter together. *)
Definition set_jit_policy (policy : JitPolicy) (v : Svm) : Svm :=
  let v1 := set_version (version_with_jit_policy (version v) policy) v in
  set_tier_promoter policy (set_accounts (sync_jit_policy policy (accounts (state v1))) v1).

Definition with_jit_policy (policy : JitPolicy) (v : Svm) : Svm := set_jit_policy policy v.

Definition vm_set_account_source (s : AccountSource) (v : Svm) : Svm :=
  set_accounts (set_account_source s (accounts (state v))) v.

Definition set_block_env_ext (ext : BlockEnvExt) (v : Svm) : Svm :=
  set_block_env (mkBlockEnv (latest_blockhash (block_env v)) (be_slot (block_env v)) ext) v.

(** [set_inspector] (the [initialize] hook is the inspector's own) and
    [clear_inspector], which gives the inspector back. *)
Definition set_inspector (i : InspectorRef) (v : Svm) : Svm :=
  let e := extensions v in
  set_extensions (mkSvmExtensions (Some i) (inspection_origin e) (registry e) (precompiles e)
    (tier_promoter e) (runtime_registry e) (reserved_account_keys e)) v.

Definition clear_inspector (v : Svm) : option InspectorRef * Svm :=
  let e := extensions v in
  (ext_inspector e,
   set_extensions (mkSvmExtensions None (inspection_origin e) (registry e) (precompiles e)
     (tier_promoter e) (runtime_registry e) (reserved_account_keys e)) v).

(** [set_precompiles] and [set_precompile_provider]. *)
Definition enable_standard_precompiles (v : Svm) : Svm :=
  let e := extensions v in
  set_extensions (mkSvmExtensions (ext_inspector e) (inspection_origin e) (registry e)
    (precompiles e) (tier_promoter e)
    (mkRuntimeRegistry (custom_syscalls (runtime_registry e)) true) (reserved_account_keys e)) v.

Definition set_precompiles (s : VmSt) : option VmSt :=
  load_precompiles (enable_standard_precompiles s.1, s.2).

Definition set_precompile_provider (provider : N) (s : VmSt) : option VmSt :=
  let e := extensions s.1 in
  load_precompiles
    (set_extensions (mkSvmExtensions (ext_inspector e) (inspection_origin e) (registry e) provider
       (tier_promoter e) (runtime_registry e) (reserved_account_keys e)) s.1, s.2).

(** [get_balance]. *)
Definition get_balance (v : Svm) (k : Address) : option Z :=
  lamports <$> get_account (accounts (state v)) k.

(** ** Sysvars *)

Definition sysvar_account_size (s : Sysvar) : nat :=
  if bool_decide (sys_id s = RECENT_BLOCKHASHES_ID) then recent_blockhashes_SIZE
  else if bool_decide (sys_id s = SLOT_HASHES_ID) then slot_hashes_SIZE
  else if bool_decide (sys_id s = SLOT_HISTORY_ID) then slot_history_SIZE
  else length (sys_default s).

(** The account of a sysvar: a zeroed buffer with the encoding at its start. *)
Definition sysvar_account (s : Sysvar) : AccountSharedData :=
  mkAccount 1 (state_buffer (sys_data s) (sysvar_account_size s)) sysvar_owner_id false 0.

Definition try_set_sysvar (s : Sysvar) : M VmSt HPSVMError unit := fun st =>
  if (length (sys_data s) <=? sysvar_account_size s)%nat
  then on_db (add_account (sys_id s) (sysvar_account s)) st
  else (Err (SysvarSerialization (sys_type s)
               (serialization_message (length (sys_data s)) (sysvar_account_size s))), st).

Definition set_sysvar (s : Sysvar) : M VmSt HPSVMError unit :=
  do! try_set_sysvar s in
  smodify (fun st => (sync_block_env_slot st.1, st.2)).

(** [set_sysvar_internal] is followed by an [expect]. *)
Definition set_sysvar_internal (s : Sysvar) (st : VmSt) : option VmSt :=
  match set_sysvar s st with (Ok _, st') => Some st' | (Err _, _) => None end.

(** [try_get_sysvar] and [get_sysvar], at the clock. *)
Definition try_get_clock (v : Svm) : result Clock HPSVMError :=
  match get_account_ref (accounts (state v)) CLOCK_ID with
  | None => Err (MissingRuntimeComponent "sysvars")
  | Some account =>
      ok_or (decode_clock (acc_data account))
        (SysvarSerialization "solana_clock::Clock" "invalid account data")
  end.

Definition get_clock (v : Svm) : option Clock := ok (try_get_clock v).

Definition clock_sysvar (c : Clock) : Sysvar :=
  mkSysvar CLOCK_ID (encode_clock c) (encode_clock Clock_default) "solana_clock::Clock".

Definition warp_to_slot (slot : Z) (s : VmSt) : option VmSt :=
  match get_clock s.1 with
  | None => None
  | Some c =>
      set_sysvar_internal (clock_sysvar
        (mkClock slot (clock_epoch_start_timestamp c) (clock_epoch c)
           (clock_leader_schedule_epoch c) (clock_unix_timestamp c))) s
  end.

(** [create_blockhash] of [utils/mod.rs]: SHA-256. *)
Definition create_blockhash (bytes : list byte) : Hash := sha256 bytes.

Definition recent_blockhashes_sysvar (blockhash : Hash) (price : Z) : Sysvar :=
  mkSysvar RECENT_BLOCKHASHES_ID (encode_recent_blockhashes [(blockhash, price)])
    (encode_recent_blockhashes []) "solana_sysvar::recent_blockhashes::RecentBlockhashes".

Definition expire_blockhash (s : VmSt) : option VmSt :=
  let next := create_blockhash (hash_to_bytes (latest_blockhash (block_env s.1))) in
  let v1 := set_block_env (mkBlockEnv next (be_slot (block_env s.1)) (be_ext (block_env s.1))) s.1 in
  set_sysvar_internal
    (recent_blockhashes_sysvar next (lamports_per_signature (v_fee_structure (version v1))))
    (v1, s.2).

(** The sysvars [set_sysvars] writes, in order; the slot hashes are computed from
    the slot after the first seven. *)
Definition rent_sysvar (v : Svm) : Sysvar :=
  mkSysvar RENT_ID
    (encode_rent (if fs_is_active (v_feature_set (version v)) deprecate_rent_exemption_threshold_ID
                  then rent_without_threshold else rent_default))
    (encode_rent rent_default) "solana_rent::Rent".

Definition default_sysvar (id : Address) (data : list byte) (type : string) : Sysvar :=
  mkSysvar id data data type.

Definition first_sysvars (v : Svm) : list Sysvar :=
  [clock_sysvar Clock_default;
   default_sysvar EPOCH_REWARDS_ID epoch_rewards_default "EpochRewards";
   default_sysvar EPOCH_SCHEDULE_ID epoch_schedule_default "EpochSchedule";
   default_sysvar FEES_ID fees_default "Fees";
   default_sysvar LAST_RESTART_SLOT_ID last_restart_slot_default "LastRestartSlot";
   recent_blockhashes_sysvar (latest_blockhash (block_env v)) fees_default_lamports_per_signature;
   rent_sysvar v].

Definition slot_hashes_sysvar (v : Svm) : Sysvar :=
  mkSysvar SLOT_HASHES_ID
    (encode_slot_hashes [(current_slot (accounts (state v)), latest_blockhash (block_env v))])
    (encode_slot_hashes []) "SlotHashes".

Fixpoint set_sysvars_internal (l : list Sysvar) (s : VmSt) : option VmSt :=
  match l with
  | [] => Some s
  | x :: rest =>
      match set_sysvar_internal x s with
      | Some s' => set_sysvars_internal rest s'
      | None => None
      end
  end.

Definition mark_sysvars (v : Svm) : Svm :=
  let m := materialized v in
  set_materialized (mkMaterialized (mat_builtins m) (mat_default_programs m) (mat_spl_programs m)
                      (mat_feature_accounts m) true) v.

(** The stake history goes through [add_account] and an [expect]. *)
Definition set_stake_history (s : VmSt) : option VmSt :=
  match on_db (add_account STAKE_HISTORY_ID
                 (mkAccount 1 stake_history_default sysvar_owner_id false 0)) s with
  | (Ok _, s') => Some s'
  | (Err _, _) => None
  end.

Definition set_sysvars (s : VmSt) : option VmSt :=
  let s0 : VmSt := (mark_sysvars s.1, s.2) in
  match set_sysvars_internal (first_sysvars s0.1) s0 with
  | None => None
  | Some s1 =>
      match set_sysvars_internal
              [slot_hashes_sysvar s1.1;
               default_sysvar SLOT_HISTORY_ID slot_history_default "SlotHistory"] s1 with
      | None => None
      | Some s2 => set_stake_history s2
      end
  end.

(** ** Restoring fields after a panic *)

Definition with_temporary_account_source {A} (temporary : AccountSource) (op : U VmSt A) :
    U VmSt A :=
  restoring (fun s => source (accounts (state s.1)))
    (fun s => (vm_set_account_source temporary s.1, s.2))
    (fun previous s => (vm_set_account_source previous s.1, s.2)) op.

Definition with_origin {A} (origin : TransactionOrigin) (op : U VmSt A) : U VmSt A :=
  restoring (fun s => inspection_origin (extensions s.1))
    (fun s => (set_origin origin s.1, s.2))
    (fun previous s => (set_origin previous s.1, s.2)) op.

Definition without_sigverify {A} (op : U VmSt A) : U VmSt A :=
  restoring (fun s => v_sigverify (version s.1))
    (fun s => (set_sigverify false s.1, s.2))
    (fun previous s => (set_sigverify previous s.1, s.2)) op.

(** [send_transaction] as an unwinding computation. *)
Definition send_unwinding (lost : VmSt -> VmSt) (t : VersionedTransaction) :
    U VmSt (TransactionResult * list InspectorEvent) :=
  unwinding lost (fun s =>
    match send_transaction s t with
    | Some (r, s', events) => Some ((r, events), s')
    | None => None
    end).

Definition airdrop (lost : VmSt -> VmSt) (address : Address) (amount : Z) :
    U VmSt (TransactionResult * list InspectorEvent) := fun s =>
  let t := airdrop_transaction (airdrop_pubkey s.1) address amount (latest_blockhash (block_env s.1)) in
  with_temporary_account_source EmptyAccountSource
    (with_origin InternalAirdrop (send_unwinding lost t)) s.

(** ** Instruction chains *)

Definition instruction_chain_transaction (v : Svm) (instructions : list Instruction) :
    VersionedTransaction :=
  unsigned_legacy instructions (fee_payer_for_instructions instructions (airdrop_pubkey v))
    (latest_blockhash (block_env v)).

Definition process_instruction_chain (lost : VmSt -> VmSt) (instructions : list Instruction) :
    U VmSt (TransactionResult * list InspectorEvent) := fun s =>
  without_sigverify (send_unwinding lost (instruction_chain_transaction s.1 instructions)) s.

Definition process_instruction (lost : VmSt -> VmSt) (instruction : Instruction) :
    U VmSt (TransactionResult * list InspectorEvent) := process_instruction_chain lost [instruction].

(** Writing the explicit accounts; [set_account] errors all read the same. *)
Fixpoint write_pre_accounts (l : list (Address * AccountSharedData)) : M VmSt HPSVMError unit :=
  match l with
  | [] => sret tt
  | (address, account) :: rest => do! set_account address account in write_pre_accounts rest
  end.

Definition invalid_pre_account : FailedTransactionMetadata :=
  mkFailedTransactionMetadata (TxInstructionError 0 InvalidAccountData) TransactionMetadata_default.

Definition process_instruction_chain_with_accounts (lost : VmSt -> VmSt)
    (instructions : list Instruction) (pre_accounts : list (Address * AccountSharedData)) :
    U VmSt (TransactionResult * list InspectorEvent) := fun s =>
  match write_pre_accounts pre_accounts s with
  | (Err _, s') => (Some (Err invalid_pre_account, []), s')
  | (Ok _, s') => process_instruction_chain lost instructions s'
  end.

Definition process_instruction_with_accounts (lost : VmSt -> VmSt) (instruction : Instruction)
    (pre_accounts : list (Address * AccountSharedData)) :
    U VmSt (TransactionResult * list InspectorEvent) :=
  process_instruction_chain_with_accounts lost [instruction] pre_accounts.

(** The simulations run on a clone; what is left of them is the shared world. *)
Definition simulate_on (working : VmSt) (instructions : list Instruction) :
    option (result SimulatedTransactionInfo FailedTransactionMetadata * World * Observed) :=
  let v := set_sigverify false working.1 in
  simulate_transaction (v, working.2) (instruction_chain_transaction v instructions).

Definition simulate_instruction_chain (instructions : list Instruction) (s : VmSt) :
    option (result SimulatedTransactionInfo FailedTransactionMetadata * World * Observed) :=
  simulate_on (svm_clone s.1, s.2) instructions.

Definition simulate_instruction (instruction : Instruction) (s : VmSt) :
    option (result SimulatedTransactionInfo FailedTransactionMetadata * World * Observed) :=
  simulate_instruction_chain [instruction] s.

Definition simulate_instruction_chain_with_accounts (instructions : list Instruction)
    (pre_accounts : list (Address * AccountSharedData)) (s : VmSt) :
    option (result SimulatedTransactionInfo FailedTransactionMetadata * World * Observed) :=
  match write_pre_accounts pre_accounts (svm_clone s.1, s.2) with
  | (Err _, s') => Some (Err invalid_pre_account, s'.2, nothing_observed)
  | (Ok _, s') => simulate_on s' instructions
  end.

Definition simulate_instruction_with_accounts (instruction : Instruction)
    (pre_accounts : list (Address * AccountSharedData)) (s : VmSt) :
    option (result SimulatedTransactionInfo FailedTransactionMetadata * World * Observed) :=
  simulate_instruction_chain_with_accounts [instruction] pre_accounts s.

(** [process_instruction_case]; [unique] is [Address::new_unique]. *)
Definition process_instruction_case (unique : Address) (c : InstructionCase) (s : VmSt) :
    option (result DetachedTx HPSVMError * World * Observed) :=
  let working : VmSt := (set_sigverify false (svm_clone s.1), s.2) in
  match write_pre_accounts (case_pre_accounts c) working with
  | (Err e, s1) => Some (Err e, s1.2, nothing_observed)
  | (Ok _, s1) =>
      let fee_payer := fee_payer_for_instruction_case unique c in
      let '(r, s2) :=
        match get_account (accounts (state s1.1)) fee_payer with
        | Some _ => (Ok tt, s1)
        | None => set_account fee_payer (mkAccount 1000000000 [] system_program_id false 0) s1
        end in
      match r with
      | Err e => Some (Err e, s2.2, nothing_observed)
      | Ok _ =>
          try_transact s2 (unsigned_legacy [case_instruction c] fee_payer
                             (latest_blockhash (block_env s2.1)))
      end
  end.

(** ** A new VM *)

Definition new_version : Version :=
  mkVersion fs_default FeeStructure_default None rent_default RuntimeLimits_default
    (mkClusterInfo MainnetBeta (spec_id_name MainnetBeta)) false false true JitPolicy_DEFAULT.

(** [new_inner]: the keypair, the cache handle, the address of the environment and
    the native precompiles come from outside. *)
Definition new_inner (airdrop : Address) (handle env_ptr : positive) (provider : N)
    (ext : BlockEnvExt) (w : World) : VmSt :=
  let d := accounts_default handle env_ptr w in
  (mkSvm (mkSvmState d.1 history_new) new_version
     (mkBlockEnv (create_blockhash (String.list_byte_of_string "genesis")) 0 ext)
     (mkSvmExtensions None User registry_with_defaults provider JitPolicy_DEFAULT
        (mkRuntimeRegistry [] false) (reserved_for fs_default))
     MaterializedState_default airdrop,
   d.2).

Definition LAMPORTS_PER_SOL : Z := 1000000000.

(** [new_with_defaults]. *)
Definition new_with_defaults (airdrop : Address) (handle env_ptr ptr1 ptr2 : positive) (provider : N)
    (ext : BlockEnvExt) (w : World) : option VmSt :=
  match set_feature_set ptr1 fs_all_enabled (new_inner airdrop handle env_ptr provider ext w) with
  | Some (Ok _, s1) =>
      and_then (load_builtins ptr2)
        (and_then (fun s => set_sysvars (set_lamports (1000000 * LAMPORTS_PER_SOL) s))
           (and_then (fun s => load_default_programs (materialize_feature_accounts s))
              (fun s => match set_precompiles s with
                        | Some s' => Some (set_blockhash_check true (set_sigverify true s'.1), s'.2)
                        | None => None
                        end))) s1
  | _ => None
  end.

(** ** The host facade *)

Definition host_error (error : HPSVMError) : HostError :=
  match error with
  | HExecution error => HostExecution error
  | HDatabase error => HostExecution (ExecDatabase error)
  | other => HostExecution (exec_from_hpsvm other)
  end.

Definition host_set_account (k : Address) (account : AccountSharedData) : M VmSt HostError unit :=
  fun s => let '(r, s') := set_account k account s in (map_err host_error r, s').

Definition host_set_sysvar (x : Sysvar) : M VmSt HostError unit :=
  fun s => let '(r, s') := set_sysvar x s in (map_err host_error r, s').

Definition host_account (v : Svm) (k : Address) : option AccountSharedData :=
  get_account (accounts (state v)) k.

Definition host_has_program (s : VmSt) (program_id : Address) : bool :=
  has_program_cache_entry (db_of s) program_id.

End VmOps.
