(* ===== verification/VmOpsFacts.v ===== *)
(** * Facts about configuration, sysvars and the instruction harnesses

    Warping moves every view of the slot together and installing the sysvars never
    panics; an airdrop does not see the account source, and it and the instruction
    chains restore what they replaced even when the execution panics; a simulation
    predicts what sending the same transaction reports.  Two results state limits:
    a staging failure is reported as the success of the execution, and every
    failed write through the host facade is fatal. *)

From Stdlib Require Import ZArith Lia Strings.Byte.
From stdpp Require Import base tactics option list sets gmap strings.
From S2P Require Import Prelude.
From S2P Require Import Types.
From S2P Require Import AccountSource.
From S2P Require Import Errors.
From S2P Require Import Lru.
From S2P Require Import History.
From S2P Require Import Runtime.
From S2P Require Import AccountsDb.
From S2P Require Import Overlay.
From S2P Require Import OverlayReads.
From S2P Require Import CacheCoherence.
From S2P Require Import FeePayer.
From S2P Require Import Version.
From S2P Require Import TxRuntime.
From S2P Require Import Svm.
From S2P Require Import Execution.
From S2P Require Import Staging.
From S2P Require Import StagingFacts.
From S2P Require Import VmPrograms.
From S2P Require Import VmProgramsFacts.
From S2P Require Import VmOps.

(** A clock whose fields fit their machine types. *)
Definition in_i64 (z : Z) : Prop := (- 2 ^ 63 <= z < 2 ^ 63)%Z.

Definition valid_clock (c : Clock) : Prop :=
  in_u64 (clock_slot c) /\ in_i64 (clock_epoch_start_timestamp c) /\ in_u64 (clock_epoch c) /\
  in_u64 (clock_leader_schedule_epoch c) /\ in_i64 (clock_unix_timestamp c).

(** The codecs of the sysvars: encodings decode in a zero-padded buffer, have a
    fixed length where the type has one and fit their canonical sizes. *)
Class VmLaws `{vr : VmRuntime} : Prop := {
  clock_length c : length (encode_clock c) = length (encode_clock Clock_default);
  decode_encode_clock c n : valid_clock c -> decode_clock (encode_clock c ++ zeros n) = Some c;
  rent_length r : length (encode_rent r) = length (encode_rent rent_default);
  decode_encode_rent r n : is_Some (decode_rent (encode_rent r ++ zeros n));
  blockhashes_fit h p : (length (encode_recent_blockhashes [(h, p)]) <= recent_blockhashes_SIZE)%nat;
  decodes_blockhashes h p n : decodes_recent_blockhashes (encode_recent_blockhashes [(h, p)] ++ zeros n) = true;
  slot_hashes_fit s h : (length (encode_slot_hashes [(s, h)]) <= slot_hashes_SIZE)%nat;
  decode_encode_slot_hashes s h n : is_Some (decode_slot_hashes (encode_slot_hashes [(s, h)] ++ zeros n));
  slot_history_fits : (length slot_history_default <= slot_history_SIZE)%nat;
  slot_history_unmanaged : SLOT_HISTORY_ID ∉ managed_sysvars;
  default_sysvars_decode :
    decodes_epoch_rewards epoch_rewards_default = true /\
    decodes_epoch_schedule epoch_schedule_default = true /\ decodes_fees fees_default = true /\
    decodes_last_restart_slot last_restart_slot_default = true /\
    decodes_stake_history stake_history_default = true
}.

Section VmOpsFacts.
Context {tgt : Target} {ids : SdkIds} {idsok : SdkIdsOk} {sv : SysvarRuntime} {svl : SysvarLaws}
        {pr : ProgramRuntime} {pc : ProgramCacheOps} {pcl : ProgramCacheLaws}
        {Lst : Lru ProgramEntryKey Entry} {LstL : LruLaws ProgramEntryKey Entry}
        {Lhist : Lru Signature TransactionResult} {fs : FeatureSets} {bud : Budgets}
        {tx : TxRuntime} {lt : LookupTables} {sp : SystemProgram} {uc : UserCode}
        {dr : DeployRuntime} {vr : VmRuntime}.

Notation db v := (accounts (state v)).

(** ** Writing a sysvar *)

(** No program sits at [k] in the overlay. *)
Definition no_program_at (a : Accounts) (k : Address) : Prop :=
  forall old, inner (cache a) !! k = Some old -> executable old = false.

(** Adding a plain account: the overlay is written and the sysvar cache follows. *)
Lemma add_account_plain k acc a w :
  executable acc = false -> no_program_at a k ->
  (is_managed_sysvar_account k = true -> validate_sysvar_account k acc = Ok tt) ->
  add_account k acc (a, w) =
  (Ok tt, let s2 := (write_overlay k acc (record_journal k a), w) in
          if is_managed_sysvar_account k then rebuild_sysvar_cache s2 else s2).
Proof.
  intros He Hp Hv. unfold add_account, sbind, add_account_prepare.
  rewrite (not_executable_not_program k acc He), andb_false_r.
  assert (Hg : (if is_managed_sysvar_account k && negb (lamports acc =? 0)%Z
                then validate_sysvar_account k acc else Ok tt) = Ok tt).
  { destruct (is_managed_sysvar_account k); [|done]. simpl. case_match; [by apply Hv|done]. }
  rewrite Hg. cbn [fst snd]. destruct (inner (cache a) !! k) as [old|] eqn:Ho; [|done].
  by rewrite (not_executable_not_program k old (Hp _ Ho)).
Qed.

Lemma set_sysvar_plain x s :
  (length (sys_data x) <= sysvar_account_size x)%nat -> no_program_at (db s.1) (sys_id x) ->
  (is_managed_sysvar_account (sys_id x) = true ->
   validate_sysvar_account (sys_id x) (sysvar_account x) = Ok tt) ->
  exists s', set_sysvar_internal x s = Some s' /\
    cache (db s'.1) = cache (put_inner (sys_id x) (sysvar_account x) (del_removed (sys_id x) (db s.1))) /\
    be_slot (block_env s'.1) = current_slot (db s'.1) /\
    latest_blockhash (block_env s'.1) = latest_blockhash (block_env s.1) /\
    source (db s'.1) = source (db s.1) /\ version s'.1 = version s.1 /\
    (is_managed_sysvar_account (sys_id x) = true -> sysvars_coherent (db_of s')).
Proof.
  intros Hl Hp Hv. unfold set_sysvar_internal, set_sysvar, try_set_sysvar, sbind, smodify, on_db.
  destruct (Nat.leb_spec (length (sys_data x)) (sysvar_account_size x)) as [_|Hgt]; [|lia].
  unfold db_of. rewrite (add_account_plain (sys_id x) (sysvar_account x)) by done.
  eexists. split; [reflexivity|]. unfold write_overlay. simpl.
  destruct (is_managed_sysvar_account (sys_id x)); simpl; [|done].
  split_and!; try done. intros _.
  apply (rebuild_sysvar_coherent
    (put_inner (sys_id x) (sysvar_account x) (del_removed (sys_id x) (record_journal (sys_id x) (db s.1))), s.2)).
Qed.

Lemma clock_managed : is_managed_sysvar_account CLOCK_ID = true.
Proof. unfold is_managed_sysvar_account. by rewrite bool_decide_true. Qed.

(** Two sysvar ids the code names apart are different. *)
Lemma clock_not_special :
  CLOCK_ID <> RECENT_BLOCKHASHES_ID /\ CLOCK_ID <> SLOT_HASHES_ID.
Proof.
  pose proof sysvars_distinct as H. unfold managed_sysvars in H. rewrite !NoDup_cons in H. set_solver.
Qed.

(** Warping moves every view of the slot.  With a readable clock in the overlay,
    [warp_to_slot] succeeds, and afterwards the clock sysvar, the sysvar cache, the
    program cache and the block environment all show the new slot; the other
    fields of the clock, the blockhash and every other account are as before. *)
Theorem warp_moves_every_clock {vl : VmLaws} (slot : Z) (s : VmSt) (c : Clock) :
  in_u64 slot -> get_clock s.1 = Some c -> valid_clock c -> no_program_at (db s.1) CLOCK_ID ->
  exists s', warp_to_slot slot s = Some s' /\
    get_clock s'.1 = Some (mkClock slot (clock_epoch_start_timestamp c) (clock_epoch c)
                             (clock_leader_schedule_epoch c) (clock_unix_timestamp c)) /\
    current_slot (db s'.1) = slot /\ be_slot (block_env s'.1) = slot /\
    pc_slot (committed (db_of s')) = slot /\
    latest_blockhash (block_env s'.1) = latest_blockhash (block_env s.1) /\
    forall k, k <> CLOCK_ID -> try_get_account (db s'.1) k = try_get_account (db s.1) k.
Proof.
  intros Hs Hc Hvc Hnp. unfold warp_to_slot. rewrite Hc. set (c' := mkClock _ _ _ _ _).
  assert (Hvc' : valid_clock c') by (unfold valid_clock in *; naive_solver).
  assert (Hsz : sysvar_account_size (clock_sysvar c') = length (encode_clock Clock_default) \/
                CLOCK_ID = SLOT_HISTORY_ID).
  { unfold sysvar_account_size. simpl. destruct clock_not_special as [H1 H2].
    rewrite (bool_decide_false (CLOCK_ID = RECENT_BLOCKHASHES_ID)) by done.
    rewrite (bool_decide_false (CLOCK_ID = SLOT_HASHES_ID)) by done. case_bool_decide; auto. }
  destruct Hsz as [Hsz|Hbad]; last first.
  { exfalso. apply slot_history_unmanaged. rewrite <- Hbad. apply is_managed_sysvar_spec, clock_managed. }
  assert (Hdec : decode_clock (acc_data (sysvar_account (clock_sysvar c'))) = Some c').
  { simpl. unfold state_buffer. by apply decode_encode_clock. }
  destruct (set_sysvar_plain (clock_sysvar c') s) as (s' & Hset & Hcache & Hbe & Hbh & Hsrc & _ & Hcoh).
  - rewrite Hsz. simpl. by rewrite clock_length.
  - done.
  - intros _. unfold validate_sysvar_account. cbn [sys_id clock_sysvar].
    rewrite (bool_decide_true (CLOCK_ID = CLOCK_ID)) by done. rewrite Hdec.
    by rewrite bool_decide_true by (by eexists).
  - specialize (Hcoh clock_managed). exists s'. split; [done|].
    assert (Hin : inner (cache (db s'.1)) !! CLOCK_ID = Some (sysvar_account (clock_sysvar c'))).
    { rewrite Hcache. simpl. by rewrite lookup_insert_eq. }
    destruct Hcoh as [Hfill Hslot].
    assert (Hck : sc_get_clock (sysvar_cache (db s'.1)) = Some c').
    { unfold db_of in Hfill. simpl in Hfill. rewrite Hfill, sc_fill_clock, Hin. exact Hdec. }
    split_and!.
    + unfold get_clock, try_get_clock, get_account_ref. rewrite Hin, Hdec. done.
    + unfold current_slot. by rewrite Hck.
    + rewrite Hbe. unfold current_slot. by rewrite Hck.
    + by rewrite (Hslot c').
    + done.
    + intros k Hk. rewrite (try_get_ext _ _ k Hcache Hsrc), try_get_put. by rewrite decide_False.
Qed.

(** ** Installing the sysvars *)

(** A sysvar that [set_sysvar_internal] accepts. *)
Definition settable (x : Sysvar) : Prop :=
  (length (sys_data x) <= sysvar_account_size x)%nat /\
  (is_managed_sysvar_account (sys_id x) = true ->
   validate_sysvar_account (sys_id x) (sysvar_account x) = Ok tt).

Lemma no_program_put a k j acc :
  executable acc = false -> no_program_at a j ->
  no_program_at (put_inner k acc (del_removed k a)) j.
Proof.
  intros He Hn old. simpl. destruct (decide (j = k)) as [->|Hne].
  - rewrite lookup_insert_eq. by intros [= <-].
  - rewrite lookup_insert_ne by done. apply Hn.
Qed.

Lemma no_program_ext a a' k : cache a' = cache a -> no_program_at a k -> no_program_at a' k.
Proof. unfold no_program_at. by intros ->. Qed.

Lemma set_sysvars_plain l s :
  Forall settable l -> (forall x, x ∈ l -> no_program_at (db s.1) (sys_id x)) ->
  exists s', set_sysvars_internal l s = Some s' /\
    (forall k, no_program_at (db s.1) k -> no_program_at (db s'.1) k) /\
    (forall k, k ∈ map sys_id l \/ is_Some (inner (cache (db s.1)) !! k) ->
               is_Some (inner (cache (db s'.1)) !! k)) /\
    (forall k, k ∉ map sys_id l -> inner (cache (db s'.1)) !! k = inner (cache (db s.1)) !! k) /\
    latest_blockhash (block_env s'.1) = latest_blockhash (block_env s.1) /\
    materialized s'.1 = materialized s.1.
Proof.
  revert s. induction l as [|x l IH]; intros s Hg Hn; simpl.
  { exists s. split_and!; try done. intros k [Hk|Hk]; [set_solver|done]. }
  apply Forall_cons in Hg as [[Hl Hv] Hg].
  destruct (set_sysvar_plain x s Hl (Hn x ltac:(set_solver)) Hv)
    as (s1 & H1 & Hc & _ & Hb & _ & _ & _). rewrite H1.
  assert (Hm : materialized s1.1 = materialized s.1).
  { revert H1. unfold set_sysvar_internal, set_sysvar, try_set_sysvar, sbind, smodify, on_db.
    repeat (case_match; simplify_eq/=; try done); by intros [= <-]. }
  assert (Hnp : forall k, no_program_at (db s.1) k -> no_program_at (db s1.1) k).
  { intros k Hk. eapply no_program_ext; [exact Hc|]. by apply no_program_put. }
  destruct (IH s1 Hg) as (s' & H' & Hn' & Hi' & Ho' & Hb' & Hm').
  { intros y Hy. apply Hnp, Hn. set_solver. }
  exists s'. split; [done|]. split; [auto|]. split; [|split; [|split; congruence]].
  - intros k Hk. apply Hi'. rewrite Hc. simpl. destruct (decide (k = sys_id x)) as [->|Hne].
    + right. by rewrite lookup_insert_eq.
    + rewrite lookup_insert_ne by done. set_solver.
  - intros k Hk. rewrite Ho' by set_solver. rewrite Hc. simpl. rewrite lookup_insert_ne; [done|set_solver].
Qed.

(** All the inequalities between sysvar ids, as hypotheses. *)
Ltac name_ids :=
  let H := fresh in pose proof sysvars_distinct as H; unfold managed_sysvars in H;
  rewrite !NoDup_cons, !not_elem_of_cons in H; destruct_and! H.

Ltac in_ids := unfold managed_sysvars; repeat first [apply list_elem_of_here | apply list_elem_of_further].
Ltac ids_distinct := simpl; first [congruence | solve [in_ids]].

(** The branch of [validate_sysvar_account] at a known id. *)
Ltac at_sysvar :=
  unfold validate_sysvar_account; cbn [sys_id];
  repeat (rewrite bool_decide_false by congruence); rewrite bool_decide_true by done.

Lemma settable_intro x :
  (length (sys_data x) <= sysvar_account_size x)%nat ->
  validate_sysvar_account (sys_id x) (sysvar_account x) = Ok tt -> settable x.
Proof. by split. Qed.

Lemma managed_not_history {vl : VmLaws} k : k ∈ managed_sysvars -> k <> SLOT_HISTORY_ID.
Proof. intros Hk ->. by apply slot_history_unmanaged. Qed.

Lemma fixed_size {vl : VmLaws} x :
  sys_id x ∈ managed_sysvars -> sys_id x <> RECENT_BLOCKHASHES_ID -> sys_id x <> SLOT_HASHES_ID ->
  sysvar_account_size x = length (sys_default x).
Proof.
  intros Hk H1 H2. unfold sysvar_account_size.
  rewrite (bool_decide_false (sys_id x = RECENT_BLOCKHASHES_ID)), (bool_decide_false (sys_id x = SLOT_HASHES_ID)),
    (bool_decide_false (sys_id x = SLOT_HISTORY_ID)) by (by auto using managed_not_history). done.
Qed.

(** A sysvar written as its type's default, whose length is the account's. *)
Lemma settable_default {vl : VmLaws} k data type :
  k ∈ managed_sysvars -> k <> RECENT_BLOCKHASHES_ID -> k <> SLOT_HASHES_ID ->
  validate_sysvar_account k (mkAccount 1 data sysvar_owner_id false 0) = Ok tt ->
  settable (default_sysvar k data type).
Proof.
  intros Hk H1 H2 Hv. pose proof (fixed_size (default_sysvar k data type) Hk H1 H2) as Hs.
  apply settable_intro; [by rewrite Hs|]. unfold sysvar_account. rewrite Hs. cbn.
  unfold state_buffer. by rewrite Nat.sub_diag, app_nil_r.
Qed.

Lemma first_settable {vl : VmLaws} v : Forall settable (first_sysvars v).
Proof.
  name_ids. destruct default_sysvars_decode as (D1 & D2 & D3 & D4 & _). unfold first_sysvars.
  rewrite !Forall_cons, Forall_nil. split_and!; try done.
  - apply settable_intro.
    + rewrite fixed_size by ids_distinct. done.
    + cbn [sys_id clock_sysvar]. at_sysvar. simpl. unfold state_buffer. rewrite decode_encode_clock.
      * by rewrite bool_decide_true by by eexists.
      * unfold valid_clock, in_u64, in_i64, u64_max. simpl. lia.
  - apply settable_default; [ids_distinct..|]. at_sysvar. simpl. by rewrite D1.
  - apply settable_default; [ids_distinct..|]. at_sysvar. simpl. by rewrite D2.
  - apply settable_default; [ids_distinct..|]. at_sysvar. simpl. by rewrite D3.
  - apply settable_default; [ids_distinct..|]. at_sysvar. simpl. by rewrite D4.
  - apply settable_intro.
    + apply blockhashes_fit.
    + cbn [sys_id recent_blockhashes_sysvar]. at_sysvar. simpl. unfold state_buffer.
      by rewrite decodes_blockhashes.
  - apply settable_intro.
    + rewrite fixed_size by ids_distinct. simpl. by rewrite rent_length.
    + cbn [sys_id rent_sysvar]. at_sysvar. simpl. unfold state_buffer.
      by rewrite bool_decide_true by apply decode_encode_rent.
Qed.

Lemma last_settable {vl : VmLaws} v :
  Forall settable [slot_hashes_sysvar v;
                   default_sysvar SLOT_HISTORY_ID slot_history_default "SlotHistory"].
Proof.
  name_ids.
  rewrite !Forall_cons, Forall_nil. split_and!; try done.
  - apply settable_intro.
    + unfold sysvar_account_size. simpl.
      rewrite (bool_decide_false (SLOT_HASHES_ID = RECENT_BLOCKHASHES_ID)) by ids_distinct.
      rewrite bool_decide_true by done. apply slot_hashes_fit.
    + cbn [sys_id slot_hashes_sysvar]. at_sysvar. simpl. unfold state_buffer.
      by rewrite bool_decide_true by apply decode_encode_slot_hashes.
  - assert (Hn : forall k, k ∈ managed_sysvars -> SLOT_HISTORY_ID <> k).
    { intros k Hk Heq. apply slot_history_unmanaged. by rewrite Heq. }
    split.
    + unfold sysvar_account_size. simpl. rewrite !bool_decide_false by (apply Hn; ids_distinct).
      rewrite bool_decide_true by done. apply slot_history_fits.
    + intros Hm%is_managed_sysvar_spec. by apply slot_history_unmanaged in Hm.
Qed.

(** Installing the sysvars never panics.  On a VM with no program at a sysvar
    address, [set_sysvars] succeeds: every [expect] holds.  Afterwards every managed
    sysvar has an account, the caches are what the overlay decodes to, the clock
    reads as the default one and the VM counts its sysvars as loaded. *)
Theorem set_sysvars_total {vl : VmLaws} (s : VmSt) :
  (forall k, k ∈ SLOT_HISTORY_ID :: managed_sysvars -> no_program_at (db s.1) k) ->
  exists s', set_sysvars s = Some s' /\
    (forall k, k ∈ managed_sysvars -> is_Some (inner (cache (db s'.1)) !! k)) /\
    sysvars_coherent (db_of s') /\ require_sysvars_loaded s'.1 = Ok tt.
Proof.
  intros Hn. unfold set_sysvars. set (s0 := (mark_sysvars s.1, s.2) : VmSt).
  destruct (set_sysvars_plain (first_sysvars s0.1) s0 (first_settable _))
    as (s1 & H1 & Hn1 & Hi1 & _ & _ & Hm1).
  { intros x Hx. apply Hn. revert x Hx. apply Forall_forall.
    unfold first_sysvars. rewrite !Forall_cons, Forall_nil. split_and!; try done; right; in_ids. }
  rewrite H1.
  destruct (set_sysvars_plain _ s1 (last_settable s1.1)) as (s2 & H2 & Hn2 & Hi2 & _ & _ & Hm2).
  { intros x Hx. apply Hn1, Hn. revert x Hx. apply Forall_forall.
    rewrite !Forall_cons, Forall_nil. split_and!; try done; [right; in_ids|left]. }
  rewrite H2. unfold set_stake_history, on_db.
  assert (Hman : is_managed_sysvar_account STAKE_HISTORY_ID = true).
  { apply is_managed_sysvar_spec. in_ids. }
  assert (Hst : no_program_at (db s2.1) STAKE_HISTORY_ID).
  { apply Hn2, Hn1, Hn. right. in_ids. }
  unfold db_of. rewrite add_account_plain; [|done|done|]; last first.
  { intros _. name_ids. at_sysvar. simpl. destruct default_sysvars_decode as (_ & _ & _ & _ & D5). by rewrite D5. }
  rewrite Hman. eexists. split; [reflexivity|]. split_and!.
  - intros k Hk. simpl. destruct (decide (k = STAKE_HISTORY_ID)) as [->|Hne].
    + by rewrite lookup_insert_eq.
    + rewrite lookup_insert_ne by done. apply Hi2.
      destruct (decide (k = SLOT_HASHES_ID)) as [->|Hne2]; [left; simpl; set_solver|right].
      apply Hi1. left. revert Hk. unfold managed_sysvars, first_sysvars. simpl. set_solver.
  - match goal with |- sysvars_coherent ?x => change x with
      (rebuild_sysvar_cache (write_overlay STAKE_HISTORY_ID
         (mkAccount 1 stake_history_default sysvar_owner_id false 0)
         (record_journal STAKE_HISTORY_ID (db s2.1)), s2.2)) end. apply rebuild_sysvar_coherent.
  - unfold require_sysvars_loaded. simpl. by rewrite Hm2, Hm1.
Qed.

(** ** Harnesses that replace a field for a while *)

(** An airdrop does not see the account source, and what the harnesses replace
    is put back.  The outcome of [airdrop] (the result, the events, a panic) and
    the VM it leaves are the same whatever the source, which it keeps; the source,
    the inspection origin and, for an instruction chain, the signature check are
    what they were before the call, also when the execution panics and whatever
    state the panic left. *)
Theorem airdrop_ignores_source (lost : VmSt -> VmSt) (address : Address) (amount : Z) (s : VmSt)
    (other : AccountSource) (instructions : list Instruction) :
  let after := airdrop lost address amount s in
  airdrop lost address amount (vm_set_account_source other s.1, s.2) =
    (after.1, (vm_set_account_source other after.2.1, after.2.2)) /\
  source (db after.2.1) = source (db s.1) /\
  inspection_origin (extensions after.2.1) = inspection_origin (extensions s.1) /\
  v_sigverify (version (process_instruction_chain lost instructions s).2.1) =
    v_sigverify (version s.1).
Proof.
  unfold airdrop, process_instruction_chain, with_temporary_account_source, with_origin,
    without_sigverify, restoring. cbn [fst snd].
  change (airdrop_pubkey (vm_set_account_source other s.1)) with (airdrop_pubkey s.1).
  change (block_env (vm_set_account_source other s.1)) with (block_env s.1).
  change (vm_set_account_source EmptyAccountSource (vm_set_account_source other s.1))
    with (vm_set_account_source EmptyAccountSource s.1).
  destruct (send_unwinding lost (airdrop_transaction _ _ _ _) _) as [r [v1 w1]].
  destruct (send_unwinding lost (instruction_chain_transaction _ _) _) as [r2 [v2 w2]].
  done.
Qed.

(** ** Simulation and staging *)

Lemma sync_policy_id v :
  jit_policy (db v) = v_jit_policy (version v) -> svm_sync_jit_policy v = v.
Proof. intros H. unfold svm_sync_jit_policy. by rewrite bool_decide_true. Qed.

Lemma send_result s t :
  jit_policy (db s.1) = v_jit_policy (version s.1) ->
  (transact_detached s t = None -> send_transaction s t = None) /\
  forall d w ob, transact_detached s t = Some (d, w, ob) ->
    exists s' events, send_transaction s t = Some (result_of_detached d, s', events).
Proof.
  intros Hp. unfold transact_detached, send_transaction, transact_core.
  rewrite (sync_policy_id _ Hp). cbn [fst snd].
  assert (Hs : (s.1, s.2) = s) by by destruct s. rewrite Hs.
  destruct (dispatch_detached s t) as [[[[d|e] w] ob]|]; [|split; [done|]|done].
  - split; [done|]. intros d' w' ob' [= <- <- <-].
    destruct (dt_fatal_error d) as [e|]; [by eauto|]. unfold stage.
    destruct (detached_into_result_and_delta d _) as [r delta] eqn:Hd.
    assert (Hr : r = result_of_detached d) by (unfold detached_into_result_and_delta in Hd; congruence).
    destruct (on_db _ _) as [[u|e] s1]; subst r; unfold commit; simpl; eauto.
  - intros d' w' ob' [= <- <- <-]. eauto.
Qed.

(** C22: a simulation predicts the report.  With the policies synchronized,
    [simulate_transaction] panics only if [send_transaction] does; otherwise
    [send_transaction] returns, and reports the metadata (or the error) that the
    simulation reported. *)
Theorem simulate_predicts_send (s : VmSt) (t : VersionedTransaction) :
  jit_policy (db s.1) = v_jit_policy (version s.1) ->
  match simulate_transaction s t with
  | None => send_transaction s t = None
  | Some (r, _, _) => exists s' events, send_transaction s t = Some (rmap sim_meta r, s', events)
  end.
Proof.
  intros Hp. destruct (send_result s t Hp) as [Hnone Hsome]. unfold simulate_transaction.
  destruct (transact_detached s t) as [[[d w] ob]|]; [|by apply Hnone].
  destruct (Hsome d w ob eq_refl) as (s' & events & ->). unfold result_of_detached.
  destruct (dt_status d); simpl; eauto.
Qed.

(** A staging failure is reported as a success.  When an execution succeeded and
    its post-state cannot be applied, [send_transaction] returns the success of the
    execution, although the overlay, the journal and the history are exactly what
    they were before the transaction. *)
Theorem staging_failure_reports_success (s : VmSt) (t : VersionedTransaction) (d : DetachedTx)
    (w : World) (ob : Observed) (e : HPSVMError) :
  dispatch_detached (svm_sync_jit_policy s.1, s.2) t = Some (Ok d, w, ob) ->
  dt_fatal_error d = None -> dt_included d = true -> dt_status d = Ok tt ->
  (on_db (sync_accounts (dt_post_accounts d)) (svm_sync_jit_policy s.1, w)).1 = Err e ->
  exists s' events, send_transaction s t = Some (Ok (dt_meta d), s', events) /\
    cache (db s'.1) = cache (db s.1) /\ journal (db s'.1) = journal (db s.1) /\
    history (state s'.1) = history (state s.1).
Proof.
  intros Hd Hf Hi Hst He. destruct (sync_policy_db s.1) as (Hc & Hj & Hh).
  unfold send_transaction, transact_core. rewrite Hd, Hf. cbn [fst snd].
  unfold stage, detached_into_result_and_delta. rewrite Hi. cbn [scs_post_accounts].
  set (v := svm_sync_jit_policy s.1) in *. unfold on_db in *.
  pose proof (sync_accounts_extends (dt_post_accounts d) (db_of (v, w))) as Hext.
  destruct (sync_accounts (dt_post_accounts d) (db_of (v, w))) as [[u|e'] d1]; [done|].
  eexists _, _. split; [unfold result_of_detached; rewrite Hst; reflexivity|]. cbn.
  destruct (extends_rollback _ _ Hext) as [H1 H2]. simpl in H1, H2. split_and!; congruence.
Qed.

(** ** The host facade *)

(** The errors a write can report: a refused sysvar, a refused program or an
    encoding that does not fit. *)
Definition write_error (h : HPSVMError) : bool :=
  match h with
  | InvalidSysvarData _ | HInstruction _ | SysvarSerialization _ _ => true
  | _ => false
  end.

Lemma add_account_write_error k acc st h st' :
  add_account k acc st = (Err h, st') -> write_error h = true.
Proof.
  unfold add_account, sbind, add_account_prepare.
  destruct (if _ && _ then validate_sysvar_account k acc else Ok tt) as [[]|e]; [|by intros [= <- _]].
  destruct (negb _ && _).
  - destruct (load_program acc st) as [[entry|e] st1]; [done|by intros [= <- _]].
  - destruct (match inner _ !! _ with Some _ => _ | None => _ end); [|done].
    destruct (rebuild_program_cache _) as [[u|e] st1]; [done|]. by intros [= <- _].
Qed.

Lemma set_account_write_error k acc s h :
  (set_account k acc s).1 = Err h -> write_error h = true.
Proof.
  unfold set_account, sbind, smodify, on_db.
  destruct (add_account k acc _) as [[[]|e] d] eqn:He; simpl; [done|].
  intros [= <-]. by eapply add_account_write_error.
Qed.

Lemma set_sysvar_write_error x s h : (set_sysvar x s).1 = Err h -> write_error h = true.
Proof.
  unfold set_sysvar, try_set_sysvar, sbind, smodify, on_db.
  destruct (_ <=? _)%nat; [|by intros [= <-]].
  destruct (add_account _ _ _) as [[[]|e] d] eqn:He; simpl; [done|].
  intros [= <-]. by eapply add_account_write_error.
Qed.

Lemma host_error_write h :
  write_error h = true -> host_error h = HostExecution (ExecFatal (any_new h)).
Proof. by destruct h. Qed.

(** Every failed write through the host facade is fatal.  The errors an account
    or sysvar write can report (a refused sysvar or program, an encoding that does
    not fit) are inputs the caller may correct, but the host projects each of them to a fatal failure; the error the VM reported
    stays recoverable by downcast from it. *)
Theorem host_write_failure_fatal (k : Address) (acc : AccountSharedData) (x : Sysvar) (s : VmSt) :
  (forall e, (host_set_account k acc s).1 = Err e ->
     host_is_fatal e = true /\
     exists any h, e = HostExecution (ExecFatal any) /\
       any_downcast_ref HPSVMError any = Some h /\ (set_account k acc s).1 = Err h) /\
  (forall e, (host_set_sysvar x s).1 = Err e ->
     host_is_fatal e = true /\
     exists any h, e = HostExecution (ExecFatal any) /\
       any_downcast_ref HPSVMError any = Some h /\ (set_sysvar x s).1 = Err h).
Proof.
  unfold host_set_account, host_set_sysvar. split; intros e.
  - pose proof (set_account_write_error k acc s) as Hw.
    destruct (set_account k acc s) as [[u|h] s']; simpl; [done|]. intros [= <-].
    rewrite host_error_write by by apply Hw.
    split; [done|]. exists (any_new h), h. auto using any_downcast_new.
  - pose proof (set_sysvar_write_error x s) as Hw.
    destruct (set_sysvar x s) as [[u|h] s']; simpl; [done|]. intros [= <-].
    rewrite host_error_write by by apply Hw.
    split; [done|]. exists (any_new h), h. auto using any_downcast_new.
Qed.

End VmOpsFacts.
