(* ===== verification/Builder.v ===== *)
(** * The builder, [builder.rs]

    A builder collects a [BuildPlan]; [build] checks it and assembles a VM from the
    setters of [VmOps] and [VmPrograms] in a fixed order.  The typestate of the
    source, which closes the choice of the feature set once something depends on
    it, is an index of the builder's type here too. *)

From Stdlib Require Import ZArith Strings.Byte.
From stdpp Require Import base tactics option list sets gmap strings.
From S2P Require Import Prelude.
From S2P Require Import Types.
From S2P Require Import AccountSource.
From S2P Require Import Errors.
From S2P Require Import Lru.
From S2P Require Import History.
From S2P Require Import Runtime.
From S2P Require Import AccountsDb.
From S2P Require Import FeePayer.
From S2P Require Import Version.
From S2P Require Import TxRuntime.
From S2P Require Import Svm.
From S2P Require Import Execution.
From S2P Require Import Staging.
From S2P Require Import VmPrograms.
From S2P Require Import VmOps.

(** [FeatureConfigOpen] and [FeatureConfigSealed]. *)
Inductive FeatureConfigState : Type :=
| FeatureConfigOpen
| FeatureConfigSealed.

Inductive LogBytesLimitPlan : Type :=
| Inherit
| Explicit (limit : option Z).

Section Builder.
Context {tgt : Target} {ids : SdkIds} {sv : SysvarRuntime} {pr : ProgramRuntime}
        {pc : ProgramCacheOps} {Lst : Lru ProgramEntryKey Entry}
        {Lhist : Lru Signature TransactionResult} {fs : FeatureSets} {bud : Budgets}
        {tx : TxRuntime} {lt : LookupTables} {sp : SystemProgram} {uc : UserCode}
        {dr : DeployRuntime} {vr : VmRuntime}.

Record BuildPlan : Type := mkBuildPlan {
  bp_feature_set : option FeatureSet;
  bp_compute_budget : option ComputeBudget;
  bp_sigverify : option bool;
  bp_blockhash_check : option bool;
  bp_compute_diagnostics : option bool;
  bp_jit_policy : option JitPolicy;
  bp_lamports : option Z;
  include_sysvars : bool;
  include_feature_accounts : bool;
  include_builtins : bool;
  include_spl_programs : bool;
  include_default_programs : bool;
  include_precompiles : bool;
  bp_precompile_provider : option N;
  bp_transaction_history : option Z;
  bp_account_source : option AccountSource;
  bp_log_bytes_limit : LogBytesLimitPlan;
  bp_inspector : option InspectorRef;
  bp_custom_syscalls : list (string * BuiltinFn);
  enable_register_tracing : bool
}.

(** [BuildPlan::new]; [tracing] is [default_register_tracing_enabled]. *)
Definition plan_new (tracing : bool) : BuildPlan :=
  mkBuildPlan None None None None None None None false false false false false false None None None
    Inherit None [] tracing.

(** [Option::get_or_insert]. *)
Definition get_or_insert {A} (o : option A) (a : A) : option A := Some (default a o).

Definition apply_program_test_defaults (p : BuildPlan) : BuildPlan :=
  mkBuildPlan (bp_feature_set p) (bp_compute_budget p) (get_or_insert (bp_sigverify p) true)
    (get_or_insert (bp_blockhash_check p) true) (bp_compute_diagnostics p) (bp_jit_policy p)
    (get_or_insert (bp_lamports p) (wrap_u64 (1000000 * LAMPORTS_PER_SOL)))
    true true true (include_spl_programs p) true true
    (bp_precompile_provider p) (bp_transaction_history p) (bp_account_source p)
    (bp_log_bytes_limit p) (bp_inspector p) (bp_custom_syscalls p) (enable_register_tracing p).

Record HpsvmBuilder (st : FeatureConfigState) : Type := mkBuilder { plan : BuildPlan }.
Arguments mkBuilder {st} _.
Arguments plan {st} _.

Definition builder_new (tracing : bool) : HpsvmBuilder FeatureConfigOpen :=
  mkBuilder (plan_new tracing).

(** [seal]. *)
Definition seal (p : BuildPlan) : HpsvmBuilder FeatureConfigSealed := mkBuilder p.

(** ** Methods of the open builder *)

Definition plan_with_feature_set (f : option FeatureSet) (p : BuildPlan) : BuildPlan :=
  mkBuildPlan f (bp_compute_budget p) (bp_sigverify p) (bp_blockhash_check p)
    (bp_compute_diagnostics p) (bp_jit_policy p) (bp_lamports p) (include_sysvars p)
    (include_feature_accounts p) (include_builtins p) (include_spl_programs p)
    (include_default_programs p) (include_precompiles p) (bp_precompile_provider p)
    (bp_transaction_history p) (bp_account_source p) (bp_log_bytes_limit p) (bp_inspector p)
    (bp_custom_syscalls p) (enable_register_tracing p).

Definition with_feature_set (f : FeatureSet) (b : HpsvmBuilder FeatureConfigOpen) :
    HpsvmBuilder FeatureConfigOpen := mkBuilder (plan_with_feature_set (Some f) (plan b)).

(** ** Methods that seal an open builder and keep a sealed one *)

Definition plan_surfaces (sysvars features builtins spl defaults precompiles_ : bool)
    (p : BuildPlan) : BuildPlan :=
  mkBuildPlan (bp_feature_set p) (bp_compute_budget p) (bp_sigverify p) (bp_blockhash_check p)
    (bp_compute_diagnostics p) (bp_jit_policy p) (bp_lamports p) (include_sysvars p || sysvars)
    (include_feature_accounts p || features) (include_builtins p || builtins)
    (include_spl_programs p || spl) (include_default_programs p || defaults)
    (include_precompiles p || precompiles_) (bp_precompile_provider p)
    (bp_transaction_history p) (bp_account_source p) (bp_log_bytes_limit p) (bp_inspector p)
    (bp_custom_syscalls p) (enable_register_tracing p).

Definition with_feature_accounts {st} (b : HpsvmBuilder st) : HpsvmBuilder FeatureConfigSealed :=
  seal (plan_surfaces false true false false false false (plan b)).
Definition with_builtins {st} (b : HpsvmBuilder st) : HpsvmBuilder FeatureConfigSealed :=
  seal (plan_surfaces false false true false false false (plan b)).
Definition with_spl_programs {st} (b : HpsvmBuilder st) : HpsvmBuilder FeatureConfigSealed :=
  seal (plan_surfaces false false false true false false (plan b)).
Definition with_default_programs {st} (b : HpsvmBuilder st) : HpsvmBuilder FeatureConfigSealed :=
  seal (plan_surfaces false false false false true false (plan b)).
Definition with_precompiles {st} (b : HpsvmBuilder st) : HpsvmBuilder FeatureConfigSealed :=
  seal (plan_surfaces false false false false false true (plan b)).

Definition plan_with_provider (n : N) (p : BuildPlan) : BuildPlan :=
  mkBuildPlan (bp_feature_set p) (bp_compute_budget p) (bp_sigverify p) (bp_blockhash_check p)
    (bp_compute_diagnostics p) (bp_jit_policy p) (bp_lamports p) (include_sysvars p)
    (include_feature_accounts p) (include_builtins p) (include_spl_programs p)
    (include_default_programs p) (include_precompiles p) (Some n)
    (bp_transaction_history p) (bp_account_source p) (bp_log_bytes_limit p) (bp_inspector p)
    (bp_custom_syscalls p) (enable_register_tracing p).

Definition with_precompile_provider {st} (n : N) (b : HpsvmBuilder st) :
    HpsvmBuilder FeatureConfigSealed := seal (plan_with_provider n (plan b)).

(** The open builder also chooses every feature unless a set was chosen. *)
Definition with_program_test_defaults {st} (b : HpsvmBuilder st) :
    HpsvmBuilder FeatureConfigSealed :=
  match st with
  | FeatureConfigOpen =>
      seal (apply_program_test_defaults
              (plan_with_feature_set (get_or_insert (bp_feature_set (plan b)) fs_all_enabled) (plan b)))
  | FeatureConfigSealed => seal (apply_program_test_defaults (plan b))
  end.

(** ** Methods available in both states *)

(** The scalar settings of a plan, each replaced when given. *)
Definition plan_settings (budget : option (option ComputeBudget)) (sig bh diag : option (option bool))
    (policy : option (option JitPolicy)) (lamports hist : option (option Z))
    (src : option (option AccountSource)) (limit : option LogBytesLimitPlan)
    (insp : option (option InspectorRef)) (syscalls : list (string * BuiltinFn))
    (tracing : option bool) (p : BuildPlan) : BuildPlan :=
  mkBuildPlan (bp_feature_set p) (default (bp_compute_budget p) budget)
    (default (bp_sigverify p) sig) (default (bp_blockhash_check p) bh)
    (default (bp_compute_diagnostics p) diag) (default (bp_jit_policy p) policy)
    (default (bp_lamports p) lamports) (include_sysvars p)
    (include_feature_accounts p) (include_builtins p) (include_spl_programs p)
    (include_default_programs p) (include_precompiles p) (bp_precompile_provider p)
    (default (bp_transaction_history p) hist) (default (bp_account_source p) src)
    (default (bp_log_bytes_limit p) limit) (default (bp_inspector p) insp)
    (bp_custom_syscalls p ++ syscalls) (default (enable_register_tracing p) tracing).

Section Both.
Context {st : FeatureConfigState}.
Implicit Types b : HpsvmBuilder st.

Definition with_inspector (i : InspectorRef) b : HpsvmBuilder st :=
  mkBuilder (plan_settings None None None None None None None None None (Some (Some i)) [] None (plan b)).
Definition with_compute_budget (x : ComputeBudget) b : HpsvmBuilder st :=
  mkBuilder (plan_settings (Some (Some x)) None None None None None None None None None [] None (plan b)).
Definition with_sigverify (x : bool) b : HpsvmBuilder st :=
  mkBuilder (plan_settings None (Some (Some x)) None None None None None None None None [] None (plan b)).
Definition with_blockhash_check (x : bool) b : HpsvmBuilder st :=
  mkBuilder (plan_settings None None (Some (Some x)) None None None None None None None [] None (plan b)).
Definition with_compute_diagnostics (x : bool) b : HpsvmBuilder st :=
  mkBuilder (plan_settings None None None (Some (Some x)) None None None None None None [] None (plan b)).
Definition builder_with_jit_policy (x : JitPolicy) b : HpsvmBuilder st :=
  mkBuilder (plan_settings None None None None (Some (Some x)) None None None None None [] None (plan b)).
Definition with_lamports (x : Z) b : HpsvmBuilder st :=
  mkBuilder (plan_settings None None None None None (Some (Some x)) None None None None [] None (plan b)).
Definition with_sysvars b : HpsvmBuilder st :=
  mkBuilder (plan_surfaces true false false false false false (plan b)).
Definition with_transaction_history (x : Z) b : HpsvmBuilder st :=
  mkBuilder (plan_settings None None None None None None (Some (Some x)) None None None [] None (plan b)).
Definition with_account_source (x : AccountSource) b : HpsvmBuilder st :=
  mkBuilder (plan_settings None None None None None None None (Some (Some x)) None None [] None (plan b)).
Definition with_log_bytes_limit (x : option Z) b : HpsvmBuilder st :=
  mkBuilder (plan_settings None None None None None None None None (Some (Explicit x)) None [] None (plan b)).
Definition with_register_tracing (x : bool) b : HpsvmBuilder st :=
  mkBuilder (plan_settings None None None None None None None None None None [] (Some x) (plan b)).
Definition with_custom_syscall (name : string) (f : BuiltinFn) b : HpsvmBuilder st :=
  mkBuilder (plan_settings None None None None None None None None None None [(name, f)] None (plan b)).

End Both.

(** ** [build] *)

Definition needs_sysvars (p : BuildPlan) : bool :=
  include_builtins p || include_default_programs p || include_spl_programs p ||
  include_precompiles p || bool_decide (bp_sigverify p = Some true) ||
  bool_decide (bp_blockhash_check p = Some true).

(** [if let Some(x) = o { svm.set(x) }]. *)
Definition set_opt {A} (o : option A) (f : A -> Svm -> Svm) (s : VmSt) : VmSt :=
  match o with Some x => (f x s.1, s.2) | None => s end.

(** The settings applied before anything is loaded, in order. *)
Definition build_configure (p : BuildPlan) (s : VmSt) : VmSt :=
  let s1 := set_opt (bp_compute_budget p) set_compute_budget s in
  let s2 := set_opt (bp_jit_policy p) set_jit_policy s1 in
  let s3 := set_opt (bp_transaction_history p) set_transaction_history s2 in
  let s4 := set_opt (bp_account_source p) vm_set_account_source s3 in
  match bp_log_bytes_limit p with
  | Explicit limit => (set_log_bytes_limit limit s4.1, s4.2)
  | Inherit => s4
  end.

(** The registrations, and the refresh when no builtins will refresh later. *)
Definition build_syscalls (ptr : positive) (p : BuildPlan) : M VmSt HPSVMError unit := fun s =>
  let s1 : VmSt := (foldl (fun v r => push_syscall r.1 r.2 v) s.1 (bp_custom_syscalls p), s.2) in
  if match bp_custom_syscalls p with [] => false | _ => true end && negb (include_builtins p) then
    sbind (try_refresh_runtime_environments ptr)
      (fun _ => sbind (smodify (fun s => (svm_sync_jit_policy s.1, s.2)))
         (fun _ s => let '(r, s') := on_db rebuild_program_cache s in (map_err HInstruction r, s'))) s1
  else (Ok tt, s1).

(** What is loaded into the VM, in order; [None] is a panic. *)
Definition build_load (ptr : positive) (p : BuildPlan) : VmSt -> option VmSt :=
  and_then (when (include_builtins p) (load_builtins ptr))
    (and_then (fun s => Some (match bp_lamports p with Some l => set_lamports l s | None => s end))
       (and_then (when (include_sysvars p) set_sysvars)
          (and_then (when (include_feature_accounts p) (fun s => Some (materialize_feature_accounts s)))
             (and_then (fun s => if include_default_programs p then load_default_programs s
                                 else when (include_spl_programs p) load_spl_programs s)
                (and_then (when (include_precompiles p) set_precompiles)
                   (fun s => match bp_precompile_provider p with
                             | Some n => set_precompile_provider n s
                             | None => Some s
                             end)))))).

(** The checks and the inspector, applied last. *)
Definition build_finish (p : BuildPlan) (s : VmSt) : VmSt :=
  let s1 := set_opt (bp_sigverify p) set_sigverify s in
  let s2 := set_opt (bp_blockhash_check p) set_blockhash_check s1 in
  let s3 := set_opt (bp_compute_diagnostics p) set_compute_diagnostics s2 in
  set_opt (bp_inspector p) set_inspector s3.

(** What a build takes from outside: the airdrop keypair, the addresses of the
    [Arc]s it allocates, the native precompiles and the block extension. *)
Record BuildInputs : Type := mkBuildInputs {
  bi_airdrop : Address;
  bi_handle : positive;
  bi_env : positive;
  bi_ptr_features : positive;
  bi_ptr_syscalls : positive;
  bi_ptr_builtins : positive;
  bi_native : N;
  bi_ext : BlockEnvExt
}.

Definition fresh_vm (i : BuildInputs) (w : World) : VmSt :=
  new_inner (bi_airdrop i) (bi_handle i) (bi_env i) (bi_native i) (bi_ext i) w.

Definition build_features (i : BuildInputs) (p : BuildPlan) (s : VmSt) :
    option (result unit HPSVMError * VmSt) :=
  match bp_feature_set p with
  | Some f => set_feature_set (bi_ptr_features i) f s
  | None => Some (Ok tt, s)
  end.

(** [HpsvmBuilder::build]: [None] is a panic. *)
Definition build {st} (i : BuildInputs) (w : World) (b : HpsvmBuilder st) :
    option (result VmSt HPSVMError) :=
  let p := plan b in
  if needs_sysvars p && negb (include_sysvars p)
  then Some (Err (MissingRuntimeComponent "sysvars"))
  else
    match build_features i p (fresh_vm i w) with
    | None => None
    | Some (Err e, _) => Some (Err e)
    | Some (Ok _, s1) =>
        match build_syscalls (bi_ptr_syscalls i) p (build_configure p s1) with
        | (Err e, _) => Some (Err e)
        | (Ok _, s2) =>
            match build_load (bi_ptr_builtins i) p s2 with
            | None => None
            | Some s3 => Some (Ok (build_finish p s3))
            end
        end
    end.

(** [Hpsvm::new]: the test defaults, with an [expect]. *)
Definition hpsvm_new (i : BuildInputs) (tracing : bool) (w : World) : option VmSt :=
  match build i w (with_program_test_defaults (builder_new tracing)) with
  | Some (Ok s) => Some s
  | _ => None
  end.

(** ** Sequences of calls

    The methods with their typestates, and a sequence of calls: the types allow
    exactly the sequences the Rust compiler accepts. *)
Inductive BCall : FeatureConfigState -> FeatureConfigState -> Type :=
| BFeatureSet (f : FeatureSet) : BCall FeatureConfigOpen FeatureConfigOpen
| BFeatureAccounts {a} : BCall a FeatureConfigSealed
| BBuiltins {a} : BCall a FeatureConfigSealed
| BSplPrograms {a} : BCall a FeatureConfigSealed
| BDefaultPrograms {a} : BCall a FeatureConfigSealed
| BPrecompiles {a} : BCall a FeatureConfigSealed
| BPrecompileProvider {a} (n : N) : BCall a FeatureConfigSealed
| BTestDefaults {a} : BCall a FeatureConfigSealed
| BInspector {a} (i : InspectorRef) : BCall a a
| BComputeBudget {a} (x : ComputeBudget) : BCall a a
| BSigverify {a} (x : bool) : BCall a a
| BBlockhashCheck {a} (x : bool) : BCall a a
| BComputeDiagnostics {a} (x : bool) : BCall a a
| BJitPolicy {a} (x : JitPolicy) : BCall a a
| BLamports {a} (x : Z) : BCall a a
| BSysvars {a} : BCall a a
| BTransactionHistory {a} (x : Z) : BCall a a
| BAccountSource {a} (x : AccountSource) : BCall a a
| BLogBytesLimit {a} (x : option Z) : BCall a a
| BRegisterTracing {a} (x : bool) : BCall a a
| BCustomSyscall {a} (name : string) (f : BuiltinFn) : BCall a a.

Definition bcall {a c} (x : BCall a c) : HpsvmBuilder a -> HpsvmBuilder c :=
  match x with
  | BFeatureSet f => with_feature_set f
  | BFeatureAccounts => with_feature_accounts
  | BBuiltins => with_builtins
  | BSplPrograms => with_spl_programs
  | BDefaultPrograms => with_default_programs
  | BPrecompiles => with_precompiles
  | BPrecompileProvider n => with_precompile_provider n
  | BTestDefaults => with_program_test_defaults
  | BInspector i => with_inspector i
  | BComputeBudget y => with_compute_budget y
  | BSigverify y => with_sigverify y
  | BBlockhashCheck y => with_blockhash_check y
  | BComputeDiagnostics y => with_compute_diagnostics y
  | BJitPolicy y => builder_with_jit_policy y
  | BLamports y => with_lamports y
  | BSysvars => with_sysvars
  | BTransactionHistory y => with_transaction_history y
  | BAccountSource y => with_account_source y
  | BLogBytesLimit y => with_log_bytes_limit y
  | BRegisterTracing y => with_register_tracing y
  | BCustomSyscall name f => with_custom_syscall name f
  end.

Inductive BCalls : FeatureConfigState -> FeatureConfigState -> Type :=
| BDone {a} : BCalls a a
| BThen {a c d} (x : BCall a c) (rest : BCalls c d) : BCalls a d.

Fixpoint bcalls {a c} (xs : BCalls a c) : HpsvmBuilder a -> HpsvmBuilder c :=
  match xs with
  | BDone => fun b => b
  | BThen x rest => fun b => bcalls rest (bcall x b)
  end.

End Builder.
