(* ===== verification/BuilderFacts.v ===== *)
(** * Theorems about the builder

    A sealed builder keeps its feature set; the default constructor and the
    generic one build the same VM; a built VM has exactly the settings of its plan;
    and when [build] fails, with which error, and when it panics instead. *)

From Stdlib Require Import ZArith Strings.Byte.
From stdpp Require Import base tactics option list sets gmap strings.
From S2P Require Import Prelude.
From S2P Require Import Types.
From S2P Require Import AccountSource.
From S2P Require Import Errors.
From S2P Require Import Lru.
From S2P Require Import History.
From S2P Require Import Runtime.
From S2P Require Import AccountsDb.
From S2P Require Import FeePayer.
From S2P Require Import Version.
From S2P Require Import TxRuntime.
From S2P Require Import Svm.
From S2P Require Import Execution.
From S2P Require Import Staging.
From S2P Require Import VmPrograms.
From S2P Require Import VmProgramsFacts.
From S2P Require Import VmOps.
From S2P Require Import Builder.

Section BuilderFacts.
Context {tgt : Target} {ids : SdkIds} {sv : SysvarRuntime} {pr : ProgramRuntime}
        {pc : ProgramCacheOps} {Lst : Lru ProgramEntryKey Entry}
        {Lhist : Lru Signature TransactionResult} {fs : FeatureSets} {bud : Budgets}
        {tx : TxRuntime} {lt : LookupTables} {sp : SystemProgram} {uc : UserCode}
        {dr : DeployRuntime} {vr : VmRuntime}.

(** ** The typestate *)

Lemma bcall_sealed {a c} (x : BCall a c) (b : HpsvmBuilder a) :
  a = FeatureConfigSealed ->
  c = FeatureConfigSealed /\ bp_feature_set (plan _ (bcall x b)) = bp_feature_set (plan _ b).
Proof. destruct x; intros Ha; try done; by subst. Qed.

Lemma bcalls_sealed {a c} (xs : BCalls a c) (b : HpsvmBuilder a) :
  a = FeatureConfigSealed ->
  c = FeatureConfigSealed /\ bp_feature_set (plan _ (bcalls xs b)) = bp_feature_set (plan _ b).
Proof.
  induction xs as [a|a c d x xs IH]; intros Ha; [done|]. cbn.
  destruct (bcall_sealed x b Ha) as [Hc Hf]. destruct (IH (bcall x b) Hc) as [Hd Hg].
  split; [done|]. by rewrite Hg.
Qed.

(** ** The two default constructors *)

#[local] Opaque set_feature_set load_builtins set_sysvars load_default_programs set_precompiles
  set_lamports materialize_feature_accounts.

(** [Hpsvm::new] and [Svm::new_with_defaults] build the same VM: the builder
    with the test defaults runs the same steps in the same order, so one panics
    exactly when the other does, and otherwise they return equal VMs and leave the
    same shared caches. *)
Theorem new_matches_new_with_defaults (i : BuildInputs) (tracing : bool) (w : World) :
  hpsvm_new i tracing w =
    new_with_defaults (bi_airdrop i) (bi_handle i) (bi_env i) (bi_ptr_features i)
      (bi_ptr_builtins i) (bi_native i) (bi_ext i) w.
Proof.
  unfold hpsvm_new, new_with_defaults, build, build_features, fresh_vm. cbn.
  destruct (set_feature_set _ _ _) as [[[u|e] s1]|]; [|done|done].
  unfold build_syscalls, build_configure, build_load, when, and_then, set_opt. cbn.
  destruct s1 as [v1 w1]. cbn.
  destruct (load_builtins _ _) as [s2|]; [|done].
  change (wrap_u64 (1000000 * LAMPORTS_PER_SOL)) with (1000000 * LAMPORTS_PER_SOL)%Z.
  destruct (set_sysvars _) as [s3|]; [|done].
  destruct (load_default_programs _) as [s4|]; [|done].
  by destruct (set_precompiles s4).
Qed.

#[local] Transparent set_feature_set load_builtins set_sysvars load_default_programs set_precompiles
  set_lamports materialize_feature_accounts.

(** ** Settings *)

(** A setter of the VM acts on its settings only. *)
Definition respects (g : Svm -> Svm) : Prop :=
  forall v v', settings v = settings v' -> settings (g v) = settings (g v').

Ltac solve_respects :=
  intros [[] [] [] [? ? ? ? ? [] ?] [] ?] [[] [] [] [? ? ? ? ? [] ?] [] ?]; unfold settings; cbn;
  let H := fresh in intros H; injection H; intros; subst; reflexivity.

Lemma respects_setters :
  (forall x, respects (set_compute_budget x)) /\ (forall x, respects (set_jit_policy x)) /\
  (forall x, respects (set_transaction_history x)) /\
  (forall x, respects (vm_set_account_source x)) /\ (forall x, respects (set_log_bytes_limit x)) /\
  (forall x, respects (set_sigverify x)) /\ (forall x, respects (set_blockhash_check x)) /\
  (forall x, respects (set_compute_diagnostics x)) /\ (forall x, respects (set_inspector x)) /\
  (forall x y, respects (push_syscall x y)).
Proof. split_and!; intros; solve_respects. Qed.

Lemma respects_marks :
  respects mark_builtins /\ respects mark_default_programs /\ respects mark_spl_programs /\
  respects mark_feature_accounts /\ respects mark_sysvars /\ respects enable_standard_precompiles.
Proof. split_and!; solve_respects. Qed.

Lemma set_sysvar_settings x s : settings (set_sysvar x s).2.1 = settings s.1.
Proof.
  unfold set_sysvar, try_set_sysvar, sbind, smodify.
  pose proof (on_db_settings (add_account (sys_id x) (sysvar_account x)) s) as H.
  destruct (_ <=? _)%nat; [|done].
  destruct (on_db (add_account (sys_id x) (sysvar_account x)) s) as [[u|e] s1]; exact H.
Qed.

Lemma set_sysvars_internal_preserves l : preserves (set_sysvars_internal l).
Proof.
  induction l as [|x l IH]; intros s s'; cbn; [by intros [= <-]|].
  unfold set_sysvar_internal. pose proof (set_sysvar_settings x s) as H.
  destruct (set_sysvar x s) as [[u|e] s1]; [|done]. intros ->%IH. exact H.
Qed.

Lemma set_sysvars_settings s s' : set_sysvars s = Some s' -> settings s'.1 = settings (mark_sysvars s.1).
Proof.
  unfold set_sysvars. destruct (set_sysvars_internal (first_sysvars _) _) as [s1|] eqn:H1; [|done].
  destruct (set_sysvars_internal _ s1) as [s2|] eqn:H2; [|done].
  apply set_sysvars_internal_preserves in H1, H2. unfold set_stake_history.
  pose proof (on_db_settings (add_account STAKE_HISTORY_ID
    (mkAccount 1 stake_history_default sysvar_owner_id false 0)) s2) as H3.
  destruct (on_db _ s2) as [[u|e] s3]; [|done]. intros [= <-]. cbn in *. by rewrite H3, H2, H1.
Qed.

Lemma load_builtins_marks ptr s s' :
  load_builtins ptr s = Some s' -> settings s'.1 = settings (mark_builtins s.1).
Proof.
  unfold load_builtins. destruct (refresh_runtime_environments _ _) as [s1|] eqn:H; [|done].
  intros [= <-]. rewrite run_db_settings. by apply refresh_preserves in H.
Qed.

Lemma load_default_settings s s' :
  load_default_programs s = Some s' -> settings s'.1 = settings (mark_default_programs s.1).
Proof. unfold load_default_programs. intros H. exact (load_programs_preserves _ _ _ H). Qed.

Lemma load_spl_settings s s' :
  load_spl_programs s = Some s' -> settings s'.1 = settings (mark_spl_programs s.1).
Proof. unfold load_spl_programs. intros H. exact (load_programs_preserves _ _ _ H). Qed.

Lemma set_precompiles_settings s s' :
  set_precompiles s = Some s' -> settings s'.1 = settings (enable_standard_precompiles s.1).
Proof.
  unfold set_precompiles, load_precompiles. intros H. exact (install_precompiles_preserves _ _ _ H).
Qed.

(** The settings a plan asks for, applied to a VM. *)
Definition cond (c : bool) (g : Svm -> Svm) (v : Svm) : Svm := if c then g v else v.
Definition opt_set {A} (o : option A) (f : A -> Svm -> Svm) (v : Svm) : Svm :=
  match o with Some x => f x v | None => v end.

Definition set_provider (n : N) (v : Svm) : Svm :=
  let e := extensions v in
  set_extensions (mkSvmExtensions (ext_inspector e) (inspection_origin e) (registry e) n
    (tier_promoter e) (runtime_registry e) (reserved_account_keys e)) v.

Lemma set_provider_settings n s s' :
  set_precompile_provider n s = Some s' -> settings s'.1 = settings (set_provider n s.1).
Proof.
  unfold set_precompile_provider, load_precompiles. intros H.
  exact (install_precompiles_preserves _ _ _ H).
Qed.

Definition loaded_settings (p : BuildPlan) (v : Svm) : Svm :=
  opt_set (bp_precompile_provider p) set_provider
    (cond (include_precompiles p) enable_standard_precompiles
      (cond (include_default_programs p) mark_default_programs
        (cond (negb (include_default_programs p) && include_spl_programs p) mark_spl_programs
          (cond (include_feature_accounts p) mark_feature_accounts
            (cond (include_sysvars p) mark_sysvars
              (cond (include_builtins p) mark_builtins v)))))).

Lemma respects_cond c g : respects g -> respects (cond c g).
Proof. intros Hg v v' H. unfold cond. destruct c; auto. Qed.

Lemma respects_opt {A} (o : option A) f : (forall x, respects (f x)) -> respects (opt_set o f).
Proof. intros Hf v v' H. destruct o; [by apply Hf|done]. Qed.

Lemma respects_provider n : respects (set_provider n).
Proof. solve_respects. Qed.

Lemma build_load_settings ptr p s s' :
  build_load ptr p s = Some s' -> settings s'.1 = settings (loaded_settings p s.1).
Proof.
  destruct respects_marks as (R1 & R2 & R3 & R4 & R5 & R6).
  unfold build_load, and_then. intros H.
  destruct (when (include_builtins p) (load_builtins ptr) s) as [s1|] eqn:H1; [|done].
  assert (E1 : settings s1.1 = settings (cond (include_builtins p) mark_builtins s.1)).
  { unfold when in H1. destruct (include_builtins p); [by apply load_builtins_marks in H1|by injection H1 as <-]. }
  set (s1' := match bp_lamports p with Some l => set_lamports l s1 | None => s1 end) in H.
  assert (E1' : settings s1'.1 = settings s1.1) by (unfold s1'; by destruct (bp_lamports p)).
  destruct (when (include_sysvars p) set_sysvars s1') as [s2|] eqn:H2; [|done].
  assert (E2 : settings s2.1 = settings (cond (include_sysvars p) mark_sysvars s1'.1)).
  { unfold when in H2. destruct (include_sysvars p); [by apply set_sysvars_settings in H2|by injection H2 as <-]. }
  destruct (when (include_feature_accounts p) _ s2) as [s3|] eqn:H3; [|done].
  assert (E3 : settings s3.1 = settings (cond (include_feature_accounts p) mark_feature_accounts s2.1)).
  { unfold when in H3. destruct (include_feature_accounts p); by injection H3 as <-. }
  match type of H with match ?m with _ => _ end = _ => destruct m as [s4|] eqn:H4; [|done] end.
  assert (E4 : settings s4.1 = settings (cond (include_default_programs p) mark_default_programs
    (cond (negb (include_default_programs p) && include_spl_programs p) mark_spl_programs s3.1))).
  { unfold when in H4. destruct (include_default_programs p).
    - exact (load_default_settings _ _ H4).
    - destruct (include_spl_programs p).
      + exact (load_spl_settings _ _ H4).
      + by injection H4 as <-. }
  destruct (when (include_precompiles p) set_precompiles s4) as [s5|] eqn:H5; [|done].
  assert (E5 : settings s5.1 = settings (cond (include_precompiles p) enable_standard_precompiles s4.1)).
  { unfold when in H5. destruct (include_precompiles p); [|by injection H5 as <-].
    exact (set_precompiles_settings _ _ H5). }
  assert (E6 : settings s'.1 = settings (opt_set (bp_precompile_provider p) set_provider s5.1)).
  { destruct (bp_precompile_provider p); [exact (set_provider_settings _ _ _ H)|by injection H as <-]. }
  unfold loaded_settings. rewrite E6. apply respects_opt; [apply respects_provider|].
  rewrite E5. apply respects_cond; [done|]. rewrite E4. apply respects_cond; [done|].
  apply respects_cond; [done|]. rewrite E3. apply respects_cond; [done|].
  rewrite E2. apply respects_cond; [done|]. by rewrite E1', E1.
Qed.

Lemma set_feature_set_settings ptr f s s' :
  set_feature_set ptr f s = Some (Ok tt, s') ->
  settings s'.1 = settings (set_features f (reserved_for f) s.1).
Proof.
  unfold set_feature_set, reconfigure_materialized_feature_state.
  destruct (reconfigure_steps ptr _ _) as [s1|] eqn:H; [|done].
  pose proof (on_db_settings rebuild_program_cache (svm_sync_jit_policy s1.1, s1.2)) as H2.
  destruct (on_db rebuild_program_cache _) as [[u|e1] s2] eqn:Hdb; cbn.
  - intros [= <-]. cbn in H2. rewrite sync_policy_settings in H2.
    apply reconfigure_preserves in H. by rewrite H2, H.
  - intros Hf. by repeat case_match.
Qed.

Definition configured_settings (p : BuildPlan) (v : Svm) : Svm :=
  foldl (fun v r => push_syscall r.1 r.2 v)
    (match bp_log_bytes_limit p with Explicit l => set_log_bytes_limit l | Inherit => id end
      (opt_set (bp_transaction_history p) set_transaction_history
        (opt_set (bp_jit_policy p) set_jit_policy
          (opt_set (bp_compute_budget p) set_compute_budget
            (opt_set (bp_feature_set p) (fun f v => set_features f (reserved_for f) v) v)))))
    (bp_custom_syscalls p).

Lemma respects_foldl l : respects (fun v => foldl (fun v r => push_syscall r.1 r.2 v) v l).
Proof.
  destruct respects_setters as (_ & _ & _ & _ & _ & _ & _ & _ & _ & R).
  induction l as [|r l IH]; intros v v' H; [done|]. cbn. apply IH. by apply R.
Qed.

Lemma respects_comp g h : respects g -> respects h -> respects (fun v => g (h v)).
Proof. intros Hg Hh v v' H. by apply Hg, Hh. Qed.

Lemma set_opt_eq {A} (o : option A) f (s : VmSt) : (set_opt o f s).1 = opt_set o f s.1.
Proof. by destruct o. Qed.

(** The account source is not among the settings. *)
Lemma source_settings src v : settings (vm_set_account_source src v) = settings v.
Proof. done. Qed.

Lemma build_syscalls_settings ptr p s u s' :
  build_syscalls ptr p s = (Ok u, s') ->
  settings s'.1 = settings (foldl (fun v r => push_syscall r.1 r.2 v) s.1 (bp_custom_syscalls p)).
Proof.
  unfold build_syscalls. set (s1 := (foldl _ _ _, s.2) : VmSt).
  destruct (_ && _); [|by intros [= <- <-]].
  unfold sbind, smodify. destruct (refresh_frame ptr s1) as [H1 _].
  destruct (try_refresh_runtime_environments ptr s1) as [[x|e] s2]; [|done].
  pose proof (on_db_settings rebuild_program_cache (svm_sync_jit_policy s2.1, s2.2)) as H2.
  destruct (on_db rebuild_program_cache _) as [[y|e] s3]; [|done]. intros [= _ <-].
  cbn in *. by rewrite H2, sync_policy_settings, H1.
Qed.

Definition finished_settings (p : BuildPlan) (v : Svm) : Svm :=
  opt_set (bp_inspector p) set_inspector
    (opt_set (bp_compute_diagnostics p) set_compute_diagnostics
      (opt_set (bp_blockhash_check p) set_blockhash_check
        (opt_set (bp_sigverify p) set_sigverify v))).

(** The VM with the settings of the plan, before anything is loaded into it. *)
Definition planned (p : BuildPlan) (v : Svm) : Svm :=
  finished_settings p (loaded_settings p (configured_settings p v)).

Lemma build_configure_settings p s :
  settings (build_configure p s).1 =
  settings (match bp_log_bytes_limit p with Explicit l => set_log_bytes_limit l | Inherit => id end
      (opt_set (bp_transaction_history p) set_transaction_history
        (opt_set (bp_jit_policy p) set_jit_policy
          (opt_set (bp_compute_budget p) set_compute_budget s.1)))).
Proof.
  destruct respects_setters as (_ & _ & _ & _ & R & _).
  unfold build_configure.
  set (s3 := set_opt (bp_transaction_history p) set_transaction_history _).
  assert (H3 : s3.1 = opt_set (bp_transaction_history p) set_transaction_history
        (opt_set (bp_jit_policy p) set_jit_policy
          (opt_set (bp_compute_budget p) set_compute_budget s.1))).
  { unfold s3. by rewrite !set_opt_eq. }
  rewrite <- H3. clear H3.
  assert (H4 : settings (set_opt (bp_account_source p) vm_set_account_source s3).1 = settings s3.1).
  { by destruct (bp_account_source p). }
  destruct (bp_log_bytes_limit p); [exact H4|]. by apply R.
Qed.

Lemma finished_respects p : respects (finished_settings p).
Proof.
  destruct respects_setters as (_ & _ & _ & _ & _ & R1 & R2 & R3 & R4 & _).
  unfold finished_settings. intros v v' H.
  apply respects_opt; [done|]. apply respects_opt; [done|]. apply respects_opt; [done|].
  by apply respects_opt.
Qed.

Lemma loaded_respects p : respects (loaded_settings p).
Proof.
  destruct respects_marks as (R1 & R2 & R3 & R4 & R5 & R6). intros v v' H. unfold loaded_settings.
  apply respects_opt; [apply respects_provider|]. by do 6 (apply respects_cond; [done|]).
Qed.

Lemma build_settings {st} i w (b : HpsvmBuilder st) s :
  build i w b = Some (Ok s) -> settings s.1 = settings (planned (plan _ b) (fresh_vm i w).1).
Proof.
  unfold build. set (p := plan _ b). destruct (needs_sysvars p && _); [done|].
  destruct (build_features i p (fresh_vm i w)) as [[[[]|e] s1]|] eqn:H1; [|done|done].
  destruct (build_syscalls _ p _) as [[u|e] s2] eqn:H2; [|done].
  destruct (build_load _ p s2) as [s3|] eqn:H3; [|done]. intros [= <-].
  apply build_syscalls_settings in H2. apply build_load_settings in H3.
  assert (E1 : settings s1.1 =
    settings (opt_set (bp_feature_set p) (fun f v => set_features f (reserved_for f) v) (fresh_vm i w).1)).
  { unfold build_features in H1. destruct (bp_feature_set p) as [f|].
    - exact (set_feature_set_settings _ _ _ _ H1).
    - by injection H1 as <-. }
  assert (E4 : (build_finish p s3).1 = finished_settings p s3.1).
  { unfold build_finish, finished_settings. by rewrite !set_opt_eq. }
  rewrite E4. unfold planned. apply finished_respects. rewrite H3. apply loaded_respects.
  rewrite H2. unfold configured_settings. apply respects_foldl. rewrite build_configure_settings.
  destruct respects_setters as (R1 & R2 & R3 & _ & R5 & _).
  assert (Hc : forall g, respects g -> settings (g (opt_set (bp_transaction_history p) set_transaction_history
        (opt_set (bp_jit_policy p) set_jit_policy
          (opt_set (bp_compute_budget p) set_compute_budget s1.1)))) =
    settings (g (opt_set (bp_transaction_history p) set_transaction_history
        (opt_set (bp_jit_policy p) set_jit_policy
          (opt_set (bp_compute_budget p) set_compute_budget
            (opt_set (bp_feature_set p) (fun f v => set_features f (reserved_for f) v) (fresh_vm i w).1)))))).
  { intros g Hg. apply Hg. apply respects_opt; [done|]. apply respects_opt; [done|].
    by apply respects_opt. }
  destruct (bp_log_bytes_limit p); apply Hc; [by intros ? ? ?|done].
Qed.

(** ** What the settings of a plan are *)

Definition plan_limits (p : BuildPlan) : RuntimeLimits :=
  match bp_log_bytes_limit p with
  | Explicit limit => mkRuntimeLimits limit
  | Inherit => RuntimeLimits_default
  end.

(** The version of a plan: the defaults of a new VM with what was asked for. *)
Definition plan_version (p : BuildPlan) : Version :=
  mkVersion (default fs_default (bp_feature_set p)) FeeStructure_default (bp_compute_budget p)
    rent_default (plan_limits p) (mkClusterInfo MainnetBeta (spec_id_name MainnetBeta))
    (default false (bp_sigverify p)) (default false (bp_blockhash_check p))
    (default true (bp_compute_diagnostics p)) (default JitPolicy_DEFAULT (bp_jit_policy p)).

Definition plan_history (p : BuildPlan) : TransactionHistory :=
  match bp_transaction_history p with
  | Some n => set_capacity history_new n
  | None => history_new
  end.

Definition plan_materialized (p : BuildPlan) : MaterializedState :=
  mkMaterialized (include_builtins p) (include_default_programs p)
    (negb (include_default_programs p) && include_spl_programs p)
    (include_feature_accounts p) (include_sysvars p).

Lemma push_all_frame l v :
  let v' := foldl (fun v r => push_syscall r.1 r.2 v) v l in
  version v' = version v /\ history (state v') = history (state v) /\
  materialized v' = materialized v /\ ext_inspector (extensions v') = ext_inspector (extensions v) /\
  precompiles (extensions v') = precompiles (extensions v) /\
  standard_precompiles (runtime_registry (extensions v')) =
    standard_precompiles (runtime_registry (extensions v)) /\
  custom_syscalls (runtime_registry (extensions v')) =
    custom_syscalls (runtime_registry (extensions v)) ++ l.
Proof.
  revert v. induction l as [|[n f] l IH]; intros v; cbn; [by rewrite app_nil_r|].
  destruct (IH (push_syscall n f v)) as (-> & -> & -> & -> & -> & -> & ->). cbn.
  by rewrite <- app_assoc.
Qed.

Lemma configured_frame p i w :
  let v := configured_settings p (fresh_vm i w).1 in
  version v = mkVersion (default fs_default (bp_feature_set p)) FeeStructure_default
    (bp_compute_budget p) rent_default (plan_limits p)
    (mkClusterInfo MainnetBeta (spec_id_name MainnetBeta)) false false true
    (default JitPolicy_DEFAULT (bp_jit_policy p)) /\
  history (state v) = plan_history p /\ materialized v = MaterializedState_default /\
  ext_inspector (extensions v) = None /\ precompiles (extensions v) = bi_native i /\
  standard_precompiles (runtime_registry (extensions v)) = false /\
  custom_syscalls (runtime_registry (extensions v)) = bp_custom_syscalls p.
Proof.
  unfold configured_settings. cbv zeta.
  match goal with |- context [foldl _ ?v0 _] =>
    destruct (push_all_frame (bp_custom_syscalls p) v0) as (-> & -> & -> & -> & -> & -> & ->)
  end.
  unfold plan_limits, plan_history.
  destruct (bp_log_bytes_limit p), (bp_transaction_history p), (bp_jit_policy p),
    (bp_compute_budget p), (bp_feature_set p); done.
Qed.

Lemma loaded_frame p v :
  let v' := loaded_settings p v in
  version v' = version v /\ history (state v') = history (state v) /\
  ext_inspector (extensions v') = ext_inspector (extensions v) /\
  custom_syscalls (runtime_registry (extensions v')) =
    custom_syscalls (runtime_registry (extensions v)) /\
  precompiles (extensions v') = default (precompiles (extensions v)) (bp_precompile_provider p) /\
  (standard_precompiles (runtime_registry (extensions v)) = false ->
   standard_precompiles (runtime_registry (extensions v')) = include_precompiles p) /\
  (materialized v = MaterializedState_default -> materialized v' = plan_materialized p).
Proof.
  unfold loaded_settings, plan_materialized, cond, opt_set.
  destruct (bp_precompile_provider p), (include_precompiles p), (include_default_programs p),
    (include_spl_programs p), (include_feature_accounts p), (include_sysvars p), (include_builtins p);
    cbn; split_and!; try done; by intros ->.
Qed.

Lemma finished_frame p v :
  let v' := finished_settings p v in
  let x := version v in
  version v' = mkVersion (v_feature_set x) (v_fee_structure x) (v_compute_budget x) (v_rent x)
    (v_limits x) (v_cluster x) (default (v_sigverify x) (bp_sigverify p))
    (default (v_blockhash_check x) (bp_blockhash_check p))
    (default (v_compute_diagnostics x) (bp_compute_diagnostics p)) (v_jit_policy x) /\
  history (state v') = history (state v) /\ materialized v' = materialized v /\
  (ext_inspector (extensions v) = None -> ext_inspector (extensions v') = bp_inspector p) /\
  precompiles (extensions v') = precompiles (extensions v) /\
  runtime_registry (extensions v') = runtime_registry (extensions v).
Proof.
  unfold finished_settings, opt_set. destruct v as [? [] ? [] ? ?].
  destruct (bp_inspector p), (bp_compute_diagnostics p), (bp_blockhash_check p), (bp_sigverify p);
    cbn; split_and!; done.
Qed.

Lemma settings_fields v v' :
  settings v = settings v' ->
  version v = version v' /\ history (state v) = history (state v') /\
  materialized v = materialized v' /\ ext_inspector (extensions v) = ext_inspector (extensions v') /\
  precompiles (extensions v) = precompiles (extensions v') /\
  runtime_registry (extensions v) = runtime_registry (extensions v').
Proof.
  destruct v as [[] ? [] [] ? ?], v' as [[] ? [] [] ? ?]. unfold settings. cbn. intros H.
  injection H. intros. by subst.
Qed.

(** C26: A built VM has the settings of its plan, whatever the order of the calls that
    made the plan: its version is that of a new VM with the values asked
    for, and so are its history, inspector, precompile provider, custom syscalls and
    the record of what was loaded; the SPL programs count as loaded on their own only
    when the default programs, which contain them, were not asked for. *)
Theorem build_respects_plan {st} i w (b : HpsvmBuilder st) s :
  build i w b = Some (Ok s) ->
  let p := plan _ b in
  version s.1 = plan_version p /\
  history (state s.1) = plan_history p /\
  materialized s.1 = plan_materialized p /\
  ext_inspector (extensions s.1) = bp_inspector p /\
  precompiles (extensions s.1) = default (bi_native i) (bp_precompile_provider p) /\
  runtime_registry (extensions s.1) = mkRuntimeRegistry (bp_custom_syscalls p) (include_precompiles p).
Proof.
  intros Hb p. apply build_settings in Hb. fold p in Hb. unfold planned in Hb.
  destruct (settings_fields _ _ Hb) as (-> & -> & -> & -> & -> & ->).
  destruct (configured_frame p i w) as (C1 & C2 & C3 & C4 & C5 & C6 & C7).
  set (v0 := configured_settings p (fresh_vm i w).1) in *.
  destruct (loaded_frame p v0) as (L1 & L2 & L3 & L4 & L5 & L6 & L7).
  set (v1 := loaded_settings p v0) in *.
  destruct (finished_frame p v1) as (-> & -> & -> & F4 & -> & ->).
  rewrite (F4 ltac:(congruence)), L1, L2, L5, (L7 C3), C1, C2, C5. split_and!; try done.
  specialize (L6 C6). rewrite C7 in L4. by destruct (runtime_registry (extensions v1)); cbn in *; subst.
Qed.

(** C27: Once a builder is sealed its feature set is fixed: the types let no further
    call reopen it, no call that is allowed changes the choice, and the VM that is
    finally built runs under exactly the set chosen before sealing. *)
Theorem sealed_builder_fixes_features {c} (b : HpsvmBuilder FeatureConfigSealed)
    (calls : BCalls FeatureConfigSealed c) i w s :
  build i w (bcalls calls b) = Some (Ok s) ->
  c = FeatureConfigSealed /\
  v_feature_set (version s.1) = default fs_default (bp_feature_set (plan _ b)).
Proof.
  intros Hb. destruct (bcalls_sealed calls b eq_refl) as [Hc Hf]. split; [done|].
  apply build_settings in Hb. unfold planned in Hb. set (p := plan _ (bcalls calls b)) in *.
  rewrite (settings_version _ _ Hb). destruct (configured_frame p i w) as (C1 & _).
  set (v0 := configured_settings p (fresh_vm i w).1) in *.
  destruct (loaded_frame p v0) as (L1 & _). destruct (finished_frame p (loaded_settings p v0)) as (-> & _).
  rewrite L1, C1. cbn. by rewrite <- Hf.
Qed.

(** ** When building fails *)

Local Notation db v := (accounts (state v)).

(** A rebuild over an overlay without accounts succeeds. *)
Lemma rebuild_empty s :
  inner (cache (db s.1)) = ∅ ->
  exists s', on_db rebuild_program_cache s = (Ok tt, s') /\
    db s'.1 = db s.1 /\ settings s'.1 = settings s.1.
Proof.
  intros He. unfold on_db, rebuild_program_cache, sbind, program_accounts, db_of. cbn [fst snd].
  rewrite He, map_to_list_empty. cbn. eexists. split; [reflexivity|]. done.
Qed.

(** On a new VM nothing is materialized, so a feature set is always accepted. *)
Lemma fresh_features_ok i p w :
  exists s1, build_features i p (fresh_vm i w) = Some (Ok tt, s1) /\ inner (cache (db s1.1)) = ∅.
Proof.
  unfold build_features. destruct (bp_feature_set p) as [f|]; [|by eexists].
  unfold set_feature_set, reconfigure_materialized_feature_state.
  set (s := (set_features f _ _, _) : VmSt).
  assert (Hs : reconfigure_steps (bi_ptr_features i) (v_feature_set (version (fresh_vm i w).1)) s = Some s)
    by done.
  rewrite Hs. destruct (rebuild_empty (svm_sync_jit_policy s.1, s.2)) as (s' & -> & Hd & _).
  - destruct (sync_policy_version s.1) as [_ Ha]. cbn [fst]. by rewrite Ha.
  - exists s'. split; [done|]. rewrite Hd. destruct (sync_policy_version s.1) as [_ Ha].
    cbn [fst]. by rewrite Ha.
Qed.

Lemma configure_overlay p s : inner (cache (db (build_configure p s).1)) = inner (cache (db s.1)).
Proof.
  unfold build_configure. by destruct (bp_log_bytes_limit p), (bp_account_source p),
    (bp_transaction_history p), (bp_jit_policy p), (bp_compute_budget p).
Qed.

Lemma push_all_db l v : db (foldl (fun v r => push_syscall r.1 r.2 v) v l) = db v.
Proof. revert v. induction l as [|r l IH]; intros v; [done|]. cbn. by rewrite IH. Qed.

(** The state in which the environments are refreshed has the planned settings. *)
Lemma syscalls_state i p w s1 :
  build_features i p (fresh_vm i w) = Some (Ok tt, s1) ->
  settings (foldl (fun v r => push_syscall r.1 r.2 v) (build_configure p s1).1 (bp_custom_syscalls p)) =
  settings (configured_settings p (fresh_vm i w).1).
Proof.
  intros H1. unfold configured_settings. apply respects_foldl. rewrite build_configure_settings.
  assert (E1 : settings s1.1 =
    settings (opt_set (bp_feature_set p) (fun f v => set_features f (reserved_for f) v) (fresh_vm i w).1)).
  { unfold build_features in H1. destruct (bp_feature_set p) as [f|].
    - exact (set_feature_set_settings _ _ _ _ H1).
    - by injection H1 as <-. }
  destruct respects_setters as (R1 & R2 & R3 & _ & R5 & _).
  assert (Hr : respects (match bp_log_bytes_limit p with
    | Explicit l => set_log_bytes_limit l | Inherit => id end)).
  { destruct (bp_log_bytes_limit p); [by intros ? ? ?|done]. }
  apply Hr, respects_opt; [done|]. apply respects_opt; [done|]. by apply respects_opt.
Qed.

(** The early refresh fails exactly when the environment cannot be built. *)
Lemma build_syscalls_result ptr p s :
  inner (cache (db s.1)) = ∅ ->
  let v := foldl (fun v r => push_syscall r.1 r.2 v) s.1 (bp_custom_syscalls p) in
  (build_syscalls ptr p s).1 =
    match build_environment v with
    | Err e => if match bp_custom_syscalls p with [] => false | _ => true end && negb (include_builtins p)
               then Err e else Ok tt
    | Ok _ => Ok tt
    end.
Proof.
  intros He v. unfold build_syscalls. set (s1 := (foldl _ _ _, s.2) : VmSt).
  change v with s1.1. destruct (bp_custom_syscalls p) as [|r l] eqn:Hl; [by destruct (build_environment _)|].
  destruct (include_builtins p); cbn [andb negb]; [by destruct (build_environment _)|].
  assert (Hd : is_default_config s1.1 = false).
  { apply custom_not_default. unfold s1. cbn [fst]. rewrite <- Hl.
    destruct (push_all_frame (bp_custom_syscalls p) s.1) as (_ & _ & _ & _ & _ & _ & ->).
    rewrite Hl. by destruct (custom_syscalls _). }
  assert (Hi : inner (cache (db s1.1)) = ∅) by (unfold s1; cbn [fst]; by rewrite push_all_db).
  unfold sbind, smodify, try_refresh_runtime_environments. destruct s1 as [v1 w1]. cbn [fst snd] in *.
  rewrite Hd. destruct (build_environment v1) as [env|e]; [|done].
  match goal with |- context [on_db rebuild_program_cache ?x] => destruct (rebuild_empty x) as (s' & -> & _) end;
    [|done].
  cbn [fst]. match goal with |- context [svm_sync_jit_policy ?x] =>
    destruct (sync_policy_version x) as [_ ->] end. exact Hi.
Qed.

(** [build] reports an error in exactly two cases: something needs the sysvars
    and they were not asked for, or a custom syscall is rejected and no builtins were
    asked for.  A rejected custom syscall with builtins makes [build] panic instead
    of returning the error. *)
Theorem build_errors_exact {st} i w (b : HpsvmBuilder st) :
  let p := plan _ b in
  let env := build_environment (configured_settings p (fresh_vm i w).1) in
  (needs_sysvars p = true -> include_sysvars p = false ->
   build i w b = Some (Err (MissingRuntimeComponent "sysvars"))) /\
  (forall e, needs_sysvars p && negb (include_sysvars p) = false ->
   bp_custom_syscalls p <> [] -> env = Err e ->
   build i w b = if include_builtins p then None else Some (Err e)) /\
  (forall e, build i w b = Some (Err e) ->
   (needs_sysvars p = true /\ include_sysvars p = false /\
    e = MissingRuntimeComponent "sysvars") \/
   (bp_custom_syscalls p <> [] /\ include_builtins p = false /\ env = Err e)).
Proof.
  intros p env. destruct (fresh_features_ok i p w) as (s1 & H1 & Hi).
  pose proof (syscalls_state i p w s1 H1) as Hset. rewrite <- (configure_overlay p) in Hi.
  pose proof (build_syscalls_result (bi_ptr_syscalls i) p (build_configure p s1) Hi) as Hr.
  apply build_environment_settings in Hset as (Hb & _ & _ & Hreg). cbv zeta in Hr.
  rewrite Hb in Hr. fold env in Hr. unfold build. fold p. rewrite H1.
  split; [intros -> ->; done|]. split.
  - intros e -> Hne He. rewrite He in Hr.
    destruct (build_syscalls _ p _) as [r s2] eqn:H2. cbn in Hr. subst r.
    destruct (bp_custom_syscalls p) as [|c l] eqn:Hl; [done|].
    destruct (include_builtins p) eqn:Hinc; cbn; [|done].
    assert (Hload : build_load (bi_ptr_builtins i) p s2 = None); [|by rewrite Hload].
    unfold build_load, and_then at 1, when. rewrite Hinc. unfold load_builtins, refresh_runtime_environments.
    set (s3 := (mark_builtins s2.1, s2.2) : VmSt).
    assert (Hs2 : s2.1 = foldl (fun v r => push_syscall r.1 r.2 v) (build_configure p s1).1 (bp_custom_syscalls p)).
    { revert H2. unfold build_syscalls. rewrite Hl, Hinc. cbn [andb negb]. by intros [= <-]. }
    assert (He3 : build_environment s3.1 = Err e).
    { trans (build_environment s2.1); [by destruct s2 as [[? ? ? ? ? ?] ?]|]. by rewrite Hs2, Hl, Hb. }
    rewrite (refresh_fails _ s3 e); [done| |exact He3]. apply custom_not_default.
    change (custom_syscalls (runtime_registry (extensions s2.1)) <> []). rewrite Hs2.
    destruct (push_all_frame (bp_custom_syscalls p) (build_configure p s1).1) as (_ & _ & _ & _ & _ & _ & ->).
    rewrite Hl. by destruct (custom_syscalls _).
  - intros e. destruct (needs_sysvars p) eqn:Hn, (include_sysvars p) eqn:Hs; cbn [andb negb];
      try (intros [= <-]; left; done);
      (destruct (build_syscalls _ p _) as [[u|e'] s2]; [by destruct (build_load _ _ _)|];
       intros [= ->]; right; destruct env as [x|e'']; [done|]; cbn in Hr;
       destruct (bp_custom_syscalls p), (include_builtins p); cbn in Hr; simplify_eq; done).
Qed.

End BuilderFacts.
