(* ===== verification/Inspectors.v ===== *)
(** * Inspectors, [crates/hpsvm-inspectors] and the dispatch of [vm.rs]

    An inspector is a state with an answer to a consultation and a reaction to
    every hook; the handle a caller keeps after the inspector has moved into the VM
    reads that state.  The inspectors of the crate are values of that type, the
    origin filter is a combinator on it, and an execution consults the inspector
    once and then feeds it the hooks the execution fires. *)

From Stdlib Require Import ZArith Strings.String.
From stdpp Require Import base tactics option list sets gmap strings pretty.
From S2P Require Import Prelude.
From S2P Require Import Types.
From S2P Require Import AccountSource.
From S2P Require Import Errors.
From S2P Require Import Lru.
From S2P Require Import History.
From S2P Require Import Runtime.
From S2P Require Import AccountsDb.
From S2P Require Import FeePayer.
From S2P Require Import Version.
From S2P Require Import TxRuntime.
From S2P Require Import Svm.
From S2P Require Import Execution.

Section Inspectors.
Context {tgt : Target} {ids : SdkIds} {sv : SysvarRuntime} {pr : ProgramRuntime}
        {pc : ProgramCacheOps} {Lst : Lru ProgramEntryKey Entry}
        {Lhist : Lru Signature TransactionResult} {fs : FeatureSets} {bud : Budgets}
        {tx : TxRuntime} {lt : LookupTables} {sp : SystemProgram} {dsp : ExternalDisplay}.

(** The trait: [accepts_origin] (the state is behind a lock, so it may change) and
    the hooks. *)
Record Inspector (S : Type) : Type := mkInspector {
  insp_accepts : TransactionOrigin -> S -> bool * S;
  insp_hook : InspectorEvent -> S -> S
}.
Arguments insp_accepts {S}.
Arguments insp_hook {S}.
Arguments mkInspector {S}.

(** The defaults of the trait: user traffic only, and no reaction. *)
Definition default_accepts {S} (o : TransactionOrigin) (st : S) : bool * S := (is_user o, st).
Definition default_hook {S} (e : InspectorEvent) (st : S) : S := st.

Definition NoopInspector : Inspector unit := mkInspector default_accepts default_hook.

(** [OriginFiltered]: the filter is asked first, and a refusal is not passed on. *)
Definition origin_filtered {S} (inner : Inspector S) (f : OriginFilter) : Inspector S :=
  mkInspector
    (fun o st => if origin_allows f o then insp_accepts inner o st else (false, st))
    (insp_hook inner).

(** [RecordingInspector]: its log. *)
Definition rust_bool (b : bool) : string := if b then "true" else "false".

Definition recorded_event (e : InspectorEvent) : option string :=
  match e with
  | EvTransactionStart _ => Some "start"%string
  | EvInstructionStart index program_id =>
      Some ("instruction_start " +:+ pretty index +:+ " " +:+ display_address program_id)
  | EvInstructionEnd index program_id =>
      Some ("instruction_end " +:+ pretty index +:+ " " +:+ display_address program_id)
  | EvTransactionEnd r => Some ("end " +:+ rust_bool (is_ok r))
  | EvLog _ | EvAccountChange _ => None
  end.

Definition RecordingInspector : Inspector (list string) :=
  mkInspector default_accepts (fun e log => log ++ option_list (recorded_event e)).

(** [OriginRecordingInspector]: the origins it was consulted for. *)
Definition OriginRecordingInspector : Inspector (list TransactionOrigin) :=
  mkInspector (fun o log => (true, log ++ [o])) default_hook.

(** [fetch_add] on a counter of the width of [usize]. *)
Definition fetch_add_usize (n : Z) : Z := wrap_u64 (n + 1).

Definition CountingInspector : Inspector Z :=
  mkInspector default_accepts
    (fun e n => match e with EvInstructionStart _ _ => fetch_add_usize n | _ => n end).

Record OriginCounts : Type := mkOriginCounts {
  user_instructions : Z;
  internal_airdrops : Z;
  last_origin : option TransactionOrigin
}.

Definition counts_default : OriginCounts := mkOriginCounts 0 0 None.

Definition OriginCountingInspector : Inspector OriginCounts :=
  mkInspector
    (fun o st =>
       (match o with User | InternalAirdrop => true | Batch _ _ => false end,
        mkOriginCounts (user_instructions st) (internal_airdrops st) (Some o)))
    (fun e st =>
       match e with
       | EvInstructionStart _ _ =>
           match last_origin st with
           | Some User =>
               mkOriginCounts (fetch_add_usize (user_instructions st)) (internal_airdrops st)
                 (last_origin st)
           | Some InternalAirdrop =>
               mkOriginCounts (user_instructions st) (fetch_add_usize (internal_airdrops st))
                 (last_origin st)
           | _ => st
           end
       | _ => st
       end).

(** ** An execution under an inspector

    [execute_readonly]: one consultation with the origin of the execution selects
    the mode, and the hooks reach the inspector in the order they fire. *)
Definition inspected_readonly {S} (i : Inspector S) (s : VmSt) (t : VersionedTransaction) (st : S) :
    option (ExecutionResult * World * S) :=
  let '(live, st1) := insp_accepts i (inspection_origin (extensions s.1)) st in
  match execute_readonly_impl (if live then DynInspector else NoInspector) s t with
  | None => None
  | Some (r, w, ob) => Some (r, w, foldl (fun st e => insp_hook i e st) st1 (ob_events ob))
  end.

(** Executions one after another, each on a VM of its own (an execution is readonly). *)
Fixpoint inspected_all {S} (i : Inspector S) (l : list (VmSt * VersionedTransaction)) (st : S) :
    option S :=
  match l with
  | [] => Some st
  | (s, t) :: rest =>
      match inspected_readonly i s t st with
      | None => None
      | Some (_, _, st') => inspected_all i rest st'
      end
  end.

(** ** Hooks that re-enter or panic

    The inspector is in a slot of the VM.  A hook is handed the VM: it may start
    executions on it, each with an origin and the hooks it would fire, and it may
    panic.  [None] is an execution that nests deeper than [depth]. *)
Section Slot.
Context {S : Type} (i : Inspector S)
        (reenters : InspectorEvent -> S -> list (TransactionOrigin * list InspectorEvent))
        (panics : InspectorEvent -> S -> bool).

(** [fire_inspector]: the inspector is taken out of the slot while the hook runs, and
    put back after it, also when it panicked; the panic goes on. *)
Definition fire_inspector (op : S -> option S -> option (S * option S * bool)) (slot : option S) :
    option (option S * bool) :=
  match slot with
  | None => Some (None, false)
  | Some inspector =>
      match op inspector None with
      | None => None
      | Some (inspector', _, panicked) => Some (Some inspector', panicked)
      end
  end.

(** Steps that thread the slot, up to the first that panics. *)
Fixpoint until_panic {A} (step : A -> option S -> option (option S * bool)) (l : list A)
    (slot : option S) : option (option S * bool) :=
  match l with
  | [] => Some (slot, false)
  | x :: rest =>
      match step x slot with
      | Some (slot', false) => until_panic step rest slot'
      | other => other
      end
  end.

Definition run_hook (execute : TransactionOrigin * list InspectorEvent -> option S -> option (option S * bool))
    (e : InspectorEvent) (st : S) (slot : option S) : option (S * option S * bool) :=
  match until_panic execute (reenters e st) slot with
  | None => None
  | Some (slot', panicked) => Some (insp_hook i e st, slot', panicked || panics e st)
  end.

(** An execution: the mode is selected by one consultation of the slot, and the hooks
    of the dynamic mode go through [fire_inspector]. *)
Fixpoint execute_inspected (depth : nat) (x : TransactionOrigin * list InspectorEvent)
    (slot : option S) : option (option S * bool) :=
  match depth with
  | O => None
  | Datatypes.S depth' =>
      match slot with
      | None => Some (None, false)
      | Some st =>
          let '(live, st1) := insp_accepts i x.1 st in
          if live
          then until_panic (fun e => fire_inspector (run_hook (execute_inspected depth') e)) x.2 (Some st1)
          else Some (Some st1, false)
      end
  end.

End Slot.

End Inspectors.

Arguments insp_accepts {sv pr pc fs tx S}.
Arguments insp_hook {sv pr pc fs tx S}.
Arguments mkInspector {sv pr pc fs tx S}.
