(* ===== verification/InspectorsFacts.v ===== *)
(** * Theorems about inspection

    The hooks of an execution form one bracket: a start, a start and an end for
    every top-level instruction that was run, in order, the logs, and an end with
    the result; a rejected transaction fires nothing.  From that, what the
    inspectors of the crate record and count is exact. *)

From Stdlib Require Import ZArith Lia Strings.String.
From stdpp Require Import base tactics option list sets gmap strings pretty.
From S2P Require Import Prelude.
From S2P Require Import Types.
From S2P Require Import AccountSource.
From S2P Require Import Errors.
From S2P Require Import Lru.
From S2P Require Import History.
From S2P Require Import Runtime.
From S2P Require Import AccountsDb.
From S2P Require Import FeePayer.
From S2P Require Import InstructionTrace.
From S2P Require Import Version.
From S2P Require Import TxRuntime.
From S2P Require Import Svm.
From S2P Require Import Execution.
From S2P Require Import ExecutionFacts.
From S2P Require Import Inspectors.

Section InspectorsFacts.
Context {tgt : Target} {ids : SdkIds} {sv : SysvarRuntime} {pr : ProgramRuntime}
        {pc : ProgramCacheOps} {Lst : Lru ProgramEntryKey Entry}
        {Lhist : Lru Signature TransactionResult} {fs : FeatureSets} {bud : Budgets}
        {tx : TxRuntime} {lt : LookupTables} {sp : SystemProgram} {dsp : ExternalDisplay}.

(** The hooks of instructions that run one after another, from an index. *)
Fixpoint instruction_events (i : nat) (l : list Address) : list InspectorEvent :=
  match l with
  | [] => []
  | k :: rest => EvInstructionStart i k :: EvInstructionEnd i k :: instruction_events (S i) rest
  end.

(** What a live inspector sees of a transaction: [n] instructions were run, all of
    them when it succeeded, the last of them failing when it did not. *)
Definition bracket (stx : SanitizedTransaction) (n : nat) (logs : list string)
    (r : result unit TransactionError) : list InspectorEvent :=
  EvTransactionStart stx :: instruction_events 0 (take n (stx_program_ids stx)) ++
  map EvLog logs ++ [EvTransactionEnd r].

Definition top_level_count (stx : SanitizedTransaction) : nat :=
  length (stx_program_ids stx) `min` length (stx_instructions stx).

Lemma loop_events stx l i units ctx r u c ev :
  process_message_loop DynInspector stx l i units ctx = (r, u, c, ev) ->
  exists n, (n <= length l)%nat /\ ev = instruction_events i (take n l.*1) /\
    (r = Ok tt -> n = length l).
Proof.
  revert i units ctx u c ev. induction l as [|[k ix] l IH]; intros i units ctx u c ev; cbn.
  - intros [= <- <- <- <-]. by exists 0%nat.
  - destruct (if ctx_is_precompile ctx k then _ else _) as [[consumed [x|e]] ctx1].
    + destruct (process_message_loop DynInspector stx l (S i) _ ctx1) as [[[r1 u1] c1] ev1] eqn:Hl.
      intros [= -> <- <- <-]. destruct (IH _ _ _ _ _ _ Hl) as (n & Hn & -> & Hr).
      exists (S n). split_and!; [cbn; lia|done|]. intros E. by rewrite (Hr E).
    + intros [= <- <- <- <-]. exists 1%nat. split_and!; [lia|by cbn; rewrite take_0|done].
Qed.

Lemma zip_fst_take {A B} (l : list A) (k : list B) : (zip l k).*1 = take (length k) l.
Proof. revert k. induction l as [|x l IH]; intros [|y k]; cbn; [done..|]. by rewrite IH. Qed.

Lemma message_events stx idx units ctx r u c ev :
  length idx = length (stx_instructions stx) ->
  process_message DynInspector stx idx units ctx = (r, u, c, ev) ->
  exists n, (n <= top_level_count stx)%nat /\
    ev = instruction_events 0 (take n (stx_program_ids stx)) /\
    (r = Ok tt -> n = top_level_count stx).
Proof.
  intros Hlen. unfold process_message.
  destruct (ctx_prepare_top_level_instructions stx ctx) as [[x|[i e]] ctx1].
  - intros (n & Hn & -> & Hr)%loop_events. exists n. unfold top_level_count.
    rewrite length_take, length_zip_with, Hlen in Hn, Hr. split_and!; [lia| |intros E; rewrite (Hr E); lia].
    f_equal. rewrite fmap_take, take_take.
    rewrite zip_fst_take, take_take. f_equal. lia.
  - intros [= <- <- <- <-]. exists 0%nat. split_and!; [lia|by rewrite take_0|done].
Qed.

Lemma transaction_events s stx limits flags p w ob :
  process_transaction DynInspector s stx limits flags = Some (Ok p, w, ob) ->
  exists n, (n <= top_level_count stx)%nat /\ ob_events ob = bracket stx n (ob_logs ob) (cs_result p) /\
    (cs_result p = Ok tt -> n = top_level_count stx).
Proof.
  unfold process_transaction. destruct s as [v w0].
  destruct (sc_get_rent _) as [rent|]; [|done].
  destruct (load_accounts _ _ _ _ _ _ _) as [[l|e]|]; [|done|done].
  destruct (negb (la_validated_fee_payer l)); [done|].
  destruct (resolve_program_indices _ _ _ _ _ _) as [idx|e] eqn:Hi; [|done].
  destruct (process_message _ _ _ _ _) as [[[r u] c] ev] eqn:Hm. intros [= <- <- <-]. cbn.
  apply message_events in Hm as (n & Hn & -> & Hr); [by exists n|].
  apply traverse_Ok_Forall2, Forall2_length in Hi. done.
Qed.

Lemma check_events s stx flags r w ob :
  check_and_process_transaction DynInspector s stx flags = Some (r, w, ob) ->
  match r with
  | Err _ => ob_events ob = []
  | Ok p => exists n, (n <= top_level_count stx)%nat /\
      ob_events ob = bracket stx n (ob_logs ob) (cs_result p) /\
      (cs_result p = Ok tt -> n = top_level_count stx)
  end.
Proof.
  intros H. destruct r as [p|e]; [|by apply check_and_process_cases in H as (_ & _ & ->)].
  unfold check_and_process_transaction in H. repeat case_match; try done.
  exact (transaction_events _ _ _ _ _ _ _ H).
Qed.

Lemma hooks_shape mode s t r w ob :
  execute_readonly_impl mode s t = Some (r, w, ob) ->
  match mode with
  | NoInspector => ob_events ob = []
  | DynInspector =>
      (er_included r = false /\ ob_events ob = []) \/
      (er_included r = true /\ exists stx n, (n <= top_level_count stx)%nat /\
         ob_events ob = bracket stx n (ob_logs ob) (er_tx_result r) /\
         (er_tx_result r = Ok tt -> n = top_level_count stx))
  end.
Proof.
  unfold execute_readonly_impl.
  destruct (if v_sigverify _ then _ else _) as [stx|e] eqn:Hs; last first.
  { intros [= <- _ <-]. destruct mode; [done|]. left. split; [|done].
    destruct (v_sigverify _); [exact (proj1 (sanitize_verify_rejection _ _ _ _ _ Hs))|
                               exact (proj1 (sanitize_rejection _ _ _ _ Hs))]. }
  unfold execute_sanitized_transaction.
  destruct (check_and_process_transaction _ _ _ _) as [[[x w'] ob']|] eqn:Hc; [|done].
  pose proof (check_and_process_cases _ _ _ _ _ _ _ Hc) as Hcases. destruct x as [p|e].
  - destruct Hcases as ([ctx Hctx] & _ & _ & Hno & _). rewrite Hctx. unfold execution_result_if_context.
    destruct (extract_instruction_trace_data _ _ _ _) as [[inner trace]|]; [|done].
    intros [= <- _ <-]. destruct mode; [by apply Hno|]. right. split; [done|].
    destruct (check_events _ _ _ _ _ _ Hc) as (n & Hn & He & Hr). by exists stx, n.
  - destruct Hcases as ((Hi & _) & _ & ->). intros [= <- _ <-]. destruct mode; [done|]. by left.
Qed.

(** C28: The hooks of a live execution form one bracket.  A transaction that is not
    included fires none.  An included one fires its start, then for each top-level
    instruction that was run, in order, its start directly followed by its end, then
    the collected logs, then its end with the result the caller gets; all
    instructions are there when it succeeded.  Without a live inspector nothing fires. *)
Theorem hooks_bracketed mode s t r w ob :
  execute_readonly_impl mode s t = Some (r, w, ob) ->
  match mode with
  | NoInspector => ob_events ob = []
  | DynInspector =>
      (er_included r = false /\ ob_events ob = []) \/
      (er_included r = true /\ exists stx n, (n <= top_level_count stx)%nat /\
         ob_events ob = bracket stx n (ob_logs ob) (er_tx_result r) /\
         (er_tx_result r = Ok tt -> n = top_level_count stx))
  end.
Proof. apply hooks_shape. Qed.

(** ** Counting *)

Definition is_start (e : InspectorEvent) : bool :=
  match e with EvInstructionStart _ _ => true | _ => false end.

(** How many instructions an execution runs. *)
Definition starts (l : list InspectorEvent) : Z := Z.of_nat (length (List.filter is_start l)).

Definition instructions_run (x : VmSt * VersionedTransaction) : Z :=
  match execute_readonly_impl DynInspector x.1 x.2 with
  | Some (_, _, ob) => starts (ob_events ob)
  | None => 0
  end.

Lemma starts_nonneg l : (0 <= starts l)%Z.
Proof. unfold starts. lia. Qed.

Lemma starts_cons e l : starts (e :: l) = ((if is_start e then 1 else 0) + starts l)%Z.
Proof. unfold starts. cbn. destruct (is_start e); cbn; lia. Qed.

(** The counters hold totals, up to the width of the counter. *)
Definition counts_are (st : OriginCounts) (u a : Z) : Prop :=
  user_instructions st = wrap_u64 u /\ internal_airdrops st = wrap_u64 a.

Definition of_origin (o : TransactionOrigin) (origin : option TransactionOrigin) (n : Z) : Z :=
  if bool_decide (origin = Some o) then n else 0.

Lemma fetch_add_wrap n : fetch_add_usize (wrap_u64 n) = wrap_u64 (n + 1).
Proof.
  unfold fetch_add_usize. by rewrite <- (Z.add_0_l (wrap_u64 n)), wrap_u64_inner.
Qed.

Lemma of_origin_add o lo x y : (of_origin o lo x + of_origin o lo y)%Z = of_origin o lo (x + y).
Proof. unfold of_origin. case_bool_decide; lia. Qed.

Lemma hook_counts e st u a :
  counts_are st u a ->
  last_origin (insp_hook OriginCountingInspector e st) = last_origin st /\
  counts_are (insp_hook OriginCountingInspector e st)
    (u + of_origin User (last_origin st) (starts [e]))
    (a + of_origin InternalAirdrop (last_origin st) (starts [e])).
Proof.
  destruct st as [cu ca lo]. intros [Hu Ha]. cbn in Hu, Ha. subst cu ca.
  destruct e, lo as [[| |]|]; cbn; unfold counts_are, of_origin, starts; cbn;
    rewrite ?fetch_add_wrap, ?Z.add_0_r; auto.
Qed.

Lemma fold_counts l st u a :
  counts_are st u a ->
  counts_are (foldl (fun st e => insp_hook OriginCountingInspector e st) st l)
    (u + of_origin User (last_origin st) (starts l))
    (a + of_origin InternalAirdrop (last_origin st) (starts l)).
Proof.
  revert st u a. induction l as [|e l IH]; intros st u a Hst.
  - unfold of_origin. cbn. change (starts []) with 0%Z. repeat case_bool_decide; by rewrite !Z.add_0_r.
  - destruct (hook_counts e st u a Hst) as [Hl Hc]. apply IH in Hc. rewrite Hl in Hc.
    rewrite <- !Z.add_assoc, !of_origin_add in Hc.
    replace (starts (e :: l)) with (starts [e] + starts l)%Z; [exact Hc|].
    rewrite !starts_cons. change (starts []) with 0%Z. lia.
Qed.

(** The instructions run by executions of an origin. *)
Fixpoint total_of (o : TransactionOrigin) (l : list (VmSt * VersionedTransaction)) : Z :=
  match l with
  | [] => 0
  | x :: rest =>
      (of_origin o (Some (inspection_origin (extensions x.1.1))) (instructions_run x) + total_of o rest)%Z
  end.

Lemma inspected_counts s t st r w st' u a :
  counts_are st u a -> inspected_readonly OriginCountingInspector s t st = Some (r, w, st') ->
  counts_are st' (u + total_of User [(s, t)]) (a + total_of InternalAirdrop [(s, t)]).
Proof.
  intros Hst. unfold inspected_readonly. cbn [insp_accepts OriginCountingInspector total_of].
  set (o := inspection_origin (extensions s.1)).
  set (st1 := mkOriginCounts _ _ (Some o)).
  assert (H1 : counts_are st1 u a) by exact Hst.
  destruct (execute_readonly_impl _ s t) as [[[r1 w1] ob]|] eqn:Hx; [|done].
  intros [= <- <- <-]. rewrite !Z.add_0_r. cbn [fst snd].
  assert (Hev : o = User \/ o = InternalAirdrop -> starts (ob_events ob) = instructions_run (s, t)).
  { intros Ho. unfold instructions_run. cbn [fst snd]. destruct Ho as [Ho|Ho]; rewrite Ho in Hx; by rewrite Hx. }
  apply (fold_counts (ob_events ob)) in H1. cbn [last_origin st1] in H1.
  assert (E : forall o', o' = User \/ o' = InternalAirdrop ->
    of_origin o' (Some o) (instructions_run (s, t)) = of_origin o' (Some o) (starts (ob_events ob))).
  { intros o' Ho. unfold of_origin. case_bool_decide as Hb; [|done]. injection Hb as Hb.
    rewrite Hev; [done|]. by rewrite Hb. }
  rewrite !E by auto. exact H1.
Qed.

(** Attribution by origin is exact.  However user transactions, airdrops and
    batch stages are interleaved, the two counters of the origin-counting inspector
    are the numbers of top-level instructions run by user transactions and by
    airdrops, up to the width of the counter; batch stages count for neither. *)
Theorem origin_counting_exact l st :
  inspected_all OriginCountingInspector l counts_default = Some st ->
  user_instructions st = wrap_u64 (total_of User l) /\
  internal_airdrops st = wrap_u64 (total_of InternalAirdrop l).
Proof.
  assert (H : forall l st st' u a, counts_are st u a ->
    inspected_all OriginCountingInspector l st = Some st' ->
    counts_are st' (u + total_of User l) (a + total_of InternalAirdrop l)).
  { clear. induction l as [|[s t] l IH]; intros st st' u a Hst; cbn [inspected_all total_of].
    - intros [= <-]. by rewrite !Z.add_0_r.
    - destruct (inspected_readonly _ s t st) as [[[r w] st1]|] eqn:Hx; [|done].
      intros H. apply (inspected_counts _ _ _ _ _ _ _ _ Hst) in Hx. apply (IH _ _ _ _ Hx) in H.
      cbn [total_of] in H. by rewrite !Z.add_0_r, <- !Z.add_assoc in H. }
  intros Hl. exact (H l counts_default st 0%Z 0%Z (conj eq_refl eq_refl) Hl).
Qed.

(** ** Recording *)

Lemma fold_recording l log :
  foldl (fun st e => insp_hook RecordingInspector e st) log l = log ++ omap recorded_event l.
Proof.
  revert log. induction l as [|e l IH]; intros log; cbn; [by rewrite app_nil_r|].
  rewrite IH. destruct (recorded_event e); cbn; [by rewrite <- app_assoc|by rewrite app_nil_r].
Qed.

Lemma omap_logs l : omap recorded_event (map EvLog l) = [].
Proof. by induction l. Qed.

(** The log of a recording inspector grows by one complete transcript per included
    user transaction, and not at all for any other. *)
Theorem recording_exact s t log r w log' :
  inspected_readonly RecordingInspector s t log = Some (r, w, log') ->
  if is_user (inspection_origin (extensions s.1)) && er_included r
  then exists stx n, log' = log ++ omap recorded_event (bracket stx n [] (er_tx_result r)) /\
         (er_tx_result r = Ok tt -> n = top_level_count stx)
  else log' = log.
Proof.
  unfold inspected_readonly. cbn [insp_accepts RecordingInspector default_accepts].
  destruct (execute_readonly_impl _ s t) as [[[r1 w1] ob]|] eqn:Hx; [|done]. intros [= <- <- <-].
  pose proof (hooks_shape _ _ _ _ _ _ Hx) as H. rewrite fold_recording.
  destruct (is_user _); cbn; [|by rewrite H, app_nil_r].
  destruct H as [[-> ->]|[-> (stx & n & _ & -> & Hr)]]; [by rewrite app_nil_r|].
  exists stx, n. split; [|done]. f_equal. unfold bracket. cbn. f_equal.
  by rewrite !omap_app, omap_logs.
Qed.

(** The origin recorder sees the origin of every execution exactly once, in order. *)
Theorem origins_seen_once l log :
  inspected_all OriginRecordingInspector l [] = Some log ->
  log = map (fun x => inspection_origin (extensions x.1.1)) l.
Proof.
  assert (Hf : forall ev (st : list TransactionOrigin),
    foldl (fun st e => insp_hook OriginRecordingInspector e st) st ev = st)
    by (intros ev; by induction ev).
  assert (H : forall l log log', inspected_all OriginRecordingInspector l log = Some log' ->
    log' = log ++ map (fun x => inspection_origin (extensions x.1.1)) l); [|by intros ->%H].
  clear -Hf. induction l as [|[s t] l IH]; intros log log'; cbn [inspected_all];
    [intros [= <-]; by rewrite app_nil_r|].
  unfold inspected_readonly. cbn [insp_accepts OriginRecordingInspector].
  destruct (execute_readonly_impl _ s t) as [[[r w] ob]|]; [|done]. rewrite Hf.
  intros ->%IH. by rewrite <- app_assoc.
Qed.

(** ** Hooks that re-enter or panic *)

Section Reentry.
Context {S : Type} (i : Inspector S)
        (reenters : InspectorEvent -> S -> list (TransactionOrigin * list InspectorEvent))
        (panics : InspectorEvent -> S -> bool).

(** What an inspector sees of its own execution: every hook up to the first that
    panics, that one included. *)
Fixpoint observed (l : list InspectorEvent) (st : S) : S * bool :=
  match l with
  | [] => (st, false)
  | e :: rest => if panics e st then (insp_hook i e st, true) else observed rest (insp_hook i e st)
  end.

Lemma nested_silent d l :
  until_panic (execute_inspected i reenters panics (Datatypes.S d)) l None = Some (None, false).
Proof. by induction l. Qed.

Lemma fire_observed d l st :
  until_panic (fun e => fire_inspector (run_hook i reenters panics
    (execute_inspected i reenters panics (Datatypes.S d)) e)) l (Some st) =
  Some (Some (observed l st).1, (observed l st).2).
Proof.
  revert st. induction l as [|e l IH]; intros st; [done|]. cbn [until_panic fire_inspector observed].
  unfold run_hook. rewrite nested_silent. cbn [orb]. destruct (panics e st); [done|apply IH].
Qed.

(** C36: hooks that re-enter the VM.  Whatever executions the hooks of an inspector start
    on the VM they are handed, and however often, those executions are over within two
    levels and are not observed; and whichever hook panics, the inspector is back in its
    slot afterwards, in the state that hook left it in.  So an inspector sees exactly the
    hooks of its own execution, in order and up to its first panic, and without panics
    the state it ends in is that of an execution that knows no slot. *)
Theorem reentrant_hooks_unobserved (depth : nat) (x : TransactionOrigin * list InspectorEvent) (st : S) :
  let '(live, st1) := insp_accepts i x.1 st in
  let '(st2, panicked) := if live then observed x.2 st1 else (st1, false) in
  execute_inspected i reenters panics (Datatypes.S (Datatypes.S depth)) x (Some st) =
    Some (Some st2, panicked) /\
  ((forall e st, panics e st = false) -> panicked = false /\
   st2 = if live then foldl (fun st e => insp_hook i e st) st1 x.2 else st1).
Proof.
  assert (Hf : (forall e st, panics e st = false) -> forall l st,
    observed l st = (foldl (fun st e => insp_hook i e st) st l, false)).
  { intros Hp l. induction l as [|e l IH]; intros st0; simpl; [done|]. rewrite Hp. apply IH. }
  remember (Datatypes.S depth) as d eqn:Hd. cbn [execute_inspected].
  destruct (insp_accepts i x.1 st) as [[] st1]; [|by split].
  subst d. rewrite fire_observed. destruct (observed x.2 st1) as [st2 panicked] eqn:Ho.
  split; [done|]. intros Hp. rewrite Hf in Ho by done. by injection Ho as <- <-.
Qed.

End Reentry.

End InspectorsFacts.
