(* ===== verification/Precompiles.v ===== *)
(** * Precompile dispatch, [precompile_registry.rs] and [callback.rs]

    Entries, the editable set, the providers and the two callbacks by which an
    instruction is recognised and run as a precompile, with the comparison to the
    lookup of the library the native provider replaces. *)

From Stdlib Require Import ZArith Lia Strings.Byte.
From stdpp Require Import base tactics option list sets gmap.
From S2P Require Import Prelude.
From S2P Require Import Types.
From S2P Require Import Runtime.
From S2P Require Import AccountsDb.
From S2P Require Import Version.

Section Precompiles.
Context {sv : SysvarRuntime} {pr : ProgramRuntime} {pc : ProgramCacheOps} {fs : FeatureSets}.

(** The error type of the verifiers, of which the source names one value. *)
Context {PrecompileError : Type} (InvalidPublicKey : PrecompileError).

Definition Verify : Type := list byte -> list (list byte) -> FeatureSet -> result unit PrecompileError.

(** The trait [Precompile]. *)
Record Precompile : Type := mkPrecompile {
  pre_program_id : Address;
  pre_is_enabled : FeatureSet -> bool;
  pre_verify : Verify
}.

(** An entry that keeps the default of [is_enabled]. *)
Definition always_on (program_id : Address) (verify : Verify) : Precompile :=
  mkPrecompile program_id (fun _ => true) verify.

(** ** Sets *)
Record PrecompileSet : Type := mkPrecompileSet { entries : gmap Address Precompile }.

Definition set_new : PrecompileSet := mkPrecompileSet ∅.

(** [insert]: the entry it shadows, and the set. *)
Definition set_insert (p : Precompile) (s : PrecompileSet) : option Precompile * PrecompileSet :=
  (entries s !! pre_program_id p, mkPrecompileSet (<[pre_program_id p := p]> (entries s))).

Definition set_get (program_id : Address) (s : PrecompileSet) : option Precompile :=
  entries s !! program_id.
Definition set_contains (program_id : Address) (s : PrecompileSet) : bool :=
  bool_decide (is_Some (entries s !! program_id)).
Definition set_len (s : PrecompileSet) : nat := size (entries s).
Definition set_is_empty (s : PrecompileSet) : bool := Nat.eqb (size (entries s)) 0.
Definition set_program_ids (s : PrecompileSet) : list Address := (map_to_list (entries s)).*1.

(** ** Providers *)
Record PrecompileProvider : Type := mkPrecompileProvider {
  prov_get : Address -> option Precompile;
  prov_program_ids : list Address
}.

Definition set_provider (s : PrecompileSet) : PrecompileProvider :=
  mkPrecompileProvider (fun program_id => set_get program_id s) (set_program_ids s).

Definition NoPrecompiles : PrecompileProvider := mkPrecompileProvider (fun _ => None) [].

(** A row of the table of the library. *)
Record NativePrecompile : Type := mkNativePrecompile {
  np_program_id : Address;
  np_feature : option Address;
  np_verify_fn : Verify
}.

Definition np_enabled (features : FeatureSet) (p : NativePrecompile) : bool :=
  match np_feature p with None => true | Some feature => fs_is_active features feature end.

Definition np_verify (p : NativePrecompile) : Verify := fun data slices features =>
  if np_enabled features p then np_verify_fn p data slices features else Err InvalidPublicKey.

Definition native_entry (p : NativePrecompile) : Precompile :=
  mkPrecompile (np_program_id p) (fun features => np_enabled features p) (np_verify p).

(** [NativePrecompiles::new] over the table, and [into_set]. *)
Definition native_set (table : list NativePrecompile) : PrecompileSet :=
  foldl (fun s row => (set_insert (native_entry row) s).2) set_new table.

Definition NativePrecompiles (table : list NativePrecompile) : PrecompileProvider :=
  set_provider (native_set table).

(** ** The callbacks, [callback.rs] *)
Definition is_precompile (provider : PrecompileProvider) (features : FeatureSet)
    (program_id : Address) : bool :=
  match prov_get provider program_id with
  | Some p => pre_is_enabled p features
  | None => false
  end.

Definition process_precompile (provider : PrecompileProvider) (features : FeatureSet)
    (program_id : Address) (data : list byte) (slices : list (list byte)) :
    result unit PrecompileError :=
  match prov_get provider program_id with
  | Some p => if pre_is_enabled p features then pre_verify p data slices features
              else Err InvalidPublicKey
  | None => Err InvalidPublicKey
  end.

(** ** The lookup it replaces

    [get_precompile] of the library: the first row with the id whose feature, if
    any, is active, and running its verifier. *)
Definition library_get (table : list NativePrecompile) (features : FeatureSet) (program_id : Address) :
    option NativePrecompile :=
  snd <$> list_find (fun p => np_enabled features p && bool_decide (np_program_id p = program_id) = true)
            table.

Lemma native_set_lookup table k acc :
  set_get k (foldl (fun s row => (set_insert (native_entry row) s).2) acc table) =
  match last (filter (fun p => np_program_id p = k) table) with
  | Some p => Some (native_entry p)
  | None => set_get k acc
  end.
Proof.
  revert acc. induction table as [|row table IH]; intros acc; [done|]. cbn [foldl]. rewrite IH.
  rewrite filter_cons. case_decide as Hk.
  - rewrite last_cons. destruct (last _) as [p|]; [done|]. subst k. apply lookup_insert_eq.
  - destruct (last _) as [p|]; [done|]. by apply lookup_insert_ne.
Qed.

Lemma filter_none {A} (P : A -> Prop) `{forall x, Decision (P x)} (l : list A) :
  (forall x, x ∈ l -> ~ P x) -> filter P l = [].
Proof.
  induction l as [|x l IH]; intros Hn; [done|]. rewrite filter_cons, decide_False by (apply Hn; by left).
  apply IH. intros y Hy. apply Hn. by right.
Qed.

(** With distinct ids, the row of an id. *)
Lemma filter_unique (table : list NativePrecompile) p :
  NoDup (map np_program_id table) -> p ∈ table ->
  filter (fun q => np_program_id q = np_program_id p) table = [p].
Proof.
  induction table as [|row table IH]; intros Hnd Hin; [by apply elem_of_nil in Hin|].
  cbn in Hnd. apply NoDup_cons in Hnd as [Hn Hnd]. rewrite filter_cons.
  apply elem_of_cons in Hin as [->|Hin].
  - rewrite decide_True by done. f_equal. apply filter_none. intros q Hq He. apply Hn.
    rewrite <- He. by apply list_elem_of_fmap_2.
  - rewrite decide_False; [by apply IH|]. intros He. apply Hn. rewrite He. by apply list_elem_of_fmap_2.
Qed.

Lemma native_lookup_in table p :
  NoDup (map np_program_id table) -> p ∈ table ->
  set_get (np_program_id p) (native_set table) = Some (native_entry p).
Proof.
  intros Hnd Hin. unfold native_set. by rewrite native_set_lookup, (filter_unique table p).
Qed.

Lemma native_lookup_out table k :
  (forall p, p ∈ table -> np_program_id p <> k) -> set_get k (native_set table) = None.
Proof.
  intros H. unfold native_set. rewrite native_set_lookup, filter_none; [apply lookup_empty|].
  intros p Hp. by apply H.
Qed.

Lemma library_get_Some table features k p :
  library_get table features k = Some p -> p ∈ table /\ np_program_id p = k /\ np_enabled features p = true.
Proof.
  unfold library_get. destruct (list_find _ table) as [[i q]|] eqn:Hf; [|done]. cbn. intros [= <-].
  apply list_find_Some in Hf as (Hl & Hp & _). apply andb_true_iff in Hp as [H1 H2].
  split_and!; [by eapply list_elem_of_lookup_2|by apply bool_decide_eq_true in H2|done].
Qed.

Lemma library_get_None table features k p :
  library_get table features k = None -> p ∈ table -> np_program_id p = k -> np_enabled features p = false.
Proof.
  unfold library_get. destruct (list_find _ table) as [[i q]|] eqn:Hf; [done|]. intros _ Hin Hk.
  apply list_find_None in Hf. rewrite Forall_forall in Hf. specialize (Hf p Hin).
  destruct (np_enabled features p); [|done]. destruct Hf. by rewrite bool_decide_true.
Qed.

(** The native provider dispatches exactly as the lookup of the library it
    replaces, whatever features are active: the same program ids are precompiles,
    the same verifier runs on the same arguments, and an id that is unknown or whose
    feature is not active is the error of a failed lookup. *)
Theorem native_matches_library (table : list NativePrecompile) (features : FeatureSet) (k : Address)
    (data : list byte) (slices : list (list byte)) :
  NoDup (map np_program_id table) ->
  is_precompile (NativePrecompiles table) features k =
    bool_decide (is_Some (library_get table features k)) /\
  process_precompile (NativePrecompiles table) features k data slices =
    match library_get table features k with
    | Some p => np_verify_fn p data slices features
    | None => Err InvalidPublicKey
    end.
Proof.
  intros Hnd. unfold is_precompile, process_precompile, NativePrecompiles, set_provider.
  cbn [prov_get]. destruct (library_get table features k) as [p|] eqn:Hg.
  - apply library_get_Some in Hg as (Hin & <- & He). rewrite (native_lookup_in table p Hnd Hin). cbn.
    unfold np_verify. by rewrite He.
  - destruct (decide (Exists (fun p => np_program_id p = k) table)) as [Hx|Hx].
    + apply Exists_exists in Hx as (p & Hin & <-).
      rewrite (native_lookup_in table p Hnd Hin). cbn.
      by rewrite (library_get_None table features _ p Hg Hin eq_refl).
    + rewrite native_lookup_out; [done|]. intros p Hin Hk. apply Hx, Exists_exists. eauto.
Qed.

Lemma set_get_insert p s k :
  set_get k (set_insert p s).2 = if bool_decide (k = pre_program_id p) then Some p else set_get k s.
Proof.
  case_bool_decide as Hk; [rewrite Hk; apply lookup_insert_eq|by apply lookup_insert_ne].
Qed.

Lemma set_program_ids_elem k s : k ∈ set_program_ids s <-> is_Some (set_get k s).
Proof.
  unfold set_program_ids. rewrite list_elem_of_fmap. split.
  - intros ([i x] & -> & Hin). apply elem_of_map_to_list in Hin. by eexists.
  - intros [x Hx]. exists (k, x). split; [done|]. by apply elem_of_map_to_list.
Qed.

Lemma set_len_insert p s :
  set_len (set_insert p s).2 = (set_len s + if set_contains (pre_program_id p) s then 0 else 1)%nat.
Proof.
  unfold set_contains, set_len. cbn. case_bool_decide as Hs.
  - rewrite map_size_insert_Some by done. lia.
  - apply eq_None_not_Some in Hs. rewrite map_size_insert_None by done. lia.
Qed.

(** Inserting an entry reports the one it shadows, decides the dispatch of its own
    id and of no other, and the ids a set enumerates are exactly those it answers. *)
Theorem insert_shadows (p : Precompile) (s : PrecompileSet) (features : FeatureSet) (k : Address)
    (data : list byte) (slices : list (list byte)) :
  let s' := (set_insert p s).2 in
  (set_insert p s).1 = set_get (pre_program_id p) s /\
  is_precompile (set_provider s') features k =
    (if bool_decide (k = pre_program_id p) then pre_is_enabled p features
     else is_precompile (set_provider s) features k) /\
  process_precompile (set_provider s') features k data slices =
    (if bool_decide (k = pre_program_id p)
     then if pre_is_enabled p features then pre_verify p data slices features else Err InvalidPublicKey
     else process_precompile (set_provider s) features k data slices) /\
  (k ∈ prov_program_ids (set_provider s') <-> is_Some (prov_get (set_provider s') k)) /\
  set_len s' = (set_len s + if set_contains (pre_program_id p) s then 0 else 1)%nat.
Proof.
  cbv zeta. split_and!; [done| | |apply set_program_ids_elem|apply set_len_insert];
    unfold is_precompile, process_precompile; cbn [prov_get set_provider];
    rewrite set_get_insert; by case_bool_decide.
Qed.

End Precompiles.
