(* ===== verification/TxModel.v ===== *)
(** * A concrete transaction runtime

    An executable instance of the transaction interfaces: messages are lists of
    keys whose first ones are writable, an instruction moves the lamports its
    first data byte says from its first to its second account, and running it
    writes a scratch entry in the program cache.  It satisfies the laws, and
    [model_vm] is a VM over [RuntimeModel] on which the theorems are run. *)

From Stdlib Require Import ZArith Lia Strings.Byte.
From stdpp Require Import base tactics option list sets gmap strings pretty.
From S2P Require Import Prelude.
From S2P Require Import Types.
From S2P Require Import AccountSource.
From S2P Require Import Errors.
From S2P Require Import Lru.
From S2P Require Import History.
From S2P Require Import Runtime.
From S2P Require Import AccountsDb.
From S2P Require Import RuntimeModel.
From S2P Require Import FeePayer.
From S2P Require Import InstructionTrace.
From S2P Require Import Version.
From S2P Require Import TxRuntime.
From S2P Require Import Svm.
From S2P Require Import Execution.
From S2P Require Import Staging.

(** Feature sets are finite sets of the active ids. *)
#[export] Instance model_features : FeatureSets := {|
  FeatureSet := gset Address;
  fs_default := ∅;
  fs_all_enabled := {[Addr 101; Addr 102; Addr 103; Addr 104]};
  fs_is_active s k := bool_decide (k ∈ s);
  fs_activate k _ s := {[k]} ∪ s;
  fs_deactivate k s := s ∖ {[k]};
  raise_cpi_nesting_limit_to_8_ID := Addr 101;
  deprecate_rent_exemption_threshold_ID := Addr 102;
  increase_tx_v1_account_lock_limit_ID := Addr 103;
  replace_spl_token_with_p_token_ID := Addr 104
|}.

#[export] Instance model_feature_laws : FeatureSetLaws.
Proof.
  constructor; intros; cbn; case_decide; repeat case_bool_decide; set_solver.
Qed.

#[export] Instance model_budgets : Budgets :=
  {| default_compute_unit_limit := 200000; default_heap_size := 32768 |}.

#[export] Instance model_system_program : SystemProgram := {|
  get_system_account_kind acc :=
    if bool_decide (acc_owner acc = Addr 0) then
      match acc_data acc with [] => Some System | _ => Some Nonce end
    else None;
  nonce_state_size := 80;
  token_account_len := 165%nat;
  token_mint_len := 82%nat;
  unpack_token_account _ := None;
  unpack_token_mint _ := None
|}.

#[export] Instance model_lookup_tables : LookupTables := {|
  LookupTable := list byte;
  lookup_table_deserialize data := match data with [] => None | _ => Some data end;
  lookup_table_lookup table _ idx _ :=
    match mapM (fun i => table !! Z.to_nat i) idx with
    | Some l => Ok (map (fun b => Addr (to_N b)) l)
    | None => Err LookupInvalidLookupIndex
    end
|}.

#[export] Instance model_display : ExternalDisplay := {|
  display_address k := pretty (address_num k);
  display_transaction_error _ := "transaction error";
  display_instruction_error _ := "instruction error"
|}.

(** ** Transactions *)

Record model_tx : Type := mkModelTx {
  mt_signature : Signature;
  mt_keys : list Address;
  mt_writable : nat;
  mt_instructions : list CompiledInstruction;
  mt_blockhash : Hash
}.

Record model_ctx : Type := mkModelCtx {
  mx_accounts : list (Address * AccountSharedData);
  mx_cache : PCache;
  mx_pending : list CompiledInstruction
}.

Definition model_balance (accs : list (Address * AccountSharedData)) (i : Z) : Z :=
  match accs !! Z.to_nat i with Some p => lamports p.2 | None => 0 end.

Definition model_credit (accs : list (Address * AccountSharedData)) (i amount : Z) :
    list (Address * AccountSharedData) :=
  alter (fun p => (p.1, with_lamports p.2 (lamports p.2 + amount))) (Z.to_nat i) accs.

(** One transfer, and a scratch entry. *)
Definition model_process (ctx : model_ctx) : Z * result unit InstructionError * model_ctx :=
  let scratch := mkModelCache (mc_slot (mx_cache ctx)) (mc_entries (mx_cache ctx))
                   (<[Addr 99 := MBuiltin 9]> (mc_modified (mx_cache ctx))) in
  match mx_pending ctx with
  | [] => (0%Z, Err InvalidArgument, ctx)
  | ix :: rest =>
      match ci_accounts ix, ci_data ix with
      | from :: to :: _, amount :: _ =>
          if (byte_to_Z amount <=? model_balance (mx_accounts ctx) from)%Z then
            (150%Z, Ok tt,
             mkModelCtx (model_credit (model_credit (mx_accounts ctx) from (- byte_to_Z amount))
                           to (byte_to_Z amount)) scratch rest)
          else (150%Z, Err (CustomError 1), mkModelCtx (mx_accounts ctx) scratch rest)
      | _, _ => (150%Z, Ok tt, mkModelCtx (mx_accounts ctx) scratch rest)
      end
  end.

#[export] Instance model_txs : TxRuntime := {|
  VersionedTransaction := model_tx;
  tx_signatures t := [mt_signature t];
  tx_kind _ := MsgLegacy;
  tx_version _ := VersionLegacy;
  tx_static_account_keys := mt_keys;
  tx_address_table_lookups _ := None;
  SanitizedTransaction := model_tx;
  stx_signature := mt_signature;
  stx_account_keys := mt_keys;
  stx_is_writable t i := (i <? mt_writable t)%nat;
  stx_is_invoked t i :=
    existsb (fun ix => (ci_program_id_index ix =? Z.of_nat i)%Z) (mt_instructions t);
  stx_is_instruction_account t i :=
    existsb (fun ix => bool_decide (Z.of_nat i ∈ ci_accounts ix)) (mt_instructions t);
  stx_recent_blockhash := mt_blockhash;
  stx_instructions := mt_instructions;
  stx_program_ids t :=
    map (fun ix => default Address_default (mt_keys t !! Z.to_nat (ci_program_id_index ix)))
      (mt_instructions t);
  construct_instructions_data _ := Some [];
  ReservedKeys := unit;
  reserved_for _ := tt;
  try_create _ t _ _ _ := fun c =>
    (match mt_keys t with [] => Err SanitizeFailure | _ => Ok t end, c);
  stx_verify t := if bool_decide (mt_signature t = Signature_default) then Err SanitizeFailure else Ok tt;
  stx_validate_account_locks t limit :=
    if bool_decide (NoDup (mt_keys t)) then Ok tt else Err AccountInUse;
  process_compute_budget_instructions _ _ := Ok (mkComputeBudgetLimits 200000 32768 0);
  calculate_fee _ price _ := price;
  stx_get_durable_nonce _ := None;
  verify_nonce_account _ _ := None;
  stx_get_ix_signers _ _ := [];
  durable_nonce_from_blockhash h := mkHash (hash_num h + 1);
  Ctx := model_ctx;
  ctx_new _ accs _ _ c _ := mkModelCtx accs c [];
  ctx_prepare_top_level_instructions t ctx :=
    (Ok tt, mkModelCtx (mx_accounts ctx) (mx_cache ctx) (mt_instructions t));
  ctx_is_precompile _ k := bool_decide (k = Addr 30);
  ctx_process_precompile _ _ _ ctx := (Ok tt, ctx);
  ctx_process_instruction := model_process;
  ctx_logs ctx := if bool_decide (mx_pending ctx = []) then ["done"] else ["failed"];
  ctx_cache := mx_cache;
  ctx_trace ctx := mkTraceData (mx_accounts ctx).*1 [] [] [];
  ctx_accounts := mx_accounts;
  ctx_return_data _ := TransactionReturnData_default;
  BlockEnvExt := unit;
  invocation_inspect_callback_enabled := false
|}.

Lemma model_credit_keys accs i amount : (model_credit accs i amount).*1 = accs.*1.
Proof.
  unfold model_credit. apply list_eq. intros j. rewrite !list_lookup_fmap.
  destruct (decide (j = Z.to_nat i)) as [->|Hne].
  - rewrite list_lookup_alter_eq. by destruct (accs !! Z.to_nat i).
  - by rewrite list_lookup_alter_ne.
Qed.

#[export] Instance model_tx_laws : TxRuntimeLaws.
Proof.
  constructor; try done.
  - intros [accs c [|[p [|i [|j rest]] [|b data]] l]]; try done. cbn. unfold model_process. simpl.
    by case_match.
  - intros [accs c [|[p [|i [|j rest]] [|b data]] l]]; try done. cbn. unfold model_process. simpl.
    case_match; simpl; by rewrite ?model_credit_keys.
  - intros stx. cbn. by rewrite length_map.
Qed.

#[export] Instance model_history : Lru Signature TransactionResult := ListLru Signature TransactionResult.
#[export] Instance model_history_laws : LruLaws Signature TransactionResult :=
  ListLru_laws Signature TransactionResult.

(** User code: the inspector accepts user transactions, the handler refuses. *)
#[export] Instance model_user : UserCode := {|
  user_accepts _ o := is_user o;
  custom_validate id _ _ := if (id =? 0)%N then Ok tt else Err (Invalid SanitizeFailure);
  custom_execute _ _ s := Some (Err (ExecHalt (HaltTransaction SanitizeFailure)), s.2, nothing_observed)
|}.

(** ** A VM *)

(** A clock, the rent sysvar, the BPF loader, a program and two wallets. *)
Definition loader_account : AccountSharedData := mkAccount 1 [] (Addr 1) true 0.

Definition model_state : St :=
  (sync_accounts
     [(Addr 15, mkAccount 1 [x01] (Addr 9) false 0); (Addr 2, loader_account);
      (Addr 40, program_account); (Addr 50, wallet 100000); (Addr 51, wallet 200000)]
     model_db).2.

Definition model_vm : VmSt :=
  (mkSvm (mkSvmState model_state.1 history_new) (base_version MainnetBeta)
     (mkBlockEnv (mkHash 7) 5 tt)
     (mkSvmExtensions (Some (UserInspector 0)) User registry_with_defaults 0 Eager
        (mkRuntimeRegistry [] true) tt)
     (mkMaterialized true true true true true) (Addr 60),
   model_state.2).

(** [amount] from wallet [from] to wallet [to], by the program at 40. *)
Definition transfer (signature from to : N) (amount : byte) : model_tx :=
  mkModelTx (Sig signature) [Addr from; Addr to; Addr 40] 2
    [mkCompiledInstruction 2 [0; 1]%Z [amount]] (mkHash 7).
