(* ===== verification/Fixture.v ===== *)
(** * Fixtures: snapshots, comparisons and checks

    The data of [crates/hpsvm-fixture]: the persisted snapshot of an execution
    ([snapshot.rs]), the fixture format ([model.rs]), the comparison of two
    snapshots ([compare.rs]), the predicates on one ([check.rs]) and how a failure
    is reported ([outcome.rs], [config.rs]).  An evaluation returns [None] when it
    panics; the lines it writes to stderr are part of its result. *)

From Stdlib Require Import ZArith Lia Strings.Byte Strings.String.
From stdpp Require Import base tactics option list sets gmap strings.
From S2P Require Import Prelude.
From S2P Require Import Types.
From S2P Require Import Runtime.
From S2P Require Import Staging.

(** ** Snapshots, [snapshot.rs] *)

Inductive ExecutionFailure : Type :=
| ProgramResult (code : Z)
| FailureCustomError (code : Z)
| ProgramResultWithCustomError (result custom_error : Z)
| FailureOther (kind message : string).

#[export] Instance ExecutionFailure_eq_dec : EqDecision ExecutionFailure.
Proof. solve_decision. Defined.

Inductive ExecutionStatus : Type :=
| StatusSuccess
| StatusFailure (failure : ExecutionFailure).

#[export] Instance ExecutionStatus_eq_dec : EqDecision ExecutionStatus.
Proof. solve_decision. Defined.

Record AccountSnapshot : Type := mkAccountSnapshot {
  as_address : Address;
  as_lamports : Z;
  as_owner : Address;
  as_executable : bool;
  as_rent_epoch : Z;
  as_data : list byte
}.

#[export] Instance AccountSnapshot_eq_dec : EqDecision AccountSnapshot.
Proof. solve_decision. Defined.

Record ReturnDataSnapshot : Type := mkReturnDataSnapshot {
  rds_program_id : Address;
  rds_data : list byte
}.

#[export] Instance ReturnDataSnapshot_eq_dec : EqDecision ReturnDataSnapshot.
Proof. solve_decision. Defined.

Record InnerInstructionSnapshot : Type := mkInnerInstructionSnapshot {
  iis_stack_height : Z;
  iis_program_id_index : Z;
  iis_accounts : list Z;
  iis_data : list byte;
  iis_outer_instruction_index : nat
}.

#[export] Instance InnerInstructionSnapshot_eq_dec : EqDecision InnerInstructionSnapshot.
Proof. solve_decision. Defined.

Record ExecutionSnapshot : Type := mkExecutionSnapshot {
  es_status : ExecutionStatus;
  es_included : bool;
  es_compute_units_consumed : Z;
  es_fee : Z;
  es_logs : list string;
  es_return_data : option ReturnDataSnapshot;
  es_inner_instructions : list InnerInstructionSnapshot;
  es_post_accounts : list AccountSnapshot
}.

#[export] Instance ExecutionSnapshot_eq_dec : EqDecision ExecutionSnapshot.
Proof. solve_decision. Defined.

(** ** Fixtures, [model.rs] *)

Inductive AccountCompareScope : Type :=
| ScopeAll
| ScopeOnly (addresses : list Address)
| ScopeAllExcept (addresses : list Address).

#[export] Instance AccountCompareScope_eq_dec : EqDecision AccountCompareScope.
Proof. solve_decision. Defined.

Inductive Compare : Type :=
| CompareStatus
| CompareIncluded
| CompareComputeUnits
| CompareFee
| CompareReturnData
| CompareLogs
| CompareInnerInstructionCount
| CompareAccounts (scope : AccountCompareScope).

#[export] Instance Compare_eq_dec : EqDecision Compare.
Proof. solve_decision. Defined.

Definition CURRENT_SCHEMA_VERSION : Z := 2.
Definition SUPPORTED_SCHEMA_VERSIONS : list Z := [CURRENT_SCHEMA_VERSION].

Inductive FixtureKind : Type := KindTransaction | KindInstruction.

#[export] Instance FixtureKind_eq_dec : EqDecision FixtureKind.
Proof. solve_decision. Defined.

Record FixtureHeader : Type := mkFixtureHeader {
  schema_version : Z;
  fh_name : string;
  fh_kind : FixtureKind;
  fh_source : option string;
  fh_tags : list string
}.

#[export] Instance FixtureHeader_eq_dec : EqDecision FixtureHeader.
Proof. solve_decision. Defined.

Record RuntimeFixtureConfig : Type := mkRuntimeFixtureConfig {
  rfc_slot : Z;
  rfc_log_bytes_limit : option Z;
  rfc_sigverify : bool;
  rfc_blockhash_check : bool;
  rfc_compute_unit_limit : option Z
}.

#[export] Instance RuntimeFixtureConfig_eq_dec : EqDecision RuntimeFixtureConfig.
Proof. solve_decision. Defined.

Record ProgramBinding : Type := mkProgramBinding {
  pb_program_id : Address;
  pb_loader_id : Address;
  pb_role : option string
}.

#[export] Instance ProgramBinding_eq_dec : EqDecision ProgramBinding.
Proof. solve_decision. Defined.

Record TransactionFixture : Type := mkTransactionFixture {
  tf_runtime : RuntimeFixtureConfig;
  tf_programs : list ProgramBinding;
  tf_pre_accounts : list AccountSnapshot;
  tf_transaction_bytes : list byte
}.

#[export] Instance TransactionFixture_eq_dec : EqDecision TransactionFixture.
Proof. solve_decision. Defined.

(** [InstructionAccountMeta] has the fields of [AccountMeta]. *)
Record InstructionAccountMeta : Type := mkInstructionAccountMeta {
  iam_pubkey : Address;
  iam_is_signer : bool;
  iam_is_writable : bool
}.

#[export] Instance InstructionAccountMeta_eq_dec : EqDecision InstructionAccountMeta.
Proof. solve_decision. Defined.

Record InstructionFixture : Type := mkInstructionFixture {
  if_runtime : RuntimeFixtureConfig;
  if_programs : list ProgramBinding;
  if_pre_accounts : list AccountSnapshot;
  if_program_id : Address;
  if_accounts : list InstructionAccountMeta;
  if_data : list byte
}.

#[export] Instance InstructionFixture_eq_dec : EqDecision InstructionFixture.
Proof. solve_decision. Defined.

Inductive FixtureInput : Type :=
| InputTransaction (t : TransactionFixture)
| InputInstruction (i : InstructionFixture).

#[export] Instance FixtureInput_eq_dec : EqDecision FixtureInput.
Proof. solve_decision. Defined.

Record FixtureExpectations : Type := mkFixtureExpectations {
  fe_baseline : ExecutionSnapshot;
  fe_compares : list Compare
}.

#[export] Instance FixtureExpectations_eq_dec : EqDecision FixtureExpectations.
Proof. solve_decision. Defined.

Record Fixture : Type := mkFixture {
  fx_header : FixtureHeader;
  fx_input : FixtureInput;
  fx_expectations : FixtureExpectations
}.

#[export] Instance Fixture_eq_dec : EqDecision Fixture.
Proof. solve_decision. Defined.

Inductive FixtureFormat : Type := FormatJson | FormatBinary.

#[export] Instance FixtureFormat_eq_dec : EqDecision FixtureFormat.
Proof. solve_decision. Defined.

Definition fixture_programs (f : Fixture) : list ProgramBinding :=
  match fx_input f with
  | InputTransaction t => tf_programs t
  | InputInstruction i => if_programs i
  end.

Definition header_new (name : string) (kind : FixtureKind) : FixtureHeader :=
  mkFixtureHeader CURRENT_SCHEMA_VERSION name kind None [].

Definition header_with_source (source : string) (h : FixtureHeader) : FixtureHeader :=
  mkFixtureHeader (schema_version h) (fh_name h) (fh_kind h) (Some source) (fh_tags h).

Definition header_with_tag (tag : string) (h : FixtureHeader) : FixtureHeader :=
  mkFixtureHeader (schema_version h) (fh_name h) (fh_kind h) (fh_source h) (fh_tags h ++ [tag]).

Definition runtime_config_new (slot : Z) (log_bytes_limit : option Z) (sigverify check : bool) :
    RuntimeFixtureConfig := mkRuntimeFixtureConfig slot log_bytes_limit sigverify check None.

Definition with_compute_unit_limit (limit : Z) (c : RuntimeFixtureConfig) : RuntimeFixtureConfig :=
  mkRuntimeFixtureConfig (rfc_slot c) (rfc_log_bytes_limit c) (rfc_sigverify c)
    (rfc_blockhash_check c) (Some limit).

Definition to_account_meta (m : InstructionAccountMeta) : AccountMeta :=
  mkAccountMeta (iam_pubkey m) (iam_is_signer m) (iam_is_writable m).

(** ** Accounts and snapshots *)

(** [AccountSnapshot::from_readable] and [From<(Address, Account)>]. *)
Definition snapshot_from_readable (address : Address) (account : AccountSharedData) :
    AccountSnapshot :=
  mkAccountSnapshot address (lamports account) (acc_owner account) (executable account)
    (rent_epoch account) (acc_data account).

(** [From<AccountSnapshot> for Account]. *)
Definition account_from_snapshot (s : AccountSnapshot) : AccountSharedData :=
  mkAccount (as_lamports s) (as_data s) (as_owner s) (as_executable s) (as_rent_epoch s).

Definition return_data_from_meta (d : TransactionReturnData) : option ReturnDataSnapshot :=
  match rd_data d with
  | [] => None
  | _ => Some (mkReturnDataSnapshot (rd_program_id d) (rd_data d))
  end.

Definition inner_snapshot (outer : nat) (inner : InnerInstruction) : InnerInstructionSnapshot :=
  mkInnerInstructionSnapshot (inner_stack_height inner)
    (ci_program_id_index (inner_instruction inner)) (ci_accounts (inner_instruction inner))
    (ci_data (inner_instruction inner)) outer.

Definition flatten_inner_instructions (groups : list (list InnerInstruction)) :
    list InnerInstructionSnapshot :=
  concat (imap (fun outer group => map (inner_snapshot outer) group) groups).

(** ** Expectations, [check.rs] *)

Record AccountExpectation : Type := mkAccountExpectation {
  ae_address : Address;
  ae_lamports : option Z;
  ae_owner : option Address;
  ae_executable : option bool;
  ae_data : option (list byte);
  ae_data_slice : option (Z * list byte);
  ae_closed : option bool;
  ae_rent_exempt : option bool
}.

Inductive Check : Type :=
| CheckSuccess
| CheckFailure
| CheckIncluded (expected : bool)
| CheckComputeUnits (expected : Z)
| CheckFee (expected : Z)
| CheckReturnData (expected : list byte)
| CheckLogContains (expected : string)
| CheckInnerInstructionCount (expected : Z)
| CheckAccount (expected : AccountExpectation)
| CheckAllRentExempt.

(** The renderings of SDK errors and of the derived [Debug] of the predicates. *)
Class FixtureDisplay : Type := {
  debug_transaction_error : TransactionError -> string;
  render_transaction_error : TransactionError -> string;
  debug_compare : Compare -> string;
  debug_check : Check -> string
}.

Definition status_from_error `{FixtureDisplay} (error : TransactionError) : ExecutionStatus :=
  StatusFailure (FailureOther (debug_transaction_error error) (render_transaction_error error)).

Definition status_from_result `{FixtureDisplay} (r : result unit TransactionError) :
    ExecutionStatus :=
  match r with Ok _ => StatusSuccess | Err e => status_from_error e end.

(** The fields a snapshot takes from the metadata of an execution. *)
Definition snapshot_of_meta (status : ExecutionStatus) (included : bool)
    (meta : TransactionMetadata) (post : list (Address * AccountSharedData)) : ExecutionSnapshot :=
  mkExecutionSnapshot status included (tm_compute_units_consumed meta) (tm_fee meta) (tm_logs meta)
    (return_data_from_meta (tm_return_data meta))
    (flatten_inner_instructions (tm_inner_instructions meta))
    (map (fun p => snapshot_from_readable p.1 p.2) post).

Definition from_outcome `{FixtureDisplay} (outcome : DetachedTx) : ExecutionSnapshot :=
  snapshot_of_meta (status_from_result (dt_status outcome)) (dt_included outcome)
    (dt_meta outcome) (dt_post_accounts outcome).

Definition from_simulation (r : SimulatedTransactionInfo) : ExecutionSnapshot :=
  snapshot_of_meta StatusSuccess true (sim_meta r) (sim_post_accounts r).

Definition from_failed_simulation `{FixtureDisplay} (e : FailedTransactionMetadata) :
    ExecutionSnapshot :=
  snapshot_of_meta (status_from_error (ftm_err e)) false (ftm_meta e) [].

(** ** Reporting, [outcome.rs] and [config.rs] *)

Record ResultConfig : Type := mkResultConfig { cfg_panic : bool; cfg_verbose : bool }.

Definition ResultConfig_default : ResultConfig := mkResultConfig false false.

Inductive MismatchKind : Type := Comparison | CheckKind.

Definition mismatch_label (k : MismatchKind) : string :=
  match k with Comparison => "comparison" | CheckKind => "check" end.

Record Mismatch : Type := mkMismatch {
  mm_kind : MismatchKind;
  mm_predicate : string;
  mm_message : string
}.

(** What an evaluation returns, with the lines it wrote to stderr. *)
Definition Evaluation : Type := option (result unit Mismatch * list string).

Definition report_mismatch (config : ResultConfig) (kind : MismatchKind) (predicate : string) :
    option (Mismatch * list string) :=
  let message := (mismatch_label kind ++ " failed: " ++ predicate)%string in
  if cfg_panic config then None
  else Some (mkMismatch kind predicate message, if cfg_verbose config then [message] else []).

(** The loop of [try_compare_with] and [try_run_checks]: the first predicate that
    does not hold is reported; [holds] is [None] when evaluating it panics. *)
Fixpoint first_failure {P} (holds : P -> option bool) (render : P -> string) (kind : MismatchKind)
    (config : ResultConfig) (l : list P) : Evaluation :=
  match l with
  | [] => Some (Ok tt, [])
  | p :: rest =>
      match holds p with
      | None => None
      | Some true => first_failure holds render kind config rest
      | Some false =>
          match report_mismatch config kind (render p) with
          | Some (m, lines) => Some (Err m, lines)
          | None => None
          end
      end
  end.

(** ** Comparisons, [compare.rs] *)

Definition everything : list Compare :=
  [CompareStatus; CompareIncluded; CompareComputeUnits; CompareFee; CompareReturnData; CompareLogs;
   CompareInnerInstructionCount; CompareAccounts ScopeAll].

Definition everything_but_compute_units : list Compare :=
  [CompareStatus; CompareIncluded; CompareFee; CompareReturnData; CompareLogs;
   CompareInnerInstructionCount; CompareAccounts ScopeAll].

Definition should_compare (scope : AccountCompareScope) (address : Address) : bool :=
  match scope with
  | ScopeAll => true
  | ScopeOnly l => bool_decide (address ∈ (list_to_set l : gset Address))
  | ScopeAllExcept l => negb (bool_decide (address ∈ (list_to_set l : gset Address)))
  end.

(** [collect] into a [HashMap]: the last account of an address wins. *)
Definition by_address (l : list AccountSnapshot) : gmap Address AccountSnapshot :=
  foldl (fun m a => <[as_address a := a]> m) ∅ l.

Definition addresses_of (l : list AccountSnapshot) : gset Address :=
  list_to_set (map as_address l).

Definition compare_accounts (left right : ExecutionSnapshot) (scope : AccountCompareScope) : bool :=
  let right_by_address := by_address (es_post_accounts right) in
  forallb (fun account =>
    if should_compare scope (as_address account) then
      match right_by_address !! as_address account with
      | None => false
      | Some other => bool_decide (account = other)
      end
    else true) (es_post_accounts left) &&
  negb (existsb (fun account =>
    should_compare scope (as_address account) &&
    negb (bool_decide (as_address account ∈ addresses_of (es_post_accounts left))))
    (es_post_accounts right)).

Definition compare_holds (left right : ExecutionSnapshot) (c : Compare) : bool :=
  match c with
  | CompareStatus => bool_decide (es_status left = es_status right)
  | CompareIncluded => Bool.eqb (es_included left) (es_included right)
  | CompareComputeUnits => (es_compute_units_consumed left =? es_compute_units_consumed right)%Z
  | CompareFee => (es_fee left =? es_fee right)%Z
  | CompareReturnData => bool_decide (es_return_data left = es_return_data right)
  | CompareLogs => bool_decide (es_logs left = es_logs right)
  | CompareInnerInstructionCount =>
      (length (es_inner_instructions left) =? length (es_inner_instructions right))%nat
  | CompareAccounts scope => compare_accounts left right scope
  end.

Definition try_compare_with `{FixtureDisplay} (left right : ExecutionSnapshot)
    (compares : list Compare) (config : ResultConfig) : Evaluation :=
  first_failure (fun c => Some (compare_holds left right c)) debug_compare Comparison config compares.

Definition compare_with `{FixtureDisplay} (left right : ExecutionSnapshot)
    (compares : list Compare) (config : ResultConfig) : option (bool * list string) :=
  match try_compare_with left right compares config with
  | Some (r, lines) => Some (is_ok r, lines)
  | None => None
  end.

(** ** Checks, [check.rs] *)

(** [Check::account] and the setters of its builder. *)
Definition check_account (address : Address) : AccountExpectation :=
  mkAccountExpectation address None None None None None None None.
Definition expect_lamports (l : Z) (e : AccountExpectation) : AccountExpectation :=
  mkAccountExpectation (ae_address e) (Some l) (ae_owner e) (ae_executable e) (ae_data e)
    (ae_data_slice e) (ae_closed e) (ae_rent_exempt e).
Definition expect_owner (owner : Address) (e : AccountExpectation) : AccountExpectation :=
  mkAccountExpectation (ae_address e) (ae_lamports e) (Some owner) (ae_executable e) (ae_data e)
    (ae_data_slice e) (ae_closed e) (ae_rent_exempt e).
Definition expect_executable (b : bool) (e : AccountExpectation) : AccountExpectation :=
  mkAccountExpectation (ae_address e) (ae_lamports e) (ae_owner e) (Some b) (ae_data e)
    (ae_data_slice e) (ae_closed e) (ae_rent_exempt e).
Definition expect_data (data : list byte) (e : AccountExpectation) : AccountExpectation :=
  mkAccountExpectation (ae_address e) (ae_lamports e) (ae_owner e) (ae_executable e) (Some data)
    (ae_data_slice e) (ae_closed e) (ae_rent_exempt e).
Definition expect_data_slice (offset : Z) (data : list byte) (e : AccountExpectation) :
    AccountExpectation :=
  mkAccountExpectation (ae_address e) (ae_lamports e) (ae_owner e) (ae_executable e) (ae_data e)
    (Some (offset, data)) (ae_closed e) (ae_rent_exempt e).
Definition expect_closed (e : AccountExpectation) : AccountExpectation :=
  mkAccountExpectation (ae_address e) (ae_lamports e) (ae_owner e) (ae_executable e) (ae_data e)
    (ae_data_slice e) (Some true) (ae_rent_exempt e).
Definition expect_rent_exempt (e : AccountExpectation) : AccountExpectation :=
  mkAccountExpectation (ae_address e) (ae_lamports e) (ae_owner e) (ae_executable e) (ae_data e)
    (ae_data_slice e) (ae_closed e) (Some true).
Definition expectation_build (e : AccountExpectation) : Check := CheckAccount e.

(** [str::contains]. *)
Definition str_contains (line needle : string) : bool :=
  match String.index 0 needle line with Some _ => true | None => false end.

(** Slicing [data[offset..end]]: [None] is the panic of an out-of-range slice. *)
Definition slice_range (offset finish : Z) (data : list byte) : option (list byte) :=
  if ((offset <=? finish) && (finish <=? Z.of_nat (length data)))%Z
  then Some (take (Z.to_nat (finish - offset)) (drop (Z.to_nat offset) data))
  else None.

Section Checks.
Context {ids : SdkIds} {sv : SysvarRuntime} {fd : FixtureDisplay}.

Definition is_rent_exempt (account : AccountSnapshot) : bool :=
  rent_is_exempt rent_default (as_lamports account) (Z.of_nat (length (as_data account))).

(** [is_some_and] against a disequality. *)
Definition differs {A} `{EqDecision A} (expected : option A) (actual : A) : bool :=
  match expected with Some x => negb (bool_decide (actual = x)) | None => false end.

Definition slice_differs (account : AccountSnapshot) (expected : option (Z * list byte)) :
    option bool :=
  match expected with
  | None => Some false
  | Some (offset, data) =>
      let finish := saturating_add_u64 offset (Z.of_nat (length data)) in
      if (Z.of_nat (length (as_data account)) <? finish)%Z then Some true
      else match slice_range offset finish (as_data account) with
           | Some found => Some (negb (bool_decide (found = data)))
           | None => None
           end
  end.

(** [account_matches]; [None] is a panic. *)
Definition account_matches (account : AccountSnapshot) (expected : AccountExpectation) :
    option bool :=
  if differs (ae_lamports expected) (as_lamports account) then Some false
  else if differs (ae_owner expected) (as_owner account) then Some false
  else if differs (ae_executable expected) (as_executable account) then Some false
  else if differs (ae_data expected) (as_data account) then Some false
  else
    match slice_differs account (ae_data_slice expected) with
    | None => None
    | Some true => Some false
    | Some false =>
        if default false (ae_closed expected) &&
           negb ((as_lamports account =? 0)%Z && bool_decide (as_data account = []))
        then Some false
        else if match ae_rent_exempt expected with
                | Some b => negb (Bool.eqb (is_rent_exempt account) b)
                | None => false
                end
        then Some false
        else Some true
    end.

Definition is_success (s : ExecutionStatus) : bool :=
  match s with StatusSuccess => true | StatusFailure _ => false end.

Definition check_holds (snapshot : ExecutionSnapshot) (c : Check) : option bool :=
  match c with
  | CheckSuccess => Some (is_success (es_status snapshot))
  | CheckFailure => Some (negb (is_success (es_status snapshot)))
  | CheckIncluded b => Some (Bool.eqb (es_included snapshot) b)
  | CheckComputeUnits n => Some (es_compute_units_consumed snapshot =? n)%Z
  | CheckFee n => Some (es_fee snapshot =? n)%Z
  | CheckReturnData d =>
      Some match es_return_data snapshot with
           | Some r => bool_decide (rds_data r = d)
           | None => false
           end
  | CheckLogContains needle => Some (existsb (fun line => str_contains line needle) (es_logs snapshot))
  | CheckInnerInstructionCount n => Some (Z.of_nat (length (es_inner_instructions snapshot)) =? n)%Z
  | CheckAccount e =>
      match list_find (fun a => as_address a = ae_address e) (es_post_accounts snapshot) with
      | Some (_, a) => account_matches a e
      | None => Some false
      end
  | CheckAllRentExempt =>
      Some (forallb (fun a => (as_lamports a =? 0)%Z || is_rent_exempt a) (es_post_accounts snapshot))
  end.

Definition try_run_checks (snapshot : ExecutionSnapshot) (checks : list Check)
    (config : ResultConfig) : Evaluation :=
  first_failure (check_holds snapshot) debug_check CheckKind config checks.

Definition run_checks (snapshot : ExecutionSnapshot) (checks : list Check)
    (config : ResultConfig) : option (bool * list string) :=
  match try_run_checks snapshot checks config with
  | Some (r, lines) => Some (is_ok r, lines)
  | None => None
  end.

End Checks.
