(* ===== verification/FixtureFacts.v ===== *)
(** * Facts about comparisons, checks and snapshots

    The indexed comparison of account sets is equality of lookups, the full
    comparison is equality up to account order and the contents of inner
    instructions, evaluations report the first failure and never panic unless asked
    to, and the flattening of inner instructions keeps the groups. *)

From Stdlib Require Import ZArith Lia Strings.Byte Strings.String.
From stdpp Require Import base tactics option list sets gmap strings.
From S2P Require Import Prelude.
From S2P Require Import Types.
From S2P Require Import Runtime.
From S2P Require Import Staging.
From S2P Require Import Fixture.

(** ** Account sets *)

(** No address occurs twice. *)
Definition distinct_addresses (l : list AccountSnapshot) : Prop := NoDup (map as_address l).

Lemma by_address_snoc l a : by_address (l ++ [a]) = <[as_address a := a]> (by_address l).
Proof. unfold by_address. by rewrite foldl_app. Qed.

Lemma by_address_Some l k a :
  distinct_addresses l -> by_address l !! k = Some a <-> a ∈ l /\ as_address a = k.
Proof.
  unfold distinct_addresses. induction l as [|b l IH] using rev_ind; intros Hnd.
  - unfold by_address. simpl. rewrite lookup_empty. split; [done|]. intros [H _]. by apply elem_of_nil in H.
  - rewrite map_app in Hnd. apply NoDup_app in Hnd as (Hl & Hdisj & _).
    assert (Hb : forall c, c ∈ l -> as_address c <> as_address b).
    { intros c Hc He. apply (Hdisj (as_address c)); [by apply list_elem_of_fmap_2|].
      simpl. rewrite He. apply list_elem_of_here. }
    rewrite by_address_snoc, lookup_insert_Some, (IH Hl), elem_of_app, list_elem_of_singleton.
    naive_solver.
Qed.

Lemma by_address_is_Some l k : is_Some (by_address l !! k) <-> k ∈ map as_address l.
Proof.
  induction l as [|b l IH] using rev_ind.
  - unfold by_address. simpl. rewrite lookup_empty, elem_of_nil. split; [by intros []|done].
  - rewrite by_address_snoc, lookup_insert_is_Some, IH, map_app, elem_of_app. simpl.
    rewrite list_elem_of_singleton. destruct (decide (as_address b = k)); naive_solver.
Qed.

Lemma addresses_of_spec l k : k ∈ addresses_of l <-> is_Some (by_address l !! k).
Proof. unfold addresses_of. by rewrite elem_of_list_to_set, by_address_is_Some. Qed.

(** The two passes of the comparison, in terms of lookups. *)
Lemma compare_accounts_spec left right scope :
  compare_accounts left right scope = true <->
  (forall a, a ∈ es_post_accounts left -> should_compare scope (as_address a) = true ->
     by_address (es_post_accounts right) !! as_address a = Some a) /\
  (forall a, a ∈ es_post_accounts right -> should_compare scope (as_address a) = true ->
     is_Some (by_address (es_post_accounts left) !! as_address a)).
Proof.
  unfold compare_accounts.
  rewrite andb_true_iff, negb_true_iff, forallb_forall, <- not_true_iff_false, existsb_exists.
  setoid_rewrite <- list_elem_of_In. setoid_rewrite <- addresses_of_spec. split; intros [H1 H2]; split.
  - intros a Ha Hs. specialize (H1 a Ha). rewrite Hs in H1.
    destruct (by_address _ !! _) as [b|] eqn:Hb; [|done]. apply bool_decide_eq_true in H1. congruence.
  - intros a Ha Hs. destruct (decide (as_address a ∈ addresses_of (es_post_accounts left))) as [|Hn];
      [done|]. exfalso. apply H2. exists a. split; [done|]. by rewrite Hs, bool_decide_false.
  - intros a Ha. destruct (should_compare scope (as_address a)) eqn:Hs; [|done].
    rewrite (H1 a Ha Hs). by apply bool_decide_eq_true.
  - intros (a & Ha & Hb). apply andb_prop in Hb as [Hs Hn].
    rewrite bool_decide_true in Hn by by apply H2. done.
Qed.

(** Without duplicate addresses, comparing account sets is comparing lookups. *)
Lemma compare_accounts_lookup left right scope :
  distinct_addresses (es_post_accounts left) -> distinct_addresses (es_post_accounts right) ->
  compare_accounts left right scope = true <->
  forall k, should_compare scope k = true ->
    by_address (es_post_accounts left) !! k = by_address (es_post_accounts right) !! k.
Proof.
  intros Hl Hr. rewrite compare_accounts_spec. split.
  - intros [H1 H2] k Hk. destruct (by_address (es_post_accounts left) !! k) as [a|] eqn:Ha.
    + apply by_address_Some in Ha as [Ha <-]; [|done]. by rewrite H1.
    + destruct (by_address (es_post_accounts right) !! k) as [b|] eqn:Hb; [|done].
      apply by_address_Some in Hb as [Hb <-]; [|done]. destruct (H2 b Hb Hk) as [c Hc]. congruence.
  - intros H. split; intros a Ha Hs.
    + rewrite <- (H _ Hs). by apply by_address_Some.
    + rewrite (H _ Hs). exists a. by apply by_address_Some.
Qed.

(** Equal lookups of lists without duplicates are permutations of each other. *)
Lemma by_address_permutation l1 l2 :
  distinct_addresses l1 -> distinct_addresses l2 ->
  (forall k, by_address l1 !! k = by_address l2 !! k) <-> l1 ≡ₚ l2.
Proof.
  intros H1 H2. split.
  - intros H. apply NoDup_Permutation; [by eapply NoDup_fmap_1..|]. intros a.
    split; intros Ha.
    + apply (by_address_Some l2 (as_address a)); [done|]. rewrite <- H. by apply by_address_Some.
    + apply (by_address_Some l1 (as_address a)); [done|]. rewrite H. by apply by_address_Some.
  - intros Hp k. apply option_eq. intros a. rewrite !by_address_Some by done. by rewrite Hp.
Qed.

Lemma compare_all_permutation left right :
  distinct_addresses (es_post_accounts left) -> distinct_addresses (es_post_accounts right) ->
  compare_accounts left right ScopeAll = true <-> es_post_accounts left ≡ₚ es_post_accounts right.
Proof.
  intros H1 H2. rewrite compare_accounts_lookup, <- by_address_permutation by done.
  simpl. naive_solver.
Qed.

(** The scopes of the account comparison.  On snapshots without duplicate
    addresses, the two-pass hash comparison accepts, for the scope of all accounts,
    exactly the permutations; for a list of accounts, exactly the pairs that hold the
    same account, or none, at every listed address; and for all accounts but a list,
    at every address that is not listed. *)
Theorem compare_accounts_exact (left right : ExecutionSnapshot) (l : list Address) :
  distinct_addresses (es_post_accounts left) -> distinct_addresses (es_post_accounts right) ->
  (compare_accounts left right ScopeAll = true <->
   es_post_accounts left ≡ₚ es_post_accounts right) /\
  (compare_accounts left right (ScopeOnly l) = true <->
   forall k, k ∈ l -> by_address (es_post_accounts left) !! k = by_address (es_post_accounts right) !! k) /\
  (compare_accounts left right (ScopeAllExcept l) = true <->
   forall k, k ∉ l -> by_address (es_post_accounts left) !! k = by_address (es_post_accounts right) !! k).
Proof.
  intros H1 H2. split_and!; [by apply compare_all_permutation|..];
    rewrite compare_accounts_lookup by done; simpl.
  - setoid_rewrite bool_decide_eq_true. by setoid_rewrite elem_of_list_to_set.
  - setoid_rewrite negb_true_iff. setoid_rewrite bool_decide_eq_false.
    by setoid_rewrite elem_of_list_to_set.
Qed.

(** ** Evaluations *)

(** The first predicate of the list that does not hold. *)
Definition first_broken {P} (holds : P -> bool) (l : list P) : option P :=
  match list_find (fun p => holds p = false) l with Some (_, p) => Some p | None => None end.

Lemma first_broken_cons {P} (holds : P -> bool) p l :
  first_broken holds (p :: l) = if holds p then first_broken holds l else Some p.
Proof.
  unfold first_broken. simpl. destruct (holds p) eqn:Hp.
  - rewrite decide_False by done. by destruct (list_find _ l) as [[]|].
  - by rewrite decide_True.
Qed.

(** A loop over predicates that never panic reports the first broken one. *)
Lemma first_failure_spec {P} (holds : P -> option bool) (b : P -> bool) render kind config l :
  (forall p, p ∈ l -> holds p = Some (b p)) ->
  first_failure holds render kind config l =
  match first_broken b l with
  | None => Some (Ok tt, [])
  | Some p =>
      if cfg_panic config then None
      else let message := (mismatch_label kind ++ " failed: " ++ render p)%string in
           Some (Err (mkMismatch kind (render p) message),
                 if cfg_verbose config then [message] else [])
  end.
Proof.
  induction l as [|p l IH]; intros H; [done|].
  rewrite first_broken_cons. simpl. rewrite (H p) by apply list_elem_of_here.
  destruct (b p); [apply IH; intros q Hq; apply H; by right|].
  unfold report_mismatch. by destruct (cfg_panic config).
Qed.

Lemma first_broken_None {P} (holds : P -> bool) l :
  first_broken holds l = None <-> forallb holds l = true.
Proof.
  induction l as [|p l IH]; [done|]. rewrite first_broken_cons. simpl.
  by destruct (holds p).
Qed.

Lemma compare_with_true `{FixtureDisplay} left right compares config :
  compare_with left right compares config = Some (true, []) <->
  forallb (compare_holds left right) compares = true.
Proof.
  unfold compare_with, try_compare_with.
  rewrite (first_failure_spec _ (compare_holds left right)) by done.
  rewrite <- first_broken_None. destruct (first_broken _ _); [|done].
  by destruct (cfg_panic config).
Qed.

(** What the full comparison compares.  On snapshots without duplicate addresses,
    comparing [everything] accepts exactly the pairs that agree in status, inclusion,
    compute units, fee, return data and logs, whose accounts are the same up to order,
    and that ran the same number of inner instructions.  The inner instructions
    themselves are not compared: replacing them by others of the same number is always
    accepted. *)
Theorem everything_exact `{FixtureDisplay} (left right : ExecutionSnapshot) (config : ResultConfig) :
  distinct_addresses (es_post_accounts left) -> distinct_addresses (es_post_accounts right) ->
  (compare_with left right everything config = Some (true, []) <->
   es_status left = es_status right /\ es_included left = es_included right /\
   es_compute_units_consumed left = es_compute_units_consumed right /\
   es_fee left = es_fee right /\ es_return_data left = es_return_data right /\
   es_logs left = es_logs right /\
   length (es_inner_instructions left) = length (es_inner_instructions right) /\
   es_post_accounts left ≡ₚ es_post_accounts right) /\
  (forall other, length other = length (es_inner_instructions left) ->
   compare_with left (mkExecutionSnapshot (es_status left) (es_included left)
     (es_compute_units_consumed left) (es_fee left) (es_logs left) (es_return_data left) other
     (es_post_accounts left)) everything config = Some (true, [])).
Proof.
  intros Hl Hr. rewrite compare_with_true. split.
  - unfold everything. cbn [forallb compare_holds].
    rewrite !andb_true_iff, !bool_decide_eq_true, eqb_true_iff, !Z.eqb_eq, Nat.eqb_eq,
      compare_all_permutation by done. naive_solver.
  - intros other Ho. apply compare_with_true. unfold everything.
    cbn [forallb compare_holds es_status es_included
      es_compute_units_consumed es_fee es_return_data es_logs es_inner_instructions].
    rewrite !andb_true_iff, !bool_decide_eq_true, eqb_true_iff, !Z.eqb_eq, Nat.eqb_eq,
      compare_all_permutation by done. simpl. naive_solver.
Qed.

(** ** Checks *)

(** Two lists agree on a range exactly when one has the other in the middle. *)
Lemma take_drop_infix (n : nat) (data found : list byte) :
  (n + length found <= length data)%nat ->
  take (length found) (drop n data) = found <->
  exists pre post, data = pre ++ found ++ post /\ length pre = n.
Proof.
  intros Hl. split.
  - intros H. exists (take n data), (drop (length found) (drop n data)). split.
    + rewrite <- H at 1. by rewrite !take_drop.
    + rewrite length_take. lia.
  - intros (pre & post & -> & <-). by rewrite drop_app_length, take_app_length.
Qed.

(** The expected slice of a 64-bit offset never panics, and says that the bytes are
    at the offset. *)
Lemma slice_differs_spec account offset data :
  in_u64 offset -> (Z.of_nat (length (as_data account)) <= u64_max)%Z ->
  exists b, slice_differs account (Some (offset, data)) = Some b /\
  (b = false <-> exists pre post, as_data account = pre ++ data ++ post /\
                   Z.of_nat (length pre) = offset).
Proof.
  unfold in_u64. intros [Ho Hm] Hd. unfold slice_differs, slice_range, saturating_add_u64.
  set (len := length data). set (n := length (as_data account)) in *.
  destruct (Z.ltb_spec (Z.of_nat n) (Z.min u64_max (offset + Z.of_nat len))) as [Hlt|Hge].
  - exists true. split; [done|]. split; [done|]. intros (pre & post & He & Hp). exfalso.
    assert (n = (length pre + (len + length post))%nat) by (unfold n, len; rewrite He, !length_app; lia).
    lia.
  - assert (Hend : (offset + Z.of_nat len <= Z.of_nat n \/ u64_max <= Z.of_nat n)%Z) by lia.
    rewrite (proj2 (Z.leb_le _ _)), (proj2 (Z.leb_le _ _)) by lia. simpl.
    destruct (Z_le_gt_dec (offset + Z.of_nat len) (Z.of_nat n)) as [Hfit|Hover].
    + rewrite Z.min_r by lia. eexists. split; [reflexivity|].
      replace (offset + Z.of_nat len - offset)%Z with (Z.of_nat len) by lia. rewrite Nat2Z.id.
      rewrite negb_false_iff, bool_decide_eq_true. unfold len. rewrite take_drop_infix by (fold len; fold n; lia).
      split; intros (pre & post & He & Hp); exists pre, post; split; try done; lia.
    + (* The end saturates only when the buffer has the maximal length. *)
      rewrite Z.min_l by lia. eexists. split; [reflexivity|].
      rewrite negb_false_iff, bool_decide_eq_true. split.
      * intros H. exfalso. apply (f_equal length) in H.
        rewrite length_take, length_drop in H. fold len n in H. lia.
      * intros (pre & post & He & Hp). exfalso.
        assert (n = (length pre + (len + length post))%nat) by (unfold n, len; rewrite He, !length_app; lia).
        lia.
Qed.

Section CheckFacts.
Context {ids : SdkIds} {sv : SysvarRuntime} {fd : FixtureDisplay}.

(** What an expectation says of an account.  [Some false] for [closed] says nothing. *)
Definition expectation_met (a : AccountSnapshot) (e : AccountExpectation) : Prop :=
  (forall l, ae_lamports e = Some l -> as_lamports a = l) /\
  (forall o, ae_owner e = Some o -> as_owner a = o) /\
  (forall x, ae_executable e = Some x -> as_executable a = x) /\
  (forall d, ae_data e = Some d -> as_data a = d) /\
  (forall offset d, ae_data_slice e = Some (offset, d) ->
     exists pre post, as_data a = pre ++ d ++ post /\ Z.of_nat (length pre) = offset) /\
  (ae_closed e = Some true -> as_lamports a = 0%Z /\ as_data a = []) /\
  (forall b, ae_rent_exempt e = Some b -> is_rent_exempt a = b).

(** An expectation whose offset is a machine word. *)
Definition valid_expectation (e : AccountExpectation) : Prop :=
  forall offset d, ae_data_slice e = Some (offset, d) -> in_u64 offset.

(** An account whose data is addressable. *)
Definition addressable (a : AccountSnapshot) : Prop := (Z.of_nat (length (as_data a)) <= u64_max)%Z.

Lemma differs_false {A} `{EqDecision A} (expected : option A) (actual : A) :
  differs expected actual = false <-> forall x, expected = Some x -> actual = x.
Proof.
  destruct expected as [x|]; simpl; [|naive_solver].
  rewrite negb_false_iff, bool_decide_eq_true. naive_solver.
Qed.

(** A guard that returns early, in front of the remaining guards. *)
Lemma guard_exact (x : bool) (P Q : Prop) (rest : option bool) :
  (x = false <-> P) -> (exists b, rest = Some b /\ (b = true <-> Q)) ->
  exists b, (if x then Some false else rest) = Some b /\ (b = true <-> P /\ Q).
Proof.
  intros Hx (b & -> & Hb). destruct x; [exists false|exists b]; naive_solver.
Qed.

Lemma slice_expectation account expected :
  (forall offset d, expected = Some (offset, d) -> in_u64 offset) -> addressable account ->
  exists x, slice_differs account expected = Some x /\
  (x = false <-> forall offset d, expected = Some (offset, d) ->
     exists pre post, as_data account = pre ++ d ++ post /\ Z.of_nat (length pre) = offset).
Proof.
  intros Hv Ha. destruct expected as [[offset d]|]; [|by exists false].
  destruct (slice_differs_spec account offset d (Hv _ _ eq_refl) Ha) as (x & Hx & Hs).
  exists x. split; [done|]. rewrite Hs. naive_solver.
Qed.

(** An expectation is evaluated exactly.  With a 64-bit slice offset
    [account_matches] never panics, and accepts an account exactly when every field
    that is set agrees: balance, owner, flag, data, the bytes at the offset, closed
    meaning no lamports and no data, and rent exemption in both directions.  An
    expectation that the account is not closed is accepted by a closed account. *)
Lemma account_matches_exact (a : AccountSnapshot) (e : AccountExpectation) :
  valid_expectation e -> addressable a ->
  exists b, account_matches a e = Some b /\ (b = true <-> expectation_met a e).
Proof.
  intros Hv Ha. unfold account_matches, expectation_met.
  do 4 (apply guard_exact; [apply differs_false|]).
  destruct (slice_expectation a (ae_data_slice e) Hv Ha) as (x & -> & Hx).
  apply (guard_exact x); [done|]. apply guard_exact.
  - destruct (ae_closed e) as [[]|]; simpl; [|naive_solver..].
    rewrite negb_false_iff, andb_true_iff, Z.eqb_eq, bool_decide_eq_true. naive_solver.
  - destruct (ae_rent_exempt e) as [b|]; [|by exists true].
    exists (Bool.eqb (is_rent_exempt a) b). split; [by destruct (Bool.eqb _ _)|].
    rewrite eqb_true_iff. naive_solver.
Qed.

(** What a check says of a snapshot. *)
Definition check_met (s : ExecutionSnapshot) (c : Check) : Prop :=
  match c with
  | CheckSuccess => es_status s = StatusSuccess
  | CheckFailure => exists f, es_status s = StatusFailure f
  | CheckIncluded b => es_included s = b
  | CheckComputeUnits n => es_compute_units_consumed s = n
  | CheckFee n => es_fee s = n
  | CheckReturnData d => exists r, es_return_data s = Some r /\ rds_data r = d
  | CheckLogContains needle => exists line, line ∈ es_logs s /\ str_contains line needle = true
  | CheckInnerInstructionCount n => Z.of_nat (length (es_inner_instructions s)) = n
  | CheckAccount e =>
      exists i a, list_find (fun a => as_address a = ae_address e) (es_post_accounts s) = Some (i, a) /\
        expectation_met a e
  | CheckAllRentExempt =>
      forall a, a ∈ es_post_accounts s -> as_lamports a = 0%Z \/ is_rent_exempt a = true
  end.

Definition valid_check (c : Check) : Prop :=
  match c with CheckAccount e => valid_expectation e | _ => True end.

Lemma check_holds_exact s c :
  valid_check c -> Forall addressable (es_post_accounts s) ->
  exists b, check_holds s c = Some b /\ (b = true <-> check_met s c).
Proof.
  intros Hv Ha. destruct c as [| |b|n|n|d|needle|n|e|]; simpl; try (eexists; split; [reflexivity|]).
  - destruct (es_status s); simpl; naive_solver.
  - destruct (es_status s); simpl; naive_solver.
  - apply eqb_true_iff.
  - apply Z.eqb_eq.
  - apply Z.eqb_eq.
  - destruct (es_return_data s) as [r|]; [|naive_solver]. rewrite bool_decide_eq_true. naive_solver.
  - rewrite existsb_exists. by setoid_rewrite <- list_elem_of_In.
  - apply Z.eqb_eq.
  - destruct (list_find _ _) as [[i a]|] eqn:Hf; [|exists false; naive_solver].
    assert (Haa : addressable a).
    { apply list_find_Some in Hf as (Hl & _). by eapply Forall_lookup_1 in Hl. }
    destruct (account_matches_exact a e Hv Haa) as (b & -> & Hb). exists b. naive_solver.
  - rewrite forallb_forall. setoid_rewrite <- list_elem_of_In. setoid_rewrite orb_true_iff.
    by setoid_rewrite Z.eqb_eq.
Qed.

(** Checks are evaluated exactly and reported as data.  With 64-bit slice offsets
    and no request to panic, [try_run_checks] returns: [Ok] when every check is met,
    and otherwise the first check that is not met, all earlier ones being met, with its
    message as the only line written, in verbose mode.  With the request, it panics
    exactly when some check is not met. *)
Theorem run_checks_exact (s : ExecutionSnapshot) (checks : list Check) (config : ResultConfig) :
  Forall valid_check checks -> Forall addressable (es_post_accounts s) ->
  (Forall (check_met s) checks /\ try_run_checks s checks config = Some (Ok tt, [])) \/
  (exists pre c post, checks = pre ++ c :: post /\ Forall (check_met s) pre /\ ~ check_met s c /\
     let message := ("check failed: " ++ debug_check c)%string in
     try_run_checks s checks config =
     if cfg_panic config then None
     else Some (Err (mkMismatch CheckKind (debug_check c) message),
                if cfg_verbose config then [message] else [])).
Proof.
  intros Hv Ha. unfold try_run_checks.
  induction checks as [|c checks IH]; [by left|].
  apply Forall_cons in Hv as [Hc Hv]. destruct (check_holds_exact s c Hc Ha) as (b & Hb & Hm).
  simpl. rewrite Hb. destruct b.
  - destruct (IH Hv) as [[Hall ->]|(pre & d & post & -> & Hpre & Hd & ->)].
    + left. rewrite Forall_cons. naive_solver.
    + right. exists (c :: pre), d, post. rewrite Forall_cons. naive_solver.
  - right. exists [], c, checks. split_and!; [done|by apply Forall_nil|naive_solver|].
    unfold report_mismatch. by destruct (cfg_panic config).
Qed.

End CheckFacts.

(** ** Snapshots *)

(** The flattening, from a first index on. *)
Definition flatten_from (n : nat) (groups : list (list InnerInstruction)) :
    list InnerInstructionSnapshot :=
  concat (imap (fun i group => map (inner_snapshot (n + i)) group) groups).

Lemma flatten_from_cons n g groups :
  flatten_from n (g :: groups) = map (inner_snapshot n) g ++ flatten_from (S n) groups.
Proof.
  unfold flatten_from. simpl. rewrite Nat.add_0_r. f_equal. f_equal. apply imap_ext.
  intros i x _. simpl. by rewrite Nat.add_succ_r.
Qed.

Lemma filter_group (k n : nat) g :
  filter (fun x => iis_outer_instruction_index x = k) (map (inner_snapshot n) g) =
  if decide (n = k) then map (inner_snapshot k) g else [].
Proof.
  case_decide as Hk; subst; induction g as [|x g IH]; try done; simpl.
  - rewrite filter_cons_True by done. by rewrite IH.
  - by rewrite filter_cons_False.
Qed.

(** The group of a top-level instruction is what the flattening tags with its index. *)
Lemma flatten_from_group k n groups :
  filter (fun x => iis_outer_instruction_index x = k) (flatten_from n groups) =
  if decide (n <= k)%nat then map (inner_snapshot k) (default [] (groups !! (k - n)%nat)) else [].
Proof.
  revert n. induction groups as [|g groups IH]; intros n; [by case_decide|].
  rewrite flatten_from_cons, filter_app, filter_group, IH.
  repeat case_decide; try lia; subst.
  - by rewrite Nat.sub_diag, app_nil_r.
  - by replace (k - n)%nat with (S (k - S n)) by lia.
  - done.
Qed.

#[export] Instance inner_snapshot_inj n : Inj (=) (=) (inner_snapshot n).
Proof. intros [[p a d] h] [[p' a' d'] h'] [=]. congruence. Qed.

Lemma flatten_injective g1 g2 :
  length g1 = length g2 -> flatten_inner_instructions g1 = flatten_inner_instructions g2 -> g1 = g2.
Proof.
  intros Hl He. apply list_eq. intros i.
  assert (H : flatten_from 0 g1 = flatten_from 0 g2) by exact He.
  apply (f_equal (filter (fun x => iis_outer_instruction_index x = i))) in H.
  rewrite !flatten_from_group, decide_True, Nat.sub_0_r in H by lia.
  apply (inj (fmap (inner_snapshot i))) in H.
  destruct (g1 !! i) as [x|] eqn:H1.
  - destruct (lookup_lt_is_Some_2 g2 i) as [y Hy]; [rewrite <- Hl; by eapply lookup_lt_Some|].
    rewrite Hy in *. simpl in H. congruence.
  - destruct (g2 !! i) as [y|] eqn:H2; [|done].
    apply lookup_ge_None in H1. apply lookup_lt_Some in H2. lia.
Qed.

Lemma account_snapshot_roundtrip address account :
  account_from_snapshot (snapshot_from_readable address account) = account /\
  as_address (snapshot_from_readable address account) = address.
Proof. by destruct account. Qed.

Lemma snapshots_injective (l1 l2 : list (Address * AccountSharedData)) :
  map (fun p => snapshot_from_readable p.1 p.2) l1 = map (fun p => snapshot_from_readable p.1 p.2) l2 ->
  l1 = l2.
Proof.
  assert (Inj (=) (=) (fun p : Address * AccountSharedData => snapshot_from_readable p.1 p.2)).
  { intros [k1 a1] [k2 a2] He. simpl in He.
    destruct (account_snapshot_roundtrip k1 a1) as [H1 H2].
    destruct (account_snapshot_roundtrip k2 a2) as [H3 H4]. congruence. }
  apply (inj (fmap _)).
Qed.

(** A snapshot loses nothing it records.  When two outcomes of transactions with
    the same number of instruction groups have the same snapshot, they have the same
    inclusion, compute units, fee, logs, inner instructions and post-accounts (with
    their addresses, in order), the same return data up to the program id of empty
    data, and, if the rendering of errors tells them apart, the same status. *)
Theorem snapshot_lossless `{FixtureDisplay} (d1 d2 : DetachedTx) :
  length (tm_inner_instructions (dt_meta d1)) = length (tm_inner_instructions (dt_meta d2)) ->
  from_outcome d1 = from_outcome d2 ->
  dt_included d1 = dt_included d2 /\
  tm_compute_units_consumed (dt_meta d1) = tm_compute_units_consumed (dt_meta d2) /\
  tm_fee (dt_meta d1) = tm_fee (dt_meta d2) /\ tm_logs (dt_meta d1) = tm_logs (dt_meta d2) /\
  tm_inner_instructions (dt_meta d1) = tm_inner_instructions (dt_meta d2) /\
  dt_post_accounts d1 = dt_post_accounts d2 /\
  rd_data (tm_return_data (dt_meta d1)) = rd_data (tm_return_data (dt_meta d2)) /\
  (rd_data (tm_return_data (dt_meta d1)) <> [] ->
   tm_return_data (dt_meta d1) = tm_return_data (dt_meta d2)) /\
  ((forall e1 e2, debug_transaction_error e1 = debug_transaction_error e2 -> e1 = e2) ->
   dt_status d1 = dt_status d2).
Proof.
  intros Hl [= Hs Hi Hc Hf Hlog Hr Hin Hp].
  apply flatten_injective in Hin; [|done]. apply snapshots_injective in Hp.
  assert (Hd : rd_data (tm_return_data (dt_meta d1)) = rd_data (tm_return_data (dt_meta d2)) /\
    (rd_data (tm_return_data (dt_meta d1)) <> [] ->
     tm_return_data (dt_meta d1) = tm_return_data (dt_meta d2))).
  { revert Hr. unfold return_data_from_meta.
    destruct (tm_return_data (dt_meta d1)) as [p1 [|b1 l1]], (tm_return_data (dt_meta d2)) as [p2 [|b2 l2]];
      simpl; naive_solver congruence. }
  split_and!; try done; [by apply Hd..|]. intros Hinj. revert Hs. unfold status_from_result.
  destruct (dt_status d1) as [[]|e1], (dt_status d2) as [[]|e2]; try done.
  unfold status_from_error. intros [= He _]. f_equal. by apply Hinj.
Qed.
