(* ===== verification/FixtureRun.v ===== *)
(** * Fixtures: files, capture and replay

    Saving and loading fixtures ([lib.rs], [json.rs], [binary.rs]), building one from
    a recording ([capture.rs]) and executing it on a clone of a base VM ([runner.rs]).
    The codecs are an interface; the disk is a map from paths to contents that may
    refuse a write. *)

From Stdlib Require Import ZArith Lia Strings.Byte Strings.Ascii Strings.String.
From stdpp Require Import base tactics option list sets gmap strings.
From S2P Require Import Prelude.
From S2P Require Import Types.
From S2P Require Import Errors.
From S2P Require Import Lru.
From S2P Require Import History.
From S2P Require Import Runtime.
From S2P Require Import AccountsDb.
From S2P Require Import FeePayer.
From S2P Require Import Version.
From S2P Require Import TxRuntime.
From S2P Require Import Svm.
From S2P Require Import Execution.
From S2P Require Import Staging.
From S2P Require Import VmPrograms.
From S2P Require Import VmOps.
From S2P Require Import Fixture.

(** [FixtureError]; codec and I/O errors by their message. *)
Inductive FixtureError : Type :=
| FixtureIo (message : string)
| FixtureJson (message : string)
| EncodeFixture (message : string)
| DecodeFixture (message : string)
| EncodeTransaction (message : string)
| DecodeTransaction (message : string)
| CodecDisabled (feature : string)
| UnsupportedFormat (path : string)
| UnsupportedRuntimeConfig (field : string)
| MissingField (field : string)
| MissingProgramElf (program_id : Address)
| UnsupportedSchemaVersion (version supported : Z)
| FixtureHpsvm (error : HPSVMError).

(** ** Files *)

(** A path: how it is displayed, and its last component. *)
Record Path : Type := mkPath { path_display : string; path_file_name : option string }.

#[export] Instance Path_eq_dec : EqDecision Path.
Proof. solve_decision. Defined.
#[export] Instance Path_countable : Countable Path.
Proof.
  by apply (inj_countable' (fun p => (path_display p, path_file_name p)) (fun '(d, f) => mkPath d f));
    intros [].
Defined.

(** The text before and after the last dot. *)
Fixpoint rsplit_at_dot (s : string) : option (string * string) :=
  match s with
  | EmptyString => None
  | String c rest =>
      match rsplit_at_dot rest with
      | Some (before, after) => Some (String c before, after)
      | None => if Ascii.eqb c "."%char then Some (EmptyString, rest) else None
      end
  end.

(** [Path::extension]: nothing for [..] and for names whose only dot is the first. *)
Definition path_extension (p : Path) : option string :=
  match path_file_name p with
  | None => None
  | Some name =>
      if String.eqb name ".." then None
      else match rsplit_at_dot name with
           | Some (before, after) => if String.eqb before "" then None else Some after
           | None => None
           end
  end.

Definition fixture_format_for_path (p : Path) : result FixtureFormat FixtureError :=
  match path_extension p with
  | Some ext =>
      if String.eqb ext "json" then Ok FormatJson
      else if String.eqb ext "bin" then Ok FormatBinary
      else Err (UnsupportedFormat (path_display p))
  | None => Err (UnsupportedFormat (path_display p))
  end.

(** The disk, and why it refuses to write a path, if it does. *)
Record Disk : Type := mkDisk {
  disk_files : gmap Path (list byte);
  disk_refusal : Path -> option string
}.

Definition disk_read (p : Path) (d : Disk) : result (list byte) FixtureError :=
  ok_or (disk_files d !! p) (FixtureIo "No such file or directory").

Definition disk_write (p : Path) (contents : list byte) : M Disk FixtureError unit := fun d =>
  match disk_refusal d p with
  | Some message => (Err (FixtureIo message), d)
  | None => (Ok tt, mkDisk (<[p := contents]> (disk_files d)) (disk_refusal d))
  end.

(** The codecs: [serde_json] over text, [wincode] over bytes. *)
Class FixtureCodec {sv : SysvarRuntime} {pr : ProgramRuntime} {pc : ProgramCacheOps} {fs : FeatureSets}
    {tx : TxRuntime} : Type := {
  JsonValue : Type;
  json_parse : string -> result JsonValue string;
  json_get : string -> JsonValue -> option JsonValue;
  json_as_u64 : JsonValue -> option Z;
  json_decode : string -> result Fixture string;
  json_encode : Fixture -> result string string;
  utf8_valid : list byte -> bool;
  wincode_decode : list byte -> result Fixture string;
  wincode_encode : Fixture -> result (list byte) string;
  transaction_decode : list byte -> result VersionedTransaction string;
  transaction_encode : VersionedTransaction -> result (list byte) string
}.

Section Codec.
Context {sv : SysvarRuntime} {pr : ProgramRuntime} {pc : ProgramCacheOps} {fs : FeatureSets}
        {tx : TxRuntime} {fc : FixtureCodec}.

(** [json::load]: the version is read from the document before it is decoded. *)
Definition json_version (document : JsonValue) : option Z :=
  match json_get "header" document with
  | None => None
  | Some header =>
      match json_get "schema_version" header with
      | None => None
      | Some version => json_as_u64 version
      end
  end.

Definition json_load (p : Path) (d : Disk) : result Fixture FixtureError :=
  if negb (bool_decide (path_extension p = Some "json"%string))
  then Err (UnsupportedFormat (path_display p))
  else
    let? bytes := disk_read p d in
    if negb (utf8_valid bytes) then Err (FixtureIo "stream did not contain valid UTF-8")
    else
      let file := string_of_list_byte bytes in
      let? document := map_err FixtureJson (json_parse file) in
      match json_version document with
      | Some v =>
          let version := if (v <=? 65535)%Z then v else 65535%Z in
          if bool_decide (version ∈ SUPPORTED_SCHEMA_VERSIONS)
          then map_err FixtureJson (json_decode file)
          else Err (UnsupportedSchemaVersion version CURRENT_SCHEMA_VERSION)
      | None => map_err FixtureJson (json_decode file)
      end.

Definition json_save (f : Fixture) (p : Path) : M Disk FixtureError unit := fun d =>
  match json_encode f with
  | Ok text => disk_write p (list_byte_of_string text) d
  | Err e => (Err (FixtureJson e), d)
  end.

Definition binary_load (p : Path) (d : Disk) : result Fixture FixtureError :=
  let? bytes := disk_read p d in map_err DecodeFixture (wincode_decode bytes).

Definition binary_save (f : Fixture) (p : Path) : M Disk FixtureError unit := fun d =>
  match wincode_encode f with
  | Ok bytes => disk_write p bytes d
  | Err e => (Err (EncodeFixture e), d)
  end.

Definition has_supported_schema_version (f : Fixture) : bool :=
  bool_decide (schema_version (fx_header f) ∈ SUPPORTED_SCHEMA_VERSIONS).

Definition check_schema_version (f : Fixture) : result unit FixtureError :=
  if has_supported_schema_version f then Ok tt
  else Err (UnsupportedSchemaVersion (schema_version (fx_header f)) CURRENT_SCHEMA_VERSION).

(** [Fixture::load] and [Fixture::save], with both codecs enabled. *)
Definition load (p : Path) (d : Disk) : result Fixture FixtureError :=
  let? format := fixture_format_for_path p in
  let? f := match format with FormatJson => json_load p d | FormatBinary => binary_load p d end in
  let? _ := check_schema_version f in
  Ok f.

Definition save (f : Fixture) (p : Path) (format : FixtureFormat) : M Disk FixtureError unit :=
  match format with FormatJson => json_save f p | FormatBinary => binary_save f p end.

(** ** Capture, [capture.rs] *)

Record CaptureBuilder : Type := mkCaptureBuilder {
  cb_header : option FixtureHeader;
  cb_runtime : option RuntimeFixtureConfig;
  cb_programs : list ProgramBinding;
  cb_pre_accounts : list AccountSnapshot;
  cb_baseline : option ExecutionSnapshot;
  cb_compares : list Compare
}.

Definition CaptureBuilder_default : CaptureBuilder := mkCaptureBuilder None None [] [] None [].

Definition capture_new (name : string) : CaptureBuilder :=
  mkCaptureBuilder
    (Some (mkFixtureHeader CURRENT_SCHEMA_VERSION name KindTransaction None [])) None [] [] None [].
Definition capture_source (source : string) (b : CaptureBuilder) : CaptureBuilder :=
  mkCaptureBuilder (header_with_source source <$> cb_header b) (cb_runtime b) (cb_programs b)
    (cb_pre_accounts b) (cb_baseline b) (cb_compares b).
Definition capture_tag (tag : string) (b : CaptureBuilder) : CaptureBuilder :=
  mkCaptureBuilder (header_with_tag tag <$> cb_header b) (cb_runtime b) (cb_programs b)
    (cb_pre_accounts b) (cb_baseline b) (cb_compares b).
Definition capture_runtime (r : RuntimeFixtureConfig) (b : CaptureBuilder) : CaptureBuilder :=
  mkCaptureBuilder (cb_header b) (Some r) (cb_programs b) (cb_pre_accounts b) (cb_baseline b)
    (cb_compares b).
Definition capture_programs (l : list ProgramBinding) (b : CaptureBuilder) : CaptureBuilder :=
  mkCaptureBuilder (cb_header b) (cb_runtime b) l (cb_pre_accounts b) (cb_baseline b) (cb_compares b).
Definition capture_pre_accounts (l : list AccountSnapshot) (b : CaptureBuilder) : CaptureBuilder :=
  mkCaptureBuilder (cb_header b) (cb_runtime b) (cb_programs b) l (cb_baseline b) (cb_compares b).
Definition capture_baseline (s : ExecutionSnapshot) (b : CaptureBuilder) : CaptureBuilder :=
  mkCaptureBuilder (cb_header b) (cb_runtime b) (cb_programs b) (cb_pre_accounts b) (Some s)
    (cb_compares b).
Definition capture_compares (l : list Compare) (b : CaptureBuilder) : CaptureBuilder :=
  mkCaptureBuilder (cb_header b) (cb_runtime b) (cb_programs b) (cb_pre_accounts b) (cb_baseline b) l.

Definition capture_transaction (t : VersionedTransaction) (b : CaptureBuilder) :
    result Fixture FixtureError :=
  let? transaction_bytes := map_err EncodeTransaction (transaction_encode t) in
  let? header := ok_or (cb_header b) (MissingField "header") in
  let? runtime := ok_or (cb_runtime b) (MissingField "runtime") in
  let? baseline := ok_or (cb_baseline b) (MissingField "baseline") in
  Ok (mkFixture header
        (InputTransaction (mkTransactionFixture runtime (cb_programs b) (cb_pre_accounts b)
                             transaction_bytes))
        (mkFixtureExpectations baseline
           match cb_compares b with [] => everything | l => l end)).

End Codec.

(** ** Replay, [runner.rs] *)

Section Runner.
Context {tgt : Target} {ids : SdkIds} {sv : SysvarRuntime} {pr : ProgramRuntime}
        {pc : ProgramCacheOps} {Lst : Lru ProgramEntryKey Entry}
        {Lhist : Lru Signature TransactionResult} {fs : FeatureSets} {bud : Budgets}
        {tx : TxRuntime} {lt : LookupTables} {sp : SystemProgram} {uc : UserCode}
        {dr : DeployRuntime} {vr : VmRuntime} {fc : FixtureCodec} {fd : FixtureDisplay}.

(** [configure_vm]; warping panics without a readable clock. *)
Definition configure_vm (runtime : RuntimeFixtureConfig) (s : VmSt) : option VmSt :=
  let v1 := set_sigverify (rfc_sigverify runtime) s.1 in
  let v2 := set_blockhash_check (rfc_blockhash_check runtime) v1 in
  let v3 := set_log_bytes_limit (rfc_log_bytes_limit runtime) v2 in
  let v4 := match rfc_compute_unit_limit runtime with
            | Some limit => set_compute_unit_limit limit v3
            | None => v3
            end in
  warp_to_slot (rfc_slot runtime) (v4, s.2).

Fixpoint bind_programs (bindings : list ProgramBinding) (elfs : gmap Address ByteSlice) :
    M VmSt FixtureError unit := fun s =>
  match bindings with
  | [] => (Ok tt, s)
  | binding :: rest =>
      match elfs !! pb_program_id binding with
      | None => (Err (MissingProgramElf (pb_program_id binding)), s)
      | Some elf =>
          match add_program_with_loader (pb_program_id binding) elf (pb_loader_id binding) s with
          | (Ok _, s') => bind_programs rest elfs s'
          | (Err e, s') => (Err (FixtureHpsvm e), s')
          end
      end
  end.

Record FixtureExecution : Type := mkFixtureExecution {
  fex_snapshot : ExecutionSnapshot;
  fex_pass : option bool
}.

Record FixtureRunner : Type := mkFixtureRunner {
  base_vm : Svm;
  program_elfs : gmap Address ByteSlice;
  runner_jit_policy : option JitPolicy
}.

Definition runner_new (v : Svm) : FixtureRunner := mkFixtureRunner v ∅ None.
Definition with_program_elf (program_id : Address) (elf : ByteSlice) (r : FixtureRunner) :
    FixtureRunner :=
  mkFixtureRunner (base_vm r) (<[program_id := elf]> (program_elfs r)) (runner_jit_policy r).
Definition runner_set_jit_policy (p : JitPolicy) (r : FixtureRunner) : FixtureRunner :=
  mkFixtureRunner (base_vm r) (program_elfs r) (Some p).

Fixpoint with_bindings (bindings : list ProgramBinding) (elfs : gmap Address ByteSlice)
    (r : FixtureRunner) : result FixtureRunner FixtureError :=
  match bindings with
  | [] => Ok r
  | binding :: rest =>
      match elfs !! pb_program_id binding with
      | None => Err (MissingProgramElf (pb_program_id binding))
      | Some elf => with_bindings rest elfs (with_program_elf (pb_program_id binding) elf r)
      end
  end.
Definition with_fixture_programs (f : Fixture) (elfs : gmap Address ByteSlice) (r : FixtureRunner) :
    result FixtureRunner FixtureError := with_bindings (fixture_programs f) elfs r.

(** The VM a fixture runs on: a clone of the base VM, its policy, its configuration. *)
Definition prepare_vm (r : FixtureRunner) (runtime : RuntimeFixtureConfig) (w : World) : option VmSt :=
  let v := svm_clone (base_vm r) in
  configure_vm runtime
    (match runner_jit_policy r with Some p => set_jit_policy p v | None => v end, w).

Definition snapshot_account (s : AccountSnapshot) : Address * AccountSharedData :=
  (as_address s, account_from_snapshot s).

(** [InstructionFixture::instruction_case]. *)
Definition instruction_case (f : InstructionFixture) : InstructionCase :=
  mkInstructionCase (if_program_id f) (map to_account_meta (if_accounts f)) (if_data f)
    (map snapshot_account (if_pre_accounts f)).

Definition Replay (A : Type) : Type := option (result A FixtureError * World * Observed).

Definition run_transaction_fixture (r : FixtureRunner) (f : TransactionFixture) (w : World) :
    Replay ExecutionSnapshot :=
  if rfc_blockhash_check (tf_runtime f)
  then Some (Err (UnsupportedRuntimeConfig "blockhash_check"), w, nothing_observed)
  else
    match prepare_vm r (tf_runtime f) w with
    | None => None
    | Some s0 =>
        match bind_programs (tf_programs f) (program_elfs r) s0 with
        | (Err e, s1) => Some (Err e, s1.2, nothing_observed)
        | (Ok _, s1) =>
            match write_pre_accounts (map snapshot_account (tf_pre_accounts f)) s1 with
            | (Err e, s2) => Some (Err (FixtureHpsvm e), s2.2, nothing_observed)
            | (Ok _, s2) =>
                match transaction_decode (tf_transaction_bytes f) with
                | Err e => Some (Err (DecodeTransaction e), s2.2, nothing_observed)
                | Ok t =>
                    match transact_detached s2 t with
                    | Some (d, w', ob) => Some (Ok (from_outcome d), w', ob)
                    | None => None
                    end
                end
            end
        end
    end.

Definition run_instruction_fixture (unique : Address) (r : FixtureRunner) (f : InstructionFixture)
    (w : World) : Replay ExecutionSnapshot :=
  match prepare_vm r (if_runtime f) w with
  | None => None
  | Some s0 =>
      match bind_programs (if_programs f) (program_elfs r) s0 with
      | (Err e, s1) => Some (Err e, s1.2, nothing_observed)
      | (Ok _, s1) =>
          match process_instruction_case unique (instruction_case f) s1 with
          | Some (Ok d, w', ob) => Some (Ok (from_outcome d), w', ob)
          | Some (Err e, w', ob) => Some (Err (FixtureHpsvm e), w', ob)
          | None => None
          end
      end
  end.

Definition run_fixture (unique : Address) (r : FixtureRunner) (f : Fixture) (w : World) :
    Replay FixtureExecution :=
  match match fx_input f with
        | InputTransaction t => run_transaction_fixture r t w
        | InputInstruction i => run_instruction_fixture unique r i w
        end with
  | Some (Ok snapshot, w', ob) => Some (Ok (mkFixtureExecution snapshot None), w', ob)
  | Some (Err e, w', ob) => Some (Err e, w', ob)
  | None => None
  end.

(** [run_and_validate], with the lines the comparison writes. *)
Definition run_and_validate (unique : Address) (r : FixtureRunner) (f : Fixture)
    (config : ResultConfig) (w : World) : Replay (bool * list string) :=
  match run_fixture unique r f w with
  | None => None
  | Some (Err e, w', ob) => Some (Err e, w', ob)
  | Some (Ok x, w', ob) =>
      match compare_with (fex_snapshot x) (fe_baseline (fx_expectations f))
              (fe_compares (fx_expectations f)) config with
      | Some (pass, lines) => Some (Ok (pass, lines), w', ob)
      | None => None
      end
  end.

End Runner.
