(* ===== verification/Cli.v ===== *)
(** * The fixture commands, [bin/hpsvm-cli]

    Recording a fixture from a transaction and its pre-state ([record.rs]), running
    and comparing fixtures ([fixture.rs]), the program map ([program_map.rs]) and the
    comparison config ([config.rs]).  The lines a verbose comparison writes are part of
    the results; a fresh VM ([HPSVM::new()]) is an argument. *)

From Stdlib Require Import ZArith Lia Strings.Byte Strings.Ascii Strings.String.
From stdpp Require Import base tactics option list sorting sets gmap strings.
From S2P Require Import Prelude.
From S2P Require Import Types.
From S2P Require Import Errors.
From S2P Require Import Lru.
From S2P Require Import History.
From S2P Require Import Runtime.
From S2P Require Import AccountsDb.
From S2P Require Import FeePayer.
From S2P Require Import Version.
From S2P Require Import TxRuntime.
From S2P Require Import Svm.
From S2P Require Import Execution.
From S2P Require Import Staging.
From S2P Require Import VmPrograms.
From S2P Require Import VmOps.
From S2P Require Import Fixture.
From S2P Require Import FixtureRun.

Inductive CliError : Type :=
| CliHpsvm (error : HPSVMError)
| CliFixture (error : FixtureError)
| CliIo (message : string)
| ConfigParse (path reason : string)
| UnsupportedConfigFormat (path : string)
| InvalidProgramMapping (value : string)
| InvalidProgramId (value reason : string)
| AccountFile (path reason : string)
| TransactionEncoding (path encoding reason : string)
| NoFixturesInDirectory (path : string)
| ComparisonFailed (name : string).

(** ** Text *)

(** [str::split_once('=')]: the text before and after the first occurrence. *)
Fixpoint split_once (sep : ascii) (s : string) : option (string * string) :=
  match s with
  | EmptyString => None
  | String c rest =>
      if Ascii.eqb c sep then Some (EmptyString, rest)
      else match split_once sep rest with
           | Some (before, after) => Some (String c before, after)
           | None => None
           end
  end.

(** The components between slashes. *)
Fixpoint split_slash (s : string) : list string :=
  match s with
  | EmptyString => [EmptyString]
  | String c rest =>
      if Ascii.eqb c "/"%char then EmptyString :: split_slash rest
      else match split_slash rest with
           | first :: others => String c first :: others
           | [] => [String c EmptyString]
           end
  end.

(** [Path::new] and its [file_name]: the last component that is not empty or [.],
    unless it is [..]. *)
Definition path_of_string (s : string) : Path :=
  mkPath s
    match last (filter (fun x => x <> ""%string /\ x <> "."%string) (split_slash s)) with
    | Some name => if String.eqb name ".." then None else Some name
    | None => None
    end.

(** [Path::file_stem]. *)
Definition path_file_stem (p : Path) : option string :=
  match path_file_name p with
  | None => None
  | Some name =>
      match rsplit_at_dot name with
      | Some (before, _) => if String.eqb before "" then Some name else Some before
      | None => Some name
      end
  end.

(** [std::path::Component], without the prefixes of Windows. *)
Inductive Component : Type := RootDir | CurDir | ParentDir | Normal (name : string).

(** A component after the first: empty ones and [.] are skipped. *)
Definition component_of (s : string) : option Component :=
  if String.eqb s "" || String.eqb s "." then None
  else if String.eqb s ".." then Some ParentDir else Some (Normal s).

(** [Path::components]: a leading slash is the root, a leading [.] is kept. *)
Definition path_components (p : Path) : list Component :=
  match split_slash (path_display p) with
  | first :: rest =>
      if String.eqb first "" && negb (Nat.eqb (length rest) 0) then RootDir :: omap component_of rest
      else if String.eqb first "." then CurDir :: omap component_of rest
      else omap component_of (first :: rest)
  | [] => []
  end.

(** The derived [Ord] of [Component], and the lexicographic one of [Path]. *)
Definition component_rank (c : Component) : nat :=
  match c with RootDir => 0 | CurDir => 1 | ParentDir => 2 | Normal _ => 3 end.

Definition component_cmp (a b : Component) : comparison :=
  match a, b with
  | Normal x, Normal y => String.compare x y
  | _, _ => Nat.compare (component_rank a) (component_rank b)
  end.

Fixpoint lexicographic {A} (cmp : A -> A -> comparison) (l k : list A) : comparison :=
  match l, k with
  | [], [] => Eq
  | [], _ :: _ => Lt
  | _ :: _, [] => Gt
  | x :: l, y :: k => match cmp x y with Eq => lexicographic cmp l k | c => c end
  end.

Definition path_cmp (p q : Path) : comparison :=
  lexicographic component_cmp (path_components p) (path_components q).

Definition path_le (p q : Path) : Prop := path_cmp p q <> Gt.
#[export] Instance path_le_dec : RelDecision path_le.
Proof. intros p q. unfold path_le. destruct (path_cmp p q); first [left; discriminate|right; auto]. Defined.

(** [Vec::sort] on paths, which is stable. *)
Definition path_sort (l : list Path) : list Path := merge_sort path_le l.

(** [char::is_ascii_whitespace]: space, tab, line feed, form feed, carriage return. *)
Definition is_ascii_whitespace (b : byte) : bool :=
  match b with x20 | x09 | x0a | x0c | x0d => true | _ => false end.

Definition is_ascii (l : list byte) : bool := forallb (fun b => (to_N b <? 128)%N) l.

Inductive TransactionEncodingArg : Type := EncodingRaw | EncodingBase64 | EncodingHex.

Definition encoding_as_str (e : TransactionEncodingArg) : string :=
  match e with EncodingRaw => "raw" | EncodingBase64 => "base64" | EncodingHex => "hex" end.

(** Base64, hexadecimal, base58 and JSON come from libraries. *)
Class CliRuntime : Type := {
  parse_address : string -> result Address string;
  base64_decode : list byte -> result (list byte) string;
  hex_decode : list byte -> result (list byte) string;
  json_compares : list byte -> result (list Compare) string;
  json_accounts : list byte -> result (list AccountSnapshot) string;
  (** The address of the buffer a file is read into. *)
  buffer_of : string -> positive;
  (** The order in which a [HashMap] iterates. *)
  iteration : gmap Address ByteSlice -> list (Address * ByteSlice)
}.

Section Parsing.
Context {cr : CliRuntime}.

Definition decode_base64 (encoded : list byte) : result (list byte) string :=
  map_err (fun e => ("invalid base64 input: " ++ e)%string)
    (base64_decode (filter (fun b => is_ascii_whitespace b = false) encoded)).

Definition decode_hex (encoded : list byte) : result (list byte) string :=
  if negb (is_ascii encoded) then Err "invalid hex input: non-ascii byte"%string
  else map_err (fun e => ("invalid hex input: " ++ e)%string)
         (hex_decode (filter (fun b => is_ascii_whitespace b = false) encoded)).

Definition encoding_decode (e : TransactionEncodingArg) (encoded : list byte) :
    result (list byte) string :=
  match e with
  | EncodingRaw => Ok encoded
  | EncodingBase64 => decode_base64 encoded
  | EncodingHex => decode_hex encoded
  end.

(** [std::fs::read] with the error of the command line. *)
Definition cli_read (p : Path) (d : Disk) : result (list byte) CliError :=
  ok_or (disk_files d !! p) (CliIo "No such file or directory").

Fixpoint parse_program_entries (values : list string) (d : Disk) (parsed : gmap Address ByteSlice) :
    result (gmap Address ByteSlice) CliError :=
  match values with
  | [] => Ok parsed
  | value :: rest =>
      match split_once "="%char value with
      | None => Err (InvalidProgramMapping value)
      | Some (program_id, path) =>
          let? address := map_err (InvalidProgramId program_id) (parse_address program_id) in
          let? bytes := cli_read (path_of_string path) d in
          parse_program_entries rest d (<[address := mkByteSlice (buffer_of path) bytes]> parsed)
      end
  end.

Definition parse_program_map (values : list string) (d : Disk) :
    result (gmap Address ByteSlice) CliError := parse_program_entries values d ∅.

Definition is_compute_units (c : Compare) : bool :=
  match c with CompareComputeUnits => true | _ => false end.

Definition load_compares {sv : SysvarRuntime} {pr : ProgramRuntime} {pc : ProgramCacheOps}
    {fs : FeatureSets} {tx : TxRuntime} {fc : FixtureCodec}
    (path : option Path) (fallback : list Compare) (ignore_compute_units : bool) (d : Disk) :
    result (list Compare) CliError :=
  let? compares :=
    match path with
    | None => Ok fallback
    | Some p =>
        let? file := cli_read p d in
        if negb (utf8_valid file) then Err (CliIo "stream did not contain valid UTF-8")
        else if bool_decide (path_extension p = Some "json"%string)
        then map_err (ConfigParse (path_display p)) (json_compares file)
        else Err (UnsupportedConfigFormat (path_display p))
    end in
  Ok (if ignore_compute_units then filter (fun c => is_compute_units c = false) compares else compares).

Definition load_accounts_file (p : Path) (d : Disk) : result (list AccountSnapshot) CliError :=
  let? raw := cli_read p d in map_err (AccountFile (path_display p)) (json_accounts raw).

(** [fixture_format_for_output]. *)
Definition fixture_format_for_output (p : Path) : result FixtureFormat CliError :=
  map_err CliFixture (fixture_format_for_path p).

(** [fixture_paths]: [listing] is the directory at the path, if it is one, with
    whether each entry is a file; [accepts] says which files are fixtures. *)
Definition fixture_paths (accepts : Path -> bool) (p : Path) (listing : option (list (Path * bool))) :
    result (list Path) CliError :=
  match listing with
  | None => Ok [p]
  | Some entries =>
      match path_sort (map fst (filter (fun e => e.2 && accepts e.1 = true) entries)) with
      | [] => Err (NoFixturesInDirectory (path_display p))
      | paths => Ok paths
      end
  end.

End Parsing.

(** [RecordRequest], with the input files as paths. *)
Record RecordRequest : Type := mkRecordRequest {
  rq_transaction : Path;
  rq_transaction_encoding : TransactionEncodingArg;
  rq_accounts : Path;
  rq_output : Path;
  rq_name : option string;
  rq_tags : list string;
  rq_source : option string;
  rq_programs : list string;
  rq_loader : option Address;
  rq_slot : option Z;
  rq_sigverify : bool;
  rq_log_bytes_limit : option Z;
  rq_compute_unit_limit : option Z;
  rq_ignore_compute_units : bool
}.

Definition fixture_name (rq : RecordRequest) : string :=
  match rq_name rq with
  | Some name => name
  | None => default "fixture"%string (path_file_stem (rq_output rq))
  end.

Section Commands.
Context {tgt : Target} {ids : SdkIds} {sv : SysvarRuntime} {pr : ProgramRuntime}
        {pc : ProgramCacheOps} {Lst : Lru ProgramEntryKey Entry}
        {Lhist : Lru Signature TransactionResult} {fs : FeatureSets} {bud : Budgets}
        {tx : TxRuntime} {lt : LookupTables} {sp : SystemProgram} {uc : UserCode}
        {dr : DeployRuntime} {vr : VmRuntime} {fc : FixtureCodec} {fd : FixtureDisplay}
        {cr : CliRuntime}.

Definition load_transaction (rq : RecordRequest) (d : Disk) : result VersionedTransaction CliError :=
  let? encoded := cli_read (rq_transaction rq) d in
  let? bytes := map_err (TransactionEncoding (path_display (rq_transaction rq))
                           (encoding_as_str (rq_transaction_encoding rq)))
                  (encoding_decode (rq_transaction_encoding rq) encoded) in
  map_err (fun e => CliFixture (DecodeTransaction e)) (transaction_decode bytes).

(** The runtime configuration of a recording. *)
Definition record_runtime (rq : RecordRequest) (v : Svm) : RuntimeFixtureConfig :=
  let runtime := runtime_config_new (default (be_slot (block_env v)) (rq_slot rq))
                   (rq_log_bytes_limit rq) (rq_sigverify rq) false in
  match rq_compute_unit_limit rq with
  | Some limit => with_compute_unit_limit limit runtime
  | None => runtime
  end.

Fixpoint record_programs (loader_id : Address) (l : list (Address * ByteSlice)) :
    M VmSt HPSVMError unit :=
  match l with
  | [] => sret tt
  | (program_id, elf) :: rest =>
      do! add_program_with_loader program_id elf loader_id in record_programs loader_id rest
  end.

Definition record_bindings (loader_id : Address) (l : list (Address * ByteSlice)) :
    list ProgramBinding := map (fun p => mkProgramBinding p.1 loader_id None) l.

(** The builder of a recording, finished into a fixture. *)
Definition record_capture (rq : RecordRequest) (runtime : RuntimeFixtureConfig)
    (bindings : list ProgramBinding) (accounts : list AccountSnapshot)
    (baseline : ExecutionSnapshot) (t : VersionedTransaction) : result Fixture FixtureError :=
  let builder :=
    capture_compares
      (if rq_ignore_compute_units rq then everything_but_compute_units else everything)
      (capture_baseline baseline
         (capture_pre_accounts accounts
            (capture_programs bindings
               (capture_runtime runtime (capture_new (fixture_name rq)))))) in
  let tagged := foldl (fun b tag => capture_tag tag b) builder (rq_tags rq) in
  capture_transaction t
    match rq_source rq with Some source => capture_source source tagged | None => tagged end.

(** [record_fixture] on a fresh VM; [None] is a panic. *)
Definition record_fixture (rq : RecordRequest) (fresh : VmSt) (d : Disk) :
    option (result unit CliError * Disk * World) :=
  match (let? format := fixture_format_for_output (rq_output rq) in
         let? transaction := load_transaction rq d in
         let? accounts := load_accounts_file (rq_accounts rq) d in
         let? programs := parse_program_map (rq_programs rq) d in
         Ok (format, transaction, accounts, iteration programs)) with
  | Err e => Some (Err e, d, fresh.2)
  | Ok (format, transaction, accounts, programs) =>
      let runtime := record_runtime rq fresh.1 in
      let loader_id := default bpf_loader_upgradeable_id (rq_loader rq) in
      match configure_vm runtime fresh with
      | None => None
      | Some s0 =>
          match record_programs loader_id programs s0 with
          | (Err e, s1) => Some (Err (CliHpsvm e), d, s1.2)
          | (Ok _, s1) =>
              match write_pre_accounts (map snapshot_account accounts) s1 with
              | (Err e, s2) => Some (Err (CliHpsvm e), d, s2.2)
              | (Ok _, s2) =>
                  match transact_detached s2 transaction with
                  | None => None
                  | Some (outcome, w, _) =>
                      match record_capture rq runtime (record_bindings loader_id programs)
                              accounts (from_outcome outcome) transaction with
                      | Err e => Some (Err (CliFixture e), d, w)
                      | Ok fixture =>
                          let '(r, d') := save fixture (rq_output rq) format d in
                          Some (map_err CliFixture r, d', w)
                      end
                  end
              end
          end
      end
  end.

(** [preload_runner]. *)
Definition preload_runner (r : FixtureRunner) (f : Fixture) (programs : gmap Address ByteSlice) :
    result FixtureRunner FixtureError := with_fixture_programs f programs r.

Definition cli_config : ResultConfig := mkResultConfig false true.

(** One iteration of [run_fixture], once the fixture is loaded, with the lines the
    comparison writes; [fresh] is [HPSVM::new()] in the current world. *)
Definition run_loaded (unique : Address) (fresh : World -> VmSt) (programs : gmap Address ByteSlice)
    (f : Fixture) (w : World) : option (result unit CliError * World * list string) :=
  let s := fresh w in
  match preload_runner (runner_new s.1) f programs with
  | Err e => Some (Err (CliFixture e), s.2, [])
  | Ok r =>
      match run_and_validate unique r f cli_config s.2 with
      | None => None
      | Some (Err e, w', _) => Some (Err (CliFixture e), w', [])
      | Some (Ok (pass, lines), w', _) =>
          Some (if pass then Ok tt else Err (ComparisonFailed (fh_name (fx_header f))), w', lines)
      end
  end.

(** One iteration of [compare_fixture], once fixture and comparisons are loaded: a
    baseline and a candidate build. *)
Definition compare_loaded (unique : Address) (fresh : World -> VmSt)
    (baseline_programs candidate_programs : gmap Address ByteSlice) (f : Fixture)
    (compares : list Compare) (w : World) : option (result unit CliError * World * list string) :=
  let s1 := fresh w in
  match map_err CliFixture (preload_runner (runner_new s1.1) f baseline_programs) with
  | Err e => Some (Err e, s1.2, [])
  | Ok baseline_runner =>
      let s2 := fresh s1.2 in
      match map_err CliFixture (preload_runner (runner_new s2.1) f candidate_programs) with
      | Err e => Some (Err e, s2.2, [])
      | Ok candidate_runner =>
          match run_fixture unique baseline_runner f s2.2 with
          | None => None
          | Some (Err e, w1, _) => Some (Err (CliFixture e), w1, [])
          | Some (Ok baseline, w1, _) =>
              match run_fixture unique candidate_runner f w1 with
              | None => None
              | Some (Err e, w2, _) => Some (Err (CliFixture e), w2, [])
              | Some (Ok candidate, w2, _) =>
                  match compare_with (fex_snapshot baseline) (fex_snapshot candidate) compares
                          cli_config with
                  | None => None
                  | Some (pass, lines) =>
                      Some (if pass then Ok tt
                            else Err (ComparisonFailed (fh_name (fx_header f))), w2, lines)
                  end
              end
          end
      end
  end.

End Commands.
