(* ===== verification/CliFacts.v ===== *)
(** * Facts about the fixture commands

    Paths are totally ordered by their components; what is recorded is reproduced by a
    run, through capture, disk and replay; ignoring compute units removes exactly that
    comparison. *)

From Stdlib Require Import ZArith Lia Strings.Byte Strings.Ascii Strings.String.
From stdpp Require Import base tactics option list sorting sets gmap strings.
From S2P Require Import Prelude.
From S2P Require Import Types.
From S2P Require Import Errors.
From S2P Require Import Lru.
From S2P Require Import History.
From S2P Require Import Runtime.
From S2P Require Import AccountsDb.
From S2P Require Import FeePayer.
From S2P Require Import Version.
From S2P Require Import TxRuntime.
From S2P Require Import Svm.
From S2P Require Import Execution.
From S2P Require Import Staging.
From S2P Require Import VmPrograms.
From S2P Require Import VmOps.
From S2P Require Import Fixture.
From S2P Require Import FixtureFacts.
From S2P Require Import FixtureRun.
From S2P Require Import FixtureRunFacts.
From S2P Require Import Cli.

(** A map iterates over its entries, each once, in some order. *)
Class CliLaws `{cr : CliRuntime} : Prop := {
  iteration_entries m : iteration m ≡ₚ map_to_list m
}.

(** ** The order of paths *)

(** A comparison that is a strict total order. *)
Record Ordering {A} (cmp : A -> A -> comparison) : Prop := mkOrdering {
  cmp_antisym x y : cmp x y = CompOpp (cmp y x);
  cmp_eq x y : cmp x y = Eq -> x = y;
  cmp_trans x y z : cmp x y = Lt -> cmp y z = Lt -> cmp x z = Lt
}.

Lemma lexicographic_ordering {A} (cmp : A -> A -> comparison) :
  Ordering cmp -> Ordering (lexicographic cmp).
Proof.
  intros [Ha He Ht].
  assert (Hr : forall x, cmp x x = Eq) by (intros x; specialize (Ha x x); by destruct (cmp x x)).
  split.
  - induction x as [|a l IH]; intros [|b k]; try done. cbn. rewrite Ha, (IH k). by destruct (cmp b a).
  - induction x as [|a l IH]; intros [|b k]; try done. cbn.
    destruct (cmp a b) eqn:Hc; try done. intros H. by rewrite (He _ _ Hc), (IH _ H).
  - induction x as [|a l IH]; intros [|b k] [|c m]; try done. cbn.
    destruct (cmp a b) eqn:H1, (cmp b c) eqn:H2; try done; intros Hx Hy.
    + apply He in H1 as ->. apply He in H2 as ->. rewrite Hr. eauto.
    + apply He in H1 as ->. by rewrite H2.
    + apply He in H2 as ->. by rewrite H1.
    + by rewrite (Ht _ _ _ H1 H2).
Qed.

Lemma string_compare_ordering : Ordering String.compare.
Proof.
  split; [apply String.compare_antisym|apply String.compare_eq_iff|].
  induction x as [|a l IH]; intros [|b k] [|c m]; try done. cbn. unfold Ascii.compare.
  destruct (N.compare_spec (N_of_ascii a) (N_of_ascii b)) as [H1|H1|H1],
    (N.compare_spec (N_of_ascii b) (N_of_ascii c)) as [H2|H2|H2]; try done; intros Hx Hy;
    destruct (N.compare_spec (N_of_ascii a) (N_of_ascii c)) as [H3|H3|H3]; try done; try lia; eauto.
Qed.

Lemma component_ordering : Ordering component_cmp.
Proof.
  destruct string_compare_ordering as [Ha He Ht]. split.
  - intros [| | |x] [| | |y]; try done. apply Ha.
  - intros [| | |x] [| | |y]; try done. cbn. intros H. by rewrite (He _ _ H).
  - intros [| | |x] [| | |y] [| | |z]; try done. apply Ht.
Qed.

Lemma components_ordering : Ordering (lexicographic component_cmp).
Proof. apply lexicographic_ordering, component_ordering. Qed.

#[export] Instance path_le_total : Total path_le.
Proof.
  intros p q. unfold path_le, path_cmp. rewrite (cmp_antisym _ components_ordering (path_components q)).
  destruct (lexicographic _ _ _); [by left|by left|by right].
Qed.

#[export] Instance path_le_trans : Transitive path_le.
Proof.
  destruct components_ordering as [Ha He Ht]. intros p q r. unfold path_le, path_cmp.
  destruct (lexicographic _ (path_components p) (path_components q)) eqn:H1; [| |done];
  destruct (lexicographic _ (path_components q) (path_components r)) eqn:H2; try done; intros _ _.
  - apply He in H1 as ->. by rewrite H2.
  - apply He in H1 as ->. by rewrite H2.
  - apply He in H2 as <-. by rewrite H1.
  - by rewrite (Ht _ _ _ H1 H2).
Qed.

(** Sorting reorders, and puts every path after those that are not greater. *)
Lemma path_sort_sorted l : path_sort l ≡ₚ l /\ StronglySorted path_le (path_sort l).
Proof. split; [apply merge_sort_Permutation|apply StronglySorted_merge_sort; apply _]. Qed.

Section CliFacts.
Context {tgt : Target} {ids : SdkIds} {sv : SysvarRuntime} {pr : ProgramRuntime}
        {pc : ProgramCacheOps} {Lst : Lru ProgramEntryKey Entry}
        {Lhist : Lru Signature TransactionResult} {fs : FeatureSets} {bud : Budgets}
        {tx : TxRuntime} {lt : LookupTables} {sp : SystemProgram} {uc : UserCode}
        {dr : DeployRuntime} {vr : VmRuntime} {fc : FixtureCodec} {cl : CodecLaws}
        {fd : FixtureDisplay} {cr : CliRuntime} {crl : CliLaws}.

(** A clone of a VM without an inspector is the VM. *)
Lemma clone_uninspected v : ext_inspector (extensions v) = None -> svm_clone v = v.
Proof.
  destruct v as [[a h] ver be [i o rg p tp rr rk] m k]. simpl. by intros ->.
Qed.

(** Binding the recorded list from a map that holds it installs what was recorded. *)
Lemma bind_recorded loader l elfs s s' :
  (forall k elf, (k, elf) ∈ l -> elfs !! k = Some elf) ->
  record_programs loader l s = (Ok tt, s') ->
  bind_programs (record_bindings loader l) elfs s = (Ok tt, s').
Proof.
  revert s. induction l as [|[k elf] l IH]; intros s Hm H; simpl in *.
  - by injection H as <-.
  - rewrite (Hm k elf) by apply list_elem_of_here. unfold sbind in H.
    destruct (add_program_with_loader k elf loader s) as [[u|e] s1]; [|done].
    apply IH; [|done]. intros k' elf' Hin. apply Hm. by right.
Qed.

(** Preloading a runner with the recorded bindings gives it their ELFs. *)
Lemma with_bindings_recorded loader l elfs r :
  (forall k elf, (k, elf) ∈ l -> elfs !! k = Some elf) ->
  exists r', with_bindings (record_bindings loader l) elfs r = Ok r' /\
    base_vm r' = base_vm r /\ runner_jit_policy r' = runner_jit_policy r /\
    forall k, program_elfs r' !! k = (if decide (k ∈ l.*1) then elfs !! k else program_elfs r !! k).
Proof.
  revert r. induction l as [|[k elf] l IH]; intros r Hm; simpl.
  - exists r. split_and!; try done.
  - rewrite (Hm k elf) by apply list_elem_of_here.
    destruct (IH (with_program_elf k elf r)) as (r' & -> & Hb & Hp & He).
    { intros k' elf' Hin. apply Hm. by right. }
    exists r'. split_and!; try done. intros j. rewrite He.
    assert (Hcons : j ∈ k :: l.*1 <-> j = k \/ j ∈ l.*1) by apply elem_of_cons.
    change (program_elfs (with_program_elf k elf r)) with (<[k := elf]> (program_elfs r)).
    destruct (decide (j ∈ l.*1)) as [Hj|Hj]; [by rewrite decide_True by (apply Hcons; by right)|].
    destruct (decide (j = k)) as [->|Hne].
    + rewrite decide_True by (apply Hcons; by left). rewrite lookup_insert_eq.
      symmetry. apply Hm, list_elem_of_here.
    + rewrite decide_False by (by intros [->|?]%Hcons). by rewrite lookup_insert_ne.
Qed.

(** What a recording captures: the runtime, the bindings, the accounts, the baseline
    and the bytes of the transaction, under a current header. *)
Lemma record_capture_fields rq runtime bindings accounts baseline t f :
  record_capture rq runtime bindings accounts baseline t = Ok f ->
  exists bytes, transaction_encode t = Ok bytes /\
    schema_version (fx_header f) = CURRENT_SCHEMA_VERSION /\
    fh_name (fx_header f) = fixture_name rq /\
    fx_input f = InputTransaction (mkTransactionFixture runtime bindings accounts bytes) /\
    fe_baseline (fx_expectations f) = baseline.
Proof.
  unfold record_capture. set (b0 := capture_compares _ _).
  assert (H : forall tags, exists h, (schema_version h = CURRENT_SCHEMA_VERSION /\ fh_name h = fixture_name rq) /\
    foldl (fun b tag => capture_tag tag b) b0 tags =
    mkCaptureBuilder (Some h) (Some runtime) bindings accounts (Some baseline) (cb_compares b0)).
  { intros tags. induction tags as [|tag tags IH] using rev_ind; [eexists; split; [|reflexivity]; done|].
    destruct IH as (h & Hh & Heq). rewrite foldl_app, Heq. by exists (header_with_tag tag h). }
  destruct (H (rq_tags rq)) as (h & [Hh Hname] & ->). clear H.
  unfold capture_transaction. destruct (transaction_encode t) as [bytes|e]; [|done].
  destruct (rq_source rq) as [source|]; simpl; intros [= <-]; exists bytes; split_and!; done.
Qed.

(** When [record] succeeded on a VM without an inspector, the output path loads, and
    running it against the same programs, from a VM in the state the recording started
    from, passes: binding the programs, writing the accounts, decoding and executing the
    transaction again give the recorded baseline, which satisfies its own comparisons. *)
Lemma recorded_replays (rq : RecordRequest) (fresh : World -> VmSt) (w0 : World) (d d' : Disk)
    (w' : World) (unique : Address) (programs : gmap Address ByteSlice) :
  ext_inspector (extensions (fresh w0).1) = None ->
  record_fixture rq (fresh w0) d = Some (Ok tt, d', w') ->
  parse_program_map (rq_programs rq) d = Ok programs ->
  (forall f, load (rq_output rq) d' = Ok f ->
     distinct_addresses (es_post_accounts (fe_baseline (fx_expectations f)))) ->
  exists f, load (rq_output rq) d' = Ok f /\ fh_name (fx_header f) = fixture_name rq /\
    run_loaded unique fresh programs f w0 = Some (Ok tt, w', []).
Proof.
  intros Hi Hrec Hp Hdist. unfold record_fixture in Hrec.
  destruct (fixture_format_for_output (rq_output rq)) as [format|e] eqn:Hf; [|done].
  cbn [rbind] in Hrec. destruct (load_transaction rq d) as [t|e]; [|done].
  cbn [rbind] in Hrec. destruct (load_accounts_file (rq_accounts rq) d) as [accounts|e]; [|done].
  cbn [rbind] in Hrec. rewrite Hp in Hrec. cbn [rbind] in Hrec.
  set (runtime := record_runtime rq (fresh w0).1) in *. set (loader := default _ (rq_loader rq)) in *.
  destruct (configure_vm runtime (fresh w0)) as [s0|] eqn:Hc; [|done].
  destruct (record_programs loader (iteration programs) s0) as [[[]|e] s1] eqn:Hb; [|done].
  destruct (write_pre_accounts (map snapshot_account accounts) s1) as [[[]|e] s2] eqn:Hw; [|done].
  destruct (transact_detached s2 t) as [[[outcome w] ob]|] eqn:Ht; [|done].
  destruct (record_capture _ _ _ _ _ _) as [f|e] eqn:Hcap; [|done].
  destruct (save f (rq_output rq) format d) as [[[]|e] d1] eqn:Hs; [|done].
  injection Hrec as -> ->.
  destruct (record_capture_fields _ _ _ _ _ _ _ Hcap) as (bytes & Henc & Hver & Hname & Hinput & Hbase).
  assert (Hfmt : fixture_format_for_path (rq_output rq) = Ok format).
  { unfold fixture_format_for_output in Hf. by destruct (fixture_format_for_path _); simplify_eq/=. }
  assert (Hload : load (rq_output rq) d' = Ok f).
  { rewrite (save_then_load f _ format d d' Hfmt); [|rewrite Hver; done|done].
    unfold loaded, has_supported_schema_version. rewrite Hver. by rewrite bool_decide_true by apply list_elem_of_here. }
  specialize (Hdist f Hload). rewrite Hbase in Hdist.
  exists f. split; [done|]. split; [done|]. unfold run_loaded, preload_runner, with_fixture_programs, fixture_programs.
  rewrite Hinput. cbn [tf_programs].
  assert (Hm : forall k elf, (k, elf) ∈ iteration programs -> programs !! k = Some elf).
  { intros k elf Hin. apply elem_of_map_to_list. by rewrite <- iteration_entries. }
  destruct (with_bindings_recorded loader (iteration programs) programs (runner_new (fresh w0).1) Hm)
    as (r & -> & Hbv & Hjp & Helfs).
  assert (Hbind : bind_programs (record_bindings loader (iteration programs)) (program_elfs r) s0 = (Ok tt, s1)).
  { apply bind_recorded; [|done]. intros k elf Hin. rewrite Helfs, decide_True; [by apply Hm|].
    by apply (list_elem_of_fmap_2 fst) in Hin. }
  assert (Hprep : prepare_vm r runtime (fresh w0).2 = Some s0).
  { unfold prepare_vm. rewrite Hbv, Hjp. simpl. rewrite clone_uninspected by done.
    by destruct (fresh w0). }
  unfold run_and_validate, run_fixture. rewrite Hinput. unfold run_transaction_fixture.
  cbn [tf_runtime tf_programs tf_pre_accounts tf_transaction_bytes].
  replace (rfc_blockhash_check runtime) with false
    by (unfold runtime, record_runtime; by destruct (rq_compute_unit_limit rq)).
  rewrite Hprep, Hbind, Hw, (transaction_roundtrip _ _ Henc), Ht. cbn [fex_snapshot].
  by rewrite Hbase, compare_with_self.
Qed.

(** Ignoring compute units.  From a config file or from the fixture, the loaded
    comparisons are those of the source, in order, without the compute-unit ones when
    they are ignored; in that case two snapshots that differ only in compute units
    pass exactly when they pass the rest. *)
Theorem load_compares_exact (path : option Path) (fallback l : list Compare) (ignore : bool)
    (d : Disk) (left right : ExecutionSnapshot) :
  load_compares path fallback ignore d = Ok l ->
  exists base, load_compares path fallback false d = Ok base /\
    l = (if ignore then filter (fun c => c <> CompareComputeUnits) base else base) /\
    (forallb (compare_holds left right) l = true <->
     forall c, c ∈ base -> (ignore = true -> c <> CompareComputeUnits) -> compare_holds left right c = true).
Proof.
  unfold load_compares. destruct (match path with None => _ | Some _ => _ end) as [base|e]; [|done].
  cbn [rbind]. intros [= <-]. exists base. split; [done|].
  assert (Hf : filter (fun c => is_compute_units c = false) base = filter (fun c => c <> CompareComputeUnits) base).
  { apply list_filter_iff. intros c. destruct c; simpl; naive_solver. }
  rewrite Hf. split; [done|]. rewrite forallb_forall. setoid_rewrite <- list_elem_of_In.
  destruct ignore; [setoid_rewrite list_elem_of_filter|]; naive_solver.
Qed.

End CliFacts.
