(* ===== verification/Bench.v ===== *)
(** * Compute-unit benchmarks, [crates/hpsvm-fixture-bench]

    The reports and their deltas against a baseline ([report.rs]), the bencher of
    a set of fixtures ([single.rs]) and the bencher of program variants
    ([matrix.rs]), over the fixture runner, and the [cu report] command
    ([bin/hpsvm-cli/src/cu.rs]).  The lines the comparisons write are returned with the
    results.  A percentage is a binary64 number,
    computed with the Standard Library's specification of floating point; the
    JSON sidecar goes through a codec interface and a disk that may refuse. *)

From Stdlib Require Import ZArith Strings.Byte Strings.String Floats.SpecFloat.
From stdpp Require Import base tactics option list sorting sets gmap strings pretty.
From S2P Require Import Prelude.
From S2P Require Import Types.
From S2P Require Import AccountSource.
From S2P Require Import Errors.
From S2P Require Import Lru.
From S2P Require Import History.
From S2P Require Import Runtime.
From S2P Require Import AccountsDb.
From S2P Require Import FeePayer.
From S2P Require Import Version.
From S2P Require Import TxRuntime.
From S2P Require Import Svm.
From S2P Require Import Execution.
From S2P Require Import Staging.
From S2P Require Import VmPrograms.
From S2P Require Import VmOps.
From S2P Require Import Builder.
From S2P Require Import Fixture.
From S2P Require Import FixtureRun.
From S2P Require Import Cli.

(** ** Reports, [report.rs] *)

(** [f64]: conversions from integers round to nearest, ties to even. *)
Definition f64_of_Z (z : Z) : spec_float := binary_normalize 53 1024 z 0 false.
Definition f64_div : spec_float -> spec_float -> spec_float := SFdiv 53 1024.
Definition f64_mul : spec_float -> spec_float -> spec_float := SFmul 53 1024.

#[export] Instance spec_float_eq_dec : EqDecision spec_float.
Proof. solve_decision. Defined.

Definition f64_finite (x : spec_float) : bool :=
  match x with S754_zero _ | S754_finite _ _ _ => true | _ => false end.

Record CuDelta : Type := mkCuDelta {
  absolute : Z;
  percent : spec_float
}.

Record CuReportRow : Type := mkCuReportRow {
  row_name : string;
  row_compute_units : Z;
  row_delta : option CuDelta;
  row_pass : bool
}.

Record CuReport : Type := mkCuReport {
  generated_at : string;
  solana_runtime_version : string;
  rows : list CuReportRow
}.

Definition i64_min : Z := - 2 ^ 63.
Definition i64_max : Z := 2 ^ 63 - 1.

(** [i64::try_from]. *)
Definition i64_try_from (z : Z) : option Z :=
  if ((i64_min <=? z) && (z <=? i64_max))%Z then Some z else None.

(** [CuDelta::between]. *)
Definition between (baseline current : Z) : CuDelta :=
  let absolute := default (if (baseline <=? current)%Z then i64_max else i64_min)
                    (i64_try_from (current - baseline)) in
  let percent :=
    if (baseline =? 0)%Z then (if (current =? 0)%Z then f64_of_Z 0 else f64_of_Z 100)
    else f64_mul (f64_div (f64_of_Z absolute) (f64_of_Z baseline)) (f64_of_Z 100) in
  mkCuDelta absolute percent.

(** [value.replace('\\', "\\\\").replace('|', "\\|")]: what it does to a character. *)
Fixpoint replace_char (c : Ascii.ascii) (by_ : string) (s : string) : string :=
  match s with
  | EmptyString => EmptyString
  | String x rest => (if Ascii.eqb x c then by_ else String x EmptyString) +:+ replace_char c by_ rest
  end.

Definition backslash : Ascii.ascii := Ascii.ascii_of_nat 92.
Definition bar : Ascii.ascii := Ascii.ascii_of_nat 124.

Definition escape_markdown_cell (value : string) : string :=
  replace_char bar (String backslash (String bar EmptyString))
    (replace_char backslash (String backslash (String backslash EmptyString)) value).

(** ** Errors, [bench_error.rs] *)
Inductive BenchError : Type :=
| MissingCases
| BenchFixture (name : string) (source : FixtureError)
| ExpectationFailed (name : string)
| DuplicateProgramName (name : string)
| UnboundVariantProgram (case name : string) (program_id : Address)
| MissingVariantProgram (case name : string) (program_id loader_id : Address)
| ProgramLoaderMismatch (case : string) (program_id fixture_loader_id variant_loader_id : Address)
| CreateOutputDir (path message : string)
| WriteReport (path message : string)
| ReadBaseline (path message : string)
| InvalidBaseline (path reason : string).

(** ** The report on disk *)

(** The files by path, and what the system answers to an operation it refuses. *)
Record ReportDisk : Type := mkReportDisk {
  rd_files : gmap string (list byte);
  rd_read_error : string -> option string;
  rd_write_error : string -> option string;
  rd_mkdir_error : string -> option string
}.

Definition rd_write (path : string) (contents : list byte) : M ReportDisk BenchError unit := fun d =>
  match rd_write_error d path with
  | Some message => (Err (WriteReport path message), d)
  | None => (Ok tt, mkReportDisk (<[path := contents]> (rd_files d)) (rd_read_error d)
                      (rd_write_error d) (rd_mkdir_error d))
  end.

(** [serde_json] on a report, and the [{:+.2}] of a binary64 number. *)
Class ReportCodec : Type := {
  report_encode : CuReport -> result (list byte) string;
  report_decode : list byte -> result CuReport string;
  format_percent : spec_float -> string
}.

(** Numbers that are not finite have no JSON. *)
Definition report_finite (r : CuReport) : bool :=
  forallb (fun row => match row_delta row with Some x => f64_finite (percent x) | None => true end)
    (rows r).

(** Text, integers and flags are read back as they were; a binary64 number is read with
    the accuracy [serde_json] has without [float_roundtrip], about which nothing is said. *)
Definition delta_integers (x : option CuDelta) : option Z := absolute <$> x.
Definition row_integers (row : CuReportRow) : string * Z * option Z * bool :=
  (row_name row, row_compute_units row, delta_integers (row_delta row), row_pass row).
Definition up_to_percent (r r' : CuReport) : Prop :=
  generated_at r = generated_at r' /\ solana_runtime_version r = solana_runtime_version r' /\
  map row_integers (rows r) = map row_integers (rows r').

Class ReportCodecLaws {rc : ReportCodec} : Prop := {
  report_roundtrip r bytes :
    report_finite r = true -> report_encode r = Ok bytes ->
    exists r', report_decode bytes = Ok r' /\ up_to_percent r r'
}.

Definition BASELINE_REPORT_FILE_NAME : string := "cu-report.baseline.json".
Definition MARKDOWN_REPORT_FILE_NAME : string := "cu-report.md".

(** [Path::join] of a directory and a file name. *)
Definition join (dir file : string) : string := dir +:+ "/" +:+ file.

Section ReportIo.
Context {rc : ReportCodec}.

(** [{:+}] of an integer: the sign is always written. *)
Definition format_signed (z : Z) : string := if (z <? 0)%Z then pretty z else "+" +:+ pretty z.

Definition format_delta (delta : option CuDelta) : string :=
  match delta with
  | None => "n/a"
  | Some x => format_signed (absolute x) +:+ " (" +:+ format_percent (percent x) +:+ "%)"
  end.

Definition newline : string := String (Ascii.ascii_of_nat 10) EmptyString.

Definition render_row (row : CuReportRow) : string :=
  "| " +:+ escape_markdown_cell (row_name row) +:+ " | " +:+ pretty (row_compute_units row) +:+
  " | " +:+ format_delta (row_delta row) +:+ " | " +:+
  (if row_pass row then "PASS" else "FAIL") +:+ " |" +:+ newline.

Definition render_table (report : CuReport) : string :=
  "| Name | Compute Units | Delta | Pass |" +:+ newline +:+
  "| --- | ---: | --- | --- |" +:+ newline +:+
  foldr (fun row rest => render_row row +:+ rest) EmptyString (rows report).

Definition render_markdown (report : CuReport) : string :=
  "# Compute Unit Report" +:+ newline +:+ newline +:+
  "Generated at: " +:+ generated_at report +:+ newline +:+
  "Solana runtime version: " +:+ solana_runtime_version report +:+ newline +:+ newline +:+
  render_table report.

(** The loop of [load_baseline_rows]. *)
Fixpoint baseline_rows (path : string) (l : list CuReportRow) (m : gmap string Z) :
    result (gmap string Z) BenchError :=
  match l with
  | [] => Ok m
  | row :: rest =>
      match m !! row_name row with
      | Some _ => Err (InvalidBaseline path ("duplicate baseline row `" +:+ row_name row +:+ "`"))
      | None => baseline_rows path rest (<[row_name row := row_compute_units row]> m)
      end
  end.

Definition load_baseline_rows (dir : string) (d : ReportDisk) : result (gmap string Z) BenchError :=
  let baseline_path := join dir BASELINE_REPORT_FILE_NAME in
  match rd_read_error d baseline_path with
  | Some message => Err (ReadBaseline baseline_path message)
  | None =>
      match rd_files d !! baseline_path with
      | None => Ok ∅
      | Some bytes =>
          match report_decode bytes with
          | Err reason => Err (InvalidBaseline baseline_path reason)
          | Ok report => baseline_rows baseline_path (rows report) ∅
          end
      end
  end.

(** [CuReport::baseline_map] and [write_to_dir], with report I/O enabled. *)
Definition baseline_map (path : option string) (d : ReportDisk) : result (gmap string Z) BenchError :=
  match path with None => Ok ∅ | Some dir => load_baseline_rows dir d end.

Definition write_report (report : CuReport) (dir : string) : M ReportDisk BenchError unit := fun d =>
  match rd_mkdir_error d dir with
  | Some message => (Err (CreateOutputDir dir message), d)
  | None =>
      let baseline_path := join dir BASELINE_REPORT_FILE_NAME in
      match report_encode report with
      | Err reason => (Err (InvalidBaseline baseline_path reason), d)
      | Ok baseline =>
          sbind (rd_write baseline_path baseline)
            (fun _ => rd_write (join dir MARKDOWN_REPORT_FILE_NAME) (list_byte_of_string (render_markdown report))) d
      end
  end.

Definition write_to_dir (report : CuReport) (path : option string) : M ReportDisk BenchError unit :=
  match path with None => sret tt | Some dir => write_report report dir end.

End ReportIo.

(** ** Variants, [matrix.rs] *)
Record ProgramVariant : Type := mkProgramVariant {
  pv_name : string;
  pv_loader_id : Address;
  pv_program_id : Address;
  pv_elf : ByteSlice
}.

Record ProgramVariantSet : Type := mkProgramVariantSet {
  vs_name : string;
  vs_programs : gmap Address ProgramVariant
}.

(** A [BTreeMap] iterates in the order of its keys. *)
Definition address_le {V} (x y : Address * V) : Prop := (address_num x.1 <= address_num y.1)%N.
#[export] Instance address_le_dec {V} : RelDecision (@address_le V).
Proof. intros x y. unfold address_le. apply _. Defined.

Definition name_le {V} (x y : string * V) : Prop := String.leb x.1 y.1 = true.
#[export] Instance name_le_dec {V} : RelDecision (@name_le V).
Proof. intros x y. unfold name_le. apply _. Defined.

Definition by_address_order {V} (m : gmap Address V) : list (Address * V) :=
  merge_sort address_le (map_to_list m).
Definition by_name_order {V} (m : gmap string V) : list (string * V) :=
  merge_sort name_le (map_to_list m).

(** The loop of [group_variant_sets]. *)
Fixpoint group_variants (l : list ProgramVariant) (grouped : gmap string (gmap Address ProgramVariant)) :
    result (gmap string (gmap Address ProgramVariant)) BenchError :=
  match l with
  | [] => Ok grouped
  | v :: rest =>
      let entry := default ∅ (grouped !! pv_name v) in
      match entry !! pv_program_id v with
      | Some _ => Err (DuplicateProgramName (pv_name v))
      | None => group_variants rest (<[pv_name v := <[pv_program_id v := v]> entry]> grouped)
      end
  end.

Definition group_variant_sets (programs : list ProgramVariant) :
    result (list ProgramVariantSet) BenchError :=
  let? grouped := group_variants programs ∅ in
  Ok (map (fun x => mkProgramVariantSet x.1 x.2) (by_name_order grouped)).

(** The programs a fixture binds, the last binding of a program counting. *)
Definition bound_programs (bindings : list ProgramBinding) : gmap Address Address :=
  foldl (fun m b => <[pb_program_id b := pb_loader_id b]> m) ∅ bindings.

Fixpoint check_supplied (case name : string) (bound : gmap Address Address)
    (l : list (Address * ProgramVariant)) : result unit BenchError :=
  match l with
  | [] => Ok tt
  | (_, v) :: rest =>
      match bound !! pv_program_id v with
      | None => Err (UnboundVariantProgram case name (pv_program_id v))
      | Some loader =>
          if bool_decide (loader = pv_loader_id v) then check_supplied case name bound rest
          else Err (ProgramLoaderMismatch case (pv_program_id v) loader (pv_loader_id v))
      end
  end.

Fixpoint check_bound (case name : string) (programs : gmap Address ProgramVariant)
    (l : list (Address * Address)) : result unit BenchError :=
  match l with
  | [] => Ok tt
  | (program_id, loader_id) :: rest =>
      if bool_decide (is_Some (programs !! program_id)) then check_bound case name programs rest
      else Err (MissingVariantProgram case name program_id loader_id)
  end.

Definition validate_variant_programs (case : string) (bindings : list ProgramBinding)
    (variant : ProgramVariantSet) : result unit BenchError :=
  let bound := bound_programs bindings in
  let? _ := check_supplied case (vs_name variant) bound (by_address_order (vs_programs variant)) in
  check_bound case (vs_name variant) (vs_programs variant) (by_address_order bound).

(** ** The benchers *)
Section Benchers.
Context {tgt : Target} {ids : SdkIds} {sv : SysvarRuntime} {pr : ProgramRuntime}
        {pc : ProgramCacheOps} {Lst : Lru ProgramEntryKey Entry}
        {Lhist : Lru Signature TransactionResult} {fs : FeatureSets} {bud : Budgets}
        {tx : TxRuntime} {lt : LookupTables} {sp : SystemProgram} {uc : UserCode}
        {dr : DeployRuntime} {vr : VmRuntime} {fc : FixtureCodec} {fd : FixtureDisplay}
        {rc : ReportCodec} {cr : CliRuntime}.

Definition bench_config : ResultConfig := mkResultConfig false true.

Definition FixtureBenchCase : Type := string * Fixture.

(** A replay and its comparison with the expectations, with the lines it writes. *)
Definition bench_case (unique : Address) (r : FixtureRunner) (case : FixtureBenchCase) (w : World) :
    option (result (Z * bool) BenchError * World * list string) :=
  match run_fixture unique r case.2 w with
  | None => None
  | Some (Err e, w', _) => Some (Err (BenchFixture case.1 e), w', [])
  | Some (Ok execution, w', _) =>
      match compare_with (fex_snapshot execution) (fe_baseline (fx_expectations case.2))
              (fe_compares (fx_expectations case.2)) bench_config with
      | None => None
      | Some (pass, lines) =>
          Some (Ok (es_compute_units_consumed (fex_snapshot execution), pass), w', lines)
      end
  end.

(** The loop of [ComputeUnitBencher::execute]. *)
Fixpoint bench_cases (unique : Address) (must_pass : bool) (elfs : gmap Address ByteSlice)
    (baseline : gmap string Z) (cases : list FixtureBenchCase) (r : FixtureRunner) (w : World) :
    option (result (list CuReportRow) BenchError * World * list string) :=
  match cases with
  | [] => Some (Ok [], w, [])
  | (name, fixture) :: rest =>
      match with_fixture_programs fixture elfs r with
      | Err e => Some (Err (BenchFixture name e), w, [])
      | Ok r' =>
          match bench_case unique r' (name, fixture) w with
          | None => None
          | Some (Err e, w', lines) => Some (Err e, w', lines)
          | Some (Ok (units, pass), w', lines) =>
              if must_pass && negb pass then Some (Err (ExpectationFailed name), w', lines)
              else
                match bench_cases unique must_pass elfs baseline rest r' w' with
                | Some (Ok l, w'', more) =>
                    Some (Ok (mkCuReportRow name units
                                ((fun b => between b units) <$> baseline !! name) pass :: l),
                          w'', lines ++ more)
                | Some (Err e, w'', more) => Some (Err e, w'', lines ++ more)
                | None => None
                end
          end
      end
  end.

Record ComputeUnitBencher : Type := mkComputeUnitBencher {
  cub_vm : Svm;
  cub_cases : list FixtureBenchCase;
  cub_must_pass : bool;
  cub_baseline_dir : option string;
  cub_output_dir : option string;
  cub_program_elfs : gmap Address ByteSlice
}.

Definition bencher_new (vm : Svm) : ComputeUnitBencher :=
  mkComputeUnitBencher vm [] false None None ∅.

Definition bencher_with_program_elf (program_id : Address) (elf : ByteSlice) (b : ComputeUnitBencher) :
    ComputeUnitBencher :=
  mkComputeUnitBencher (cub_vm b) (cub_cases b) (cub_must_pass b) (cub_baseline_dir b)
    (cub_output_dir b) (<[program_id := elf]> (cub_program_elfs b)).

(** The order in which a map of ELFs is iterated does not matter: its keys differ. *)
Definition bencher_with_program_elfs (elfs : gmap Address ByteSlice) (b : ComputeUnitBencher) :
    ComputeUnitBencher :=
  foldl (fun b x => bencher_with_program_elf x.1 x.2 b) b (map_to_list elfs).

Definition bencher_case (case : FixtureBenchCase) (b : ComputeUnitBencher) : ComputeUnitBencher :=
  mkComputeUnitBencher (cub_vm b) (cub_cases b ++ [case]) (cub_must_pass b) (cub_baseline_dir b)
    (cub_output_dir b) (cub_program_elfs b).

Definition bencher_must_pass (must_pass : bool) (b : ComputeUnitBencher) : ComputeUnitBencher :=
  mkComputeUnitBencher (cub_vm b) (cub_cases b) must_pass (cub_baseline_dir b) (cub_output_dir b)
    (cub_program_elfs b).

Definition bencher_baseline_dir (path : string) (b : ComputeUnitBencher) : ComputeUnitBencher :=
  mkComputeUnitBencher (cub_vm b) (cub_cases b) (cub_must_pass b) (Some path) (cub_output_dir b)
    (cub_program_elfs b).

Definition bencher_output_dir (path : string) (b : ComputeUnitBencher) : ComputeUnitBencher :=
  mkComputeUnitBencher (cub_vm b) (cub_cases b) (cub_must_pass b) (cub_baseline_dir b) (Some path)
    (cub_program_elfs b).

(** When and with what the report is made: the clock and the build. *)
Definition report_new (stamp : string * string) (l : list CuReportRow) : CuReport :=
  mkCuReport stamp.1 stamp.2 l.

Definition bencher_execute (unique : Address) (stamp : string * string) (b : ComputeUnitBencher)
    (w : World) (d : ReportDisk) :
    option (result CuReport BenchError * World * ReportDisk * list string) :=
  match cub_cases b with
  | [] => Some (Err MissingCases, w, d, [])
  | _ =>
      match baseline_map (cub_baseline_dir b) d with
      | Err e => Some (Err e, w, d, [])
      | Ok baseline =>
          match bench_cases unique (cub_must_pass b) (cub_program_elfs b) baseline (cub_cases b)
                  (runner_new (cub_vm b)) w with
          | None => None
          | Some (Err e, w', lines) => Some (Err e, w', d, lines)
          | Some (Ok l, w', lines) =>
              let report := report_new stamp l in
              match write_to_dir report (cub_output_dir b) d with
              | (Ok _, d') => Some (Ok report, w', d', lines)
              | (Err e, d') => Some (Err e, w', d', lines)
              end
          end
      end
  end.

(** The loop of [execute_variant]. *)
Fixpoint variant_cases (unique : Address) (variant : option ProgramVariantSet)
    (cases : list FixtureBenchCase) (r : FixtureRunner) (w : World) :
    option (result (list CuReportRow) BenchError * World * list string) :=
  match cases with
  | [] => Some (Ok [], w, [])
  | (name, fixture) :: rest =>
      match match variant with
            | Some v => validate_variant_programs name (fixture_programs fixture) v
            | None => Ok tt
            end with
      | Err e => Some (Err e, w, [])
      | Ok _ =>
          match bench_case unique r (name, fixture) w with
          | None => None
          | Some (Err e, w', lines) => Some (Err e, w', lines)
          | Some (Ok (units, pass), w', lines) =>
              match variant_cases unique variant rest r w' with
              | Some (Ok l, w'', more) =>
                  Some (Ok (mkCuReportRow name units None pass :: l), w'', lines ++ more)
              | Some (Err e, w'', more) => Some (Err e, w'', lines ++ more)
              | None => None
              end
          end
      end
  end.

(** [execute_variant] on a new VM; [i] is what the VM takes from outside. *)
Definition execute_variant (unique : Address) (stamp : string * string) (i : BuildInputs)
    (cases : list FixtureBenchCase) (variant : option ProgramVariantSet) (w : World) :
    option (result CuReport BenchError * World * list string) :=
  match hpsvm_new i false w with
  | None => None
  | Some s =>
      let r := match variant with
               | Some v => foldl (fun r x => FixtureRun.with_program_elf (pv_program_id x.2) (pv_elf x.2) r)
                             (runner_new s.1) (by_address_order (vs_programs v))
               | None => runner_new s.1
               end in
      match variant_cases unique variant cases r s.2 with
      | None => None
      | Some (Err e, w', lines) => Some (Err e, w', lines)
      | Some (Ok l, w', lines) => Some (Ok (report_new stamp l), w', lines)
      end
  end.

Definition BUILTIN_VARIANT_NAME : string := "builtin".

Fixpoint execute_variants (unique : Address) (stamp : string * string) (inputs : nat -> BuildInputs)
    (cases : list FixtureBenchCase) (variants : list ProgramVariantSet) (w : World) :
    option (result (gmap string CuReport) BenchError * World * list string) :=
  match variants with
  | [] => Some (Ok ∅, w, [])
  | v :: rest =>
      match execute_variant unique stamp (inputs 0%nat) cases (Some v) w with
      | None => None
      | Some (Err e, w', lines) => Some (Err e, w', lines)
      | Some (Ok report, w', lines) =>
          match execute_variants unique stamp (fun n => inputs (S n)) cases rest w' with
          | Some (Ok m, w'', more) => Some (Ok (<[vs_name v := report]> m), w'', lines ++ more)
          | Some (Err e, w'', more) => Some (Err e, w'', lines ++ more)
          | None => None
          end
      end
  end.

Record MatrixReport : Type := mkMatrixReport {
  mr_generated_at : string;
  mr_solana_runtime_version : string;
  mr_reports : gmap string CuReport
}.

(** [ComputeUnitMatrixBencher::execute]: the reports by variant. *)
Definition matrix_execute (unique : Address) (stamp : string * string) (inputs : nat -> BuildInputs)
    (programs : list ProgramVariant) (cases : list FixtureBenchCase) (w : World) :
    option (result MatrixReport BenchError * World * list string) :=
  let finish reports := mkMatrixReport stamp.1 stamp.2 reports in
  match cases with
  | [] => Some (Err MissingCases, w, [])
  | _ =>
      match programs with
      | [] =>
          match execute_variant unique stamp (inputs 0%nat) cases None w with
          | Some (Ok report, w', lines) =>
              Some (Ok (finish {[BUILTIN_VARIANT_NAME := report]}), w', lines)
          | Some (Err e, w', lines) => Some (Err e, w', lines)
          | None => None
          end
      | _ =>
          match group_variant_sets programs with
          | Err e => Some (Err e, w, [])
          | Ok variants =>
              match execute_variants unique stamp inputs cases variants w with
              | Some (Ok m, w', lines) => Some (Ok (finish m), w', lines)
              | Some (Err e, w', lines) => Some (Err e, w', lines)
              | None => None
              end
          end
      end
  end.

(** [MatrixReport::render_markdown]: the variants in the order of their names. *)
Definition matrix_render_markdown (m : MatrixReport) : string :=
  "# Compute Unit Matrix" +:+ newline +:+ newline +:+
  "Generated at: " +:+ mr_generated_at m +:+ newline +:+
  "Solana runtime version: " +:+ mr_solana_runtime_version m +:+ newline +:+ newline +:+
  foldr (fun x rest => "## " +:+ x.1 +:+ newline +:+ newline +:+ render_table x.2 +:+ newline +:+ rest)
    EmptyString (by_name_order (mr_reports m)).

(** ** The command [cu report], [cu.rs] *)

(** The errors of the command: those of the other commands, or of the bencher. *)
Inductive CuError : Type :=
| CuCli (error : CliError)
| CuBench (error : BenchError).

Definition cu_bencher (vm : Svm) (f : Fixture) (output_dir : string) (baseline_dir : option string)
    (programs : gmap Address ByteSlice) (must_pass : bool) : ComputeUnitBencher :=
  let bencher := bencher_must_pass must_pass (bencher_output_dir output_dir
                   (bencher_case (fh_name (fx_header f), f)
                      (bencher_with_program_elfs programs (bencher_new vm)))) in
  match baseline_dir with Some dir => bencher_baseline_dir dir bencher | None => bencher end.

(** [report_compute_units], once fixture and programs are loaded. *)
Definition report_loaded (unique : Address) (stamp : string * string) (fresh : World -> VmSt)
    (f : Fixture) (output_dir : string) (baseline_dir : option string)
    (programs : gmap Address ByteSlice) (must_pass : bool) (w : World) (d : ReportDisk) :
    option (result unit CuError * World * ReportDisk * list string) :=
  let s := fresh w in
  match bencher_execute unique stamp
          (cu_bencher s.1 f output_dir baseline_dir programs must_pass) s.2 d with
  | None => None
  | Some (Err e, w', d', lines) => Some (Err (CuBench e), w', d', lines)
  | Some (Ok report, w', d', lines) =>
      if forallb row_pass (rows report) then Some (Ok tt, w', d', lines)
      else Some (Err (CuCli (ComparisonFailed (fh_name (fx_header f)))), w', d', lines)
  end.

End Benchers.
