(* ===== verification/BenchFacts.v ===== *)
(** * Theorems about the benchmarks

    Deltas saturate instead of overflowing; names are safe in table cells; a report written by one run is the
    baseline of the next, unless two cases share a name; the rows are the cases in
    order; and a variant is accepted exactly when it supplies the programs a
    fixture binds, with their loaders. *)

From Stdlib Require Import ZArith Lia Strings.Byte Strings.String Floats.SpecFloat.
From stdpp Require Import base tactics option list sorting sets gmap strings.
From S2P Require Import Prelude.
From S2P Require Import Types.
From S2P Require Import AccountSource.
From S2P Require Import Errors.
From S2P Require Import Lru.
From S2P Require Import History.
From S2P Require Import Runtime.
From S2P Require Import AccountsDb.
From S2P Require Import FeePayer.
From S2P Require Import Version.
From S2P Require Import TxRuntime.
From S2P Require Import Svm.
From S2P Require Import Execution.
From S2P Require Import Staging.
From S2P Require Import VmPrograms.
From S2P Require Import VmOps.
From S2P Require Import Builder.
From S2P Require Import Fixture.
From S2P Require Import FixtureRun.
From S2P Require Import Cli.
From S2P Require Import Bench.

(** ** Deltas *)

(** The absolute difference is exact when it fits and saturates towards its sign
    when it does not, so it never overflows and never changes sign. *)
Theorem between_saturates baseline current :
  in_u64 baseline -> in_u64 current ->
  absolute (between baseline current) = Z.max i64_min (Z.min i64_max (current - baseline)) /\
  (i64_min <= absolute (between baseline current) <= i64_max)%Z /\
  ((current < baseline)%Z <-> (absolute (between baseline current) < 0)%Z).
Proof.
  unfold in_u64, u64_max. intros Hb Hc. unfold between, i64_try_from, i64_min, i64_max. cbn [absolute].
  destruct (Z.leb_spec (- 2 ^ 63) (current - baseline)), (Z.leb_spec (current - baseline) (2 ^ 63 - 1));
    cbn [andb default from_option]; unfold id; destruct (Z.leb_spec baseline current); lia.
Qed.

(** ** Table cells *)

(** How a Markdown reader takes a cell: up to the first bar that is not escaped,
    a backslash standing for the character after it. *)
Fixpoint read_cell (s : string) : option (string * string) :=
  match s with
  | EmptyString => None
  | String c rest =>
      if Ascii.eqb c bar then Some (EmptyString, rest)
      else if Ascii.eqb c backslash then
        match rest with
        | EmptyString => None
        | String c' rest' => prod_map (String c') id <$> read_cell rest'
        end
      else prod_map (String c) id <$> read_cell rest
  end.

Definition escape_char (c : Ascii.ascii) : string :=
  if Ascii.eqb c backslash then String backslash (String backslash EmptyString)
  else if Ascii.eqb c bar then String backslash (String bar EmptyString)
  else String c EmptyString.

Lemma escape_cons c s :
  escape_markdown_cell (String c s) = escape_char c +:+ escape_markdown_cell s.
Proof.
  unfold escape_markdown_cell, escape_char. cbn [replace_char].
  destruct (Ascii.eqb_spec c backslash) as [->|Hc]; [done|].
  change (String c EmptyString +:+ ?x) with (String c x). cbn [replace_char].
  by destruct (Ascii.eqb c bar).
Qed.

(** A name that holds bars or backslashes stays in its cell and reads back as itself. *)
Theorem cell_roundtrip name rest :
  read_cell (escape_markdown_cell name +:+ String bar rest) = Some (name, rest).
Proof.
  induction name as [|c name IH]; [done|]. rewrite escape_cons. unfold escape_char.
  destruct (Ascii.eqb c backslash) eqn:Hc.
  { apply Ascii.eqb_eq in Hc as ->. transitivity
      (prod_map (String backslash) id <$> read_cell (escape_markdown_cell name +:+ String bar rest));
      [done|by rewrite IH]. }
  destruct (Ascii.eqb c bar) eqn:Hb.
  { apply Ascii.eqb_eq in Hb as ->. transitivity
      (prod_map (String bar) id <$> read_cell (escape_markdown_cell name +:+ String bar rest));
      [done|by rewrite IH]. }
  change ((String c EmptyString +:+ ?x) +:+ ?y) with (String c (x +:+ y)). cbn [read_cell].
  by rewrite Hb, Hc, IH.
Qed.

(** ** The baseline sidecar *)

Definition row_entry (row : CuReportRow) : string * Z := (row_name row, row_compute_units row).

Lemma join_inj dir a b : join dir a = join dir b -> a = b.
Proof.
  unfold join. induction dir as [|c dir IH]; intros H.
  - by injection H.
  - apply IH. by injection H.
Qed.

(** The rows of a report as a baseline. *)
Definition baseline_of (l : list CuReportRow) : gmap string Z := list_to_map (map row_entry l).

Lemma baseline_rows_ok path l m :
  NoDup (map row_name l) -> (forall x, x ∈ map row_name l -> m !! x = None) ->
  baseline_rows path l m = Ok (baseline_of l ∪ m).
Proof.
  revert m. induction l as [|row l IH]; intros m Hnd Hm.
  - cbn. by rewrite (left_id_L ∅ (∪)).
  - cbn in Hnd. apply NoDup_cons in Hnd as [Hn Hnd]. cbn [baseline_rows].
    rewrite Hm by (cbn; set_solver). rewrite IH; [|done|].
    + f_equal. unfold baseline_of. cbn. rewrite <- insert_union_r, insert_union_l; [done|].
      apply not_elem_of_list_to_map_1. intros Hin. apply Hn.
      by rewrite <- list_fmap_compose in Hin.
    + intros x Hx. rewrite lookup_insert_ne by (intros <-; done). apply Hm. cbn. set_solver.
Qed.

Lemma baseline_rows_dup path l m :
  ~ NoDup (map row_name l) \/ (exists x, x ∈ map row_name l /\ is_Some (m !! x)) ->
  exists x, x ∈ map row_name l /\ baseline_rows path l m =
    Err (InvalidBaseline path ("duplicate baseline row `" +:+ x +:+ "`")).
Proof.
  revert m. induction l as [|row l IH]; intros m H.
  - destruct H as [H|(x & Hx & _)]; [destruct H; constructor|by apply elem_of_nil in Hx].
  - cbn [baseline_rows]. destruct (m !! row_name row) as [u|] eqn:Hm.
    + exists (row_name row). split; [cbn; set_solver|done].
    + destruct (IH (<[row_name row := row_compute_units row]> m)) as (x & Hx & ->).
      * destruct (decide (row_name row ∈ map row_name l)) as [Hin|Hin].
        -- right. exists (row_name row). by rewrite lookup_insert_eq.
        -- destruct H as [H|(x & Hx & Hs)].
           ++ left. intros Hnd. apply H. cbn. by constructor.
           ++ right. exists x. cbn in Hx. apply elem_of_cons in Hx as [->|Hx].
              { rewrite Hm in Hs. by destruct Hs. }
              split; [done|]. rewrite lookup_insert_ne; [done|]. intros <-. rewrite Hm in Hs. by destruct Hs.
      * exists x. split; [cbn; set_solver|done].
Qed.

(** A baseline depends on the names and units of a report, not on its percentages. *)
Lemma map_row_name l l' :
  map row_integers l = map row_integers l' -> map row_name l' = map row_name l.
Proof.
  intros H. apply (f_equal (map (fun x => x.1.1.1))) in H. by rewrite !map_map in H.
Qed.

Lemma baseline_of_integers l l' :
  map row_integers l = map row_integers l' -> baseline_of l' = baseline_of l.
Proof.
  intros H. unfold baseline_of. f_equal.
  apply (f_equal (map (fun x => (x.1.1.1, x.1.1.2)))) in H. by rewrite !map_map in H.
Qed.

Section Sidecar.
Context {rc : ReportCodec} {rl : ReportCodecLaws}.

(** What loading the directory of a written report gives. *)
Definition reloaded (path : string) (r : CuReport) (x : result (gmap string Z) BenchError) : Prop :=
  (NoDup (map row_name (rows r)) -> x = Ok (baseline_of (rows r))) /\
  (~ NoDup (map row_name (rows r)) ->
   exists n, n ∈ map row_name (rows r) /\
     x = Err (InvalidBaseline path ("duplicate baseline row `" +:+ n +:+ "`"))).

Lemma write_then_load r dir d d' :
  report_finite r = true -> rd_read_error d (join dir BASELINE_REPORT_FILE_NAME) = None ->
  write_report r dir d = (Ok tt, d') ->
  reloaded (join dir BASELINE_REPORT_FILE_NAME) r (load_baseline_rows dir d').
Proof.
  intros Hf Hr. unfold write_report. destruct (rd_mkdir_error d dir); [done|].
  destruct (report_encode r) as [bytes|e] eqn:He; [|done]. unfold sbind, rd_write.
  destruct (rd_write_error d (join dir BASELINE_REPORT_FILE_NAME)) eqn:Hw1; [done|]. cbn.
  destruct (rd_write_error d (join dir MARKDOWN_REPORT_FILE_NAME)); [done|]. intros [= <-].
  unfold load_baseline_rows. cbn. rewrite Hr.
  rewrite lookup_insert_ne by (intros H%join_inj; done). rewrite lookup_insert_eq.
  destruct (report_roundtrip _ _ Hf He) as (r' & -> & _ & _ & Hrows).
  unfold reloaded. rewrite <- (map_row_name _ _ Hrows), <- (baseline_of_integers _ _ Hrows). split.
  - intros Hnd. rewrite baseline_rows_ok; [by rewrite (right_id_L ∅ (∪))|done|].
    intros x _. apply lookup_empty.
  - intros Hnd. apply baseline_rows_dup. by left.
Qed.

End Sidecar.

(** ** Variants *)

Lemma by_address_order_elem {V} (m : gmap Address V) x : x ∈ by_address_order m <-> m !! x.1 = Some x.2.
Proof.
  unfold by_address_order. rewrite merge_sort_Permutation. destruct x. apply elem_of_map_to_list.
Qed.

(** The key of a program in a set is its program id. *)
Definition variant_wf (m : gmap Address ProgramVariant) : Prop :=
  map_Forall (fun k v => pv_program_id v = k) m.

Lemma check_supplied_ok case name bound l :
  check_supplied case name bound l = Ok tt <->
  forall x, x ∈ l -> bound !! pv_program_id x.2 = Some (pv_loader_id x.2).
Proof.
  induction l as [|[k v] l IH]; cbn; [split; [by intros _ x ?%elem_of_nil|done]|].
  setoid_rewrite elem_of_cons. destruct (bound !! pv_program_id v) as [loader|] eqn:Hb.
  - case_bool_decide as Hl.
    + rewrite IH. split; [|auto]. intros H x [->|Hx]; [cbn; by rewrite Hb, Hl|auto].
    + split; [done|]. intros H. specialize (H (k, v) ltac:(by left)). cbn in H. congruence.
  - split; [done|]. intros H. specialize (H (k, v) ltac:(by left)). cbn in H. congruence.
Qed.

Lemma check_bound_ok case name programs l :
  check_bound case name programs l = Ok tt <-> forall x, x ∈ l -> is_Some (programs !! x.1).
Proof.
  induction l as [|[k v] l IH]; cbn; [split; [by intros _ x ?%elem_of_nil|done]|].
  setoid_rewrite elem_of_cons. case_bool_decide as Hs.
  - rewrite IH. split; [|auto]. intros H x [->|Hx]; auto.
  - split; [done|]. intros H. destruct Hs. apply (H (k, v)). by left.
Qed.

Lemma validate_exact case bindings variant :
  variant_wf (vs_programs variant) ->
  validate_variant_programs case bindings variant = Ok tt <->
  pv_loader_id <$> vs_programs variant = bound_programs bindings.
Proof.
  intros Hwf. unfold validate_variant_programs. set (bound := bound_programs bindings).
  set (ps := vs_programs variant) in *.
  assert (Hs : check_supplied case (vs_name variant) bound (by_address_order ps) = Ok tt <->
    forall k v, ps !! k = Some v -> bound !! k = Some (pv_loader_id v)).
  { rewrite check_supplied_ok. split.
    - intros H k v Hk. specialize (H (k, v)). rewrite by_address_order_elem in H. cbn in H.
      by rewrite (Hwf _ _ Hk) in H; auto.
    - intros H [k v] Hk%by_address_order_elem. cbn in *. by rewrite (Hwf _ _ Hk); auto. }
  assert (Hb : check_bound case (vs_name variant) ps (by_address_order bound) = Ok tt <->
    forall k l, bound !! k = Some l -> is_Some (ps !! k)).
  { rewrite check_bound_ok. split.
    - intros H k l Hk. apply (H (k, l)). by apply by_address_order_elem.
    - intros H [k l] Hk%by_address_order_elem. cbn in *. eauto. }
  destruct (check_supplied _ _ _ _) as [[]|e]; cbn [rbind].
  - rewrite Hb. destruct Hs as [Hs _]. specialize (Hs eq_refl). split.
    + intros Hc. apply map_eq. intros k. rewrite lookup_fmap.
      destruct (ps !! k) as [v|] eqn:Hk; cbn; [by rewrite (Hs _ _ Hk)|].
      destruct (bound !! k) as [l|] eqn:Hl; [|done].
      destruct (Hc _ _ Hl) as [v Hv]. congruence.
    + intros <- k l. rewrite lookup_fmap. destruct (ps !! k); [by eexists|done].
  - split; [done|]. intros <-. destruct Hs as [_ Hs]. discriminate Hs.
    intros k v Hk. by rewrite lookup_fmap, Hk.
Qed.

Definition variant_key (v : ProgramVariant) : string * Address := (pv_name v, pv_program_id v).

(** What the grouping holds after some programs. *)
Definition grouped_ok (seen : list ProgramVariant) (g : gmap string (gmap Address ProgramVariant)) : Prop :=
  NoDup (map variant_key seen) /\
  forall name k v, default ∅ (g !! name) !! k = Some v <->
    v ∈ seen /\ pv_name v = name /\ pv_program_id v = k.

Lemma grouped_ok_cons seen g v :
  grouped_ok seen g -> default ∅ (g !! pv_name v) !! pv_program_id v = None ->
  grouped_ok (v :: seen)
    (<[pv_name v := <[pv_program_id v := v]> (default ∅ (g !! pv_name v))]> g).
Proof.
  intros [Hnd Hg] Hn. split.
  - cbn. constructor; [|done]. intros (u & Hu & Hin)%list_elem_of_fmap.
    injection Hu as Hu1 Hu2. assert (default ∅ (g !! pv_name v) !! pv_program_id v = Some u).
    { apply Hg. auto. } congruence.
  - intros name k u. rewrite elem_of_cons. destruct (decide (name = pv_name v)) as [->|Hne].
    + rewrite lookup_insert_eq. cbn. destruct (decide (k = pv_program_id v)) as [->|Hk].
      * rewrite lookup_insert_eq. split; [intros [= <-]; auto|]. intros [[->|Hu] [H1 H2]]; [done|].
        assert (default ∅ (g !! pv_name v) !! pv_program_id v = Some u) by (apply Hg; auto). congruence.
      * rewrite lookup_insert_ne by done. rewrite Hg. naive_solver.
    + rewrite lookup_insert_ne by done. rewrite Hg. naive_solver.
Qed.

Lemma group_variants_spec l seen g :
  grouped_ok seen g ->
  match group_variants l g with
  | Ok g' => grouped_ok (rev l ++ seen) g'
  | Err e => ~ NoDup (map variant_key (rev l ++ seen)) /\
      exists v, v ∈ l /\ e = DuplicateProgramName (pv_name v)
  end.
Proof.
  revert seen g. induction l as [|v l IH]; intros seen g Hg; cbn [group_variants]; [done|].
  destruct (default ∅ (g !! pv_name v) !! pv_program_id v) as [u|] eqn:Hu.
  - split; [|exists v; set_solver]. apply (proj2 Hg) in Hu as (Hin & H1 & H2). cbn.
    rewrite <- app_assoc, map_app. cbn. intros Hnd%NoDup_app. destruct Hnd as (_ & _ & Hnd).
    apply NoDup_cons in Hnd as [Hnd _]. apply Hnd. apply list_elem_of_fmap. exists u.
    split; [|done]. unfold variant_key. by rewrite H1, H2.
  - specialize (IH _ _ (grouped_ok_cons _ _ _ Hg Hu)). cbn. rewrite <- app_assoc.
    destruct (group_variants l _) as [g'|e]; [exact IH|].
    destruct IH as [H1 (x & Hx & ->)]. split; [exact H1|]. exists x. set_solver.
Qed.

(** The programs of a matrix are grouped exactly by name: it is an error, naming a
    repeated program's variant, when a program occurs twice under one name; otherwise
    every variant holds exactly the programs given under its name, each name once, and
    a variant is accepted for a fixture exactly when it supplies the programs the
    fixture binds, no more and no fewer, each under the loader of the binding. *)
Theorem variants_exact (programs : list ProgramVariant) :
  match group_variant_sets programs with
  | Err e => ~ NoDup (map variant_key programs) /\
      exists v, v ∈ programs /\ e = DuplicateProgramName (pv_name v)
  | Ok sets =>
      NoDup (map variant_key programs) /\ NoDup (map vs_name sets) /\
      (forall v, v ∈ programs -> exists set, set ∈ sets /\ vs_name set = pv_name v) /\
      forall set, set ∈ sets ->
        (forall k v, vs_programs set !! k = Some v <->
           v ∈ programs /\ pv_name v = vs_name set /\ pv_program_id v = k) /\
        (forall case bindings,
           validate_variant_programs case bindings set = Ok tt <->
           pv_loader_id <$> vs_programs set = bound_programs bindings)
  end.
Proof.
  unfold group_variant_sets.
  assert (H0 : grouped_ok [] ∅).
  { split; [constructor|]. intros name k v. rewrite lookup_empty. cbn. rewrite lookup_empty.
    split; [done|]. by intros [?%elem_of_nil _]. }
  pose proof (group_variants_spec programs [] ∅ H0) as Hs. rewrite app_nil_r in Hs.
  assert (Hperm : map variant_key (rev programs) ≡ₚ map variant_key programs).
  { apply Permutation_map. symmetry. apply Permutation_rev. }
  destruct (group_variants programs ∅) as [g|e] eqn:Hg; cbn [rbind].
  2: { destruct Hs as [Hn Hv]. by rewrite Hperm in Hn. }
  destruct Hs as [Hnd Hgs]. rewrite Hperm in Hnd.
  assert (Hsets : forall set, set ∈ map (fun x => mkProgramVariantSet x.1 x.2) (by_name_order g) <->
    g !! vs_name set = Some (vs_programs set)).
  { intros [name ps]. rewrite list_elem_of_fmap. unfold by_name_order. split.
    - intros ([n m] & [= -> ->] & Hin). rewrite merge_sort_Permutation in Hin.
      by apply elem_of_map_to_list in Hin.
    - intros H. exists (name, ps). split; [done|]. rewrite merge_sort_Permutation.
      by apply elem_of_map_to_list. }
  assert (Hmem : forall set, g !! vs_name set = Some (vs_programs set) -> forall k v,
    vs_programs set !! k = Some v <-> v ∈ programs /\ pv_name v = vs_name set /\ pv_program_id v = k).
  { intros set Hset k v. specialize (Hgs (vs_name set) k v). rewrite Hset in Hgs. cbn in Hgs.
    rewrite Hgs, !list_elem_of_In, <- in_rev. done. }
  split; [done|]. split_and!.
  - assert (E : map vs_name (map (fun x => mkProgramVariantSet x.1 x.2) (by_name_order g)) =
      (by_name_order g).*1) by (rewrite map_map; done).
    rewrite E. unfold by_name_order. rewrite merge_sort_Permutation. apply NoDup_fst_map_to_list.
  - intros v Hv. assert (Hl : default ∅ (g !! pv_name v) !! pv_program_id v = Some v).
    { apply Hgs. split; [by rewrite list_elem_of_In, <- in_rev, <- list_elem_of_In|done]. }
    destruct (g !! pv_name v) as [m|] eqn:Hm;
      [|cbn in Hl; by rewrite lookup_empty in Hl].
    exists (mkProgramVariantSet (pv_name v) m). by rewrite Hsets.
  - intros set Hset%Hsets. split; [by apply Hmem|]. intros case bindings.
    apply validate_exact. intros k v Hk. by apply (Hmem set Hset) in Hk as (_ & _ & ?).
Qed.

(** ** The bencher *)
Section BencherFacts.
Context {tgt : Target} {ids : SdkIds} {sv : SysvarRuntime} {pr : ProgramRuntime}
        {pc : ProgramCacheOps} {Lst : Lru ProgramEntryKey Entry}
        {Lhist : Lru Signature TransactionResult} {fs : FeatureSets} {bud : Budgets}
        {tx : TxRuntime} {lt : LookupTables} {sp : SystemProgram} {uc : UserCode}
        {dr : DeployRuntime} {vr : VmRuntime} {fc : FixtureCodec} {fd : FixtureDisplay}
        {rc : ReportCodec} {cr : CliRuntime} {rl : ReportCodecLaws}.

(** A row states its case, and its delta against the baseline of that name. *)
Definition row_against (baseline : gmap string Z) (row : CuReportRow) : Prop :=
  row_delta row = (fun b => between b (row_compute_units row)) <$> baseline !! row_name row.

Lemma bench_cases_rows unique must_pass elfs baseline cases r w l w' lines :
  bench_cases unique must_pass elfs baseline cases r w = Some (Ok l, w', lines) ->
  map row_name l = map fst cases /\ Forall (row_against baseline) l /\
  (must_pass = true -> Forall (fun row => row_pass row = true) l).
Proof.
  revert r w l w' lines. induction cases as [|[name f] cases IH]; intros r w l w' lines; cbn [bench_cases].
  - intros [= <- <- <-]. by repeat constructor.
  - destruct (with_fixture_programs f elfs r) as [r'|e]; [|done].
    destruct (bench_case unique r' (name, f) w) as [[[[[units pass]|e] w1] ls]|]; [|done|done].
    destruct (must_pass && negb pass) eqn:Hp; [done|].
    destruct (bench_cases unique must_pass elfs baseline cases r' w1) as [[[[l'|e] w2] more]|] eqn:Hc;
      [|done|done].
    intros [= <- <- <-]. destruct (IH _ _ _ _ _ Hc) as (Hn & Hb & Hm). cbn. split_and!.
    + by rewrite Hn.
    + by constructor.
    + intros Ht. constructor; [|auto]. rewrite Ht in Hp. by destruct pass.
Qed.

Lemma bencher_report unique stamp b w d r w' d' lines :
  bencher_execute unique stamp b w d = Some (Ok r, w', d', lines) ->
  cub_cases b <> [] /\ map row_name (rows r) = map fst (cub_cases b) /\
  (cub_must_pass b = true -> Forall (fun row => row_pass row = true) (rows r)) /\
  (exists baseline, baseline_map (cub_baseline_dir b) d = Ok baseline /\
     Forall (row_against baseline) (rows r)) /\
  write_to_dir r (cub_output_dir b) d = (Ok tt, d').
Proof.
  unfold bencher_execute. destruct (cub_cases b) as [|c cs] eqn:Hcs; [done|].
  destruct (baseline_map _ d) as [baseline|e]; [|done].
  destruct (bench_cases _ _ _ _ _ _ _) as [[[[l|e] w1] ls]|] eqn:Hc; [|done|done].
  apply bench_cases_rows in Hc as (Hn & Hb & Hm).
  destruct (write_to_dir _ _ d) as [[[]|e] d1] eqn:Hw; [|done]. intros [= <- <- <- <-].
  split_and!; try done. by exists baseline.
Qed.


(** ** The matrix *)

(** A report of a variant: the cases in order, measured against nothing. *)
Definition measures (cases : list FixtureBenchCase) (r : CuReport) : Prop :=
  map row_name (rows r) = map fst cases /\ Forall (fun row => row_delta row = None) (rows r).

(** What a variant must supply for the fixtures. *)
Definition supplies (v : ProgramVariantSet) (cases : list FixtureBenchCase) : Prop :=
  Forall (fun c => validate_variant_programs c.1 (fixture_programs c.2) v = Ok tt) cases.

Lemma variant_cases_rows unique variant cases r w l w' lines :
  variant_cases unique variant cases r w = Some (Ok l, w', lines) ->
  map row_name l = map fst cases /\ Forall (fun row => row_delta row = None) l /\
  match variant with Some v => supplies v cases | None => True end.
Proof.
  revert w l w' lines. induction cases as [|[name f] cases IH]; intros w l w' lines; cbn [variant_cases].
  - intros [= <- <- <-]. split_and!; [done|constructor|]. destruct variant; [constructor|done].
  - destruct (match variant with Some v => _ | None => _ end) as [[]|e] eqn:Hv; [|done].
    destruct (bench_case unique r (name, f) w) as [[[[[units pass]|e] w1] ls]|]; [|done|done].
    destruct (variant_cases unique variant cases r w1) as [[[[l'|e] w2] more]|] eqn:Hc; [|done|done].
    intros [= <- <- <-]. destruct (IH _ _ _ _ Hc) as (Hn & Hd & Hs). cbn. split_and!.
    + by rewrite Hn.
    + by constructor.
    + destruct variant; [|done]. by constructor.
Qed.

Lemma execute_variant_measures unique stamp i cases variant w r w' lines :
  execute_variant unique stamp i cases variant w = Some (Ok r, w', lines) ->
  measures cases r /\ match variant with Some v => supplies v cases | None => True end.
Proof.
  unfold execute_variant. destruct (hpsvm_new i false w) as [s|]; [|done].
  destruct (variant_cases _ _ _ _ _) as [[[[l|e] w1] ls]|] eqn:Hc; [|done|done]. intros H.
  injection H as <- <- <-. apply variant_cases_rows in Hc as (Hn & Hd & Hs). by split_and!.
Qed.

Lemma execute_variants_measures unique stamp inputs cases variants w m w' lines :
  execute_variants unique stamp inputs cases variants w = Some (Ok m, w', lines) ->
  dom m = list_to_set (map vs_name variants) /\ map_Forall (fun _ => measures cases) m /\
  Forall (fun v => supplies v cases) variants.
Proof.
  revert inputs w m w' lines. induction variants as [|v vs IH]; intros inputs w m w' lines; cbn [execute_variants].
  - intros [= <- <- <-]. split_and!; [by rewrite dom_empty_L|apply map_Forall_empty|constructor].
  - destruct (execute_variant unique stamp (inputs 0%nat) cases (Some v) w) as [[[[r|e] w1] ls]|] eqn:Hv;
      [|done|done].
    destruct (execute_variants unique stamp _ cases vs w1) as [[[[m1|e] w2] more]|] eqn:Hvs; [|done|done].
    intros [= <- <- <-]. apply execute_variant_measures in Hv as [Hm Hs].
    destruct (IH _ _ _ _ _ Hvs) as (Hd & Hf & Hss). split_and!.
    + by rewrite dom_insert_L, Hd.
    + by apply map_Forall_insert_2.
    + by constructor.
Qed.

(** A matrix that completes has one report per variant name, or one of the builtin
    programs when no variant was given; every report has the cases in order and no
    delta, and every variant supplied exactly the programs of every fixture. *)
Theorem matrix_measures_every_variant unique stamp inputs programs cases w m w' lines :
  matrix_execute unique stamp inputs programs cases w = Some (Ok m, w', lines) ->
  cases <> [] /\ map_Forall (fun _ => measures cases) (mr_reports m) /\
  (programs = [] -> dom (mr_reports m) = {[BUILTIN_VARIANT_NAME]}) /\
  (programs <> [] -> exists variants, group_variant_sets programs = Ok variants /\
     dom (mr_reports m) = list_to_set (map vs_name variants) /\
     Forall (fun v => supplies v cases) variants).
Proof.
  unfold matrix_execute. destruct cases as [|c cs]; [done|]. set (cases := c :: cs).
  destruct programs as [|p ps].
  - destruct (execute_variant _ _ _ _ None w) as [[[[r|e] w1] ls]|] eqn:Hv; [|done|done].
    intros H. injection H as <- <- <-. apply execute_variant_measures in Hv as [Hm _]. cbn [mr_reports].
    split_and!; [done| |by rewrite dom_singleton_L|done].
    by apply map_Forall_singleton.
  - destruct (group_variant_sets (p :: ps)) as [variants|e]; [|done].
    destruct (execute_variants _ _ _ _ _ _) as [[[[m1|e] w1] ls]|] eqn:Hv; [|done|done].
    intros H. injection H as <- <- <-. apply execute_variants_measures in Hv as (Hd & Hf & Hs).
    cbn [mr_reports]. split_and!; [done|done|done|]. intros _. by exists variants.
Qed.

(** ** The command *)

Lemma with_program_elfs_exact elfs b :
  bencher_with_program_elfs elfs b =
  mkComputeUnitBencher (cub_vm b) (cub_cases b) (cub_must_pass b) (cub_baseline_dir b)
    (cub_output_dir b) (elfs ∪ cub_program_elfs b).
Proof.
  unfold bencher_with_program_elfs.
  assert (H : forall l b, NoDup l.*1 ->
    foldl (fun b x => bencher_with_program_elf x.1 x.2 b) b l =
    mkComputeUnitBencher (cub_vm b) (cub_cases b) (cub_must_pass b) (cub_baseline_dir b)
      (cub_output_dir b) (list_to_map l ∪ cub_program_elfs b)).
  { intros l. induction l as [|[k v] l IH]; intros b0 Hnd.
    - cbn. rewrite (left_id_L ∅ (∪)). by destruct b0.
    - cbn in Hnd. apply NoDup_cons in Hnd as [Hk Hnd]. cbn [foldl]. rewrite IH by done. cbn. f_equal.
      rewrite <- insert_union_r; [by rewrite insert_union_l|].
      by apply not_elem_of_list_to_map_1. }
  rewrite H by apply NoDup_fst_map_to_list. by rewrite list_to_map_to_list.
Qed.

(** What [cu report] runs: one case, under the name of the fixture. *)
Lemma cu_bencher_fields vm f out base programs must_pass :
  let b := cu_bencher vm f out base programs must_pass in
  cub_vm b = vm /\ cub_cases b = [(fh_name (fx_header f), f)] /\ cub_must_pass b = must_pass /\
  cub_baseline_dir b = base /\ cub_output_dir b = Some out /\ cub_program_elfs b = programs.
Proof.
  cbv zeta. unfold cu_bencher. rewrite with_program_elfs_exact. cbn.
  rewrite (right_id_L ∅ (∪)). by destruct base.
Qed.

(** A fixture that misses its expectations fails the command, but unless passing is
    required its report has been written first, and is the baseline of later runs;
    with passing required nothing is reported at all. *)
Theorem report_command_exact unique stamp fresh f out base programs must_pass w d res w' d' lines :
  report_loaded unique stamp fresh f out base programs must_pass w d = Some (res, w', d', lines) ->
  (exists report row, rows report = [row] /\ row_name row = fh_name (fx_header f) /\
     write_report report out d = (Ok tt, d') /\
     (must_pass = true -> row_pass row = true) /\
     res = if row_pass row then Ok tt else Err (CuCli (ComparisonFailed (fh_name (fx_header f))))) \/
  (exists e, res = Err (CuBench e)).
Proof.
  unfold report_loaded.
  destruct (cu_bencher_fields (fresh w).1 f out base programs must_pass) as (_ & Hc & Hm & _ & Ho & _).
  destruct (bencher_execute _ _ _ _ d) as [[[[[r|e] w1] d1] ls]|] eqn:Hx; [|intros [= <- <- <- <-]; eauto|done].
  apply bencher_report in Hx as (_ & Hn & Hpass & _ & Hw). rewrite Hc in Hn. rewrite Ho in Hw. cbn in Hw.
  rewrite Hm in Hpass. destruct (rows r) as [|row [|]] eqn:Hr; [done| |done]. cbn in Hn.
  injection Hn as Hn. intros H. left. exists r, row. cbn [forallb] in H. rewrite andb_true_r in H.
  assert (Hres : (if row_pass row then Ok tt
    else Err (CuCli (ComparisonFailed (fh_name (fx_header f))))) = res /\ d1 = d')
    by (destruct (row_pass row); by injection H as -> -> -> ->).
  destruct Hres as [<- <-]. split_and!; try done. intros Ht. specialize (Hpass Ht). by inversion Hpass.
Qed.

End BencherFacts.
