(* ===== verification/Firedancer.v ===== *)
(** * FireDancer fixtures, [crates/hpsvm-fixture-firedancer]

    The protobuf messages of an instruction fixture (the [.proto] files of
    [vendor/hpsvm-fd-fixture]), their conversion to and from the fixture model
    ([fd.rs]) and the files they are kept in.  The wire formats are an interface. *)

From Stdlib Require Import ZArith NArith Lia Strings.Byte Strings.String.
From stdpp Require Import base tactics option list sets gmap strings.
From S2P Require Import Prelude.
From S2P Require Import Types.
From S2P Require Import Errors.
From S2P Require Import Runtime.
From S2P Require Import AccountsDb.
From S2P Require Import Version.
From S2P Require Import TxRuntime.
From S2P Require Import Fixture.
From S2P Require Import FixtureRun.
From S2P Require Import Cli.

(** ** Addresses as bytes

    An address is the number its 32 bytes spell, the first byte being the highest,
    so that the order of addresses is that of their bytes. *)
Definition byte_of_N (n : N) : byte := default x00 (Byte.of_N (n mod 256)).

Fixpoint be_bytes (len : nat) (n : N) : list byte :=
  match len with
  | O => []
  | S len' => be_bytes len' (n / 256) ++ [byte_of_N n]
  end.

Definition be_num (l : list byte) : N := foldl (fun acc b => (acc * 256 + Byte.to_N b)%N) 0%N l.

(** ** Messages *)
Record ProtoSeedAddress : Type := mkProtoSeedAddress {
  psa_base : list byte;
  psa_seed : list byte;
  psa_owner : list byte
}.

Record AcctState : Type := mkAcctState {
  ps_address : list byte;
  ps_lamports : Z;
  ps_data : list byte;
  ps_executable : bool;
  ps_rent_epoch : Z;
  ps_owner : list byte;
  ps_seed_addr : option ProtoSeedAddress
}.

Record InstrAcct : Type := mkInstrAcct {
  pi_index : Z;
  pi_is_writable : bool;
  pi_is_signer : bool
}.

(** [SlotContext] is its slot; [EpochContext] its list of features, if any. *)
Record InstrContext : Type := mkInstrContext {
  pc_program_id : list byte;
  pc_accounts : list AcctState;
  pc_instr_accounts : list InstrAcct;
  pc_data : list byte;
  pc_cu_avail : Z;
  pc_slot_context : option Z;
  pc_epoch_context : option (option (list Z))
}.

Record InstrEffects : Type := mkInstrEffects {
  pe_result : Z;
  pe_custom_err : Z;
  pe_modified_accounts : list AcctState;
  pe_cu_avail : Z;
  pe_return_data : list byte
}.

(** [FixtureMetadata] is its entrypoint. *)
Record InstrFixture : Type := mkInstrFixture {
  pf_metadata : option string;
  pf_input : option InstrContext;
  pf_output : option InstrEffects
}.

(** ** Errors *)
Inductive AdapterError : Type :=
| AdapterIo (message : string)
| AdapterJson (message : string)
| AdapterDecode (message : string)
| AdapterUnsupportedFormat (path : string)
| AdapterMissingField (field : string)
| InvalidAddressLength (field : string) (actual : nat)
| InvalidInstructionAccountIndex (index accounts_len : nat)
| MissingInstructionAccount (address : Address)
| UnsupportedSeedAddress (field : string)
| InconsistentComputeUnits (before after : Z)
| ComputeUnitsExceedBudget (budget consumed : Z)
| InconsistentExecutionStatus (result custom_err : Z)
| UnsupportedExecutionStatus (kind : string)
| UnsupportedReturnDataProgram (program_id instruction_program_id : Address)
| UnsupportedFixtureKind (kind expected : string)
| MissingComputeUnitBudget.

Definition FIREDANCER_SOURCE : string := "firedancer".
Definition FIREDANCER_TAG : string := "external:firedancer".

(** ** Parts *)

Definition address_from_bytes (bytes : list byte) (field : string) : result Address AdapterError :=
  if Nat.eqb (length bytes) 32 then Ok (Addr (be_num bytes))
  else Err (InvalidAddressLength field (length bytes)).

Definition address_to_bytes (a : Address) : list byte := be_bytes 32 (address_num a).

Definition account_snapshot_from_proto (field : string) (account : AcctState) :
    result AccountSnapshot AdapterError :=
  match ps_seed_addr account with
  | Some _ => Err (UnsupportedSeedAddress field)
  | None =>
      let? address := address_from_bytes (ps_address account) "account.address" in
      let? owner := address_from_bytes (ps_owner account) "account.owner" in
      Ok (mkAccountSnapshot address (ps_lamports account) owner (ps_executable account)
            (ps_rent_epoch account) (ps_data account))
  end.

Definition account_snapshot_to_proto (account : AccountSnapshot) : AcctState :=
  mkAcctState (address_to_bytes (as_address account)) (as_lamports account) (as_data account)
    (as_executable account) (as_rent_epoch account) (address_to_bytes (as_owner account)) None.

Definition instruction_account_from_proto (accounts : list AccountSnapshot) (account : InstrAcct) :
    result InstructionAccountMeta AdapterError :=
  let index := Z.to_nat (pi_index account) in
  let? found := ok_or (accounts !! index) (InvalidInstructionAccountIndex index (length accounts)) in
  Ok (mkInstructionAccountMeta (as_address found) (pi_is_signer account) (pi_is_writable account)).

(** [u32::try_from]. *)
Definition u32_max : Z := 4294967295.

(** The closure of [instruction_accounts_to_proto]. *)
Definition instruction_account_to_proto (accounts : list AccountSnapshot) (account : InstructionAccountMeta) :
    result InstrAcct AdapterError :=
  let? found := ok_or (list_find (fun candidate => as_address candidate = iam_pubkey account) accounts)
                  (MissingInstructionAccount (iam_pubkey account)) in
  let index := Z.of_nat found.1 in
  if (index <=? u32_max)%Z
  then Ok (mkInstrAcct index (iam_is_writable account) (iam_is_signer account))
  else Err (InvalidInstructionAccountIndex found.1 (length accounts)).

Definition instruction_accounts_to_proto (accounts : list AccountSnapshot)
    (l : list InstructionAccountMeta) : result (list InstrAcct) AdapterError :=
  traverse (instruction_account_to_proto accounts) l.

Definition status_to_output (status : ExecutionStatus) : result (Z * Z) AdapterError :=
  match status with
  | StatusSuccess => Ok (0%Z, 0%Z)
  | StatusFailure (ProgramResult result) => Ok (result, 0%Z)
  | StatusFailure (FailureCustomError custom_error) => Ok (1%Z, custom_error)
  | StatusFailure (ProgramResultWithCustomError result custom_error) => Ok (result, custom_error)
  | StatusFailure (FailureOther kind _) => Err (UnsupportedExecutionStatus kind)
  end.

Definition status_from_output (r custom_err : Z) : result ExecutionStatus AdapterError :=
  if (r =? 0)%Z then
    if (custom_err =? 0)%Z then Ok StatusSuccess else Err (InconsistentExecutionStatus r custom_err)
  else if (custom_err =? 0)%Z then Ok (StatusFailure (ProgramResult r))
  else Ok (StatusFailure (ProgramResultWithCustomError r custom_err)).

Definition return_data_from_output (program_id : Address) (return_data : list byte) :
    option ReturnDataSnapshot :=
  match return_data with
  | [] => None
  | _ => Some (mkReturnDataSnapshot program_id return_data)
  end.

Definition return_data_to_output (program_id : Address) (return_data : option ReturnDataSnapshot) :
    result (list byte) AdapterError :=
  match return_data with
  | None => Ok []
  | Some r => if bool_decide (rds_program_id r = program_id) then Ok (rds_data r)
              else Err (UnsupportedReturnDataProgram (rds_program_id r) program_id)
  end.

Definition snapshot_to_proto_effects (snapshot : ExecutionSnapshot) (program_id : Address)
    (cu_avail : Z) : result InstrEffects AdapterError :=
  let? status := status_to_output (es_status snapshot) in
  let? return_data := return_data_to_output program_id (es_return_data snapshot) in
  Ok (mkInstrEffects status.1 status.2 (map account_snapshot_to_proto (es_post_accounts snapshot))
        cu_avail return_data).

(** The loop of [compares_for_post_accounts]: addresses in order, each once. *)
Definition post_addresses (post_accounts : list AccountSnapshot) : list Address :=
  foldl (fun addresses account =>
           if bool_decide (as_address account ∈ addresses) then addresses
           else addresses ++ [as_address account]) [] post_accounts.

Definition compares_for_post_accounts (post_accounts : list AccountSnapshot) : list Compare :=
  [CompareStatus; CompareIncluded; CompareComputeUnits; CompareReturnData] ++
  match post_accounts with
  | [] => []
  | _ => [CompareAccounts (ScopeOnly (post_addresses post_accounts))]
  end.

(** ** The conversions *)
Section Conversion.
Context {dsp : ExternalDisplay}.

(** The name: the entrypoint, unless it is absent or empty. *)
Definition firedancer_name (metadata : option string) (program_id : Address) : string :=
  match metadata with
  | Some entrypoint =>
      if String.eqb entrypoint "" then "firedancer-" +:+ display_address program_id else entrypoint
  | None => "firedancer-" +:+ display_address program_id
  end.

(** [TryFrom<FiredancerFixture> for Fixture]. *)
Definition fixture_of_firedancer (value : InstrFixture) : result Fixture AdapterError :=
  let? input := ok_or (pf_input value) (AdapterMissingField "input") in
  let? output := ok_or (pf_output value) (AdapterMissingField "output") in
  let? pre_accounts := traverse (account_snapshot_from_proto "input.accounts") (pc_accounts input) in
  let? instruction_accounts :=
    traverse (instruction_account_from_proto pre_accounts) (pc_instr_accounts input) in
  let? post_accounts :=
    traverse (account_snapshot_from_proto "output.modified_accounts") (pe_modified_accounts output) in
  let? program_id := address_from_bytes (pc_program_id input) "input.program_id" in
  let? compute_units_consumed :=
    ok_or (checked_sub_u64 (pc_cu_avail input) (pe_cu_avail output))
      (InconsistentComputeUnits (pc_cu_avail input) (pe_cu_avail output)) in
  let? status := status_from_output (pe_result output) (pe_custom_err output) in
  let baseline :=
    mkExecutionSnapshot status true compute_units_consumed 0 []
      (return_data_from_output program_id (pe_return_data output)) [] post_accounts in
  let header :=
    header_with_tag FIREDANCER_TAG (header_with_source FIREDANCER_SOURCE
      (header_new (firedancer_name (pf_metadata value) program_id) KindInstruction)) in
  Ok (mkFixture header
        (InputInstruction
           (mkInstructionFixture
              (with_compute_unit_limit (pc_cu_avail input)
                 (runtime_config_new (default 0%Z (pc_slot_context input)) None false false))
              [] pre_accounts program_id instruction_accounts (pc_data input)))
        (mkFixtureExpectations baseline (compares_for_post_accounts post_accounts))).

(** [TryFrom<Fixture> for FiredancerFixture]. *)
Definition firedancer_of_fixture (value : Fixture) : result InstrFixture AdapterError :=
  match fx_input value with
  | InputTransaction _ => Err (UnsupportedFixtureKind "transaction" "instruction")
  | InputInstruction instruction =>
      let baseline := fe_baseline (fx_expectations value) in
      let? input_cu_avail := ok_or (rfc_compute_unit_limit (if_runtime instruction))
                               MissingComputeUnitBudget in
      let? output_cu_avail :=
        ok_or (checked_sub_u64 input_cu_avail (es_compute_units_consumed baseline))
          (ComputeUnitsExceedBudget input_cu_avail (es_compute_units_consumed baseline)) in
      let? instr_accounts :=
        instruction_accounts_to_proto (if_pre_accounts instruction) (if_accounts instruction) in
      let input :=
        mkInstrContext (address_to_bytes (if_program_id instruction))
          (map account_snapshot_to_proto (if_pre_accounts instruction)) instr_accounts
          (if_data instruction) input_cu_avail (Some (rfc_slot (if_runtime instruction))) None in
      let? output := snapshot_to_proto_effects baseline (if_program_id instruction) output_cu_avail in
      Ok (mkInstrFixture (Some (fh_name (fx_header value))) (Some input) (Some output))
  end.

End Conversion.

(** ** Files *)

(** [prost] and [serde_json] on the message; an encoding that fails has written
    some bytes before. *)
Class FiredancerCodec : Type := {
  proto_encode : InstrFixture -> list byte;
  proto_decode : list byte -> result InstrFixture string;
  fd_json_encode : InstrFixture -> result (list byte) (string * list byte);
  fd_json_decode : list byte -> result InstrFixture string
}.

Class FiredancerCodecLaws {fdc : FiredancerCodec} : Prop := {
  proto_roundtrip f : proto_decode (proto_encode f) = Ok f;
  fd_json_roundtrip f bytes : fd_json_encode f = Ok bytes -> fd_json_decode bytes = Ok f
}.

Inductive FiredancerFixtureFormat : Type := FdBinary | FdJson.

Definition fd_format_for_path (p : Path) : result FiredancerFixtureFormat AdapterError :=
  match path_extension p with
  | Some ext =>
      if String.eqb ext "fix" then Ok FdBinary
      else if String.eqb ext "json" then Ok FdJson
      else Err (AdapterUnsupportedFormat (path_display p))
  | None => Err (AdapterUnsupportedFormat (path_display p))
  end.

Section Files.
Context {fdc : FiredancerCodec}.

Definition fd_read (p : Path) (d : Disk) : result (list byte) AdapterError :=
  ok_or (disk_files d !! p) (AdapterIo "No such file or directory").

Definition fd_put (p : Path) (contents : list byte) : M Disk AdapterError unit := fun d =>
  match disk_refusal d p with
  | Some message => (Err (AdapterIo message), d)
  | None => (Ok tt, mkDisk (<[p := contents]> (disk_files d)) (disk_refusal d))
  end.

Definition fd_load (p : Path) (d : Disk) : result InstrFixture AdapterError :=
  let? format := fd_format_for_path p in
  match format with
  | FdBinary => let? bytes := fd_read p d in map_err AdapterDecode (proto_decode bytes)
  | FdJson => let? bytes := fd_read p d in map_err AdapterJson (fd_json_decode bytes)
  end.

Definition fd_save (f : InstrFixture) (p : Path) : M Disk AdapterError unit :=
  sbind (slift (fun _ => fd_format_for_path p)) (fun format =>
    match format with
    | FdBinary => fd_put p (proto_encode f)
    | FdJson =>
        match fd_json_encode f with
        | Ok bytes => fd_put p bytes
        | Err (message, written) =>
            sbind (fd_put p written) (fun _ => sfail (AdapterJson message))
        end
    end).

(** [load_firedancer_fixture] of the commands. *)
Definition load_firedancer_fixture {dsp : ExternalDisplay} (p : Path) (d : Disk) :
    result Fixture AdapterError :=
  let? f := fd_load p d in fixture_of_firedancer f.

End Files.
