(* ===== verification/FiredancerFacts.v ===== *)
(** * Theorems about the FireDancer conversion

    Importing loses nothing the fixture model can hold, so exporting what was
    imported gives the message back, up to accounts that share an address; exporting loses what the message cannot hold,
    and what comes back is stated exactly. *)

From Stdlib Require Import ZArith NArith Lia Strings.Byte Strings.String.
From stdpp Require Import base tactics option list sets gmap strings.
From S2P Require Import Prelude.
From S2P Require Import Types.
From S2P Require Import Errors.
From S2P Require Import Fixture.
From S2P Require Import FixtureRun.
From S2P Require Import Firedancer.

(** ** Bytes *)

Lemma byte_of_to_N b : byte_of_N (Byte.to_N b) = b.
Proof. by destruct b. Qed.

Lemma to_N_byte_of n : Byte.to_N (byte_of_N n) = (n mod 256)%N.
Proof.
  unfold byte_of_N. destruct (Byte.of_N (n mod 256)) as [b|] eqn:Hb; cbn.
  - by apply Byte.to_of_N.
  - apply Byte.of_N_None_iff in Hb. pose proof (N.mod_lt n 256). lia.
Qed.

Lemma be_num_snoc l b : be_num (l ++ [b]) = (be_num l * 256 + Byte.to_N b)%N.
Proof. unfold be_num. by rewrite foldl_app. Qed.

Lemma be_bytes_length len n : length (be_bytes len n) = len.
Proof. revert n. induction len; intros n; cbn; [done|]. rewrite length_app, IHlen. cbn. lia. Qed.

Lemma be_num_bytes len n : (n < 256 ^ N.of_nat len)%N -> be_num (be_bytes len n) = n.
Proof.
  revert n. induction len as [|len IH]; intros n Hn.
  - cbn in *. lia.
  - cbn [be_bytes]. rewrite be_num_snoc, to_N_byte_of, IH.
    + pose proof (N.div_mod n 256). lia.
    + rewrite Nat2N.inj_succ, N.pow_succ_r' in Hn. apply N.Div0.div_lt_upper_bound. lia.
Qed.

Lemma be_num_lt l : (be_num l < 256 ^ N.of_nat (length l))%N.
Proof.
  induction l as [|b l IH] using rev_ind; [cbn; lia|].
  rewrite be_num_snoc, length_app. cbn. rewrite Nat.add_1_r, Nat2N.inj_succ, N.pow_succ_r'.
  pose proof (Byte.to_N_bounded b). lia.
Qed.

Lemma be_bytes_num l : be_bytes (length l) (be_num l) = l.
Proof.
  induction l as [|b l IH] using rev_ind; [done|].
  rewrite length_app, Nat.add_1_r. cbn [be_bytes]. rewrite be_num_snoc.
  pose proof (Byte.to_N_bounded b) as Hb.
  rewrite <- (N.div_unique (be_num l * 256 + Byte.to_N b) 256 (be_num l) (Byte.to_N b)) by lia.
  rewrite IH. f_equal. f_equal. unfold byte_of_N.
  rewrite <- (N.mod_unique (be_num l * 256 + Byte.to_N b) 256 (be_num l) (Byte.to_N b)) by lia.
  by rewrite Byte.of_to_N.
Qed.

(** ** Parts *)

Definition address_ok (a : Address) : Prop := (address_num a < 2 ^ 256)%N.

Lemma address_to_from a field : address_ok a -> address_from_bytes (address_to_bytes a) field = Ok a.
Proof.
  intros Ha. unfold address_from_bytes, address_to_bytes. rewrite be_bytes_length, Nat.eqb_refl.
  rewrite be_num_bytes; [by destruct a|]. exact Ha.
Qed.

Lemma address_from_to bytes field a :
  address_from_bytes bytes field = Ok a -> address_to_bytes a = bytes /\ address_ok a.
Proof.
  unfold address_from_bytes. destruct (Nat.eqb_spec (length bytes) 32) as [Hl|]; [|done].
  intros [= <-]. unfold address_to_bytes, address_ok. cbn [address_num]. rewrite <- Hl at 1.
  split; [apply be_bytes_num|]. pose proof (be_num_lt bytes) as H. by rewrite Hl in H.
Qed.

Definition snapshot_ok (a : AccountSnapshot) : Prop := address_ok (as_address a) /\ address_ok (as_owner a).

Lemma account_to_from a field :
  snapshot_ok a -> account_snapshot_from_proto field (account_snapshot_to_proto a) = Ok a.
Proof.
  intros [H1 H2]. unfold account_snapshot_from_proto, account_snapshot_to_proto. cbn [ps_seed_addr].
  cbn [ps_address ps_owner ps_lamports ps_executable ps_rent_epoch ps_data].
  rewrite !address_to_from by done. by destruct a.
Qed.

Lemma account_from_to p field a :
  account_snapshot_from_proto field p = Ok a -> account_snapshot_to_proto a = p /\ snapshot_ok a.
Proof.
  unfold account_snapshot_from_proto. destruct p as [pa pl pd px pe po [s|]]; cbn; [done|].
  destruct (address_from_bytes pa _) as [a1|] eqn:H1; [|done]. cbn.
  destruct (address_from_bytes po _) as [a2|] eqn:H2; [|done]. cbn. intros [= <-].
  apply address_from_to in H1 as [<- H1], H2 as [<- H2]. by repeat split.
Qed.

Lemma status_from_to r c st : status_from_output r c = Ok st -> status_to_output st = Ok (r, c).
Proof.
  unfold status_from_output. destruct (Z.eqb_spec r 0), (Z.eqb_spec c 0); intros [= <-]; by subst.
Qed.

Lemma return_data_from_to k data : return_data_to_output k (return_data_from_output k data) = Ok data.
Proof. destruct data; [done|]. cbn. by rewrite bool_decide_true. Qed.

(** ** Lists *)

Lemma traverse_map_id {A B E} (f : B -> result A E) (g : A -> B) l :
  (forall x, x ∈ l -> f (g x) = Ok x) -> traverse f (map g l) = Ok l.
Proof.
  induction l as [|x l IH]; intros H; [done|]. cbn. rewrite H by (by left). cbn.
  rewrite IH; [done|]. intros y Hy. apply H. by right.
Qed.

Lemma traverse_inverse {A B E} (f : A -> result B E) (g : B -> A) l ys :
  (forall x y, f x = Ok y -> g y = x) -> traverse f l = Ok ys -> map g ys = l.
Proof.
  intros H Hl. apply traverse_Ok_Forall2 in Hl. induction Hl as [|x y l ys Hx _ IH]; [done|].
  cbn. by rewrite IH, (H _ _ Hx).
Qed.

(** An index of a message as it is exported: an account is found by its address, so the
    first account of the message with the address the index names. *)
Definition first_index (accounts : list AcctState) (i : Z) : Z :=
  match accounts !! Z.to_nat i with
  | Some a =>
      match list_find (fun c => ps_address c = ps_address a) accounts with
      | Some (j, _) => Z.of_nat j
      | None => i
      end
  | None => i
  end.

Definition canonical_acct (accounts : list AcctState) (p : InstrAcct) : InstrAcct :=
  mkInstrAcct (first_index accounts (pi_index p)) (pi_is_writable p) (pi_is_signer p).

(** With distinct addresses an index stays. *)
Lemma first_index_distinct accounts i :
  NoDup (map ps_address accounts) -> (0 <= i)%Z -> first_index accounts i = i.
Proof.
  intros Hnd Hi. unfold first_index. destruct (accounts !! Z.to_nat i) as [a|] eqn:Ha; [|done].
  destruct (list_find _ accounts) as [[j b]|] eqn:Hf; [|done].
  apply list_find_Some in Hf as (Hj & He & _). rewrite <- (Z2Nat.id i) by done. f_equal.
  eapply NoDup_lookup; [exact Hnd| |]; change (map ps_address accounts) with (ps_address <$> accounts);
    rewrite list_lookup_fmap; [by rewrite Hj|rewrite Ha; cbn; by rewrite He].
Qed.

(** Finding an imported account by its address is finding it in the message by its bytes. *)
Lemma find_imported (accounts : list AccountSnapshot) i a :
  Forall snapshot_ok accounts -> accounts !! i = Some a ->
  exists j b, list_find (fun c => as_address c = as_address a) accounts = Some (j, b) /\ j <= i /\
    list_find (fun c => ps_address c = address_to_bytes (as_address a))
      (map account_snapshot_to_proto accounts) = Some (j, account_snapshot_to_proto b).
Proof.
  intros Hok Hi.
  destruct (list_find_elem_of (fun c => as_address c = as_address a) accounts a) as [[j b] Hf];
    [by apply list_elem_of_lookup; eauto|done|].
  exists j, b. split; [done|]. apply list_find_Some in Hf as (Hj & He & Hfirst). split.
  { destruct (decide (j <= i)); [done|]. destruct (Hfirst i a); [done|lia|done]. }
  change (map account_snapshot_to_proto accounts) with (account_snapshot_to_proto <$> accounts).
  apply list_find_Some. rewrite list_lookup_fmap, Hj. cbn -[address_to_bytes].
  split_and!; [done|by rewrite He|].
  intros k c Hk Hlt Hc. rewrite list_lookup_fmap in Hk.
  destruct (accounts !! k) as [c'|] eqn:Hk'; [|done]. injection Hk as <-.
  cbn -[address_to_bytes] in Hc. apply (Hfirst k c' Hk' Hlt).
  pose proof (address_to_from (as_address c') "" (proj1 (Forall_lookup_1 _ _ _ _ Hok Hk'))) as H1.
  pose proof (address_to_from (as_address a) "" (proj1 (Forall_lookup_1 _ _ _ _ Hok Hi))) as H2.
  rewrite Hc in H1. congruence.
Qed.

Lemma meta_from_to accounts p meta :
  Forall snapshot_ok accounts -> (0 <= pi_index p <= u32_max)%Z ->
  instruction_account_from_proto accounts p = Ok meta ->
  instruction_account_to_proto accounts meta =
    Ok (canonical_acct (map account_snapshot_to_proto accounts) p).
Proof.
  intros Hok Hr. unfold instruction_account_from_proto, instruction_account_to_proto.
  destruct (accounts !! Z.to_nat (pi_index p)) as [a|] eqn:Ha; [|done]. cbn [ok_or rbind].
  intros [= <-]. cbn [iam_pubkey iam_is_writable iam_is_signer].
  destruct (find_imported _ _ _ Hok Ha) as (j & b & -> & Hle & Hm). cbn [ok_or rbind fst].
  rewrite (proj2 (Z.leb_le _ _)) by lia. unfold canonical_acct, first_index.
  assert (E : map account_snapshot_to_proto accounts !! Z.to_nat (pi_index p) = Some (account_snapshot_to_proto a)).
  { change (map account_snapshot_to_proto accounts) with (account_snapshot_to_proto <$> accounts).
    by rewrite list_lookup_fmap, Ha. }
  rewrite E. cbn [ps_address account_snapshot_to_proto]. by rewrite Hm.
Qed.

Lemma meta_to_from accounts meta p :
  instruction_account_to_proto accounts meta = Ok p ->
  instruction_account_from_proto accounts p = Ok meta.
Proof.
  unfold instruction_account_from_proto, instruction_account_to_proto.
  destruct (list_find _ accounts) as [[i a]|] eqn:Hf; [|done]. cbn.
  destruct (Z.leb_spec (Z.of_nat i) u32_max); [|done]. intros [= <-]. cbn. rewrite Nat2Z.id.
  apply list_find_Some in Hf as (Hi & Ha & _). rewrite Hi. cbn. rewrite Ha. by destruct meta.
Qed.

Lemma metas_from_to accounts l metas :
  Forall snapshot_ok accounts -> Forall (fun a => (0 <= pi_index a <= u32_max)%Z) l ->
  traverse (instruction_account_from_proto accounts) l = Ok metas ->
  instruction_accounts_to_proto accounts metas =
    Ok (map (canonical_acct (map account_snapshot_to_proto accounts)) l).
Proof.
  intros Hok Hr Hm. apply traverse_Ok_Forall2 in Hm. unfold instruction_accounts_to_proto.
  induction Hm as [|x y l ys Hx _ IH]; [done|]. apply Forall_cons in Hr as [Hr1 Hr2].
  cbn [traverse map]. rewrite (meta_from_to _ _ _ Hok Hr1 Hx). cbn [rbind]. by rewrite IH.
Qed.

(** Accounts that were imported are exported as they came, and are in range. *)
Lemma accounts_imported field protos accounts :
  traverse (account_snapshot_from_proto field) protos = Ok accounts ->
  map account_snapshot_to_proto accounts = protos /\ Forall snapshot_ok accounts.
Proof.
  intros H. split.
  - eapply traverse_inverse; [|exact H]. intros x y Hy. by apply account_from_to in Hy as [? _].
  - apply traverse_Ok_Forall2 in H. induction H as [|x y l ys Hx _ IH]; [constructor|].
    constructor; [|done]. by apply account_from_to in Hx as [_ ?].
Qed.

(** ** The conversions *)
Section Conversions.
Context {dsp : ExternalDisplay}.

(** The message a fixture is exported to when [p] was imported: the metadata and
    the slot are filled in, the epoch is dropped, and an instruction account names the
    first account with its address. *)
Definition canonical (name : string) (input : InstrContext) (output : InstrEffects) : InstrFixture :=
  mkInstrFixture (Some name)
    (Some (mkInstrContext (pc_program_id input) (pc_accounts input)
             (map (canonical_acct (pc_accounts input)) (pc_instr_accounts input)) (pc_data input) (pc_cu_avail input) (Some (default 0%Z (pc_slot_context input))) None))
    (Some output).

(** What [import] takes from a message it accepts. *)
Lemma import_parts p f :
  fixture_of_firedancer p = Ok f ->
  exists input output i st,
    pf_input p = Some input /\ pf_output p = Some output /\ fx_input f = InputInstruction i /\
    traverse (account_snapshot_from_proto "input.accounts") (pc_accounts input) = Ok (if_pre_accounts i) /\
    traverse (instruction_account_from_proto (if_pre_accounts i)) (pc_instr_accounts input) =
      Ok (if_accounts i) /\
    traverse (account_snapshot_from_proto "output.modified_accounts") (pe_modified_accounts output) =
      Ok (es_post_accounts (fe_baseline (fx_expectations f))) /\
    address_from_bytes (pc_program_id input) "input.program_id" = Ok (if_program_id i) /\
    checked_sub_u64 (pc_cu_avail input) (pe_cu_avail output) =
      Some (es_compute_units_consumed (fe_baseline (fx_expectations f))) /\
    status_from_output (pe_result output) (pe_custom_err output) = Ok st /\
    es_status (fe_baseline (fx_expectations f)) = st /\
    es_return_data (fe_baseline (fx_expectations f)) =
      return_data_from_output (if_program_id i) (pe_return_data output) /\
    if_data i = pc_data input /\ rfc_slot (if_runtime i) = default 0%Z (pc_slot_context input) /\
    rfc_compute_unit_limit (if_runtime i) = Some (pc_cu_avail input) /\
    fh_name (fx_header f) = firedancer_name (pf_metadata p) (if_program_id i).
Proof.
  unfold fixture_of_firedancer. destruct (pf_input p) as [input|]; [|done]. cbn [ok_or rbind].
  destruct (pf_output p) as [output|]; [|done]. cbn [ok_or rbind].
  destruct (traverse (account_snapshot_from_proto "input.accounts") _) as [pre|] eqn:Hpre; [|done]. cbn [rbind].
  destruct (traverse (instruction_account_from_proto pre) _) as [metas|] eqn:Hm; [|done]. cbn [rbind].
  destruct (traverse (account_snapshot_from_proto "output.modified_accounts") _) as [post|] eqn:Hpost; [|done].
  cbn [rbind]. destruct (address_from_bytes (pc_program_id input) _) as [k|] eqn:Hk; [|done]. cbn [rbind].
  destruct (checked_sub_u64 _ _) as [units|] eqn:Hu; [|done]. cbn [ok_or rbind].
  destruct (status_from_output _ _) as [st|] eqn:Hst; [|done]. cbn [rbind]. intros [= <-].
  exists input, output. eexists _, st. split_and!; try done.
Qed.

(** C34: Exporting what was imported gives the message back, up to accounts that share an
    address.  A message that is imported and whose integers are in range is exported with
    the metadata and the slot filled in when they were absent and the epoch dropped;
    accounts, data, status, return data, compute units and the flags of the instruction
    accounts are the same, and an instruction account gets the index of the first account
    that has its address: its own index when the addresses are distinct, an earlier one,
    of another account, when they are not. *)
Theorem import_export_roundtrip (p : InstrFixture) (f : Fixture) (input : InstrContext)
    (output : InstrEffects) :
  fixture_of_firedancer p = Ok f ->
  pf_input p = Some input -> pf_output p = Some output ->
  Forall (fun a => (0 <= pi_index a <= u32_max)%Z) (pc_instr_accounts input) ->
  (0 <= pe_cu_avail output)%Z ->
  firedancer_of_fixture f = Ok (canonical (fh_name (fx_header f)) input output) /\
  (NoDup (map ps_address (pc_accounts input)) ->
   map (canonical_acct (pc_accounts input)) (pc_instr_accounts input) = pc_instr_accounts input) /\
  (forall name, pf_metadata p = Some name -> name <> ""%string -> fh_name (fx_header f) = name).
Proof.
  intros Hf Hin Hout Hidx Hcu.
  destruct (import_parts p f Hf) as (input' & output' & i & st & Hin' & Hout' & Hi & Hpre & Hm & Hpost &
    Hk & Hu & Hst & Es & Er & Ed & Esl & El & En).
  rewrite Hin in Hin'. rewrite Hout in Hout'. injection Hin' as <-. injection Hout' as <-. split_and!.
  - unfold firedancer_of_fixture. rewrite Hi, El. cbn [ok_or rbind].
    unfold checked_sub_u64 in Hu. destruct (Z.leb_spec (pe_cu_avail output) (pc_cu_avail input)); [|done].
    injection Hu as <-. unfold checked_sub_u64. rewrite (proj2 (Z.leb_le _ _)) by lia. cbn [ok_or rbind].
    destruct (accounts_imported _ _ _ Hpre) as [Hacc Hok].
    rewrite (metas_from_to _ _ _ Hok Hidx Hm). cbn [rbind].
    unfold snapshot_to_proto_effects. rewrite Es, (status_from_to _ _ _ Hst). cbn [rbind].
    rewrite Er, return_data_from_to. cbn [rbind].
    destruct (accounts_imported _ _ _ Hpost) as [Hmod _].
    rewrite Hacc, Hmod, Ed, Esl. apply address_from_to in Hk as [-> _].
    replace (pc_cu_avail input - (pc_cu_avail input - pe_cu_avail output))%Z with (pe_cu_avail output) by lia.
    by destruct output.
  - intros Hnd. rewrite <- (map_id (pc_instr_accounts input)) at 2. apply map_ext_in. intros a Ha.
    apply list_elem_of_In in Ha. eapply Forall_forall in Hidx; [|exact Ha].
    unfold canonical_acct. rewrite first_index_distinct by (done || lia). by destruct a.
  - intros name Hname Hne. rewrite En, Hname. cbn. by destruct (String.eqb_spec name "").
Qed.

(** ** Exporting first *)

(** The fixture that comes back: its name unless it is empty, the slot and the
    budget of its configuration, its accounts and data, and of its expectations the
    status, the units, the return data and the accounts. *)
Definition reimported (f : Fixture) (i : InstructionFixture) (limit : Z) (st : ExecutionStatus) : Fixture :=
  let baseline := fe_baseline (fx_expectations f) in
  mkFixture
    (mkFixtureHeader CURRENT_SCHEMA_VERSION
       (firedancer_name (Some (fh_name (fx_header f))) (if_program_id i)) KindInstruction
       (Some FIREDANCER_SOURCE) [FIREDANCER_TAG])
    (InputInstruction
       (mkInstructionFixture
          (mkRuntimeFixtureConfig (rfc_slot (if_runtime i)) None false false (Some limit))
          [] (if_pre_accounts i) (if_program_id i) (if_accounts i) (if_data i)))
    (mkFixtureExpectations
       (mkExecutionSnapshot st true (es_compute_units_consumed baseline) 0 []
          (match es_return_data baseline with
           | Some r => return_data_from_output (if_program_id i) (rds_data r)
           | None => None
           end) [] (es_post_accounts baseline))
       (compares_for_post_accounts (es_post_accounts baseline))).

(** The status that comes back, or that the import refuses. *)
Definition reimported_status (st : ExecutionStatus) : result ExecutionStatus AdapterError :=
  match st with
  | StatusSuccess => Ok StatusSuccess
  | StatusFailure (ProgramResult r) =>
      if (r =? 0)%Z then Ok StatusSuccess else Ok (StatusFailure (ProgramResult r))
  | StatusFailure (FailureCustomError c) =>
      if (c =? 0)%Z then Ok (StatusFailure (ProgramResult 1))
      else Ok (StatusFailure (ProgramResultWithCustomError 1 c))
  | StatusFailure (ProgramResultWithCustomError r c) =>
      if (c =? 0)%Z then
        if (r =? 0)%Z then Ok StatusSuccess else Ok (StatusFailure (ProgramResult r))
      else if (r =? 0)%Z then Err (InconsistentExecutionStatus r c)
      else Ok (StatusFailure (ProgramResultWithCustomError r c))
  | StatusFailure (FailureOther kind _) => Err (UnsupportedExecutionStatus kind)
  end.

Lemma status_to_from st :
  rbind (status_to_output st) (fun o => status_from_output o.1 o.2) = reimported_status st.
Proof.
  destruct st as [|[r|c|r c|k m]]; cbn; unfold status_from_output; [done| | | |done].
  - by destruct (r =? 0)%Z.
  - by destruct (c =? 0)%Z.
  - by destruct (r =? 0)%Z, (c =? 0)%Z.
Qed.

(** What comes back from an export is exactly known.  An instruction fixture that
    is exported and imported again keeps its accounts, instruction, budget, slot,
    units, return data and post-accounts; source, tags, bindings, logs, fee and inner
    instructions are lost, inclusion becomes true and the comparisons are those the
    import derives.  The status survives for success, program results and pairs; a
    custom error comes back as a pair with result one, and a failure with result zero
    comes back as success or is refused. *)
Theorem export_import_exact (f : Fixture) (i : InstructionFixture) (limit : Z) (p : InstrFixture) :
  fx_input f = InputInstruction i -> rfc_compute_unit_limit (if_runtime i) = Some limit ->
  address_ok (if_program_id i) -> Forall snapshot_ok (if_pre_accounts i) ->
  Forall snapshot_ok (es_post_accounts (fe_baseline (fx_expectations f))) ->
  (0 <= es_compute_units_consumed (fe_baseline (fx_expectations f)))%Z ->
  firedancer_of_fixture f = Ok p ->
  fixture_of_firedancer p =
    rmap (reimported f i limit) (reimported_status (es_status (fe_baseline (fx_expectations f)))).
Proof.
  intros Hi Hl Hk Hpre Hpost Hu. unfold firedancer_of_fixture. rewrite Hi, Hl. cbn [ok_or rbind].
  set (b := fe_baseline (fx_expectations f)) in *. unfold checked_sub_u64 at 1.
  destruct (Z.leb_spec (es_compute_units_consumed b) limit) as [Hle|]; [|done]. cbn [ok_or rbind].
  destruct (instruction_accounts_to_proto _ _) as [metas|] eqn:Hm; [|done]. cbn [rbind].
  unfold snapshot_to_proto_effects. pose proof (status_to_from (es_status b)) as Hst.
  destruct (status_to_output (es_status b)) as [[r c]|e] eqn:Ho; [|done]. cbn [rbind].
  destruct (return_data_to_output _ _) as [data|] eqn:Hd; [|done]. cbn [rbind]. intros [= <-].
  unfold fixture_of_firedancer. cbn [pf_input pf_output ok_or rbind pc_accounts pc_instr_accounts
    pe_modified_accounts pc_program_id pc_cu_avail pe_cu_avail pe_result pe_custom_err].
  rewrite traverse_map_id; [|intros x Hx; apply account_to_from; by eapply Forall_forall in Hpre].
  cbn [rbind]. assert (Hms : traverse (instruction_account_from_proto (if_pre_accounts i)) metas =
    Ok (if_accounts i)).
  { apply traverse_Ok_Forall2. apply traverse_Ok_Forall2, Forall2_flip in Hm.
    eapply Forall2_impl; [exact Hm|]. intros x y. apply meta_to_from. }
  rewrite Hms. cbn [rbind].
  rewrite traverse_map_id; [|intros x Hx; apply account_to_from; by eapply Forall_forall in Hpost].
  cbn [rbind]. rewrite address_to_from by done. cbn [rbind]. unfold checked_sub_u64.
  rewrite (proj2 (Z.leb_le _ _)) by lia. cbn [ok_or rbind fst snd]. cbn in Hst. rewrite <- Hst.
  destruct (status_from_output r c) as [st|e]; [|done]. cbn [rbind rmap]. unfold reimported. fold b.
  replace (limit - (limit - es_compute_units_consumed b))%Z with (es_compute_units_consumed b) by lia.
  destruct (es_return_data b) as [rd|]; cbn in Hd; [|by injection Hd as <-].
  destruct (bool_decide_reflect (rds_program_id rd = if_program_id i)); [|done]. by injection Hd as <-.
Qed.

End Conversions.

(** ** Files *)
Section Files.
Context {fdc : FiredancerCodec} {fdl : FiredancerCodecLaws}.

(** What is saved loads back; nothing else on the disk changes. *)
Theorem fd_save_load (f : InstrFixture) (p : Path) (d d' : Disk) :
  fd_save f p d = (Ok tt, d') ->
  fd_load p d' = Ok f /\ forall q, q <> p -> disk_files d' !! q = disk_files d !! q.
Proof.
  unfold fd_save, fd_load, sbind, slift. destruct (fd_format_for_path p) as [[|]|e]; [| |done].
  - unfold fd_put. destruct (disk_refusal d p); [done|]. intros [= <-]. cbn [rbind].
    unfold fd_read. cbn. rewrite lookup_insert_eq. cbn. rewrite proto_roundtrip.
    split; [done|]. intros q Hq. by rewrite lookup_insert_ne.
  - destruct (fd_json_encode f) as [bytes|[m w]] eqn:He.
    + unfold fd_put. destruct (disk_refusal d p); [done|]. intros [= <-]. cbn [rbind].
      unfold fd_read. cbn. rewrite lookup_insert_eq. cbn. rewrite (fd_json_roundtrip _ _ He).
      split; [done|]. intros q Hq. by rewrite lookup_insert_ne.
    + unfold fd_put. by destruct (disk_refusal d p).
Qed.

End Files.
