(* ===== verification/Commands.v ===== *)
(** * The command line, [bin/hpsvm-cli/src/main.rs]

    The commands once [clap] has parsed them: the fixture formats and the loading of
    either ([fixture.rs]), inspecting, running and comparing every fixture of a
    directory, recording, the compute-unit report, the dispatch of [run] and the exit
    status of [main].  The lines a command prints, on either stream, are part of the
    state, in the order they are written. *)

From Stdlib Require Import ZArith Lia Strings.Byte Strings.String.
From stdpp Require Import base tactics option list sets gmap strings.
From S2P Require Import Prelude.
From S2P Require Import Types.
From S2P Require Import Errors.
From S2P Require Import Lru.
From S2P Require Import History.
From S2P Require Import Runtime.
From S2P Require Import AccountsDb.
From S2P Require Import FeePayer.
From S2P Require Import Version.
From S2P Require Import TxRuntime.
From S2P Require Import Svm.
From S2P Require Import Execution.
From S2P Require Import Staging.
From S2P Require Import VmPrograms.
From S2P Require Import VmOps.
From S2P Require Import Fixture.
From S2P Require Import FixtureRun.
From S2P Require Import Cli.
From S2P Require Import Bench.
From S2P Require Import Firedancer.

(** ** Formats and errors *)

Inductive FixtureFormatArg : Type := FormatHpsvm | FormatFiredancer.

(** [CliError]: what [record], [run] and [compare] raise themselves is in [Cli]. *)
Inductive CommandError : Type :=
| CmdCli (error : CliError)
| CmdBench (error : BenchError)
| CmdFiredancer (error : AdapterError)
| CmdJson (message : string)
| FiredancerCompatDisabled.

(** The error of [cu report], which the benchmarks state apart. *)
Definition command_error_of_cu (e : CuError) : CommandError :=
  match e with CuCli e => CmdCli e | CuBench e => CmdBench e end.

(** The lines the commands print; a [Note] is what a verbose comparison writes about the
    predicate that does not hold. *)
Inductive Line : Type :=
| Note (text : string)
| Pass (name : string)
| Fail (name : string)
| Recorded (path : string)
| Document (text : string)
| Diagnostic (error : CommandError).

(** Whether the binary is built with the [fd-compat] feature. *)
Class Build : Type := { fd_compat : bool }.

Definition is_fixture_file (format : FixtureFormatArg) (p : Path) : bool :=
  match path_extension p with
  | None => false
  | Some extension =>
      match format with
      | FormatHpsvm => String.eqb extension "json" || String.eqb extension "bin"
      | FormatFiredancer => String.eqb extension "fix" || String.eqb extension "json"
      end
  end.

(** ** Commands, as parsed *)

Inductive CuCommand : Type :=
| Report (fixture : Path) (fixture_format : FixtureFormatArg) (output_dir : string)
    (baseline_dir : option string) (programs : list string) (must_pass : bool).

Inductive FixtureCommand : Type :=
| Inspect (fixture : Path) (fixture_format : FixtureFormatArg)
| Run (fixture : Path) (fixture_format : FixtureFormatArg) (programs : list string)
| Compare_ (fixture : Path) (fixture_format : FixtureFormatArg)
    (baseline_programs candidate_programs : list string) (config : option Path)
    (ignore_compute_units : bool)
| Record_ (request : RecordRequest).

Inductive Command : Type :=
| Cu (command : CuCommand)
| FixtureCmd (command : FixtureCommand).

Section Commands.
Context {tgt : Target} {ids : SdkIds} {sv : SysvarRuntime} {pr : ProgramRuntime}
        {pc : ProgramCacheOps} {Lst : Lru ProgramEntryKey Entry}
        {Lhist : Lru Signature TransactionResult} {fs : FeatureSets} {bud : Budgets}
        {tx : TxRuntime} {lt : LookupTables} {sp : SystemProgram} {uc : UserCode}
        {dr : DeployRuntime} {vr : VmRuntime} {fc : FixtureCodec} {fd : FixtureDisplay}
        {rc : ReportCodec} {cr : CliRuntime} {dsp : ExternalDisplay} {fdc : FiredancerCodec}
        {build : Build}.

(** What a command reads and changes: the fixtures, the reports, the directories,
    the world its VMs live in and what has been printed. *)
Record Os : Type := mkOs {
  os_disk : Disk;
  os_reports : ReportDisk;
  os_listing : Path -> option (list (Path * bool));
  os_world : World;
  os_printed : list Line
}.

(** The address [Address::new_unique] gives next, the clock and runtime version of a
    report, and [HPSVM::new()] in a world. *)
Record Env : Type := mkEnv {
  env_unique : Address;
  env_stamp : string * string;
  env_fresh : World -> VmSt
}.

Definition os_advance (w : World) (lines : list Line) (o : Os) : Os :=
  mkOs (os_disk o) (os_reports o) (os_listing o) w (os_printed o ++ lines).

Definition load_fixture (p : Path) (format : FixtureFormatArg) (d : Disk) :
    result Fixture CommandError :=
  match format with
  | FormatHpsvm => map_err (fun e => CmdCli (CliFixture e)) (load p d)
  | FormatFiredancer =>
      if fd_compat then map_err CmdFiredancer (load_firedancer_fixture p d)
      else Err FiredancerCompatDisabled
  end.

Definition inspect_fixture (p : Path) (format : FixtureFormatArg) (d : Disk) :
    result string CommandError :=
  let? f := load_fixture p format d in map_err CmdJson (json_encode f).

(** One fixture of [run], with the lines of its comparison: its name when it passes. *)
Definition run_step (e : Env) (format : FixtureFormatArg) (programs : gmap Address ByteSlice)
    (d : Disk) (p : Path) (w : World) : option (result string CommandError * World * list string) :=
  match load_fixture p format d with
  | Err error => Some (Err error, w, [])
  | Ok f =>
      match run_loaded (env_unique e) (env_fresh e) programs f w with
      | None => None
      | Some (r, w', lines) =>
          Some (map_err CmdCli (let? _ := r in Ok (fh_name (fx_header f))), w', lines)
      end
  end.

(** One fixture of [compare]. *)
Definition compare_step (e : Env) (format : FixtureFormatArg)
    (baseline_programs candidate_programs : gmap Address ByteSlice) (config_path : option Path)
    (ignore_compute_units : bool) (d : Disk) (p : Path) (w : World) :
    option (result string CommandError * World * list string) :=
  match (let? f := load_fixture p format d in
         let? compares := map_err CmdCli (load_compares config_path
                            (fe_compares (fx_expectations f)) ignore_compute_units d) in
         Ok (f, compares)) with
  | Err error => Some (Err error, w, [])
  | Ok (f, compares) =>
      match compare_loaded (env_unique e) (env_fresh e) baseline_programs candidate_programs f
              compares w with
      | None => None
      | Some (r, w', lines) =>
          Some (map_err CmdCli (let? _ := r in Ok (fh_name (fx_header f))), w', lines)
      end
  end.

(** The [FAIL] line, printed before the error of a comparison is returned. *)
Definition failure_line (e : CommandError) : list Line :=
  match e with CmdCli (ComparisonFailed name) => [Fail name] | _ => [] end.

(** The loop of [run_fixture] and of [compare_fixture]; [None] is a panic. *)
Fixpoint each_fixture
    (step : Path -> World -> option (result string CommandError * World * list string)) (l : list Path) (w : World) : option (result unit CommandError * World * list Line) :=
  match l with
  | [] => Some (Ok tt, w, [])
  | p :: rest =>
      match step p w with
      | None => None
      | Some (Err e, w', notes) => Some (Err e, w', map Note notes ++ failure_line e)
      | Some (Ok name, w', notes) =>
          match each_fixture step rest w' with
          | None => None
          | Some (r, w2, lines) => Some (r, w2, map Note notes ++ Pass name :: lines)
          end
      end
  end.

(** The fixtures at a path, then the loop over them. *)
Definition over_fixtures
    (step : Path -> World -> option (result string CommandError * World * list string)) (p : Path) (format : FixtureFormatArg) (o : Os) : option (result unit CommandError * Os) :=
  match fixture_paths (is_fixture_file format) p (os_listing o p) with
  | Err e => Some (Err (CmdCli e), o)
  | Ok paths =>
      match each_fixture step paths (os_world o) with
      | None => None
      | Some (r, w, lines) => Some (r, os_advance w lines o)
      end
  end.

Definition run_fixtures (e : Env) (p : Path) (format : FixtureFormatArg) (program_args : list string)
    (o : Os) : option (result unit CommandError * Os) :=
  match parse_program_map program_args (os_disk o) with
  | Err error => Some (Err (CmdCli error), o)
  | Ok programs => over_fixtures (run_step e format programs (os_disk o)) p format o
  end.

Definition compare_fixtures (e : Env) (p : Path) (format : FixtureFormatArg)
    (baseline_program_args candidate_program_args : list string) (config_path : option Path)
    (ignore_compute_units : bool) (o : Os) : option (result unit CommandError * Os) :=
  match (let? baseline_programs := parse_program_map baseline_program_args (os_disk o) in
         let? candidate_programs := parse_program_map candidate_program_args (os_disk o) in
         Ok (baseline_programs, candidate_programs)) with
  | Err error => Some (Err (CmdCli error), o)
  | Ok (baseline_programs, candidate_programs) =>
      over_fixtures (compare_step e format baseline_programs candidate_programs config_path
                       ignore_compute_units (os_disk o)) p format o
  end.

(** [report_compute_units]. *)
Definition cu_report (e : Env) (p : Path) (format : FixtureFormatArg) (output_dir : string)
    (baseline_dir : option string) (program_args : list string) (must_pass : bool) (o : Os) :
    option (result unit CommandError * Os) :=
  match (let? f := load_fixture p format (os_disk o) in
         let? programs := map_err CmdCli (parse_program_map program_args (os_disk o)) in
         Ok (f, programs)) with
  | Err error => Some (Err error, o)
  | Ok (f, programs) =>
      match report_loaded (env_unique e) (env_stamp e) (env_fresh e) f output_dir baseline_dir
              programs must_pass (os_world o) (os_reports o) with
      | None => None
      | Some (r, w, reports, notes) =>
          let r := map_err command_error_of_cu r in
          let lines := match r with
                       | Ok _ => [Pass (fh_name (fx_header f))]
                       | Err error => failure_line error
                       end in
          Some (r, mkOs (os_disk o) reports (os_listing o) w
                     (os_printed o ++ map Note notes ++ lines))
      end
  end.

(** [record_fixture], with the line it prints. *)
Definition record_command (e : Env) (rq : RecordRequest) (o : Os) :
    option (result unit CommandError * Os) :=
  match record_fixture rq (env_fresh e (os_world o)) (os_disk o) with
  | None => None
  | Some (r, d, w) =>
      let lines := match r with Ok _ => [Recorded (path_display (rq_output rq))] | Err _ => [] end in
      Some (map_err CmdCli r, mkOs d (os_reports o) (os_listing o) w (os_printed o ++ lines))
  end.

(** [run]. *)
Definition run (e : Env) (c : Command) (o : Os) : option (result unit CommandError * Os) :=
  match c with
  | Cu (Report fixture fixture_format output_dir baseline_dir programs must_pass) =>
      cu_report e fixture fixture_format output_dir baseline_dir programs must_pass o
  | FixtureCmd (Inspect fixture fixture_format) =>
      match inspect_fixture fixture fixture_format (os_disk o) with
      | Err error => Some (Err error, o)
      | Ok text => Some (Ok tt, os_advance (os_world o) [Document text] o)
      end
  | FixtureCmd (Run fixture fixture_format programs) =>
      run_fixtures e fixture fixture_format programs o
  | FixtureCmd (Compare_ fixture fixture_format baseline_programs candidate_programs config
                  ignore_compute_units) =>
      compare_fixtures e fixture fixture_format baseline_programs candidate_programs config
        ignore_compute_units o
  | FixtureCmd (Record_ request) => record_command e request o
  end.

(** [main]: the exit status. *)
Definition main (e : Env) (c : Command) (o : Os) : option (Z * Os) :=
  match run e c o with
  | None => None
  | Some (Ok _, o') => Some (0%Z, o')
  | Some (Err error, o') => Some (1%Z, os_advance (os_world o') [Diagnostic error] o')
  end.

End Commands.
