(* ===== verification/CommandsFacts.v ===== *)
(** * Theorems about the command line

    A recorded fixture passes when it is run; a run judges the fixtures of a directory in
    order, up to the first that does not pass; and no command writes anything but its own output. *)

From Stdlib Require Import ZArith Lia Strings.Byte Strings.String.
From stdpp Require Import base tactics option list sorting sets gmap strings.
From S2P Require Import Prelude.
From S2P Require Import Types.
From S2P Require Import Errors.
From S2P Require Import Lru.
From S2P Require Import History.
From S2P Require Import Runtime.
From S2P Require Import AccountsDb.
From S2P Require Import FeePayer.
From S2P Require Import Version.
From S2P Require Import TxRuntime.
From S2P Require Import Svm.
From S2P Require Import Execution.
From S2P Require Import Staging.
From S2P Require Import VmPrograms.
From S2P Require Import VmOps.
From S2P Require Import Fixture.
From S2P Require Import FixtureFacts.
From S2P Require Import FixtureRun.
From S2P Require Import FixtureRunFacts.
From S2P Require Import Cli.
From S2P Require Import CliFacts.
From S2P Require Import Bench.
From S2P Require Import BenchFacts.
From S2P Require Import Firedancer.
From S2P Require Import Commands.

Section CommandFacts.
Context {tgt : Target} {ids : SdkIds} {sv : SysvarRuntime} {pr : ProgramRuntime}
        {pc : ProgramCacheOps} {Lst : Lru ProgramEntryKey Entry}
        {Lhist : Lru Signature TransactionResult} {fs : FeatureSets} {bud : Budgets}
        {tx : TxRuntime} {lt : LookupTables} {sp : SystemProgram} {uc : UserCode}
        {dr : DeployRuntime} {vr : VmRuntime} {fc : FixtureCodec} {cl : CodecLaws}
        {fd : FixtureDisplay} {rc : ReportCodec} {cr : CliRuntime} {crl : CliLaws}
        {dsp : ExternalDisplay} {fdc : FiredancerCodec} {build : Build}.

(** ** Recording and running *)


(** ** Directories *)

(** A comparison that holds writes nothing, and one that does not writes the first
    predicate that fails. *)
Lemma compare_with_lines left right compares pass lines :
  compare_with left right compares cli_config = Some (pass, lines) ->
  (pass = true /\ lines = [] /\ Forall (fun c => compare_holds left right c = true) compares) \/
  (pass = false /\ exists held c rest, compares = held ++ c :: rest /\
     Forall (fun c => compare_holds left right c = true) held /\
     compare_holds left right c = false /\
     lines = [("comparison failed: " ++ debug_compare c)%string]).
Proof.
  unfold compare_with, try_compare_with. induction compares as [|c l IH]; cbn [first_failure].
  - intros [= <- <-]. by left.
  - destruct (compare_holds left right c) eqn:Hc.
    + intros H. destruct (IH H) as [(-> & -> & Hf)|(-> & held & x & rest & -> & Hf & Hx & ->)].
      * left. by auto.
      * right. split; [done|]. exists (c :: held), x, rest. by split_and!; [|constructor| |].
    + cbn. intros [= <- <-]. right. split; [done|]. exists [], c, l. by split_and!.
Qed.

Section Verdicts.
Context (e : Env) (format : FixtureFormatArg) (programs : gmap Address ByteSlice) (d : Disk).

(** The replay of a fixture in a world, on a fresh VM that has the programs bound. *)
Definition replays (f : Fixture) (w : World) (r : result FixtureExecution FixtureError)
    (w' : World) : Prop :=
  match preload_runner (runner_new (env_fresh e w).1) f programs with
  | Err error => r = Err error /\ w' = (env_fresh e w).2
  | Ok runner => exists ob, run_fixture (env_unique e) runner f (env_fresh e w).2 = Some (r, w', ob)
  end.

(** Which comparisons an execution satisfies. *)
Definition satisfies (f : Fixture) (ex : FixtureExecution) (l : list Compare) : Prop :=
  Forall (fun c => compare_holds (fex_snapshot ex) (fe_baseline (fx_expectations f)) c = true) l.

(** Fixtures that pass one after the other, each in the world the one before it left. *)
Inductive pass_in_turn : World -> list Path -> list string -> World -> Prop :=
| pass_none w : pass_in_turn w [] [] w
| pass_next w p f ex w1 rest names w2 :
    load_fixture p format d = Ok f -> replays f w (Ok ex) w1 ->
    satisfies f ex (fe_compares (fx_expectations f)) ->
    pass_in_turn w1 rest names w2 ->
    pass_in_turn w (p :: rest) (fh_name (fx_header f) :: names) w2.

(** A fixture that does not pass in a world: the error and the lines before it. *)
Inductive fails_with (w : World) (p : Path) : CommandError -> list Line -> World -> Prop :=
| fails_load error :
    load_fixture p format d = Err error -> fails_with w p error [] w
| fails_replay f error w' :
    load_fixture p format d = Ok f -> replays f w (Err error) w' ->
    fails_with w p (CmdCli (CliFixture error)) [] w'
| fails_comparison f ex held c rest w' :
    load_fixture p format d = Ok f -> replays f w (Ok ex) w' ->
    fe_compares (fx_expectations f) = held ++ c :: rest -> satisfies f ex held ->
    compare_holds (fex_snapshot ex) (fe_baseline (fx_expectations f)) c = false ->
    fails_with w p (CmdCli (ComparisonFailed (fh_name (fx_header f))))
      [Note ("comparison failed: " ++ debug_compare c)%string; Fail (fh_name (fx_header f))] w'.

Lemma load_fixture_silent p error : load_fixture p format d = Err error -> failure_line error = [].
Proof.
  unfold load_fixture. destruct format; [|case_match; [|by intros [= <-]]];
    (match goal with |- map_err _ ?x = _ -> _ => destruct x end; [done|]; by intros [= <-]).
Qed.

Lemma run_loaded_cases f w r w' notes :
  run_loaded (env_unique e) (env_fresh e) programs f w = Some (r, w', notes) ->
  (r = Ok tt /\ notes = [] /\ exists ex, replays f w (Ok ex) w' /\
     satisfies f ex (fe_compares (fx_expectations f))) \/
  (exists error, r = Err (CliFixture error) /\ notes = [] /\ replays f w (Err error) w') \/
  (exists ex held c rest, r = Err (ComparisonFailed (fh_name (fx_header f))) /\
     notes = [("comparison failed: " ++ debug_compare c)%string] /\ replays f w (Ok ex) w' /\
     fe_compares (fx_expectations f) = held ++ c :: rest /\ satisfies f ex held /\
     compare_holds (fex_snapshot ex) (fe_baseline (fx_expectations f)) c = false).
Proof.
  unfold run_loaded, replays. destruct (preload_runner _ _ _) as [runner|error].
  2: { intros [= <- <- <-]. right. left. by exists error. }
  unfold run_and_validate. destruct (run_fixture _ runner f _) as [[[[ex|error] w1] ob]|]; [| |done].
  2: { intros [= <- <- <-]. right. left. exists error. by eauto. }
  destruct (compare_with _ _ _ _) as [[pass lines]|] eqn:Hc; [|done].
  intros [= <- <- <-].
  apply compare_with_lines in Hc as [(-> & -> & Hf)|(-> & held & c & rest & Heq & Hf & Hx & ->)].
  - left. split_and!; [done|done|]. exists ex. eauto.
  - right. right. exists ex, held, c, rest. split_and!; eauto.
Qed.

Lemma each_fixture_verdict l w r w' lines :
  each_fixture (run_step e format programs d) l w = Some (r, w', lines) ->
  (r = Ok tt /\ exists names, pass_in_turn w l names w' /\ lines = map Pass names) \/
  (exists before bad after names error w1 last, r = Err error /\ l = before ++ bad :: after /\
     pass_in_turn w before names w1 /\ fails_with w1 bad error last w' /\
     lines = map Pass names ++ last).
Proof.
  revert w lines. induction l as [|p l IH]; intros w lines; cbn [each_fixture].
  { intros [= <- <- <-]. left. split; [done|]. exists []. split; [constructor|done]. }
  unfold run_step at 1. destruct (load_fixture p format d) as [f|error] eqn:Hl.
  2: { rewrite (load_fixture_silent _ _ Hl). intros [= <- <- <-]. right.
       exists [], p, l, [], error, w, []. by split_and!; [..|constructor|constructor|]. }
  destruct (run_loaded _ _ programs f w) as [[[r1 w1] notes]|] eqn:Hr; [|done].
  apply run_loaded_cases in Hr
    as [(-> & -> & ex & Hrep & Hs)|[(error & -> & -> & Hrep)|(ex & held & c & rest & -> & -> & Hrep & Hc & Hs & Hx)]];
    cbn [rbind map_err].
  - destruct (each_fixture _ l w1) as [[[r2 w2] ls]|] eqn:He; [|done]. intros [= <- <- <-].
    apply IH in He as [(-> & names & Hp & ->)|(before & bad & after & names & error & w3 & last & -> & -> & Hp & Hb & ->)].
    + left. split; [done|]. exists (fh_name (fx_header f) :: names). split; [|done]. by econstructor.
    + right. exists (p :: before), bad, after, (fh_name (fx_header f) :: names), error, w3, last.
      split_and!; try done. by econstructor.
  - intros [= <- <- <-]. right. exists [], p, l, [], (CmdCli (CliFixture error)), w, [].
    split_and!; try done; [constructor|]. by eapply fails_replay.
  - intros [= <- <- <-]. right. eexists [], p, l, [], _, w, _.
    split_and!; try done; [constructor|]. by eapply fails_comparison.
Qed.

End Verdicts.

(** C5: the verdict on a directory.  [hpsvm fixture run] on a directory takes its fixture
    files, each once, sorted by their paths.  It exits with 0 only if there is one and
    every one, in that order and each in the world the one before it left, was loaded,
    replayed and satisfied all its comparisons; what it prints is then exactly one [PASS]
    per fixture.  Otherwise it exits with 1 after the [PASS] of the fixtures before the
    first one that cannot be loaded, cannot be replayed or misses a comparison; in the
    last case it has printed the first comparison that does not hold and the [FAIL] of
    the fixture; the error follows, and the fixtures after it are not judged. *)
Theorem directory_verdict (e : Env) (p : Path) (format : FixtureFormatArg)
    (args : list string) (programs : gmap Address ByteSlice) (entries : list (Path * bool))
    (o o' : Os) (code : Z) :
  os_listing o p = Some entries ->
  parse_program_map args (os_disk o) = Ok programs ->
  main e (FixtureCmd (Run p format args)) o = Some (code, o') ->
  exists fixtures,
    fixtures ≡ₚ map fst (filter (fun x => x.2 && is_fixture_file format x.1 = true) entries) /\
    StronglySorted path_le fixtures /\
    ((code = 0%Z /\ fixtures <> [] /\ exists names,
        pass_in_turn e format programs (os_disk o) (os_world o) fixtures names (os_world o') /\
        os_printed o' = os_printed o ++ map Pass names) \/
     (code = 1%Z /\ fixtures = [] /\
        os_printed o' = os_printed o ++ [Diagnostic (CmdCli (NoFixturesInDirectory (path_display p)))]) \/
     (code = 1%Z /\ exists before bad after names error w last,
        fixtures = before ++ bad :: after /\
        pass_in_turn e format programs (os_disk o) (os_world o) before names w /\
        fails_with e format programs (os_disk o) w bad error last (os_world o') /\
        os_printed o' = os_printed o ++ map Pass names ++ last ++ [Diagnostic error])).
Proof.
  intros Hl Hp. unfold main. cbn [run]. unfold run_fixtures, over_fixtures. rewrite Hp, Hl.
  unfold fixture_paths.
  set (accepted := map fst (filter (fun x => x.2 && is_fixture_file format x.1 = true) entries)).
  destruct (path_sort_sorted accepted) as [Hperm Hsorted].
  destruct (path_sort accepted) as [|q rest] eqn:Hs; intros H; [exists []|exists (q :: rest)];
    (split; [done|split; [done|]]).
  - injection H as <- <-. right. by left.
  - destruct (each_fixture _ _ _) as [[[r w] lines]|] eqn:He; [|done].
    apply each_fixture_verdict in He
      as [(-> & names & Hf & ->)|(before & bad & after & names & error & w1 & last & -> & Hx & Hf & Hb & ->)];
      injection H as <- <-; cbn [os_advance os_world os_printed].
    + left. split_and!; [done|done|]. by exists names.
    + right. right. split; [done|]. exists before, bad, after, names, error, w1, last.
      by rewrite <- !(assoc_L (++)).
Qed.

(** ** What is written *)

Lemma save_frame f p format d q :
  q <> p -> disk_files (save f p format d).2 !! q = disk_files d !! q.
Proof.
  intros Hne. unfold save, json_save, binary_save, slift, sbind, disk_write.
  by destruct format; repeat (case_match; simplify_eq/=; rewrite ?lookup_insert_ne by done).
Qed.

Lemma record_fixture_frame rq fresh d r d' w q :
  record_fixture rq fresh d = Some (r, d', w) -> q <> rq_output rq ->
  disk_files d' !! q = disk_files d !! q.
Proof.
  intros H Hne. unfold record_fixture in H.
  repeat (case_match; simplify_eq/=; try done).
  by match goal with Hs : save ?f ?p ?m ?d = (_, ?d') |- _ =>
    pose proof (save_frame f p m d q Hne) as Hx; rewrite Hs in Hx end.
Qed.

Lemma rd_write_frame path contents d q :
  q <> path -> rd_files (rd_write path contents d).2 !! q = rd_files d !! q.
Proof. intros Hne. unfold rd_write. case_match; simpl; [done|]. by rewrite lookup_insert_ne. Qed.

Lemma write_report_frame r dir d q :
  q <> join dir BASELINE_REPORT_FILE_NAME -> q <> join dir MARKDOWN_REPORT_FILE_NAME ->
  rd_files (write_report r dir d).2 !! q = rd_files d !! q.
Proof.
  intros H1 H2. unfold write_report. case_match; [done|]. case_match; [|done]. unfold sbind.
  destruct (rd_write (join dir BASELINE_REPORT_FILE_NAME) _ d) as [[[]|] d1] eqn:Hw;
    rewrite ?rd_write_frame by done;
    pose proof (rd_write_frame (join dir BASELINE_REPORT_FILE_NAME) a d q H1) as Hf;
    by rewrite Hw in Hf.
Qed.

Lemma report_loaded_frame unique stamp fresh f out base programs must_pass w d r w' d' lines q :
  report_loaded unique stamp fresh f out base programs must_pass w d = Some (r, w', d', lines) ->
  q <> join out BASELINE_REPORT_FILE_NAME -> q <> join out MARKDOWN_REPORT_FILE_NAME ->
  rd_files d' !! q = rd_files d !! q.
Proof.
  intros H H1 H2. unfold report_loaded in H.
  assert (Hx : forall x w1 d1 ls, bencher_execute unique stamp (cu_bencher (fresh w).1 f out base programs must_pass)
      (fresh w).2 d = Some (x, w1, d1, ls) -> rd_files d1 !! q = rd_files d !! q).
  { intros x w1 d1 ls. destruct (cu_bencher_fields (fresh w).1 f out base programs must_pass)
      as (_ & _ & _ & _ & Ho & _).
    unfold bencher_execute. rewrite Ho. unfold write_to_dir.
    pose proof (fun r => write_report_frame r out d q H1 H2) as Hw.
    repeat (case_match; simplify_eq/=; try done); intros; simplify_eq; try done;
      match goal with He : write_report ?rep _ _ = _ |- _ => specialize (Hw rep); by rewrite He in Hw end. }
  destruct (bencher_execute _ _ _ _ _) as [[[[[rep|] w1] d1] ls]|] eqn:He; [| |done];
    specialize (Hx _ _ _ _ eq_refl); [destruct (forallb _ _)|]; by injection H as <- <- <- <-.
Qed.

Lemma over_fixtures_disks step p format o r o' :
  over_fixtures step p format o = Some (r, o') -> os_disk o' = os_disk o /\ os_reports o' = os_reports o.
Proof. unfold over_fixtures. intros H. by repeat (case_match; simplify_eq/=). Qed.

(** What a command may write. *)
Definition writes_fixture (c : Command) (p : Path) : Prop :=
  match c with FixtureCmd (Record_ rq) => p = rq_output rq | _ => False end.
Definition writes_report (c : Command) (p : string) : Prop :=
  match c with
  | Cu (Report _ _ out _ _ _) =>
      p = join out BASELINE_REPORT_FILE_NAME \/ p = join out MARKDOWN_REPORT_FILE_NAME
  | _ => False
  end.

(** C6: a command writes its own output and nothing else, whether it succeeds or fails:
    [record] changes no file but its output, [cu report] none but the two reports of its
    output directory (so not the baseline it compares with, unless that is the same
    directory), and [inspect], [run] and [compare] none at all. *)
Theorem commands_write_only_output (e : Env) (c : Command) (o o' : Os) (code : Z) :
  main e c o = Some (code, o') ->
  (forall p, disk_files (os_disk o') !! p <> disk_files (os_disk o) !! p -> writes_fixture c p) /\
  (forall p, rd_files (os_reports o') !! p <> rd_files (os_reports o) !! p -> writes_report c p).
Proof.
  intros Hm.
  assert (exists r o1, run e c o = Some (r, o1) /\ os_disk o' = os_disk o1 /\ os_reports o' = os_reports o1)
    as (r & o1 & Hr & -> & ->).
  { unfold main in Hm. destruct (run e c o) as [[[[]|] o1]|]; simplify_eq/=; eauto. }
  clear Hm. destruct c as [[p format out base args mp]|[p format|p format args|p format b cd cfg ig|rq]]; cbn in Hr.
  - unfold cu_report in Hr. destruct (rbind _ _) as [[f programs]|]; [|by simplify_eq].
    destruct (report_loaded _ _ _ _ _ _ _ _ _ _) as [[[[r1 w] reports] notes]|] eqn:Hl; [|done].
    injection Hr as <- <-. split; [done|]. intros q Hq. cbn in *.
    destruct (decide (q = join out BASELINE_REPORT_FILE_NAME)); [by left|].
    destruct (decide (q = join out MARKDOWN_REPORT_FILE_NAME)); [by right|].
    destruct Hq. by eapply report_loaded_frame.
  - by destruct (inspect_fixture _ _ _); simplify_eq/=.
  - unfold run_fixtures in Hr. case_match; [|by simplify_eq].
    by apply over_fixtures_disks in Hr as [-> ->].
  - unfold compare_fixtures in Hr. case_match; [|by simplify_eq]. case_match.
    by apply over_fixtures_disks in Hr as [-> ->].
  - unfold record_command in Hr. destruct (record_fixture _ _ _) as [[[r1 d] w]|] eqn:Hf; [|done].
    injection Hr as <- <-. split; [|done]. intros q Hq. cbn in *.
    destruct (decide (q = rq_output rq)); [done|]. destruct Hq. by eapply record_fixture_frame.
Qed.

End CommandFacts.
