(* ===== verification/Tracing.v ===== *)
(** * Register tracing, [register_tracing.rs]

    Two callbacks that look at the register traces of an invocation: a collector of
    metrics per program, shared through its handle, and the default one, which writes
    the traces to files.  The file system, the hash and the disassembler are
    interfaces; what is written to standard error is left out. *)

From Stdlib Require Import ZArith Lia Strings.Byte Strings.String Floats.SpecFloat.
From stdpp Require Import base tactics option list sorting gmap strings.
From S2P Require Import Prelude.
From S2P Require Import Types.
From S2P Require Import Runtime.
From S2P Require Import AccountsDb.
From S2P Require Import Bench.

(** A trace of one program invocation: the program, the height of the stack, the number
    of instruction accounts, the registers after every step and the program's text. *)
Record VmTrace : Type := mkVmTrace {
  vt_program_key : result Address InstructionError;
  vt_stack_height : nat;
  vt_accounts : nat;
  vt_registers : list (list Z);
  vt_text : list byte
}.

(** ** Metrics *)

Record ProgramTraceMetrics : Type := mkProgramTraceMetrics {
  ptm_program_id : Address;
  ptm_invocations : Z;
  ptm_cpi_invocations : Z;
  ptm_total_register_frames : Z;
  ptm_max_register_frames : Z;
  ptm_max_stack_height : Z;
  ptm_total_instruction_accounts : Z;
  ptm_max_instruction_accounts : Z
}.

Definition metrics_new (program_id : Address) : ProgramTraceMetrics :=
  mkProgramTraceMetrics program_id 0 0 0 0 0 0 0.

Definition average_register_frames (m : ProgramTraceMetrics) : spec_float :=
  if (ptm_invocations m =? 0)%Z then S754_zero false
  else f64_div (f64_of_Z (ptm_total_register_frames m)) (f64_of_Z (ptm_invocations m)).

Definition average_instruction_accounts (m : ProgramTraceMetrics) : spec_float :=
  if (ptm_invocations m =? 0)%Z then S754_zero false
  else f64_div (f64_of_Z (ptm_total_instruction_accounts m)) (f64_of_Z (ptm_invocations m)).

(** [TraceMetricsCollector]: what its handle shares. *)
Record TraceMetricsCollector : Type := mkTraceMetricsCollector {
  tmc_metrics : gmap Address ProgramTraceMetrics
}.

Definition collector_default : TraceMetricsCollector := mkTraceMetricsCollector ∅.

(** The update of an entry in [record_trace]. *)
Definition count_trace (t : VmTrace) (e : ProgramTraceMetrics) : ProgramTraceMetrics :=
  let frames := Z.of_nat (length (vt_registers t)) in
  let height := Z.of_nat (vt_stack_height t) in
  let accounts := Z.of_nat (vt_accounts t) in
  mkProgramTraceMetrics (ptm_program_id e)
    (saturating_add_u64 (ptm_invocations e) 1)
    (if (1 <? height)%Z then saturating_add_u64 (ptm_cpi_invocations e) 1 else ptm_cpi_invocations e)
    (saturating_add_u64 (ptm_total_register_frames e) frames)
    (Z.max (ptm_max_register_frames e) frames)
    (Z.max (ptm_max_stack_height e) height)
    (saturating_add_u64 (ptm_total_instruction_accounts e) accounts)
    (Z.max (ptm_max_instruction_accounts e) accounts).

Definition record_trace (t : VmTrace) (c : TraceMetricsCollector) :
    result TraceMetricsCollector InstructionError :=
  match vt_registers t with
  | [] => Ok c
  | _ :: _ =>
      let? program_id := vt_program_key t in
      let entry := default (metrics_new program_id) (tmc_metrics c !! program_id) in
      Ok (mkTraceMetricsCollector (<[program_id := count_trace t entry]> (tmc_metrics c)))
  end.

(** [after_invocation] of the collector: every trace of the invocation; a failure to
    record one is reported and skipped. *)
Definition collector_after_invocation (register_tracing_enabled : bool) (traces : list VmTrace)
    (c : TraceMetricsCollector) : TraceMetricsCollector :=
  if register_tracing_enabled then
    foldl (fun c t => match record_trace t c with Ok c' => c' | Err _ => c end) c traces
  else c.

(** The order of [snapshot]: most frames first, then most invocations, then by address. *)
Definition metrics_le (l r : ProgramTraceMetrics) : Prop :=
  (ptm_total_register_frames r < ptm_total_register_frames l)%Z \/
  (ptm_total_register_frames r = ptm_total_register_frames l /\
   ((ptm_invocations r < ptm_invocations l)%Z \/
    (ptm_invocations r = ptm_invocations l /\
     (address_num (ptm_program_id l) <= address_num (ptm_program_id r))%N))).

#[export] Instance metrics_le_dec l r : Decision (metrics_le l r).
Proof. unfold metrics_le. apply _. Defined.

(** [snapshot]: [values] is the map's content in the order the hash map iterates. *)
Definition snapshot_of (values : list ProgramTraceMetrics) : list ProgramTraceMetrics :=
  merge_sort metrics_le values.
Definition snapshot (c : TraceMetricsCollector) : list ProgramTraceMetrics :=
  snapshot_of (map snd (map_to_list (tmc_metrics c))).

(** ** Theorems on the metrics *)

Definition sat (z : Z) : Z := Z.min u64_max z.
Definition total (f : VmTrace -> Z) (l : list VmTrace) : Z := foldr (fun t n => f t + n)%Z 0%Z l.
Definition maximum (f : VmTrace -> Z) (l : list VmTrace) : Z := foldr (fun t n => Z.max (f t) n) 0%Z l.

Definition frames (t : VmTrace) : Z := Z.of_nat (length (vt_registers t)).
Definition height (t : VmTrace) : Z := Z.of_nat (vt_stack_height t).
Definition accounts_of (t : VmTrace) : Z := Z.of_nat (vt_accounts t).

(** The traces that count for a program. *)
Definition traced_for (p : Address) (t : VmTrace) : bool :=
  match vt_registers t with [] => false | _ => true end &&
  match vt_program_key t with Ok k => bool_decide (k = p) | Err _ => false end.
Definition traces_of (p : Address) (l : list VmTrace) : list VmTrace :=
  filter (fun t => traced_for p t = true) l.

(** What the metrics of a program should be. *)
Definition summary (p : Address) (l : list VmTrace) : option ProgramTraceMetrics :=
  match l with
  | [] => None
  | _ =>
      Some (mkProgramTraceMetrics p
              (sat (total (fun _ => 1%Z) l))
              (sat (total (fun t => if (1 <? height t)%Z then 1%Z else 0%Z) l))
              (sat (total frames l)) (maximum frames l) (maximum height l)
              (sat (total accounts_of l)) (maximum accounts_of l))
  end.

Lemma total_snoc f l t : total f (l ++ [t]) = (total f l + f t)%Z.
Proof. unfold total. induction l as [|x l IH]; cbn; [lia|]. rewrite IH. lia. Qed.

Lemma total_nonneg f l : (forall t, (0 <= f t)%Z) -> (0 <= total f l)%Z.
Proof. intros Hf. unfold total. induction l as [|x l IH]; cbn; [lia|]. specialize (Hf x). lia. Qed.

Lemma maximum_snoc f l t : (0 <= f t)%Z -> maximum f (l ++ [t]) = Z.max (maximum f l) (f t).
Proof. intros H. unfold maximum. induction l as [|x l IH]; cbn; [lia|]. rewrite IH. lia. Qed.

Lemma sat_snoc f l t :
  (forall t, (0 <= f t)%Z) -> saturating_add_u64 (sat (total f l)) (f t) = sat (total f (l ++ [t])).
Proof.
  intros Hf. rewrite total_snoc. pose proof (total_nonneg f l Hf). specialize (Hf t).
  unfold saturating_add_u64, sat, u64_max. lia.
Qed.

Lemma total_perm f l1 l2 : l1 ≡ₚ l2 -> total f l1 = total f l2.
Proof. unfold total. induction 1; cbn; lia. Qed.
Lemma maximum_perm f l1 l2 : l1 ≡ₚ l2 -> maximum f l1 = maximum f l2.
Proof. unfold maximum. induction 1; cbn; lia. Qed.

Lemma summary_perm p l1 l2 : l1 ≡ₚ l2 -> summary p l1 = summary p l2.
Proof.
  intros H. unfold summary. destruct l1 as [|x l1], l2 as [|y l2].
  - done.
  - by apply Permutation_nil_l in H.
  - by apply Permutation_nil_r in H.
  - rewrite !(total_perm _ _ _ H), !(maximum_perm _ _ _ H). done.
Qed.

(** Counting a trace extends the summary. *)
Lemma summary_snoc p l t :
  summary p (l ++ [t]) = Some (count_trace t (default (metrics_new p) (summary p l))).
Proof.
  assert (E : forall x y : list VmTrace, x = y ++ [t] ->
            summary p x = Some (mkProgramTraceMetrics p
              (sat (total (fun _ => 1%Z) x))
              (sat (total (fun t => if (1 <? height t)%Z then 1%Z else 0%Z) x))
              (sat (total frames x)) (maximum frames x) (maximum height x)
              (sat (total accounts_of x)) (maximum accounts_of x))).
  { intros x y ->. by destruct y. }
  rewrite (E _ l eq_refl). f_equal. unfold frames, height, accounts_of.
  rewrite <- !(sat_snoc _ l t) by (intros; try case_match; lia).
  rewrite !maximum_snoc by lia.
  destruct l as [|x l]; unfold count_trace; cbn -[sat saturating_add_u64 total maximum Z.of_nat].
  - cbn. destruct (1 <? Z.of_nat (vt_stack_height t))%Z; f_equal; unfold saturating_add_u64, sat, u64_max; lia.
  - f_equal. destruct (1 <? Z.of_nat (vt_stack_height t))%Z; [done|].
    pose proof (total_nonneg (fun t => if (1 <? Z.of_nat (vt_stack_height t))%Z then 1%Z else 0%Z) (x :: l)) as Hn.
    unfold saturating_add_u64, sat, u64_max. rewrite Z.add_0_r.
    unfold height. lia.
Qed.

Lemma traces_of_snoc p l t :
  traces_of p (l ++ [t]) = traces_of p l ++ (if traced_for p t then [t] else []).
Proof.
  unfold traces_of. rewrite filter_app. f_equal. rewrite filter_cons, filter_nil.
  by destruct (traced_for p t).
Qed.

Lemma recorded_summary l p :
  tmc_metrics (collector_after_invocation true l collector_default) !! p = summary p (traces_of p l).
Proof.
  unfold collector_after_invocation. induction l as [|t l IH] using rev_ind; [done|].
  rewrite foldl_snoc, traces_of_snoc. set (c := foldl _ _ l) in *. unfold record_trace, traced_for.
  destruct (vt_registers t) as [|r rs] eqn:Hr; cbn [andb]; [by rewrite app_nil_r|].
  destruct (vt_program_key t) as [k|e]; cbn [rbind]; [|by rewrite app_nil_r].
  case_bool_decide as Hk.
  - subst k. rewrite summary_snoc, <- IH. cbn [tmc_metrics]. apply lookup_insert_eq.
  - rewrite app_nil_r, <- IH. cbn [tmc_metrics]. by apply lookup_insert_ne.
Qed.

(** The invocations of a VM, as one list of traces. *)
Definition collect (runs : list (bool * list VmTrace)) : TraceMetricsCollector :=
  foldl (fun c r => collector_after_invocation r.1 r.2 c) collector_default runs.
Definition enabled_traces (runs : list (bool * list VmTrace)) : list VmTrace :=
  concat (map (fun r : bool * list VmTrace => if r.1 then r.2 else []) runs).

Lemma collect_enabled runs :
  collect runs = collector_after_invocation true (enabled_traces runs) collector_default.
Proof.
  unfold collect, enabled_traces. induction runs as [|[b l] runs IH] using rev_ind; [done|].
  rewrite foldl_snoc, IH, map_app, concat_app. cbn [map concat fst snd]. rewrite app_nil_r.
  unfold collector_after_invocation. destruct b; [by rewrite foldl_app|by rewrite app_nil_r].
Qed.

#[export] Instance metrics_le_total : Total metrics_le.
Proof. intros l r. unfold metrics_le. lia. Qed.
#[export] Instance metrics_le_trans : Transitive metrics_le.
Proof. intros x y z. unfold metrics_le. lia. Qed.

Lemma metrics_le_antisym x y : metrics_le x y -> metrics_le y x -> ptm_program_id x = ptm_program_id y.
Proof.
  unfold metrics_le. intros H1 H2. destruct (ptm_program_id x) as [a], (ptm_program_id y) as [b]. cbn in *.
  f_equal. lia.
Qed.

(** C37: The collector is exact.  Whatever the invocations, a program has metrics exactly
    when tracing was enabled for a non-empty trace of it, and then they are the saturated
    sums and the maxima over those traces, in whatever order they ran.  The snapshot has
    one row per program, in descending order of frames, then of invocations, then by
    address, whatever order the hash map iterates in. *)
Theorem trace_metrics_exact runs :
  (forall p, tmc_metrics (collect runs) !! p = summary p (traces_of p (enabled_traces runs))) /\
  (forall runs', enabled_traces runs' ≡ₚ enabled_traces runs ->
     tmc_metrics (collect runs') = tmc_metrics (collect runs)) /\
  StronglySorted metrics_le (snapshot (collect runs)) /\
  (forall m, m ∈ snapshot (collect runs) <-> tmc_metrics (collect runs) !! ptm_program_id m = Some m) /\
  forall values, values ≡ₚ map snd (map_to_list (tmc_metrics (collect runs))) ->
    snapshot_of values = snapshot (collect runs).
Proof.
  assert (A : forall runs p, tmc_metrics (collect runs) !! p = summary p (traces_of p (enabled_traces runs))).
  { intros rs p. rewrite collect_enabled. apply recorded_summary. }
  assert (K : forall p m, tmc_metrics (collect runs) !! p = Some m -> ptm_program_id m = p).
  { intros p m. rewrite A. unfold summary. destruct (traces_of _ _); [done|]. by intros [= <-]. }
  assert (Hin : forall m, m ∈ map snd (map_to_list (tmc_metrics (collect runs))) <->
                  tmc_metrics (collect runs) !! ptm_program_id m = Some m).
  { intros m. rewrite list_elem_of_fmap. split.
    - intros ([k m'] & -> & H). apply elem_of_map_to_list in H. cbn. by rewrite (K _ _ H).
    - intros H. exists (ptm_program_id m, m). split; [done|]. by apply elem_of_map_to_list. }
  split; [apply A|]. split.
  { intros runs' Hp. apply map_eq. intros p. rewrite !A. apply summary_perm. unfold traces_of. by rewrite Hp. }
  split; [apply StronglySorted_merge_sort; apply _|]. split.
  { intros m. unfold snapshot, snapshot_of. rewrite merge_sort_Permutation. apply Hin. }
  intros values Hv. unfold snapshot, snapshot_of.
  apply (StronglySorted_unique_strong metrics_le); [|apply StronglySorted_merge_sort; apply _..|].
  - intros x y Hx Hy H1 H2. rewrite merge_sort_Permutation in Hx, Hy. rewrite Hv in Hx.
    apply Hin in Hx, Hy. rewrite (metrics_le_antisym _ _ H1 H2) in Hx. congruence.
  - by rewrite !merge_sort_Permutation.
Qed.

(** ** The default callback *)

(** The file system by path components, the hash in hexadecimal, the instruction a program
    counter points to (the index may panic), the disassembly of a trace and the JSON of
    metrics.  A write may store only part of its bytes. *)
Class TraceOs : Type := {
  Fs : Type;
  current_dir : Fs -> result (list string) string;
  canonicalize : Fs -> list string -> option (list string);
  create_dir_all : list string -> M Fs string unit;
  create_file : list string -> M Fs string unit;
  write_file : list string -> list byte -> M Fs string unit;
  sha256_hex : list byte -> string;
  insn_at : list byte -> Z -> option (list byte);
  disassembly : VmTrace -> list byte;
  metrics_json : list ProgramTraceMetrics -> list byte;
  address_text : Address -> string;
  error_text : InstructionError -> string
}.

Definition DEFAULT_PATH : string := "target/sbf/trace".

(** A directory as it was configured: absolute, or relative to the working directory. *)
Record TraceDir : Type := mkTraceDir {
  td_absolute : bool;
  td_components : list string
}.

Record DefaultRegisterTracingCallback : Type := mkDefaultRegisterTracingCallback {
  sbf_trace_dir : TraceDir;
  sbf_trace_disassemble : bool
}.

(** [Default]: [parse] is how a text is read as a path. *)
Definition default_tracing_callback (env : string -> option string) (parse : string -> TraceDir) :
    DefaultRegisterTracingCallback :=
  mkDefaultRegisterTracingCallback (parse (default DEFAULT_PATH (env "SBF_TRACE_DIR")))
    (bool_decide (is_Some (env "SBF_TRACE_DISASSEMBLE"))).

(** [as_bytes] of 64-bit registers on a little-endian target. *)
Fixpoint le_bytes (len : nat) (z : Z) : list byte :=
  match len with
  | O => []
  | S len' => default x00 (Byte.of_N (Z.to_N (z mod 256))) :: le_bytes len' (z / 256)%Z
  end.
Definition as_bytes (regs : list Z) : list byte := concat (map (le_bytes 8) regs).

(** [Path::join] and [Path::with_extension] of a name without a dot. *)
Definition path_join (cwd : list string) (d : TraceDir) : list string :=
  if td_absolute d then td_components d else cwd ++ td_components d.
Definition with_extension (dir : list string) (stem extension : string) : list string :=
  dir ++ [stem +:+ "." +:+ extension].

Section Handler.
Context {ids : SdkIds} {sv : SysvarRuntime} {pr : ProgramRuntime} {pc : ProgramCacheOps}
        {Lst : Lru.Lru ProgramEntryKey Entry} {os : TraceOs}.

Definition compute_hash (data : list byte) : string := sha256_hex data.

(** [write_json_path]: the file is created, then the snapshot written. *)
Definition write_trace_metrics_json (path : list string) (metrics : list ProgramTraceMetrics) :
    M Fs string unit := write_file path (metrics_json metrics).
Definition write_json_path (path : list string) (c : TraceMetricsCollector) : M Fs string unit :=
  sbind (create_file path) (fun _ => write_trace_metrics_json path (snapshot c)).

(** A step that may panic ([None]). *)
Definition Step : Type := Fs -> option (result unit string * Fs).
Definition io (m : M Fs string unit) : Step := fun fs => Some (m fs).
Definition then_do (m k : Step) : Step := fun fs =>
  match m fs with
  | Some (Ok _, fs') => k fs'
  | other => other
  end.
(** [let _ = file.write(..)] drops the error of the write. *)
Definition ignoring (m : M Fs string unit) : Step := fun fs => Some (Ok tt, (m fs).2).

(** One step of the trace: the registers, and the instruction at the counter in [r11]. *)
Definition write_frame (dir : list string) (stem : string) (text : list byte) (regs : list Z) : Step :=
  fun fs =>
    match regs !! 11 with
    | None => None
    | Some counter =>
        match insn_at text counter with
        | None => None
        | Some insn =>
            then_do (io (write_file (with_extension dir stem "regs") (as_bytes regs)))
              (io (write_file (with_extension dir stem "insns") insn)) fs
        end
    end.

Fixpoint write_frames (dir : list string) (stem : string) (text : list byte) (l : list (list Z)) : Step :=
  match l with
  | [] => io (sret tt)
  | regs :: l' => then_do (write_frame dir stem text regs) (write_frames dir stem text l')
  end.

(** The files of a trace, once the directory is accepted. *)
Definition write_trace (cb : DefaultRegisterTracingCallback) (a : Accounts) (t : VmTrace)
    (dir : list string) : Step :=
  let stem := substring 0 16 (compute_hash (concat (map as_bytes (vt_registers t)))) in
  let file := with_extension dir stem in
  then_do (io (create_dir_all dir))
  (then_do (io (create_file (file "regs")))
  (then_do (io (create_file (file "insns")))
  (then_do (io (create_file (file "program_id")))
    (fun fs =>
      match vt_program_key t with
      | Err e => Some (Err (error_text e), fs)
      | Ok program_id =>
          then_do
            (if sbf_trace_disassemble cb then
               then_do (io (create_file (file "trace"))) (ignoring (write_file (file "trace") (disassembly t)))
             else io (sret tt))
          (then_do (ignoring (write_file (file "program_id") (list_byte_of_string (address_text program_id))))
          (then_do
            match try_program_elf_bytes a program_id with
            | Ok elf_data =>
                then_do (io (create_file (file "exec.sha256")))
                  (ignoring (write_file (file "exec.sha256") (list_byte_of_string (compute_hash elf_data))))
            | Err _ => io (sret tt)
            end
          (write_frames dir stem (vt_text t) (vt_registers t)))) fs
      end)))).

(** [handler]. *)
Definition handler (cb : DefaultRegisterTracingCallback) (a : Accounts) (t : VmTrace) : Step := fun fs =>
  match vt_registers t with
  | [] => Some (Ok tt, fs)
  | _ :: _ =>
      match current_dir fs with
      | Err e => Some (Err e, fs)
      | Ok cwd =>
          let dir := path_join cwd (sbf_trace_dir cb) in
          match canonicalize fs dir with
          | Some canonical =>
              if bool_decide (cwd `prefix_of` canonical) then write_trace cb a t dir fs
              else Some (Err ("SBF_TRACE_DIR resolves outside working directory: /" +:+
                              String.concat "/" canonical), fs)
          | None => write_trace cb a t dir fs
          end
      end
  end.

(** [after_invocation] of the callback: an error is reported and the next trace goes on. *)
Fixpoint callback_traces (cb : DefaultRegisterTracingCallback) (a : Accounts) (l : list VmTrace) (fs : Fs) :
    option Fs :=
  match l with
  | [] => Some fs
  | t :: l' =>
      match handler cb a t fs with
      | None => None
      | Some (_, fs') => callback_traces cb a l' fs'
      end
  end.
Definition callback_after_invocation (cb : DefaultRegisterTracingCallback) (a : Accounts)
    (register_tracing_enabled : bool) (l : list VmTrace) (fs : Fs) : option Fs :=
  if register_tracing_enabled then callback_traces cb a l fs else Some fs.

(** ** Where the files go *)

(** Creating and writing files leaves the working directory, and what resolved before
    resolves to the same place; a directory that was created can be resolved. *)
Class TraceOsLaws : Prop := {
  create_dir_resolves p fs fs' :
    create_dir_all p fs = (Ok tt, fs') ->
    current_dir fs' = current_dir fs /\ exists c, canonicalize fs' p = Some c;
  create_file_dir p fs : current_dir (create_file p fs).2 = current_dir fs;
  create_file_keeps p fs q c :
    canonicalize fs q = Some c -> canonicalize (create_file p fs).2 q = Some c;
  write_file_dir p bytes fs : current_dir (write_file p bytes fs).2 = current_dir fs;
  write_file_keeps p bytes fs q c :
    canonicalize fs q = Some c -> canonicalize (write_file p bytes fs).2 q = Some c
}.

Section Laws.
Context {osl : TraceOsLaws}.

(** A step that moves nothing that can be resolved. *)
Definition keeps (m : Step) : Prop :=
  forall fs r fs', m fs = Some (r, fs') ->
    current_dir fs' = current_dir fs /\
    forall q c, canonicalize fs q = Some c -> canonicalize fs' q = Some c.

Lemma keeps_then m k : keeps m -> keeps k -> keeps (then_do m k).
Proof.
  intros Hm Hk fs r fs'. unfold then_do. destruct (m fs) as [[[[]|e] fs1]|] eqn:E; [| |done].
  - intros H. apply Hm in E as [E1 E2]. apply Hk in H as [H1 H2]. split; [congruence|].
    intros q c Hq. by apply H2, E2.
  - intros [= <- <-]. by eapply Hm.
Qed.
Lemma keeps_create p : keeps (io (create_file p)).
Proof.
  intros fs r fs' [= H]. pose proof (create_file_dir p fs) as D.
  pose proof (create_file_keeps p fs) as K. rewrite H in K, D. by split.
Qed.
Lemma keeps_write p bytes : keeps (io (write_file p bytes)).
Proof.
  intros fs r fs' [= H]. pose proof (write_file_dir p bytes fs) as D.
  pose proof (write_file_keeps p bytes fs) as K. rewrite H in K, D. by split.
Qed.
Lemma keeps_ignoring p bytes : keeps (ignoring (write_file p bytes)).
Proof.
  intros fs r fs' [= <- <-]. split; [apply write_file_dir|apply write_file_keeps].
Qed.
Lemma keeps_ret : keeps (io (sret tt)).
Proof. intros fs r fs' [= <- <-]. done. Qed.
Lemma keeps_frame dir stem text regs : keeps (write_frame dir stem text regs).
Proof.
  intros fs r fs'. unfold write_frame. destruct (regs !! 11); [|done]. destruct (insn_at text z); [|done].
  apply keeps_then; apply keeps_write.
Qed.
Lemma keeps_frames dir stem text l : keeps (write_frames dir stem text l).
Proof.
  induction l as [|regs l IH]; [apply keeps_ret|]. apply keeps_then; [apply keeps_frame|exact IH].
Qed.
#[local] Hint Resolve keeps_then keeps_create keeps_write keeps_ignoring keeps_ret keeps_frames : hpsvm.

(** Once the directory is created, writing the trace moves nothing. *)
Lemma write_trace_resolves cb a t dir fs r fs' :
  write_trace cb a t dir fs = Some (Ok r, fs') ->
  current_dir fs' = current_dir fs /\ exists c, canonicalize fs' dir = Some c.
Proof.
  unfold write_trace, then_do at 1, io at 1.
  destruct (create_dir_all dir fs) as [[[]|e] fs1] eqn:Hc; [|done].
  apply create_dir_resolves in Hc as [H1 [c H2]].
  set (k := then_do _ _). intros H. assert (Hk : keeps k).
  { unfold k. repeat (apply keeps_then; [auto with hpsvm|]).
    intros fs2 r2 fs3. destruct (vt_program_key t) as [program_id|e]; [|by intros [= <- <-]].
    revert fs2 r2 fs3. apply keeps_then; [destruct (sbf_trace_disassemble cb); auto with hpsvm|].
    apply keeps_then; [auto with hpsvm|]. apply keeps_then; [|auto with hpsvm].
    destruct (try_program_elf_bytes a program_id); auto with hpsvm. }
  apply Hk in H as [H3 H4]. split; [congruence|]. exists c. by apply H4.
Qed.

(** C38: The check that the trace directory stays inside the working directory only works for
    a directory that exists.  A directory that resolves outside is refused and nothing is
    written; one that cannot be resolved yet is created and written wherever it leads, and
    only the next trace is refused. *)
Theorem trace_dir_check cb a fs cwd :
  current_dir fs = Ok cwd ->
  let dir := path_join cwd (sbf_trace_dir cb) in
  (forall t c, canonicalize fs dir = Some c -> ~ cwd `prefix_of` c -> vt_registers t <> [] ->
     exists e, handler cb a t fs = Some (Err e, fs)) /\
  (forall t fs', canonicalize fs dir = None -> vt_registers t <> [] ->
     handler cb a t fs = Some (Ok tt, fs') ->
     write_trace cb a t dir fs = Some (Ok tt, fs') /\
     exists c, canonicalize fs' dir = Some c /\
       (~ cwd `prefix_of` c -> forall t', vt_registers t' <> [] ->
          exists e, handler cb a t' fs' = Some (Err e, fs'))).
Proof.
  intros Hcwd dir.
  assert (R : forall t fs c, current_dir fs = Ok cwd -> canonicalize fs dir = Some c -> ~ cwd `prefix_of` c ->
            vt_registers t <> [] -> exists e, handler cb a t fs = Some (Err e, fs)).
  { intros t fs0 c Hw Hc Hp Ht. unfold handler. rewrite Hw. fold dir. rewrite Hc, bool_decide_eq_false_2 by done.
    destruct (vt_registers t); [done|]. by eexists. }
  split; [intros t c Hc Hp Ht; by eapply R|].
  intros t fs' Hc Ht H.
  assert (Hw : write_trace cb a t dir fs = Some (Ok tt, fs')).
  { unfold handler in H. rewrite Hcwd in H. fold dir in H. rewrite Hc in H. by destruct (vt_registers t). }
  split; [done|]. apply write_trace_resolves in Hw as [Hw [c Hr]].
  exists c. split; [done|]. intros Hp t' Ht'. eapply R; [congruence|done..].
Qed.

End Laws.
End Handler.
