(* ===== verification/Logs.v ===== *)
(** * Log formatting, [format_logs.rs]

    A log line is classified by what it says, stripped of a known prefix and painted.
    Text is a list of Unicode scalar values; lower-casing and painting belong to
    libraries and are an interface. *)

From Stdlib Require Import ZArith NArith Lia Strings.String Strings.Ascii.
From stdpp Require Import base tactics option list sets strings.
From S2P Require Import Prelude.

Notation Text := (list N) (only parsing).
Definition text (s : string) : Text := map N_of_ascii (list_ascii_of_string s).

(** [char::is_whitespace], the Unicode property [White_Space]. *)
Definition is_whitespace (c : N) : bool :=
  ((9 <=? c) && (c <=? 13) || (c =? 32) || (c =? 133) || (c =? 160) || (c =? 5760) ||
   (8192 <=? c) && (c <=? 8202) || (c =? 8232) || (c =? 8233) || (c =? 8239) || (c =? 8287) ||
   (c =? 12288))%N.

(** [str::trim_start], [str::starts_with] and [str::contains]. *)
Fixpoint trim_start (t : Text) : Text :=
  match t with
  | c :: rest => if is_whitespace c then trim_start rest else t
  | [] => []
  end.
Definition starts_with (t p : Text) : bool := bool_decide (p `prefix_of` t).
Fixpoint contains (t needle : Text) : bool :=
  starts_with t needle || match t with [] => false | _ :: rest => contains rest needle end.

(** [nu_ansi_term]. *)
Inductive Color : Type := Fixed (n : N) | Green.
Record Style : Type := mkStyle { style_bold : bool; style_fg : Color }.

Class LogText : Type := {
  to_lowercase : Text -> Text;
  paint : Style -> Text -> Text
}.

(** Painting puts escape sequences around the text. *)
Class LogTextLaws {lg : LogText} : Prop := {
  paint_around s t : exists pre suf, paint s t = pre ++ t ++ suf /\ 10%N ∉ pre /\ 10%N ∉ suf
}.

Definition PROGRAM_LOG : Text := text "Program log:".
Definition PROGRAM : Text := text "Program".
Definition PROCESS_INSTRUCTION : Text := text "process_instruction:".
Definition SOLANA_RUNTIME : Text := text "solana_runtime:".

Inductive Importance : Type := ImpLow | ImpHigh | ImpVeryHigh | ImpError.

(** The words of a failure. *)
Definition error_words : list Text :=
  map text ["error: "; "error "; "err: "; "err "; "failure: "; "failure "; "failed: "; "failed ";
            "fail: "; "fail "]%string.

Section Logs.
Context {lg : LogText}.

Definition get_importance (program_source program_log : Text) : Importance :=
  let log := to_lowercase program_log in
  if existsb (contains log) error_words then ImpError
  else if contains log (text "signer privilege escalated") then ImpHigh
  else if bool_decide (program_source = PROGRAM_LOG) then ImpVeryHigh
  else ImpLow.

Definition style_for (importance : Importance) : Style :=
  match importance with
  | ImpError => mkStyle true (Fixed 9)
  | ImpVeryHigh => mkStyle false Green
  | ImpHigh => mkStyle true (Fixed 243)
  | ImpLow => mkStyle false (Fixed 239)
  end.

Definition colourise (importance : Importance) (log : Text) : Text := paint (style_for importance) log.

(** The optional prefix of a line, and the rest. *)
Definition split_source (line : Text) : Text * Text :=
  let rest (p : Text) := trim_start (drop (length p) line) in
  if starts_with line PROGRAM_LOG then (PROGRAM_LOG, rest PROGRAM_LOG)
  else if starts_with line PROGRAM then (PROGRAM, rest PROGRAM)
  else if starts_with line PROCESS_INSTRUCTION then (PROCESS_INSTRUCTION, rest PROCESS_INSTRUCTION)
  else if starts_with line SOLANA_RUNTIME then (SOLANA_RUNTIME, rest SOLANA_RUNTIME)
  else ([], line).

(** The text of a line as it is shown. *)
Definition shown (line : Text) : Text :=
  let '(program_source, program_log) := split_source line in
  if bool_decide (program_source ∈ [[]; PROGRAM_LOG]) then program_log
  else program_source ++ [32%N] ++ program_log.

Definition format_line (line : Text) : Text :=
  let '(program_source, program_log) := split_source line in
  colourise (get_importance program_source program_log) (shown line).

Fixpoint format_logs (logs : list Text) : Text :=
  match logs with
  | [] => []
  | line :: rest =>
      match line with
      | [] => format_logs rest
      | _ => format_line line ++ [10%N] ++ format_logs rest
      end
  end.

(** ** Theorems *)

(** The characters that are not white space. *)
Definition ink (t : Text) : Text := filter (fun c => is_whitespace c = false) t.

Lemma ink_app t u : ink (t ++ u) = ink t ++ ink u.
Proof. apply filter_app. Qed.

Lemma ink_trim t : ink (trim_start t) = ink t.
Proof.
  induction t as [|c t IH]; [done|]. cbn [trim_start]. destruct (is_whitespace c) eqn:E; [|done].
  rewrite IH. unfold ink. rewrite filter_cons. by rewrite E.
Qed.

Lemma starts_with_drop t p : starts_with t p = true -> t = p ++ drop (length p) t.
Proof. unfold starts_with. intros [u ->]%bool_decide_eq_true_1. by rewrite drop_app_length. Qed.

(** The characters of a line that count: all of it, less the marker of a program log. *)
Definition line_ink (line : Text) : Text :=
  if starts_with line PROGRAM_LOG then ink (drop (length PROGRAM_LOG) line) else ink line.

Lemma shown_ink line : ink (shown line) = line_ink line.
Proof.
  unfold shown, split_source, line_ink. destruct (starts_with line PROGRAM_LOG) eqn:H1.
  { cbn. apply ink_trim. }
  assert (P : forall p, starts_with line p = true ->
            ink (p ++ [32%N] ++ trim_start (drop (length p) line)) = ink line).
  { intros p Hp. rewrite !ink_app, ink_trim. change (ink [32%N]) with (@nil N). cbn [app]. rewrite <- ink_app. by rewrite <- (starts_with_drop _ _ Hp). }
  destruct (starts_with line PROGRAM) eqn:H2; [by apply P|].
  destruct (starts_with line PROCESS_INSTRUCTION) eqn:H3; [by apply P|].
  destruct (starts_with line SOLANA_RUNTIME) eqn:H4; [by apply P|]. done.
Qed.

Lemma trim_start_suffix t : exists u, t = u ++ trim_start t.
Proof.
  induction t as [|c t [u IH]]; [by exists []|]. cbn. destruct (is_whitespace c); [|by exists []].
  exists (c :: u). cbn. by f_equal.
Qed.

(** A line without a line break is shown without one. *)
Lemma shown_one_line line : 10%N ∉ line -> 10%N ∉ shown line.
Proof.
  intros Hl. assert (T : forall p : list N, 10%N ∉ trim_start (drop (length p) line)).
  { intros p Hin. apply Hl. destruct (trim_start_suffix (drop (length p) line)) as [u Hu].
    rewrite <- (take_drop (length p) line), Hu. set_solver. }
  assert (Q : forall p, 10%N ∉ p -> 10%N ∉ p ++ [32%N] ++ trim_start (drop (length p) line)).
  { intros p Hp. specialize (T p). rewrite !not_elem_of_app. split_and!; [done| |done].
    apply not_elem_of_cons. split; [done|]. apply not_elem_of_nil. }
  unfold shown, split_source.
  destruct (starts_with line PROGRAM_LOG); [apply T|].
  destruct (starts_with line PROGRAM);
    [apply Q; apply (bool_decide_unpack _); vm_compute; exact I|].
  destruct (starts_with line PROCESS_INSTRUCTION);
    [apply Q; apply (bool_decide_unpack _); vm_compute; exact I|].
  destruct (starts_with line SOLANA_RUNTIME);
    [apply Q; apply (bool_decide_unpack _); vm_compute; exact I|done].
Qed.

(** The lines of the output, and the number of line breaks in a text. *)
Definition is_blank (line : Text) : bool := match line with [] => true | _ => false end.
Definition breaks (t : Text) : nat := length (filter (fun c => c = 10%N) t).

Lemma breaks_app t u : breaks (t ++ u) = breaks t + breaks u.
Proof. unfold breaks. by rewrite filter_app, length_app. Qed.
Lemma breaks_none t : 10%N ∉ t -> breaks t = 0.
Proof.
  unfold breaks. intros H. induction t as [|c t IH]; [done|]. rewrite filter_cons.
  destruct (decide (c = 10%N)) as [->|]; [set_solver|]. apply IH. set_solver.
Qed.

(** Formatting logs keeps what they say.  The output is the lines that are not empty,
    in order, each painted by its class and followed by a line break; what is shown of a
    line has exactly its characters apart from white space and a leading [Program log:];
    and when no log contains a line break, the output has one line per log that is not
    empty. *)
Theorem format_logs_faithful {lgl : LogTextLaws} logs :
  format_logs logs =
    concat (map (fun line => format_line line ++ [10%N]) (filter (fun l => is_blank l = false) logs)) /\
  (forall line, exists i, format_line line = colourise i (shown line) /\ ink (shown line) = line_ink line) /\
  (Forall (fun line => 10%N ∉ line) logs ->
   breaks (format_logs logs) = length (filter (fun l => is_blank l = false) logs)).
Proof.
  assert (F : forall line, exists i, format_line line = colourise i (shown line)).
  { intros line. unfold format_line. destruct (split_source line). by eexists. }
  split; [|split].
  - induction logs as [|[|c line] logs IH]; [done|exact IH|].
    rewrite filter_cons. cbn [is_blank]. rewrite decide_True by done. cbn [map concat]. rewrite <- IH.
    by rewrite <- app_assoc.
  - intros line. destruct (F line) as [i Hi]. exists i. split; [done|]. apply shown_ink.
  - induction 1 as [|line logs Hl _ IH]; [done|]. destruct line as [|c line]; [exact IH|].
    rewrite filter_cons. cbn [is_blank]. rewrite decide_True by done. cbn [format_logs].
    rewrite !breaks_app, IH. destruct (F (c :: line)) as [i ->]. unfold colourise.
    destruct (paint_around (style_for i) (shown (c :: line))) as (pre & suf & -> & Hp & Hs).
    rewrite !breaks_app, (breaks_none pre), (breaks_none suf), (breaks_none (shown _)) by
      (try done; by apply shown_one_line). done.
Qed.

(** The prefix [Program] is recognised inside a longer word, which is then shown broken. *)
Theorem program_prefix_splits_words word :
  starts_with (PROGRAM ++ word) PROGRAM_LOG = false -> trim_start word = word ->
  shown (PROGRAM ++ word) = PROGRAM ++ [32%N] ++ word.
Proof.
  intros H1 H2. unfold shown, split_source. rewrite H1.
  assert (starts_with (PROGRAM ++ word) PROGRAM = true) as ->.
  { unfold starts_with. apply bool_decide_eq_true_2. by exists word. }
  rewrite drop_app_length, H2. rewrite bool_decide_eq_false_2; [done|].
  apply (bool_decide_unpack _). vm_compute. exact I.
Qed.

End Logs.
