(* ===== verification/FdModel.v ===== *)
(** * The FireDancer model, [vendor/hpsvm-fd-fixture]

    The typed model of a FireDancer fixture, its conversions to and from the protobuf
    messages of [Firedancer], the hash of a message, and the fuzz target that states
    what the conversions promise ([fuzz_targets/decode_firedancer_fixture.rs]).  A
    conversion that panics is [None].  The features the runtime knows, the iteration
    order of its hash tables and Keccak are interfaces. *)

From Stdlib Require Import ZArith NArith Lia Strings.Byte Strings.String.
From stdpp Require Import base tactics option list sorting sets gmap strings pretty.
From S2P Require Import Prelude.
From S2P Require Import Types.
From S2P Require Import Errors.
From S2P Require Import Fixture.
From S2P Require Import FixtureRun.
From S2P Require Import Tracing.
From S2P Require Import Firedancer.

(** [agave_feature_set]: the features known, all inactive by default, and the two that
    share the first bytes of their id; the orders in which a set and the keys of a map
    are iterated; Keccak. *)
Class FdRuntime : Type := {
  known_features : gset Address;
  disable_sbpf_v0_execution_ID : Address;
  reenable_sbpf_v0_execution_ID : Address;
  set_iter : gset Address -> list Address;
  map_keys : gmap Address Z -> list Address;
  keccak : list byte -> Hash
}.

(** ** Feature sets, [feature_set.rs] *)

(** [FeatureSet]: the active features with their slots, and the inactive ones. *)
Record FdFeatureSet : Type := mkFdFeatureSet {
  ff_active : gmap Address Z;
  ff_inactive : gset Address
}.

(** [FeatureSet::activate]. *)
Definition ff_activate (feature : Address) (slot : Z) (s : FdFeatureSet) : FdFeatureSet :=
  mkFdFeatureSet (<[feature := slot]> (ff_active s)) (ff_inactive s ∖ {[feature]}).

(** [u64::from_le_bytes]. *)
Definition le_num (l : list byte) : Z := foldr (fun b acc => (Z.of_N (Byte.to_N b) + 256 * acc)%Z) 0%Z l.

(** The first eight bytes of an id. *)
Definition discriminator (feature : Address) : list byte := take 8 (address_to_bytes feature).

Section Features.
Context {fr : FdRuntime}.

Definition ff_default : FdFeatureSet := mkFdFeatureSet ∅ known_features.

Definition OMITTED_FEATURES : list Address :=
  [disable_sbpf_v0_execution_ID; reenable_sbpf_v0_execution_ID].

(** [From<ProtoFeatureSet> for FeatureSet]. *)
Definition features_of_proto (features : list Z) : FdFeatureSet :=
  let inactive := foldl (fun s f => s ∖ {[f]}) (ff_inactive ff_default) OMITTED_FEATURES in
  foldl (fun s int_id =>
           match List.find (fun feature => bool_decide (discriminator feature = le_bytes 8 int_id))
                   (set_iter inactive) with
           | Some feature => ff_activate feature 0 s
           | None => s
           end) ff_default features.

(** [From<FeatureSet> for ProtoFeatureSet]. *)
Definition proto_of_features (s : FdFeatureSet) : list Z :=
  omap (fun feature => if bool_decide (feature ∈ OMITTED_FEATURES) then None
                       else Some (le_num (discriminator feature)))
    (map_keys (ff_active s)).

End Features.

(** ** Accounts, [account.rs] and [instr_account.rs] *)

Record SeedAddress : Type := mkSeedAddress {
  sa_base : list byte;
  sa_seed : list byte;
  sa_owner : list byte
}.

Definition seed_of_proto (p : ProtoSeedAddress) : SeedAddress :=
  mkSeedAddress (psa_base p) (psa_seed p) (psa_owner p).
Definition proto_of_seed (s : SeedAddress) : ProtoSeedAddress :=
  mkProtoSeedAddress (sa_base s) (sa_seed s) (sa_owner s).

Notation FdAccount := (Address * AccountSharedData * option SeedAddress)%type.

(** [try_into().expect(..)] of 32 bytes. *)
Definition pubkey_of_bytes (bytes : list byte) : option Address :=
  if Nat.eqb (length bytes) 32 then Some (Addr (be_num bytes)) else None.

Definition fd_account_of_proto (p : AcctState) : option FdAccount :=
  pubkey ← pubkey_of_bytes (ps_address p);
  owner ← pubkey_of_bytes (ps_owner p);
  Some (pubkey, mkAccount (ps_lamports p) (ps_data p) owner (ps_executable p) (ps_rent_epoch p),
        seed_of_proto <$> ps_seed_addr p).

Definition proto_of_fd_account (x : FdAccount) : AcctState :=
  let '(pubkey, account, seed) := x in
  mkAcctState (address_to_bytes pubkey) (lamports account) (acc_data account) (executable account)
    (rent_epoch account) (address_to_bytes (acc_owner account)) (proto_of_seed <$> seed).

(** [From<(Pubkey, Account)>]. *)
Definition proto_of_keyed_account (x : Address * AccountSharedData) : AcctState :=
  proto_of_fd_account (x.1, x.2, None).

(** [InstructionAccount]: its index has 16 bits. *)
Record InstructionAccount : Type := mkInstructionAccount {
  ia_index_in_transaction : Z;
  ia_is_signer : bool;
  ia_is_writable : bool
}.

(** [index as u16]. *)
Definition fd_instr_account_of_proto (p : InstrAcct) : InstructionAccount :=
  mkInstructionAccount (pi_index p mod 65536) (pi_is_signer p) (pi_is_writable p).
Definition proto_of_fd_instr_account (a : InstructionAccount) : InstrAcct :=
  mkInstrAcct (ia_index_in_transaction a) (ia_is_writable a) (ia_is_signer a).

(** ** Context, effects and fixtures *)

(** [SlotContext], [EpochContext] and [Metadata] have one field each: the slot, the
    feature set and the entrypoint. *)
Record FdContext : Type := mkFdContext {
  cx_program_id : Address;
  cx_accounts : list FdAccount;
  cx_instruction_accounts : list InstructionAccount;
  cx_instruction_data : list byte;
  cx_compute_units_available : Z;
  cx_slot_context : Z;
  cx_epoch_context : FdFeatureSet
}.

Record FdEffects : Type := mkFdEffects {
  ef_program_result : Z;
  ef_program_custom_code : Z;
  ef_modified_accounts : list FdAccount;
  ef_compute_units_available : Z;
  ef_return_data : list byte
}.

Record FdFixture : Type := mkFdFixture {
  fdx_metadata : option string;
  fdx_input : FdContext;
  fdx_output : FdEffects
}.

Section Messages.
Context {fr : FdRuntime}.

Definition epoch_of_proto (features : option (list Z)) : FdFeatureSet :=
  match features with Some l => features_of_proto l | None => ff_default end.
Definition proto_of_epoch (s : FdFeatureSet) : option (list Z) := Some (proto_of_features s).

Definition fd_context_of_proto (p : InstrContext) : option FdContext :=
  program_id ← pubkey_of_bytes (pc_program_id p);
  accounts ← mapM fd_account_of_proto (pc_accounts p);
  Some (mkFdContext program_id accounts (map fd_instr_account_of_proto (pc_instr_accounts p))
          (pc_data p) (pc_cu_avail p) (default 0%Z (pc_slot_context p))
          match pc_epoch_context p with Some e => epoch_of_proto e | None => ff_default end).

Definition proto_of_fd_context (c : FdContext) : InstrContext :=
  mkInstrContext (address_to_bytes (cx_program_id c)) (map proto_of_fd_account (cx_accounts c))
    (map proto_of_fd_instr_account (cx_instruction_accounts c)) (cx_instruction_data c)
    (cx_compute_units_available c) (Some (cx_slot_context c)) (Some (proto_of_epoch (cx_epoch_context c))).

Definition fd_effects_of_proto (p : InstrEffects) : option FdEffects :=
  modified_accounts ← mapM fd_account_of_proto (pe_modified_accounts p);
  Some (mkFdEffects (pe_result p) (pe_custom_err p) modified_accounts (pe_cu_avail p) (pe_return_data p)).

Definition proto_of_fd_effects (e : FdEffects) : InstrEffects :=
  mkInstrEffects (ef_program_result e) (ef_program_custom_code e)
    (map proto_of_fd_account (ef_modified_accounts e)) (ef_compute_units_available e) (ef_return_data e).

(** [From<ProtoFixture> for Fixture], which is [to_model] of the adapter. *)
Definition to_model (p : InstrFixture) : option FdFixture :=
  i ← pf_input p; input ← fd_context_of_proto i;
  o ← pf_output p; output ← fd_effects_of_proto o;
  Some (mkFdFixture (pf_metadata p) input output).

(** [From<Fixture> for ProtoFixture]. *)
Definition proto_of_fd_fixture (f : FdFixture) : InstrFixture :=
  mkInstrFixture (fdx_metadata f) (Some (proto_of_fd_context (fdx_input f)))
    (Some (proto_of_fd_effects (fdx_output f))).

(** ** The hash of a message

    A hasher is the bytes it has been fed. *)

Definition bool_byte (b : bool) : byte := if b then x01 else x00.

Definition hash_proto_account (hasher : list byte) (a : AcctState) : list byte :=
  hasher ++ ps_address a ++ ps_owner a ++ le_bytes 8 (ps_lamports a) ++ ps_data a ++
  [bool_byte (ps_executable a)] ++ le_bytes 8 (ps_rent_epoch a) ++
  match ps_seed_addr a with
  | Some seed => psa_base seed ++ psa_seed seed ++ psa_owner seed
  | None => []
  end.
Definition hash_proto_accounts (hasher : list byte) (l : list AcctState) : list byte :=
  foldl hash_proto_account hasher l.

Definition hash_proto_instr_accounts (hasher : list byte) (l : list InstrAcct) : list byte :=
  foldl (fun hasher a => hasher ++ le_bytes 4 (pi_index a) ++ [bool_byte (pi_is_signer a)] ++
                         [bool_byte (pi_is_writable a)]) hasher l.

(** [sort], then every id. *)
Definition hash_proto_feature_set (hasher : list byte) (features : list Z) : list byte :=
  foldl (fun hasher f => hasher ++ le_bytes 8 f) hasher (merge_sort Z.le features).

Definition hash_proto_context (hasher : list byte) (c : InstrContext) : list byte :=
  let h1 := hash_proto_accounts (hasher ++ pc_program_id c) (pc_accounts c) in
  let h2 := hash_proto_instr_accounts h1 (pc_instr_accounts c) in
  let h3 := h2 ++ pc_data c ++ le_bytes 8 (pc_cu_avail c) in
  let h4 := h3 ++ match pc_slot_context c with Some slot => le_bytes 8 slot | None => [] end in
  match pc_epoch_context c with
  | Some (Some features) => hash_proto_feature_set h4 features
  | _ => h4
  end.

Definition hash_proto_effects (hasher : list byte) (e : InstrEffects) : list byte :=
  hash_proto_accounts (hasher ++ le_bytes 4 (pe_result e) ++ le_bytes 4 (pe_custom_err e))
    (pe_modified_accounts e) ++ le_bytes 8 (pe_cu_avail e) ++ pe_return_data e.

Definition hash_proto_metadata (hasher : list byte) (entrypoint : string) : list byte :=
  hasher ++ list_byte_of_string entrypoint.

(** [SerializableFixture::hash]. *)
Definition hash_input (p : InstrFixture) : list byte :=
  let h1 := match pf_metadata p with Some m => hash_proto_metadata [] m | None => [] end in
  let h2 := match pf_input p with Some c => hash_proto_context h1 c | None => h1 end in
  match pf_output p with Some e => hash_proto_effects h2 e | None => h2 end.
Definition proto_hash (p : InstrFixture) : Hash := keccak (hash_input p).

(** ** The fuzz target *)

(** [FiredancerFixture], the adapter's wrapper of a message. *)
Record FiredancerFixture : Type := mkFiredancerFixture { fdx_inner : InstrFixture }.
Definition fdx_from_proto (inner : InstrFixture) : FiredancerFixture := mkFiredancerFixture inner.
Definition fdx_as_proto (f : FiredancerFixture) : InstrFixture := fdx_inner f.

#[export] Instance ProtoSeedAddress_eq_dec : EqDecision ProtoSeedAddress.
Proof. solve_decision. Defined.
#[export] Instance AcctState_eq_dec : EqDecision AcctState.
Proof. solve_decision. Defined.
#[export] Instance InstrAcct_eq_dec : EqDecision InstrAcct.
Proof. solve_decision. Defined.
#[export] Instance InstrContext_eq_dec : EqDecision InstrContext.
Proof. solve_decision. Defined.
#[export] Instance InstrEffects_eq_dec : EqDecision InstrEffects.
Proof. solve_decision. Defined.
#[export] Instance InstrFixture_eq_dec : EqDecision InstrFixture.
Proof. solve_decision. Defined.

(** The [Display] of [AdapterError]. *)
Definition adapter_message {dsp : ExternalDisplay} (e : AdapterError) : string :=
  match e with
  | AdapterIo message => "I/O error: " +:+ message
  | AdapterJson message => "JSON codec error: " +:+ message
  | AdapterDecode message => "protobuf codec decode error: " +:+ message
  | AdapterUnsupportedFormat path => "unsupported firedancer fixture format for " +:+ path
  | AdapterMissingField field => "missing firedancer fixture field " +:+ field
  | InvalidAddressLength field actual =>
      "invalid 32-byte address length for " +:+ field +:+ ": got " +:+ pretty actual
  | InvalidInstructionAccountIndex index accounts_len =>
      "instruction account index " +:+ pretty index +:+ " is out of range for " +:+
      pretty accounts_len +:+ " accounts"
  | MissingInstructionAccount address =>
      "instruction account " +:+ display_address address +:+ " is missing from pre_accounts"
  | UnsupportedSeedAddress field => "seed-derived account metadata is not supported in " +:+ field
  | InconsistentComputeUnits before after =>
      "firedancer compute units are inconsistent: before=" +:+ pretty before +:+ ", after=" +:+ pretty after
  | ComputeUnitsExceedBudget budget consumed =>
      "hpsvm fixture consumed " +:+ pretty consumed +:+ " compute units but runtime budget is " +:+
      pretty budget
  | InconsistentExecutionStatus result custom_err =>
      "firedancer execution status is inconsistent: result=" +:+ pretty result +:+ ", custom_err=" +:+
      pretty custom_err
  | UnsupportedExecutionStatus kind =>
      "execution status " +:+ kind +:+ " cannot be exported to firedancer status fields"
  | UnsupportedReturnDataProgram program_id instruction_program_id =>
      "return data program " +:+ display_address program_id +:+
      " cannot be exported to firedancer fixture for instruction program " +:+
      display_address instruction_program_id
  | UnsupportedFixtureKind kind expected =>
      "hpsvm fixture kind " +:+ kind +:+ " cannot be exported to firedancer; expected " +:+ expected
  | MissingComputeUnitBudget =>
      "exporting hpsvm instruction fixtures requires the initial compute unit budget, which the canonical fixture model does not store"
  end.

Inductive FuzzOutcome : Type := FuzzSkipped | FuzzPassed | FuzzPanics.

Definition typed_rejection (e : AdapterError) : bool :=
  match e with
  | AdapterMissingField _ | InvalidAddressLength _ _ | InvalidInstructionAccountIndex _ _
  | MissingInstructionAccount _ | UnsupportedSeedAddress _ | InconsistentComputeUnits _ _
  | InconsistentExecutionStatus _ _ => true
  | _ => false
  end.

(** The assertions about an imported fixture. *)
Definition import_asserts (model : Fixture) : bool :=
  match fx_input model with
  | InputTransaction _ => false
  | InputInstruction instruction =>
      forallb (fun account =>
        existsb (fun pre => bool_decide (as_address pre = iam_pubkey account)) (if_pre_accounts instruction))
        (if_accounts instruction) &&
      match rfc_compute_unit_limit (if_runtime instruction) with
      | None => false
      | Some budget =>
          (es_compute_units_consumed (fe_baseline (fx_expectations model)) <=? budget)%Z
      end &&
      es_included (fe_baseline (fx_expectations model)) &&
      bool_decide (fh_source (fx_header model) = Some "firedancer"%string) &&
      bool_decide (fh_tags (fx_header model) = ["external:firedancer"%string])
  end.

Definition decode_firedancer_fixture {dsp : ExternalDisplay} {fdc : FiredancerCodec} (data : list byte) :
    FuzzOutcome :=
  match proto_decode data with
  | Err _ => FuzzSkipped
  | Ok proto =>
      match pf_input proto, pf_output proto with
      | Some _, Some _ =>
          let fixture := fdx_from_proto proto in
          match to_model (fdx_inner fixture) with
          | None => FuzzPanics
          | Some _ =>
              if negb (bool_decide (fdx_as_proto fixture = proto)) then FuzzPanics
              else
                match fixture_of_firedancer (fdx_inner fixture) with
                | Ok model => if import_asserts model then FuzzPassed else FuzzPanics
                | Err error =>
                    if negb (String.eqb (adapter_message error) "") && typed_rejection error
                    then FuzzPassed else FuzzPanics
                end
          end
      | _, _ => FuzzSkipped
      end
  end.

End Messages.
