(* ===== verification/FdModelFacts.v ===== *)
(** * Theorems about the FireDancer model

    What survives the way to a message and back, what the hash of a message depends on
    and what it does not tell apart, and when the fuzz target panics. *)

From Stdlib Require Import ZArith NArith Lia Strings.Byte Strings.String.
From stdpp Require Import base tactics option list sorting sets gmap strings.
From S2P Require Import Prelude.
From S2P Require Import Types.
From S2P Require Import Errors.
From S2P Require Import Fixture.
From S2P Require Import FixtureRun.
From S2P Require Import Tracing.
From S2P Require Import Firedancer.
From S2P Require Import FiredancerFacts.
From S2P Require Import FdModel.

(** Hash tables are iterated in some order; known features have 32-byte ids and, but for
    the omitted ones, are told apart by their first eight bytes. *)
Class FdLaws {fr : FdRuntime} : Prop := {
  set_iter_elements s : set_iter s ≡ₚ elements s;
  map_keys_elements m : map_keys m ≡ₚ (map_to_list m).*1;
  discriminators_distinct f g :
    f ∈ known_features -> g ∈ known_features -> f ∉ OMITTED_FEATURES -> g ∉ OMITTED_FEATURES ->
    discriminator f = discriminator g -> f = g
}.

(** ** Numbers and bytes *)

Lemma le_bytes_num l : le_bytes (length l) (le_num l) = l.
Proof.
  induction l as [|b l IH]; [done|]. cbn [length le_bytes le_num foldr]. fold (le_num l).
  pose proof (Byte.to_N_bounded b) as Hb.
  assert (Hm : ((Z.of_N (Byte.to_N b) + 256 * le_num l) mod 256 = Z.of_N (Byte.to_N b))%Z)
    by (symmetry; apply (Z.mod_unique _ _ (le_num l)); lia).
  assert (Hd : ((Z.of_N (Byte.to_N b) + 256 * le_num l) / 256 = le_num l)%Z)
    by (symmetry; apply (Z.div_unique _ _ _ (Z.of_N (Byte.to_N b))); lia).
  rewrite Hm, Hd, IH, N2Z.id, Byte.of_to_N. done.
Qed.

Lemma discriminator_length f : length (discriminator f) = 8.
Proof.
  unfold discriminator, address_to_bytes. rewrite length_take, be_bytes_length. lia.
Qed.

Lemma discriminator_id f : le_bytes 8 (le_num (discriminator f)) = discriminator f.
Proof. rewrite <- (discriminator_length f) at 1. apply le_bytes_num. Qed.

Section Features.
Context {fr : FdRuntime} {fl : FdLaws}.

(** ** Feature sets *)

(** What is left of a feature set: the omitted features and the slots are lost. *)
Definition canonical_features (s : FdFeatureSet) : FdFeatureSet :=
  let active := (fun _ => 0%Z) <$> filter (fun x => x.1 ∉ OMITTED_FEATURES) (ff_active s) in
  mkFdFeatureSet active (known_features ∖ dom active).

(** The features looked for. *)
Definition candidates : gset Address := known_features ∖ {[disable_sbpf_v0_execution_ID]} ∖ {[reenable_sbpf_v0_execution_ID]}.

Lemma candidates_spec f : f ∈ candidates <-> f ∈ known_features /\ f ∉ OMITTED_FEATURES.
Proof. unfold candidates, OMITTED_FEATURES. set_solver. Qed.

Definition find_feature (int_id : Z) : option Address :=
  List.find (fun feature => bool_decide (discriminator feature = le_bytes 8 int_id)) (set_iter candidates).

Lemma find_feature_id f : f ∈ candidates -> find_feature (le_num (discriminator f)) = Some f.
Proof.
  intros Hf. unfold find_feature. rewrite discriminator_id.
  destruct (List.find _ _) as [g|] eqn:Hg.
  - apply List.find_some in Hg as [Hin Hd%bool_decide_eq_true]. f_equal.
    apply list_elem_of_In in Hin. rewrite set_iter_elements, elem_of_elements in Hin.
    apply candidates_spec in Hin as [??], Hf as [??]. by apply discriminators_distinct.
  - exfalso. eapply List.find_none in Hg; [by apply bool_decide_eq_false in Hg|].
    apply list_elem_of_In. by rewrite set_iter_elements, elem_of_elements.
Qed.

Lemma activate_all l s :
  ff_inactive s = known_features ∖ dom (ff_active s) ->
  let r := foldl (fun s f => ff_activate f 0 s) s l in
  ff_inactive r = known_features ∖ dom (ff_active r) /\
  forall k, ff_active r !! k = if decide (k ∈ l) then Some 0%Z else ff_active s !! k.
Proof.
  revert s. induction l as [|f l IH]; intros s Hs.
  - split; [done|]. intros k. by rewrite decide_False by apply not_elem_of_nil.
  - destruct (IH (ff_activate f 0 s)) as [H1 H2].
    { cbn. rewrite Hs, dom_insert_L. set_solver. }
    split; [done|]. intros k. cbn [foldl]. rewrite H2. cbn [ff_activate ff_active].
    destruct (decide (k = f)) as [->|Hne].
    + rewrite lookup_insert_eq, (decide_True _ _ (list_elem_of_here f l)). by destruct (decide _).
    + rewrite lookup_insert_ne by done. destruct (decide (k ∈ l)) as [Hk|Hk].
      * rewrite decide_True; [done|]. by right.
      * rewrite decide_False; [done|]. by intros [?|?]%elem_of_cons.
Qed.

(** Features survive the message: exactly the active features that are not omitted are
    active again, from slot 0, whatever the order of the tables. *)
Lemma features_roundtrip s :
  dom (ff_active s) ⊆ known_features ->
  features_of_proto (proto_of_features s) = canonical_features s.
Proof.
  intros Hk. set (kept := filter (fun f => f ∉ OMITTED_FEATURES) (map_keys (ff_active s))).
  assert (Hp : proto_of_features s = map (fun f => le_num (discriminator f)) kept).
  { unfold proto_of_features, kept. induction (map_keys (ff_active s)) as [|f l IH]; [done|].
    cbn [omap list_omap]. rewrite filter_cons. unfold omap in IH.
    destruct (decide (f ∈ OMITTED_FEATURES)) as [Ho|Ho].
    - rewrite bool_decide_true, decide_False by (done || tauto). exact IH.
    - rewrite bool_decide_false, decide_True by done. cbn [map]. by rewrite <- IH. }
  assert (Hkept : forall f, f ∈ kept <-> is_Some (ff_active s !! f) /\ f ∉ OMITTED_FEATURES).
  { intros f. unfold kept. rewrite list_elem_of_filter, map_keys_elements.
    rewrite list_elem_of_fmap. split.
    - intros [Ho ([k v] & -> & Hin%elem_of_map_to_list)]. by split; [exists v|].
    - intros [[v Hv] Ho]. split; [done|]. exists (f, v). split; [done|]. by apply elem_of_map_to_list. }
  assert (Hr : features_of_proto (proto_of_features s) = foldl (fun s f => ff_activate f 0 s) ff_default kept).
  { rewrite Hp. unfold features_of_proto. cbn [OMITTED_FEATURES foldl ff_default ff_inactive].
    fold candidates.
    assert (Hc : forall f, f ∈ kept -> f ∈ candidates).
    { intros f [[v Hv] Ho]%Hkept. apply candidates_spec. split; [|done]. apply Hk. by apply elem_of_dom_2 in Hv. }
    clear Hkept Hp. generalize ff_default. induction kept as [|f l IH]; intros s0; [done|].
    cbn [map foldl]. fold (find_feature (le_num (discriminator f))).
    rewrite find_feature_id by (apply Hc, list_elem_of_here). apply IH. intros g Hg. apply Hc. by right. }
  rewrite Hr. destruct (activate_all kept ff_default) as [H1 H2]; [cbn; by rewrite dom_empty_L, difference_empty_L|].
  destruct (foldl _ ff_default kept) as [active inactive]. cbn [ff_active ff_inactive] in *.
  assert (active = (fun _ => 0%Z) <$> filter (fun x => x.1 ∉ OMITTED_FEATURES) (ff_active s)) as Ha.
  { apply map_eq. intros k. rewrite H2, lookup_fmap. cbn [ff_default ff_active]. rewrite lookup_empty.
    destruct (decide (k ∈ kept)) as [[[v Hv] Ho]%Hkept|Hn].
    - by rewrite (map_lookup_filter_Some_2 _ _ _ v).
    - rewrite map_lookup_filter_None_2; [done|]. right. intros v Hv Ho. cbn in Ho. apply Hn, Hkept. by split; [exists v|]. }
  unfold canonical_features. by rewrite H1, Ha.
Qed.

End Features.

(** ** The model *)

Definition fd_account_ok (x : FdAccount) : Prop := address_ok x.1.1 /\ address_ok (acc_owner x.1.2).
Definition fd_instr_account_ok (a : InstructionAccount) : Prop :=
  (0 <= ia_index_in_transaction a < 65536)%Z.

Lemma pubkey_roundtrip a : address_ok a -> pubkey_of_bytes (address_to_bytes a) = Some a.
Proof.
  intros Ha. unfold pubkey_of_bytes, address_to_bytes. rewrite be_bytes_length, Nat.eqb_refl.
  rewrite be_num_bytes; [by destruct a|]. exact Ha.
Qed.

Lemma seed_roundtrip (s : option SeedAddress) : seed_of_proto <$> (proto_of_seed <$> s) = s.
Proof. by destruct s as [[]|]. Qed.

Lemma fd_account_roundtrip x : fd_account_ok x -> fd_account_of_proto (proto_of_fd_account x) = Some x.
Proof.
  destruct x as [[k a] s]. intros [Hk Ho]. cbn in Hk, Ho. unfold fd_account_of_proto. cbn -[pubkey_of_bytes address_to_bytes].
  rewrite pubkey_roundtrip by done. cbn -[pubkey_of_bytes address_to_bytes]. rewrite pubkey_roundtrip by done. cbn.
  rewrite seed_roundtrip. by destruct a.
Qed.

Lemma fd_accounts_roundtrip l :
  Forall fd_account_ok l -> mapM fd_account_of_proto (map proto_of_fd_account l) = Some l.
Proof.
  induction 1 as [|x l Hx _ IH]; [done|]. cbn [map]. cbn [mapM].
  rewrite fd_account_roundtrip by done. cbn. by rewrite IH.
Qed.

Lemma fd_instr_accounts_roundtrip l :
  Forall fd_instr_account_ok l ->
  map fd_instr_account_of_proto (map proto_of_fd_instr_account l) = l.
Proof.
  induction 1 as [|[i s w] l Hx _ IH]; [done|]. cbn [map]. rewrite IH. f_equal.
  unfold fd_instr_account_of_proto, fd_instr_account_ok in *. cbn in *. by rewrite Z.mod_small.
Qed.

Definition fd_fixture_ok {fr : FdRuntime} (f : FdFixture) : Prop :=
  address_ok (cx_program_id (fdx_input f)) /\
  Forall fd_account_ok (cx_accounts (fdx_input f)) /\
  Forall fd_instr_account_ok (cx_instruction_accounts (fdx_input f)) /\
  dom (ff_active (cx_epoch_context (fdx_input f))) ⊆ known_features /\
  Forall fd_account_ok (ef_modified_accounts (fdx_output f)).

(** A fixture with its features in canonical form. *)
Definition canonical_fixture {fr : FdRuntime} (f : FdFixture) : FdFixture :=
  let c := fdx_input f in
  mkFdFixture (fdx_metadata f)
    (mkFdContext (cx_program_id c) (cx_accounts c) (cx_instruction_accounts c) (cx_instruction_data c)
       (cx_compute_units_available c) (cx_slot_context c) (canonical_features (cx_epoch_context c)))
    (fdx_output f).

(** C39: the model survives its message.  A FireDancer fixture whose addresses have 32
    bytes, whose account indices have 16 bits and whose active features are known, written
    as a message and read back, does not panic and is the same fixture, seeds included,
    except that its features come back active from slot 0 and without the two that
    share their first bytes; writing the result again loses nothing more. *)
Theorem fd_model_roundtrip {fr : FdRuntime} {fl : FdLaws} (f : FdFixture) :
  fd_fixture_ok f ->
  to_model (proto_of_fd_fixture f) = Some (canonical_fixture f) /\
  to_model (proto_of_fd_fixture (canonical_fixture f)) = Some (canonical_fixture f).
Proof.
  assert (H : forall g, fd_fixture_ok g -> to_model (proto_of_fd_fixture g) = Some (canonical_fixture g)).
  { intros [m [p a ia d cu sl ep] [r c ma cu' rd]] (Hp & Ha & Hi & He & Hm). cbn in Hp, Ha, Hi, He, Hm.
    unfold to_model, proto_of_fd_fixture. cbn -[fd_context_of_proto fd_effects_of_proto].
    unfold fd_context_of_proto, fd_effects_of_proto. cbn -[pubkey_of_bytes address_to_bytes].
    rewrite pubkey_roundtrip by done. cbn -[pubkey_of_bytes address_to_bytes].
    rewrite fd_accounts_roundtrip by done. cbn.
    rewrite fd_accounts_roundtrip, fd_instr_accounts_roundtrip, features_roundtrip by done. done. }
  intros Hf. split; [by apply H|]. rewrite H.
  - unfold canonical_fixture at 1. cbn. unfold canonical_fixture. do 2 f_equal.
    unfold canonical_features. cbn.
    assert (Hx : (fun _ => 0%Z) <$> filter (fun x => x.1 ∉ OMITTED_FEATURES)
        ((fun _ => 0%Z) <$> filter (fun x => x.1 ∉ OMITTED_FEATURES) (ff_active (cx_epoch_context (fdx_input f)))) =
      (fun _ => 0%Z) <$> filter (fun x => x.1 ∉ OMITTED_FEATURES) (ff_active (cx_epoch_context (fdx_input f)))).
    { apply map_eq. intros k. rewrite lookup_fmap, map_lookup_filter, !lookup_fmap, map_lookup_filter.
      destruct (ff_active _ !! k) as [v|]; [|done]. cbn. repeat (case_guard; cbn); done. }
    by rewrite Hx.
  - destruct Hf as (Hp & Ha & Hi & He & Hm). split_and!; try done. cbn. rewrite dom_fmap_L.
    etransitivity; [|exact He]. apply dom_filter_subseteq.
Qed.

(** An account index is cut to 16 bits without notice: a message that names account
    65536 + i is read as naming account i. *)
Theorem account_index_truncated (i : Z) (w s : bool) :
  (0 <= i < 65536)%Z ->
  fd_instr_account_of_proto (mkInstrAcct (65536 + i) w s) = fd_instr_account_of_proto (mkInstrAcct i w s).
Proof.
  intros Hi. unfold fd_instr_account_of_proto. cbn. f_equal.
  replace (65536 + i)%Z with (i + 1 * 65536)%Z by lia. by rewrite Z.mod_add.
Qed.

(** ** The hash *)

Lemma sort_permutation (l1 l2 : list Z) : l1 ≡ₚ l2 -> merge_sort Z.le l1 = merge_sort Z.le l2.
Proof.
  intros H. apply (StronglySorted_unique Z.le).
  - apply (StronglySorted_merge_sort _).
  - apply (StronglySorted_merge_sort _).
  - by rewrite !merge_sort_Permutation.
Qed.

(** Hashes are deterministic.  Two processes that iterate their hash tables in
    different orders write the features of a fixture in different orders, and still hash
    the same bytes for it. *)
Theorem hash_order_independent (fr1 fr2 : FdRuntime) (fl1 : FdLaws (fr := fr1)) (fl2 : FdLaws (fr := fr2))
    (f : FdFixture) :
  @disable_sbpf_v0_execution_ID fr1 = @disable_sbpf_v0_execution_ID fr2 ->
  @reenable_sbpf_v0_execution_ID fr1 = @reenable_sbpf_v0_execution_ID fr2 ->
  hash_input (@proto_of_fd_fixture fr1 f) = hash_input (@proto_of_fd_fixture fr2 f).
Proof.
  intros H1 H2.
  assert (Hp : @proto_of_features fr1 (cx_epoch_context (fdx_input f)) ≡ₚ
               @proto_of_features fr2 (cx_epoch_context (fdx_input f))).
  { unfold proto_of_features, OMITTED_FEATURES. rewrite H1, H2. apply omap_Permutation.
    by rewrite (@map_keys_elements fr1 fl1), (@map_keys_elements fr2 fl2). }
  unfold hash_input, proto_of_fd_fixture, proto_of_fd_context. cbn -[hash_proto_context hash_proto_effects].
  f_equal. unfold hash_proto_context. cbn -[merge_sort]. unfold hash_proto_feature_set.
  by rewrite (sort_permutation _ _ Hp).
Qed.

(** Two fixtures over the same program and accounts: one passes six zero bytes of data,
    the other passes none, and the account at index 0 instead. *)
Definition ambiguous (data : list byte) (accounts : list InstructionAccount) {fr : FdRuntime} : FdFixture :=
  mkFdFixture None
    (mkFdContext (Addr 1) [(Addr 2, mkAccount 5 [] (Addr 0) false 0, None)] accounts data 100 7 ff_default)
    (mkFdEffects 0 0 [] 90 []).

(** The hash does not separate the fields it is fed, so different fixtures have the
    same hash, whatever the hash function: one that passes an account to the program and
    one that passes six zero bytes as data. *)
Theorem hash_ambiguous {fr : FdRuntime} :
  let f1 := ambiguous [x00; x00; x00; x00; x00; x00] [] in
  let f2 := ambiguous [] [mkInstructionAccount 0 false false] in
  f1 <> f2 /\ proto_hash (proto_of_fd_fixture f1) = proto_hash (proto_of_fd_fixture f2).
Proof. split; [done|]. unfold proto_hash. f_equal. Qed.

(** ** The fuzz target *)

(** Every address of a message has 32 bytes. *)
Definition wide_account (a : AcctState) : Prop := length (ps_address a) = 32 /\ length (ps_owner a) = 32.
Definition wide_message (c : InstrContext) (e : InstrEffects) : Prop :=
  length (pc_program_id c) = 32 /\ Forall wide_account (pc_accounts c) /\
  Forall wide_account (pe_modified_accounts e).

(** The decoder yields 64-bit unsigned numbers where the schema has them. *)
Class ProtoRanges {fdc : FiredancerCodec} : Prop := {
  decoded_cu_avail data p e : proto_decode data = Ok p -> pf_output p = Some e -> (0 <= pe_cu_avail e)%Z
}.

Lemma pubkey_of_bytes_Some bytes : is_Some (pubkey_of_bytes bytes) <-> length bytes = 32.
Proof.
  unfold pubkey_of_bytes. destruct (Nat.eqb_spec (length bytes) 32); by split.
Qed.

Lemma fd_account_of_proto_Some a : is_Some (fd_account_of_proto a) <-> wide_account a.
Proof.
  unfold fd_account_of_proto, wide_account. rewrite <- !pubkey_of_bytes_Some.
  destruct (pubkey_of_bytes (ps_address a)), (pubkey_of_bytes (ps_owner a)); cbn;
    (split; [intros [? ?]; try discriminate; eauto | intros [[? ?] [? ?]]; try discriminate; eauto]).
Qed.

Lemma fd_accounts_of_proto_Some l : is_Some (mapM fd_account_of_proto l) <-> Forall wide_account l.
Proof.
  rewrite mapM_is_Some. apply Forall_iff. intros a. apply fd_account_of_proto_Some.
Qed.

Lemma to_model_Some {fr : FdRuntime} p c e :
  pf_input p = Some c -> pf_output p = Some e -> is_Some (to_model p) <-> wide_message c e.
Proof.
  intros Hc He. unfold to_model, wide_message, fd_context_of_proto, fd_effects_of_proto. rewrite Hc, He.
  rewrite <- pubkey_of_bytes_Some, <- !fd_accounts_of_proto_Some. cbn.
  destruct (pubkey_of_bytes (pc_program_id c)), (mapM fd_account_of_proto (pc_accounts c)),
    (mapM fd_account_of_proto (pe_modified_accounts e)); cbn;
    (split; [intros [? ?]; try discriminate; eauto
            | intros ([? ?] & [? ?] & [? ?]); try discriminate; eauto]).
Qed.

(** Every rejection of the import is one of the kinds the fuzz target names. *)
Lemma account_rejection field a e : account_snapshot_from_proto field a = Err e -> typed_rejection e = true.
Proof.
  unfold account_snapshot_from_proto, address_from_bytes. intros H.
  by repeat (case_match; simplify_eq/=).
Qed.

Lemma traverse_rejection {A B} (f : A -> result B AdapterError) l e :
  (forall x e, f x = Err e -> typed_rejection e = true) -> traverse f l = Err e -> typed_rejection e = true.
Proof.
  intros Hf. induction l as [|x l IH]; [done|]. cbn. destruct (f x) as [y|e'] eqn:Hx; cbn.
  - destruct (traverse f l); [done|]. cbn. intros [= ->]. by apply IH.
  - intros [= ->]. by eapply Hf.
Qed.

Lemma instruction_accounts_resolve pre l metas :
  traverse (instruction_account_from_proto pre) l = Ok metas ->
  forallb (fun account => existsb (fun a => bool_decide (as_address a = iam_pubkey account)) pre) metas = true.
Proof.
  intros H. apply traverse_Ok_Forall2 in H. apply forallb_forall. intros m Hm.
  apply list_elem_of_In, list_elem_of_lookup in Hm as [i Hi].
  destruct (Forall2_lookup_r _ _ _ _ _ H Hi) as (x & _ & Hx).
  unfold instruction_account_from_proto in Hx. destruct (pre !! _) as [a|] eqn:Ha; simplify_eq/=.
  apply existsb_exists. exists a. split; [|by apply bool_decide_eq_true].
  apply list_elem_of_In. by eapply list_elem_of_lookup_2.
Qed.

Lemma import_checked {dsp : ExternalDisplay} p e :
  pf_output p = Some e -> (0 <= pe_cu_avail e)%Z ->
  match fixture_of_firedancer p with
  | Ok model => import_asserts model = true
  | Err error => typed_rejection error = true
  end.
Proof.
  intros He Hcu. unfold fixture_of_firedancer. destruct (pf_input p) as [c|]; [|done]. rewrite He. cbn.
  destruct (traverse _ (pc_accounts c)) as [pre|] eqn:H1; cbn;
    [|eapply traverse_rejection, H1; by apply account_rejection].
  destruct (traverse _ (pc_instr_accounts c)) as [metas|] eqn:H2; cbn.
  2:{ eapply traverse_rejection, H2. intros x err. unfold instruction_account_from_proto.
      by destruct (pre !! _); intros [= <-]. }
  destruct (traverse _ (pe_modified_accounts e)) as [post|] eqn:H3; cbn;
    [|eapply traverse_rejection, H3; by apply account_rejection].
  destruct (address_from_bytes _ _) as [id|] eqn:H4; cbn;
    [|unfold address_from_bytes in H4; by destruct (Nat.eqb _ _); simplify_eq].
  destruct (checked_sub_u64 _ _) as [used|] eqn:H5; cbn; [|done].
  destruct (status_from_output _ _) as [st|] eqn:H6; cbn.
  - unfold import_asserts. cbn. rewrite (instruction_accounts_resolve _ _ _ H2). cbn.
    apply checked_sub_u64_Some in H5 as [? ->]. apply andb_true_intro. split; [|done].
    rewrite !andb_true_r. apply Z.leb_le. lia.
  - unfold status_from_output in H6. by repeat case_match; simplify_eq.
Qed.

(** Every error says something. *)
Lemma adapter_message_nonempty {dsp : ExternalDisplay} e : String.eqb (adapter_message e) "" = false.
Proof. by destruct e. Qed.

(** C40: the fuzz target of the FireDancer adapter.  The import itself never breaks an
    assertion: every rejection is one of the named kinds and has a message, and what is accepted resolves
    its accounts, fits its budget and carries its origin.  But the target panics on every
    decoded message in which some address does not have 32 bytes, since the conversion it
    says must never panic then does; it passes on all others. *)
Theorem fuzz_target_exact {fr : FdRuntime} {dsp : ExternalDisplay} {fdc : FiredancerCodec}
    {rg : ProtoRanges} (data : list byte) (p : InstrFixture) (c : InstrContext) (e : InstrEffects) :
  proto_decode data = Ok p -> pf_input p = Some c -> pf_output p = Some e ->
  (decode_firedancer_fixture data = FuzzPanics <-> ~ wide_message c e) /\
  (decode_firedancer_fixture data = FuzzPassed <-> wide_message c e).
Proof.
  intros Hd Hc He. unfold decode_firedancer_fixture. rewrite Hd, Hc, He.
  rewrite <- (to_model_Some p c e Hc He).
  pose proof (import_checked p e He (decoded_cu_avail data p e Hd He)) as Hi.
  cbn [fdx_from_proto fdx_inner fdx_as_proto]. rewrite bool_decide_true by done. cbn [negb].
  destruct (to_model p) as [m|].
  - assert (is_Some (Some m)) by eauto. destruct (fixture_of_firedancer p) as [f|err];
      rewrite Hi, ?adapter_message_nonempty; naive_solver.
  - assert (~ is_Some (None : option FdFixture)) by (by intros [? ?]). naive_solver.
Qed.
