(* ===== verification/TestSupport.v ===== *)
(** * Test support, [crates/hpsvm-test-support]

    The lookup of the SBF test programs: the directories searched, the first that holds
    a program, and what a caller gets when there is none.  The environment and the file
    system are an interface; the notices are values. *)

From Stdlib Require Import Strings.Byte Strings.Ascii Strings.String.
From stdpp Require Import base tactics option list sets strings.
From S2P Require Import Prelude.
From S2P Require Import Types.

(** The environment variable's value, the crate's directory at build time, the kind of a
    path and its contents. *)
Class TestOs : Type := {
  env_var_os : string -> option string;
  cargo_manifest_dir : string;
  is_file : string -> bool;
  read_bytes : string -> result (list byte) string
}.

Definition COUNTER : string := "counter.so".
Definition FAILURE : string := "failure.so".
Definition CUSTOM_SYSCALL : string := "test_program_custom_syscall.so".
Definition CLOCK_EXAMPLE : string := "hpsvm_clock_example.so".
Definition PROGRAMS : list string := [COUNTER; FAILURE; CUSTOM_SYSCALL; CLOCK_EXAMPLE].
Definition PROGRAM_DIR_ENV : string := "HPSVM_TEST_PROGRAMS_DIR".

Definition build_command : string :=
  "cargo build-sbf --manifest-path crates/hpsvm/test_programs/Cargo.toml".

(** [Path::join]: an absolute path replaces, and a separator is added where there is
    none. *)
Fixpoint ends_with_slash (s : string) : bool :=
  match s with
  | EmptyString => false
  | String c EmptyString => Ascii.eqb c "/"%char
  | String _ rest => ends_with_slash rest
  end.
Definition starts_with_slash (s : string) : bool :=
  match s with String c _ => Ascii.eqb c "/"%char | EmptyString => false end.
Definition path_push (dir name : string) : string :=
  if starts_with_slash name then name
  else if String.eqb dir "" then name
  else if ends_with_slash dir then dir +:+ name
  else dir +:+ "/" +:+ name.

(** What is printed. *)
Inductive Notice : Type :=
| Missing (name : string) (dirs : list string) (command : string)
| Unreadable (name path error command : string).

Definition report_missing (name : string) (dirs : list string) : Notice :=
  Missing name dirs build_command.
Definition report_unreadable (name path error : string) : Notice :=
  Unreadable name path error build_command.

Section Lookup.
Context {os : TestOs}.

Definition program_dirs : list string :=
  let test_programs :=
    match env_var_os PROGRAM_DIR_ENV with
    | Some dir => if String.eqb dir "" then path_push cargo_manifest_dir "../hpsvm/test_programs" else dir
    | None => path_push cargo_manifest_dir "../hpsvm/test_programs"
    end in
  [path_push test_programs "target/deploy"; path_push test_programs "prebuilt"].

(** [Iterator::find] on the candidates. *)
Fixpoint find_in (dirs : list string) (name : string) : option string :=
  match dirs with
  | [] => None
  | dir :: rest =>
      let candidate := path_push dir name in
      if is_file candidate then Some candidate else find_in rest name
  end.

Definition find_program (name : string) : option string := find_in program_dirs name.

Definition read_program (name : string) : option (list byte) * list Notice :=
  match find_in program_dirs name with
  | None => (None, [report_missing name program_dirs])
  | Some path =>
      match read_bytes path with
      | Ok bytes => (Some bytes, [])
      | Err error => (None, [report_unreadable name path error])
      end
  end.

(** [None] is the panic. *)
Definition read_program_or_panic (name : string) : option (list byte) * list Notice :=
  match find_in program_dirs name with
  | None => (None, [report_missing name program_dirs])
  | Some path => match read_bytes path with Ok bytes => (Some bytes, []) | Err _ => (None, []) end
  end.

Fixpoint unavailable (names : list string) : list string * list Notice :=
  match names with
  | [] => ([], [])
  | name :: rest =>
      let '(missing, notices) := unavailable rest in
      match find_in program_dirs name with
      | None => (name :: missing, report_missing name program_dirs :: notices)
      | Some _ => (missing, notices)
      end
  end.
Definition report_unavailable : list string * list Notice := unavailable PROGRAMS.

Lemma find_in_Some dirs name path :
  find_in dirs name = Some path <->
  exists before dir after, dirs = before ++ dir :: after /\ path = path_push dir name /\
    is_file path = true /\ Forall (fun d => is_file (path_push d name) = false) before.
Proof.
  induction dirs as [|d dirs IH]; simpl.
  - split; [done|]. by intros ([] & ? & ? & ? & _).
  - destruct (is_file (path_push d name)) eqn:Hf.
    + split; [intros [= <-]; exists [], d, dirs; by split_and!|].
      intros ([|b before] & dir & after & Heq & -> & Hp & Hall); simplify_eq/=; [done|].
      apply Forall_cons in Hall as [Hb _]. congruence.
    + rewrite IH. split.
      * intros (before & dir & after & -> & ? & ? & ?). exists (d :: before), dir, after.
        split_and!; [done..|]. by constructor.
      * intros ([|b before] & dir & after & Heq & -> & Hp & Hall); simplify_eq/=; [congruence|].
        apply Forall_cons in Hall as [_ Hall]. by exists before, dir, after.
Qed.

Lemma find_in_None dirs name :
  find_in dirs name = None <-> Forall (fun d => is_file (path_push d name) = false) dirs.
Proof.
  induction dirs as [|d dirs IH]; simpl; [done|]. rewrite Forall_cons, <- IH.
  destruct (is_file (path_push d name)); naive_solver.
Qed.

(** A program that has been built is preferred to the vendored one, also when it cannot
    be read: the caller is then told to skip although the vendored one would do. *)
Theorem built_program_shadows_prebuilt name deploy prebuilt error :
  program_dirs = [deploy; prebuilt] ->
  is_file (path_push deploy name) = true -> read_bytes (path_push deploy name) = Err error ->
  read_program name = (None, [report_unreadable name (path_push deploy name) error]).
Proof.
  intros Hd Hf Hr. unfold read_program. rewrite Hd. cbn [find_in]. by rewrite Hf, Hr.
Qed.

(** The three ways to ask agree: the first directory that holds a program gives it, a
    program is reported unavailable exactly when none does, and then, and when it is found but cannot be read,
    reading it gives nothing; every refusal to read comes with one notice. *)
Theorem lookups_agree name :
  (name ∈ report_unavailable.1 <-> name ∈ PROGRAMS /\ find_program name = None) /\
  (find_program name = None <-> Forall (fun d => is_file (path_push d name) = false) program_dirs) /\
  (forall path, find_program name = Some path <->
     exists before dir after, program_dirs = before ++ dir :: after /\ path = path_push dir name /\
       is_file path = true /\ Forall (fun d => is_file (path_push d name) = false) before) /\
  (read_program name).1 = (read_program_or_panic name).1 /\
  ((read_program name).1 = None <-> length (read_program name).2 = 1) /\
  ((read_program name).1 = None <->
     find_program name = None \/ exists p e, find_program name = Some p /\ read_bytes p = Err e).
Proof.
  split_and!.
  - unfold report_unavailable, find_program. generalize PROGRAMS as l. intros l.
    induction l as [|n l IH]; [set_solver|]. cbn [unavailable].
    destruct (unavailable l) as [missing notices]. destruct (find_in program_dirs n) eqn:Hn; cbn [fst] in *.
    all: rewrite !elem_of_cons.
    all: naive_solver congruence.
  - apply find_in_None.
  - intros path. apply find_in_Some.
  - unfold read_program, read_program_or_panic. destruct (find_in _ _) as [p|]; [|done].
    by destruct (read_bytes p).
  - unfold read_program. destruct (find_in _ _) as [p|]; [|done]. by destruct (read_bytes p).
  - unfold read_program, find_program. destruct (find_in _ _) as [p|]; [|naive_solver].
    destruct (read_bytes p) eqn:Hr; naive_solver congruence.
Qed.

End Lookup.
