(* ===== verification/SvmInstruction.v ===== *)
(** * Builtin handlers, [svm_instruction.rs] and the entrypoint of [hpsvm-macros]

    A handler declared with [#[svm_instruction]] works on owned copies of the
    accounts of its instruction; the entrypoint charges the declared units, takes
    the copies, runs the handler and writes the copies back.  An instruction may
    name one account of the transaction several times, so the accounts are a store
    the instruction refers to by index. *)

From Stdlib Require Import ZArith Lia Strings.Byte.
From stdpp Require Import base tactics option list.
From S2P Require Import Prelude.
From S2P Require Import Types.

(** ** The running instruction *)

(** An account of the instruction: where it is in the transaction, and its privileges. *)
Record InstrAccount : Type := mkInstrAccount {
  ia_index : nat;
  ia_is_signer : bool;
  ia_is_writable : bool
}.

(** What the code reads and writes of an [InvokeContext]: the accounts of the
    transaction with the bytes they have grown by so far, the current instruction
    and the compute meter. *)
Record InvokeCtx : Type := mkInvokeCtx {
  tc_accounts : list (Address * AccountSharedData);
  tc_resize_delta : Z;
  ic_program_id : Address;
  ic_data : list byte;
  ic_accounts : list InstrAccount;
  ic_meter : Z
}.

Definition set_tc (l : list (Address * AccountSharedData)) (delta : Z) (c : InvokeCtx) : InvokeCtx :=
  mkInvokeCtx l delta (ic_program_id c) (ic_data c) (ic_accounts c) (ic_meter c).
Definition set_meter (m : Z) (c : InvokeCtx) : InvokeCtx :=
  mkInvokeCtx (tc_accounts c) (tc_resize_delta c) (ic_program_id c) (ic_data c) (ic_accounts c) m.

(** The checked setters of a borrowed account, and the compute meter: what each
    refuses, given the program, the privileges and the account; the data setter also
    keeps the count of the bytes the transaction has grown by.  A setter that does not
    refuse stores the value. *)
Class BorrowRules : Type := {
  lamports_guard : Address -> InstrAccount -> AccountSharedData -> Z -> result unit InstructionError;
  data_guard : Address -> InstrAccount -> AccountSharedData -> list byte -> Z ->
    result Z InstructionError;
  owner_guard : Address -> InstrAccount -> AccountSharedData -> Address -> result unit InstructionError;
  consume_checked : Z -> Z -> result unit InstructionError * Z
}.

(** ** [SvmInstructionCtx] *)
Record SvmInstructionAccount : Type := mkSvmInstructionAccount {
  sia_key : Address;
  sia_is_signer : bool;
  sia_is_writable : bool;
  sia_lamports : Z;
  sia_data : list byte;
  sia_owner : Address;
  sia_index_in_transaction : nat
}.

Record SvmInstructionCtx : Type := mkSvmInstructionCtx {
  sic_program_id : Address;
  sic_accounts : list SvmInstructionAccount;
  sic_data : list byte
}.

(** The copy of one account; an index outside the transaction is refused. *)
Definition copy_account (c : InvokeCtx) (ia : InstrAccount) :
    result SvmInstructionAccount InstructionError :=
  let? x := ok_or (tc_accounts c !! ia_index ia) MissingAccount in
  Ok (mkSvmInstructionAccount x.1 (ia_is_signer ia) (ia_is_writable ia) (lamports x.2) (acc_data x.2)
        (acc_owner x.2) (ia_index ia)).

Definition from_invoke_context (c : InvokeCtx) : result SvmInstructionCtx InstructionError :=
  let? accounts := traverse (copy_account c) (ic_accounts c) in
  Ok (mkSvmInstructionCtx (ic_program_id c) accounts (ic_data c)).

Section WriteBack.
Context {br : BorrowRules}.

(** One account of [write_back]: the fields that differ, each through its setter;
    [delta] is the bytes the transaction has grown by. *)
Definition write_lamports (program : Address) (ia : InstrAccount) (n : Z) (a : AccountSharedData)
    (delta : Z) : result (AccountSharedData * Z) InstructionError :=
  if (lamports a =? n)%Z then Ok (a, delta)
  else let? _ := lamports_guard program ia a n in
       Ok (mkAccount n (acc_data a) (acc_owner a) (executable a) (rent_epoch a), delta).

Definition write_data (program : Address) (ia : InstrAccount) (d : list byte) (a : AccountSharedData)
    (delta : Z) : result (AccountSharedData * Z) InstructionError :=
  if bool_decide (acc_data a = d) then Ok (a, delta)
  else let? delta' := data_guard program ia a d delta in
       Ok (mkAccount (lamports a) d (acc_owner a) (executable a) (rent_epoch a), delta').

Definition write_owner (program : Address) (ia : InstrAccount) (k : Address) (a : AccountSharedData)
    (delta : Z) : result (AccountSharedData * Z) InstructionError :=
  if bool_decide (acc_owner a = k) then Ok (a, delta)
  else let? _ := owner_guard program ia a k in
       Ok (mkAccount (lamports a) (acc_data a) k (executable a) (rent_epoch a), delta).

(** A setter on the account of the transaction. *)
Definition write_field (i : nat)
    (f : AccountSharedData -> Z -> result (AccountSharedData * Z) InstructionError) :
    M InvokeCtx InstructionError unit := fun c =>
  match tc_accounts c !! i with
  | None => (Err MissingAccount, c)
  | Some (key, a) =>
      match f a (tc_resize_delta c) with
      | Err e => (Err e, c)
      | Ok (a', delta) => (Ok tt, set_tc (<[i := (key, a')]> (tc_accounts c)) delta c)
      end
  end.

Definition write_account (ia : InstrAccount) (account : SvmInstructionAccount) :
    M InvokeCtx InstructionError unit := fun c =>
  let program := ic_program_id c in
  sbind (write_field (ia_index ia) (write_lamports program ia (sia_lamports account))) (fun _ =>
    sbind (write_field (ia_index ia) (write_data program ia (sia_data account))) (fun _ =>
      write_field (ia_index ia) (write_owner program ia (sia_owner account)))) c.

(** [write_back]: the accounts of the instruction in order; a copy the handler
    removed is an error when its turn comes. *)
Fixpoint write_back_loop (l : list InstrAccount) (copies : list SvmInstructionAccount) :
    M InvokeCtx InstructionError unit :=
  match l with
  | [] => sret tt
  | ia :: rest =>
      match copies with
      | [] => sfail MissingAccount
      | account :: copies' => sbind (write_account ia account) (fun _ => write_back_loop rest copies')
      end
  end.

Definition write_back (ctx : SvmInstructionCtx) : M InvokeCtx InstructionError unit := fun c =>
  write_back_loop (ic_accounts c) (sic_accounts ctx) c.

(** The generated entrypoint.  The handler gets the copies by mutable reference. *)
Definition entrypoint (compute_units : Z)
    (execute : SvmInstructionCtx -> result SvmInstructionCtx InstructionError) :
    M InvokeCtx InstructionError unit := fun c =>
  let '(charged, c1) :=
    if (0 <? compute_units)%Z then
      let '(r, m) := consume_checked compute_units (ic_meter c) in (r, set_meter m c)
    else (Ok tt, c) in
  match charged with
  | Err e => (Err e, c1)
  | Ok _ =>
      match (let? ctx := from_invoke_context c1 in execute ctx) with
      | Err e => (Err e, c1)
      | Ok ctx => write_back ctx c1
      end
  end.

(** ** Theorems *)

(** What a copy says of an account. *)
Definition agrees (account : SvmInstructionAccount) (a : AccountSharedData) : Prop :=
  lamports a = sia_lamports account /\ acc_data a = sia_data account /\ acc_owner a = sia_owner account.

(** An account before and after: the key and the fields a handler cannot reach. *)
Definition same_rest (x y : Address * AccountSharedData) : Prop :=
  y.1 = x.1 /\ executable y.2 = executable x.2 /\ rent_epoch y.2 = rent_epoch x.2.

Lemma write_field_ok i f c c' :
  write_field i f c = (Ok tt, c') ->
  exists key a a' delta, tc_accounts c !! i = Some (key, a) /\ f a (tc_resize_delta c) = Ok (a', delta) /\
    c' = set_tc (<[i := (key, a')]> (tc_accounts c)) delta c.
Proof.
  unfold write_field. destruct (tc_accounts c !! i) as [[key a]|] eqn:Hi; [|done].
  destruct (f a _) as [[a' delta]|e] eqn:Hf; [|done]. intros [= <-]. by exists key, a, a', delta.
Qed.

Lemma write_lamports_ok p ia n a d a' d' :
  write_lamports p ia n a d = Ok (a', d') ->
  lamports a' = n /\ acc_data a' = acc_data a /\ acc_owner a' = acc_owner a /\
  executable a' = executable a /\ rent_epoch a' = rent_epoch a.
Proof.
  unfold write_lamports. destruct (Z.eqb_spec (lamports a) n); [by intros [= <- <-]|].
  destruct (lamports_guard _ _ _ _); cbn; [|done]. by intros [= <- <-].
Qed.

Lemma write_data_ok p ia n a d a' d' :
  write_data p ia n a d = Ok (a', d') ->
  lamports a' = lamports a /\ acc_data a' = n /\ acc_owner a' = acc_owner a /\
  executable a' = executable a /\ rent_epoch a' = rent_epoch a.
Proof.
  unfold write_data. case_bool_decide; [by intros [= <- <-]|].
  destruct (data_guard _ _ _ _ _); cbn; [|done]. by intros [= <- <-].
Qed.

Lemma write_owner_ok p ia n a d a' d' :
  write_owner p ia n a d = Ok (a', d') ->
  lamports a' = lamports a /\ acc_data a' = acc_data a /\ acc_owner a' = n /\
  executable a' = executable a /\ rent_epoch a' = rent_epoch a.
Proof.
  unfold write_owner. case_bool_decide; [by intros [= <- <-]|].
  destruct (owner_guard _ _ _ _); cbn; [|done]. by intros [= <- <-].
Qed.

(** A successful write makes the account agree with the copy, and changes no other. *)
Lemma write_account_ok ia account c c' :
  write_account ia account c = (Ok tt, c') ->
  exists x a' delta, tc_accounts c !! ia_index ia = Some x /\ agrees account a' /\ same_rest x (x.1, a') /\
    c' = set_tc (<[ia_index ia := (x.1, a')]> (tc_accounts c)) delta c.
Proof.
  unfold write_account, sbind.
  destruct (write_field _ (write_lamports _ _ _) c) as [[[]|e] c1] eqn:H1; [|done].
  destruct (write_field _ (write_data _ _ _) c1) as [[[]|e] c2] eqn:H2; [|done]. intros H3.
  apply write_field_ok in H1 as (key & a & a1 & d1 & Hi & H1 & ->).
  apply write_field_ok in H2 as (key2 & a1' & a2 & d2 & Hi2 & H2 & ->). cbn in Hi2.
  apply lookup_lt_Some in Hi as Hlt. rewrite list_lookup_insert_eq in Hi2 by done. injection Hi2 as <- <-.
  apply write_field_ok in H3 as (key3 & a2' & a3 & d3 & Hi3 & H3 & ->). cbn in Hi3.
  rewrite list_lookup_insert_eq in Hi3 by (by rewrite length_insert). injection Hi3 as <- <-.
  apply write_lamports_ok in H1 as (?&?&?&?&?). apply write_data_ok in H2 as (?&?&?&?&?).
  apply write_owner_ok in H3 as (?&?&?&?&?).
  exists (key, a), a3, d3. split; [done|]. split; [unfold agrees; split_and!; congruence|].
  split; [unfold same_rest; cbn; split_and!; congruence|]. cbn. by rewrite !list_insert_insert_eq.
Qed.

(** The last copy of a transaction account among those of the instruction. *)
Fixpoint last_copy (l : list InstrAccount) (copies : list SvmInstructionAccount) (i : nat) :
    option SvmInstructionAccount :=
  match l, copies with
  | ia :: rest, account :: copies' =>
      match last_copy rest copies' i with
      | Some x => Some x
      | None => if decide (ia_index ia = i) then Some account else None
      end
  | _, _ => None
  end.

(** An account of the transaction after the copies are written: as the last copy of
    it says, or as it was. *)
Definition written (o : option SvmInstructionAccount) (x y : Address * AccountSharedData) : Prop :=
  match o with
  | None => y = x
  | Some account => agrees account y.2 /\ same_rest x y
  end.

Lemma write_back_loop_ok l : forall copies c c',
  write_back_loop l copies c = (Ok tt, c') ->
  length l <= length copies /\
  (exists accounts delta, c' = set_tc accounts delta c) /\
  length (tc_accounts c') = length (tc_accounts c) /\
  forall i x, tc_accounts c !! i = Some x ->
    exists y, tc_accounts c' !! i = Some y /\ written (last_copy l copies i) x y.
Proof.
  induction l as [|ia rest IH]; intros copies c c'; cbn [write_back_loop].
  - intros [= <-]. split; [cbn; lia|]. split; [exists (tc_accounts c), (tc_resize_delta c); by destruct c|].
    split; [done|]. intros i x Hx. by exists x.
  - destruct copies as [|account copies]; [done|]. unfold sbind.
    destruct (write_account ia account c) as [[[]|e] c1] eqn:H1; [|done]. intros H2.
    apply write_account_ok in H1 as (x0 & a' & delta & Hx0 & Ha & Hr & ->).
    apply IH in H2 as (Hlen & (acc & d & ->) & Hl & Hall). split; [cbn; lia|].
    split; [by exists acc, d|]. split; [rewrite Hl; cbn; by rewrite length_insert|].
    intros i x Hx. cbn [last_copy].
    destruct (decide (ia_index ia = i)) as [<-|Hne].
    + assert (x = x0) as -> by congruence. apply lookup_lt_Some in Hx as Hlt.
      destruct (Hall (ia_index ia) (x0.1, a')) as (y & Hy & Hw).
      { cbn. by rewrite list_lookup_insert_eq. }
      exists y. split; [done|]. destruct (last_copy rest copies _) as [z|] eqn:Hz; cbn in *; [|by subst y].
      destruct Hw as [Hw (E1 & E2 & E3)], Hr as (F1 & F2 & F3). split; [done|].
      cbn in *. unfold same_rest. split_and!; congruence.
    + destruct (Hall i x) as (y & Hy & Hw). { cbn. by rewrite list_lookup_insert_ne. }
      exists y. split; [done|]. by destruct (last_copy rest copies i).
Qed.

(** [copy_account] is what the account says. *)
Lemma copy_account_ok c ia account :
  copy_account c ia = Ok account ->
  exists x, tc_accounts c !! ia_index ia = Some x /\ sia_key account = x.1 /\ agrees account x.2 /\
    sia_index_in_transaction account = ia_index ia.
Proof.
  unfold copy_account. destruct (tc_accounts c !! ia_index ia) as [x|]; cbn; [|done].
  intros [= <-]. by exists x.
Qed.

(** The meter after the charge for the declared units. *)
Definition charged_meter (compute_units : Z) (meter : Z) : result unit InstructionError * Z :=
  if (0 <? compute_units)%Z then consume_checked compute_units meter else (Ok tt, meter).

Lemma entrypoint_unfold units execute c :
  entrypoint units execute c =
  let '(charged, m) := charged_meter units (ic_meter c) in
  match charged with
  | Err e => (Err e, set_meter m c)
  | Ok _ =>
      match (let? ctx := from_invoke_context (set_meter m c) in execute ctx) with
      | Err e => (Err e, set_meter m c)
      | Ok ctx => write_back ctx (set_meter m c)
      end
  end.
Proof.
  unfold entrypoint, charged_meter. destruct (0 <? units)%Z.
  - by destruct (consume_checked units (ic_meter c)).
  - by destruct c.
Qed.

(** C33: What a run of a declared builtin does to the transaction.  When the entrypoint
    succeeds, the declared units were charged, the handler was given one copy per
    account of the instruction, each saying what the account held, and it returned at
    least as many; afterwards every account of the transaction has the lamports, the
    data and the owner of the LAST copy of it among the accounts of the instruction,
    keeps its key, its executable flag and its rent epoch, and an account the
    instruction does not name is as it was.  So where an instruction names an account
    twice, what the handler does to the earlier copy is undone by the later one. *)
Theorem entrypoint_last_copy_wins units execute c c' :
  entrypoint units execute c = (Ok tt, c') ->
  exists copies ctx',
    charged_meter units (ic_meter c) = (Ok tt, ic_meter c') /\
    Forall2 (fun ia account => exists x, tc_accounts c !! ia_index ia = Some x /\
               sia_key account = x.1 /\ agrees account x.2 /\
               sia_index_in_transaction account = ia_index ia) (ic_accounts c) copies /\
    execute (mkSvmInstructionCtx (ic_program_id c) copies (ic_data c)) = Ok ctx' /\
    length (ic_accounts c) <= length (sic_accounts ctx') /\
    length (tc_accounts c') = length (tc_accounts c) /\
    forall i x, tc_accounts c !! i = Some x ->
      exists y, tc_accounts c' !! i = Some y /\
        written (last_copy (ic_accounts c) (sic_accounts ctx') i) x y.
Proof.
  rewrite entrypoint_unfold.
  destruct (charged_meter units (ic_meter c)) as [[[]|e] m] eqn:Hm; [|done].
  unfold from_invoke_context.
  destruct (traverse _ _) as [copies|e] eqn:Ht; cbn; [|done].
  destruct (execute _) as [ctx'|e] eqn:He; [|done]. unfold write_back. cbn [ic_accounts set_meter].
  intros Hw. apply write_back_loop_ok in Hw as (Hlen & (acc & d & ->) & Hl & Hall).
  exists copies, ctx'. split; [done|]. split; [|by split_and!].
  apply traverse_Ok_Forall2 in Ht. eapply Forall2_impl; [exact Ht|].
  intros ia account H. by apply copy_account_ok in H.
Qed.

Lemma write_account_same ia account c x :
  tc_accounts c !! ia_index ia = Some x -> agrees account x.2 ->
  write_account ia account c = (Ok tt, c).
Proof.
  intros Hx (H1 & H2 & H3). destruct x as [key a]. cbn in *.
  assert (Hf : forall f, f a (tc_resize_delta c) = Ok (a, tc_resize_delta c) ->
                 write_field (ia_index ia) f c = (Ok tt, c)).
  { intros f Hf. unfold write_field. rewrite Hx, Hf. unfold set_tc. rewrite list_insert_id by done. by destruct c. }
  unfold write_account, sbind. rewrite Hf.
  2: { unfold write_lamports. by rewrite H1, Z.eqb_refl. }
  rewrite Hf. 2: { unfold write_data. by rewrite bool_decide_eq_true_2. }
  rewrite Hf; [done|]. unfold write_owner. by rewrite bool_decide_eq_true_2.
Qed.

(** A handler that leaves its copies alone writes nothing and trips no guard, read-only
    accounts and repeated accounts included: the run only charges the units. *)
Theorem idle_handler_writes_nothing units c m :
  charged_meter units (ic_meter c) = (Ok tt, m) ->
  Forall (fun ia => ia_index ia < length (tc_accounts c)) (ic_accounts c) ->
  entrypoint units Ok c = (Ok tt, set_meter m c).
Proof.
  intros Hm Hr. rewrite entrypoint_unfold, Hm. unfold from_invoke_context.
  assert (Ht : exists copies, traverse (copy_account (set_meter m c)) (ic_accounts c) = Ok copies).
  { induction Hr as [|ia l Hia _ [copies IH]]; [by exists []|].
    apply lookup_lt_is_Some in Hia as [x Hx]. eexists. cbn. unfold copy_account at 1. cbn. rewrite Hx. cbn.
    by rewrite IH. }
  destruct Ht as [copies Ht]. cbn [ic_accounts set_meter] in *. rewrite Ht. cbn. unfold write_back. cbn.
  apply traverse_Ok_Forall2 in Ht.
  clear Hr. revert Ht. generalize (set_meter m c) as c0. intros c0. induction 1 as [|ia account l copies' H _ IH]; [done|].
  apply copy_account_ok in H as (x & Hx & _ & Ha & _). cbn. unfold sbind.
  by rewrite (write_account_same _ _ _ _ Hx Ha).
Qed.

End WriteBack.
