(* ===== verification/Macros.v ===== *)
(** * [#[svm_instruction]], [crates/hpsvm-macros]

    The attribute macro: its arguments, the shape it demands of a handler, the names and
    constants it generates.  The syntax trees of [syn] are inductive types with the cases
    the code looks at; the parser, base58 and the Unicode tables are an interface.  The
    entrypoint the macro generates is [SvmInstruction.entrypoint]. *)

From Stdlib Require Import ZArith Lia Strings.Byte Strings.String Strings.Ascii.
From stdpp Require Import base tactics option list strings.
From S2P Require Import Prelude.

(** ** Syntax *)

Inductive MacroLit : Type :=
| LitStr (value : string)
| LitInt (digits : string)
| LitOther.

Inductive MacroExpr : Type :=
| ExprLit (lit : MacroLit)
| ExprOther.

(** Types, with the paths and generic arguments in them. *)
Inductive SynType : Type :=
| TypePath (leading_colon : bool) (segments : list PathSegment)
| TypeReference (mutability : bool) (elem : SynType)
| TypeTuple (elems : list SynType)
| TypeOther
with PathSegment : Type :=
| mkSegment (ident : string) (arguments : PathArguments)
with PathArguments : Type :=
| ArgumentsNone
| AngleBracketed (args : list GenericArgument)
| Parenthesized
with GenericArgument : Type :=
| GenericType (ty : SynType)
| GenericOther.

Definition segment_ident (s : PathSegment) : string := match s with mkSegment i _ => i end.
Definition segment_arguments (s : PathSegment) : PathArguments := match s with mkSegment _ a => a end.

Inductive MacroMeta : Type :=
| MetaNameValue (leading_colon : bool) (path : list PathSegment) (value : MacroExpr)
| MetaOther.

Inductive FnArg : Type :=
| FnTyped (ty : SynType)
| FnReceiver.

Inductive Safety : Type := SafetyDefault | SafetyDeclared.

(** What the code reads of a function. *)
Record ItemFn : Type := mkItemFn {
  fn_ident : string;
  fn_asyncness : bool;
  fn_safety : Safety;
  fn_generic_params : nat;
  fn_where_clause : bool;
  fn_abi : bool;
  fn_variadic : bool;
  fn_inputs : list FnArg;
  fn_output : option SynType
}.

Record MacroArgs : Type := mkMacroArgs {
  ma_program_id : string;
  ma_compute_units : Z
}.

(** The diagnostics, each a [compile_error!]. *)
Inductive MacroError : Type :=
| UnparsedAttribute
| NotKeyValue
| DuplicateProgramId
| ProgramIdNotAString
| InvalidBase58
| WrongIdLength (len : nat)
| DuplicateComputeUnits
| ComputeUnitsNotAnInteger
| InvalidComputeUnits
| UnknownArgument
| MissingProgramId
| MissingComputeUnits
| NotAFunction
| HandlerAsync
| HandlerUnsafe
| HandlerGeneric
| HandlerAbi
| HandlerVariadic
| HandlerArity
| HandlerReceiver
| ContextNotReference
| ContextNotMutable
| ContextNotCtx
| WrongReturnType
| UnusableReturnType
| InternalError
| UnusableName (name : string).

(** [bs58], [LitInt::base10_parse::<u64>], [syn::parse_str::<Ident>], and a part with its
    first character in upper case. *)
Class MacroInterface : Type := {
  bs58_decode : string -> option (list byte);
  base10_parse_u64 : string -> option Z;
  parse_ident : string -> bool;
  capitalize : string -> string
}.

(** [str::split] on a character. *)
Fixpoint split_on (c : ascii) (s : string) : list string :=
  match s with
  | EmptyString => [EmptyString]
  | String a s' =>
      if Ascii.eqb a c then EmptyString :: split_on c s'
      else match split_on c s' with
           | [] => [String a EmptyString]
           | part :: parts => String a part :: parts
           end
  end.

Fixpoint contains_char (c : ascii) (s : string) : bool :=
  match s with
  | EmptyString => false
  | String a s' => Ascii.eqb a c || contains_char c s'
  end.

Section Macros.
Context {mi : MacroInterface}.

(** [Path::is_ident]. *)
Definition is_ident (name : string) (leading_colon : bool) (path : list PathSegment) : bool :=
  match leading_colon, path with
  | false, [mkSegment ident ArgumentsNone] => bool_decide (ident = name)
  | _, _ => false
  end.

Definition decode_program_id (text : string) : result (list byte) MacroError :=
  let? bytes := ok_or (bs58_decode text) InvalidBase58 in
  if bool_decide (length bytes = 32) then Ok bytes else Err (WrongIdLength (length bytes)).

(** One argument of the attribute, over what was read so far. *)
Definition parse_macro_arg (st : option string * option Z) (m : MacroMeta) :
    result (option string * option Z) MacroError :=
  match m with
  | MetaOther => Err NotKeyValue
  | MetaNameValue leading path value =>
      if is_ident "program_id" leading path then
        match st.1, value with
        | Some _, _ => Err DuplicateProgramId
        | None, ExprLit (LitStr text) =>
            let? _ := decode_program_id text in Ok (Some text, st.2)
        | None, _ => Err ProgramIdNotAString
        end
      else if is_ident "compute_units" leading path then
        match st.2, value with
        | Some _, _ => Err DuplicateComputeUnits
        | None, ExprLit (LitInt digits) =>
            let? n := ok_or (base10_parse_u64 digits) InvalidComputeUnits in Ok (st.1, Some n)
        | None, _ => Err ComputeUnitsNotAnInteger
        end
      else Err UnknownArgument
  end.

Fixpoint parse_macro_loop (l : list MacroMeta) (st : option string * option Z) :
    result (option string * option Z) MacroError :=
  match l with
  | [] => Ok st
  | m :: l' => let? st' := parse_macro_arg st m in parse_macro_loop l' st'
  end.

(** [None] is an attribute that is not a list of metas. *)
Definition parse_macro_args (attr : option (list MacroMeta)) : result MacroArgs MacroError :=
  let? raw := ok_or attr UnparsedAttribute in
  let? st := parse_macro_loop raw (None, None) in
  let? program_id := ok_or st.1 MissingProgramId in
  let? compute_units := ok_or st.2 MissingComputeUnits in
  Ok (mkMacroArgs program_id compute_units).

Definition struct_name_for (fn_name : string) : string :=
  String.concat "" (map capitalize (filter (fun part => part <> EmptyString) (split_on "_" fn_name))).

Definition parse_plain_ident (name : string) : bool :=
  negb (contains_char "#" name) && parse_ident name.

Definition last_segment (ty : SynType) : option string :=
  match ty with
  | TypePath _ segments => segment_ident <$> last segments
  | _ => None
  end.

Definition is_hpsvm_instruction_ctx (ty : SynType) : bool :=
  match ty with
  | TypePath _ segments =>
      match map segment_ident segments with
      | [one] => bool_decide (one = "SvmInstructionCtx"%string)
      | root :: rest =>
          bool_decide (root = "hpsvm"%string) && bool_decide (last rest = Some "SvmInstructionCtx"%string)
      | [] => false
      end
  | _ => false
  end.

(** The generic arguments of the returned [Result]. *)
Definition is_unit_argument (a : option GenericArgument) : bool :=
  match a with Some (GenericType (TypeTuple [])) => true | _ => false end.
Definition is_error_argument (a : option GenericArgument) : bool :=
  match a with
  | Some (GenericType ty) => bool_decide (last_segment ty = Some "InstructionError"%string)
  | _ => false
  end.

Definition check_context (inputs : list FnArg) : result unit MacroError :=
  match inputs with
  | [FnReceiver] => Err HandlerReceiver
  | [FnTyped (TypeReference false _)] => Err ContextNotMutable
  | [FnTyped (TypeReference true elem)] => if is_hpsvm_instruction_ctx elem then Ok tt else Err ContextNotCtx
  | [FnTyped _] => Err ContextNotReference
  | _ => Err HandlerArity
  end.

Definition check_output (output : option SynType) : result unit MacroError :=
  match output with
  | Some (TypePath _ segments) =>
      match last segments with
      | None => Err UnusableReturnType
      | Some result =>
          if bool_decide (segment_ident result = "Result"%string) then
            match segment_arguments result with
            | AngleBracketed args =>
                if is_unit_argument (args !! 0) && is_error_argument (args !! 1) &&
                   bool_decide (args !! 2 = None)
                then Ok tt else Err WrongReturnType
            | _ => Err WrongReturnType
            end
          else Err WrongReturnType
      end
  | _ => Err WrongReturnType
  end.

Definition check_handler_shape (func : ItemFn) : result unit MacroError :=
  if fn_asyncness func then Err HandlerAsync
  else if match fn_safety func with SafetyDefault => false | SafetyDeclared => true end then
    Err HandlerUnsafe
  else if negb (fn_generic_params func =? 0)%nat || fn_where_clause func then Err HandlerGeneric
  else if fn_abi func then Err HandlerAbi
  else if fn_variadic func then Err HandlerVariadic
  else let? _ := check_context (fn_inputs func) in check_output (fn_output func).

(** What the expansion declares beside the handler: the marker type, the entrypoint and
    the constants of the marker. *)
Record Expansion : Type := mkExpansion {
  ex_handler : ItemFn;
  ex_struct_name : string;
  ex_entrypoint_name : string;
  ex_PROGRAM_ID : list byte;
  ex_COMPUTE_UNITS : Z
}.

(** [svm_instruction]; [None] is an item that is not a function. *)
Definition svm_instruction (attr : option (list MacroMeta)) (item : option ItemFn) :
    result Expansion MacroError :=
  let? args := parse_macro_args attr in
  let? func := ok_or item NotAFunction in
  let? _ := check_handler_shape func in
  match decode_program_id (ma_program_id args) with
  | Err _ => Err InternalError
  | Ok id_bytes =>
      let struct_name := struct_name_for (fn_ident func) in
      if parse_plain_ident struct_name then
        Ok (mkExpansion func struct_name (struct_name +:+ "Entrypoint") id_bytes (ma_compute_units args))
      else Err (UnusableName struct_name)
  end.

(** ** Theorems *)

(** A well-formed pair, for each key. *)
Definition program_id_pair (m : MacroMeta) (text : string) : Prop :=
  (exists leading path, m = MetaNameValue leading path (ExprLit (LitStr text)) /\
     is_ident "program_id" leading path = true) /\
  exists id, decode_program_id text = Ok id.
Definition compute_units_pair (m : MacroMeta) (n : Z) : Prop :=
  exists leading path digits, m = MetaNameValue leading path (ExprLit (LitInt digits)) /\
    is_ident "compute_units" leading path = true /\ base10_parse_u64 digits = Some n.

Lemma is_ident_inj n1 n2 leading path :
  is_ident n1 leading path = true -> is_ident n2 leading path = true -> n1 = n2.
Proof.
  unfold is_ident. destruct leading, path as [|[i []] []]; try done.
  intros ?%bool_decide_eq_true_1 ?%bool_decide_eq_true_1. congruence.
Qed.

Lemma parse_macro_arg_ok st m st' :
  parse_macro_arg st m = Ok st' <->
  (exists text, program_id_pair m text /\ st.1 = None /\ st' = (Some text, st.2)) \/
  (exists n, compute_units_pair m n /\ st.2 = None /\ st' = (st.1, Some n)).
Proof.
  destruct st as [p c]. split.
  - destruct m as [leading path value|]; [|done]. cbn.
    destruct (is_ident "program_id" leading path) eqn:H1.
    + destruct p; [done|]. destruct value as [[text| |]|]; try done.
      destruct (decode_program_id text) as [id|e] eqn:Hd; cbn; [|done]. intros [= <-]. left.
      exists text. split; [|done]. split; [by exists leading, path|by exists id].
    + destruct (is_ident "compute_units" leading path) eqn:H2; [|done].
      destruct c; [done|]. destruct value as [[|digits|]|]; try done.
      destruct (base10_parse_u64 digits) as [n|] eqn:Hn; cbn; [|done]. intros [= <-]. right.
      exists n. split; [|done]. by exists leading, path, digits.
  - intros [(text & ((l & path & -> & Hi) & id & Hd) & Hp & ->)|(n & (l & path & digits & -> & Hi & Hn) & Hc & ->)];
      cbn in *; subst; cbn.
    + by rewrite Hi, Hd.
    + destruct (is_ident "program_id" l path) eqn:H1.
      { by pose proof (is_ident_inj _ _ _ _ Hi H1). }
      by rewrite Hi, Hn.
Qed.

(** What the attribute accepts.  The arguments parse exactly when the attribute is two
    [key = value] pairs, [program_id] with a string literal that decodes to 32 bytes and
    [compute_units] with an integer literal that fits 64 bits, in either order; anything
    missing, repeated, unknown or of the wrong kind is refused. *)
Lemma macro_args_accept attr text n :
  parse_macro_args attr = Ok (mkMacroArgs text n) <->
  exists m1 m2, (attr = Some [m1; m2] \/ attr = Some [m2; m1]) /\
    program_id_pair m1 text /\ compute_units_pair m2 n.
Proof.
  unfold parse_macro_args. split.
  - destruct attr as [raw|]; cbn; [|done].
    destruct raw as [|a [|b [|c raw]]]; cbn; [done|..].
    + destruct (parse_macro_arg (None, None) a) as [st|e] eqn:Ha; cbn; [|done].
      apply parse_macro_arg_ok in Ha as [(t & _ & _ & ->)|(k & _ & _ & ->)]; done.
    + destruct (parse_macro_arg (None, None) a) as [st|e] eqn:Ha; cbn; [|done].
      destruct (parse_macro_arg st b) as [st2|e] eqn:Hb; cbn; [|done].
      apply parse_macro_arg_ok in Ha as [(t & Ht & _ & ->)|(k & Hk & _ & ->)];
      apply parse_macro_arg_ok in Hb as [(t' & Ht' & He & ->)|(k' & Hk' & He & ->)]; cbn in *; try done;
      intros [= <- <-].
      * exists a, b. by split; [left|].
      * exists b, a. by split; [right|].
    + destruct (parse_macro_arg (None, None) a) as [st|e] eqn:Ha; cbn; [|done].
      destruct (parse_macro_arg st b) as [st2|e] eqn:Hb; cbn; [|done].
      destruct (parse_macro_arg st2 c) as [st3|e] eqn:Hc; cbn; [|done].
      apply parse_macro_arg_ok in Ha as [(t & Ht & _ & ->)|(k & Hk & _ & ->)];
      apply parse_macro_arg_ok in Hb as [(t' & Ht' & He & ->)|(k' & Hk' & He & ->)]; cbn in *; try done;
      apply parse_macro_arg_ok in Hc as [(t'' & _ & He' & _)|(k'' & _ & He' & _)]; done.
  - intros (m1 & m2 & Ho & H1 & H2).
    assert (A1 : forall c, parse_macro_arg (None, c) m1 = Ok (Some text, c)).
    { intros c. apply parse_macro_arg_ok. left. by exists text. }
    assert (A2 : forall p, parse_macro_arg (p, None) m2 = Ok (p, Some n)).
    { intros p. apply parse_macro_arg_ok. right. by exists n. }
    destruct Ho as [->| ->]; cbn.
    + by rewrite A1; cbn; rewrite A2.
    + by rewrite A2; cbn; rewrite A1.
Qed.

(** The context path: [SvmInstructionCtx] alone, or a path that starts at [hpsvm] and
    ends in it. *)
Definition ctx_path (segments : list string) : Prop :=
  segments = ["SvmInstructionCtx"%string] \/
  exists middle, segments = "hpsvm"%string :: middle ++ ["SvmInstructionCtx"%string].

Lemma is_ctx_spec ty :
  is_hpsvm_instruction_ctx ty = true <->
  exists leading segments, ty = TypePath leading segments /\ ctx_path (map segment_ident segments).
Proof.
  destruct ty as [leading segments| | |]; cbn; try (split; [done|intros (? & ? & ? & _); done]).
  assert (E : (match map segment_ident segments with
               | [] => false
               | [one] => bool_decide (one = "SvmInstructionCtx"%string)
               | root :: rest =>
                   bool_decide (root = "hpsvm"%string) &&
                   bool_decide (last rest = Some "SvmInstructionCtx"%string)
               end) = true <-> ctx_path (map segment_ident segments)).
  { unfold ctx_path. destruct (map segment_ident segments) as [|one [|two rest]].
    - split; [done|]. by intros [|(? & ?)].
    - rewrite bool_decide_eq_true. split; [intros ->; by left|].
      intros [[= ->]|(middle & H)]; [done|]. injection H as _ H. by destruct middle.
    - rewrite andb_true_iff, !bool_decide_eq_true. split.
      + intros [-> (l & Hl)%last_Some]. right. exists l. by rewrite Hl.
      + intros [H|(middle & H)]; [discriminate H|]. injection H as -> H. split; [done|]. rewrite H. by rewrite last_snoc. }
  rewrite E. split; [intros H; by exists leading, segments|]. by intros (l & s & [= <- <-] & H).
Qed.

(** The shape of a handler. *)
Definition handler_shape (func : ItemFn) : Prop :=
  fn_asyncness func = false /\ fn_safety func = SafetyDefault /\ fn_generic_params func = 0 /\
  fn_where_clause func = false /\ fn_abi func = false /\ fn_variadic func = false /\
  (exists leading segments,
     fn_inputs func = [FnTyped (TypeReference true (TypePath leading segments))] /\
     ctx_path (map segment_ident segments)) /\
  exists leading path error,
    fn_output func =
      Some (TypePath leading (path ++ [mkSegment "Result" (AngleBracketed
              [GenericType (TypeTuple []); GenericType error])])) /\
    last_segment error = Some "InstructionError"%string.

Lemma check_context_ok inputs :
  check_context inputs = Ok tt <->
  exists leading segments, inputs = [FnTyped (TypeReference true (TypePath leading segments))] /\
    ctx_path (map segment_ident segments).
Proof.
  split.
  - destruct inputs as [|[ty|] [|]]; try done; cbn; [|by destruct ty as [| [] | |]].
    destruct ty as [| [] elem | |]; try done.
    destruct (is_hpsvm_instruction_ctx elem) eqn:H; [|done]. intros _.
    apply is_ctx_spec in H as (l & s & -> & H). by exists l, s.
  - intros (l & s & -> & H). cbn [check_context].
    assert (is_hpsvm_instruction_ctx (TypePath l s) = true) as ->; [|done].
    apply is_ctx_spec. by exists l, s.
Qed.

Lemma check_output_ok output :
  check_output output = Ok tt <->
  exists leading path error,
    output = Some (TypePath leading (path ++ [mkSegment "Result" (AngleBracketed
               [GenericType (TypeTuple []); GenericType error])])) /\
    last_segment error = Some "InstructionError"%string.
Proof.
  split.
  - destruct output as [[leading segments| | |]|]; try done. cbn.
    destruct (last segments) as [[ident arguments]|] eqn:Hl; [|done]. cbn.
    case_bool_decide as Hi; [|done]. subst ident. destruct arguments as [|args|]; try done.
    apply last_Some in Hl as [path ->].
    destruct args as [|[[| |[|]|]|] [|[error|] [|]]]; cbn; try done; [|by rewrite andb_false_r].
    rewrite andb_true_r. case_bool_decide as He; [|done]. intros _. by exists leading, path, error.
  - intros (leading & path & error & -> & He). cbn. rewrite last_snoc. cbn. by rewrite !bool_decide_eq_true_2.
Qed.

Lemma handler_shape_ok func : check_handler_shape func = Ok tt <-> handler_shape func.
Proof.
  unfold check_handler_shape, handler_shape. rewrite <- check_context_ok, <- check_output_ok.
  destruct (fn_asyncness func), (fn_safety func), (fn_where_clause func), (fn_abi func), (fn_variadic func);
    destruct (Nat.eqb_spec (fn_generic_params func) 0); cbn; try naive_solver.
  destruct (check_context (fn_inputs func)) as [[]|err]; cbn; naive_solver.
Qed.

Lemma decode_program_id_length text id : decode_program_id text = Ok id -> length id = 32.
Proof.
  unfold decode_program_id. destruct (bs58_decode text) as [l|]; cbn; [|done].
  case_bool_decide; [|done]. by intros [= <-].
Qed.

(** No refusal before the decoding is the internal error. *)
Lemma parse_never_internal attr : parse_macro_args attr <> Err InternalError.
Proof.
  assert (A : forall l st, parse_macro_loop l st <> Err InternalError).
  { induction l as [|m l IH]; intros [p c]; cbn; [done|].
    destruct m as [leading path value|]; [|done]. cbn.
    destruct (is_ident "program_id" leading path); [|destruct (is_ident "compute_units" leading path); [|done]].
    - destruct p; [done|]. destruct value as [[text| |]|]; try done. unfold decode_program_id.
      destruct (bs58_decode text); cbn; [|done]. case_bool_decide; cbn; [apply IH|done].
    - destruct c; [done|]. destruct value as [[|digits|]|]; try done.
      destruct (base10_parse_u64 digits); cbn; [apply IH|done]. }
  unfold parse_macro_args. destruct attr as [raw|]; cbn; [|done].
  destruct (parse_macro_loop raw (None, None)) as [[p c]|e] eqn:H; cbn.
  - by destruct p, c.
  - intros [= ->]. by apply A in H.
Qed.

Lemma shape_never_internal func : check_handler_shape func <> Err InternalError.
Proof.
  assert (A : forall o, check_output o <> Err InternalError).
  { intros o. unfold check_output. repeat (case_match; try done). }
  assert (B : forall l, check_context l <> Err InternalError).
  { intros l. unfold check_context. repeat (case_match; try done). }
  unfold check_handler_shape.
  destruct (fn_asyncness func); [done|]. destruct (fn_safety func); [|done].
  destruct (negb _ || _); [done|]. destruct (fn_abi func); [done|]. destruct (fn_variadic func); [done|].
  specialize (B (fn_inputs func)). destruct (check_context _) as [u|e]; cbn; [apply A|congruence].
Qed.

(** C35: What the macro accepts.  An expansion is produced exactly when the arguments parse,
    the item is a function of the shape [fn name(&mut SvmInstructionCtx) -> Result<(),
    InstructionError>] (free of [async], [unsafe], generics, an ABI and variadics) and the
    derived type name is a plain identifier; it carries the declared units, the 32 decoded
    bytes and the derived names.  The internal error is unreachable. *)
Theorem svm_instruction_exact attr item :
  (forall x, svm_instruction attr item = Ok x <->
     exists text n func id, parse_macro_args attr = Ok (mkMacroArgs text n) /\ item = Some func /\
       handler_shape func /\ decode_program_id text = Ok id /\ length id = 32 /\
       parse_plain_ident (struct_name_for (fn_ident func)) = true /\
       x = mkExpansion func (struct_name_for (fn_ident func))
             (struct_name_for (fn_ident func) +:+ "Entrypoint") id n) /\
  svm_instruction attr item <> Err InternalError.
Proof.
  unfold svm_instruction.
  destruct (parse_macro_args attr) as [[text n]|e] eqn:Hp; cbn.
  2: { split; [intros x; split; [done|]; by intros (t & n & f & id & [=] & _)|].
       intros [= ->]. by apply parse_never_internal in Hp. }
  pose proof Hp as (m1 & m2 & _ & [_ [id Hid]] & _)%macro_args_accept.
  destruct item as [func|]; cbn; [|split; [intros x; split; [done|]; by intros (t & m & f & i & _ & [=] & _)|done]].
  destruct (check_handler_shape func) as [[]|e] eqn:Hs; cbn.
  2: { split; [intros x; split; [done|]|intros [= ->]; by apply shape_never_internal in Hs].
       intros (t & m & f & i & _ & [= <-] & Hf & _). apply handler_shape_ok in Hf. by rewrite Hs in Hf. }
  rewrite Hid. destruct (parse_plain_ident _) eqn:Hi.
  - split; [|done]. intros x. split.
    + intros [= <-]. exists text, n, func, id. split_and!; try done; [by apply handler_shape_ok|by eapply decode_program_id_length].
    + intros (t & m & f & i & [= <- <-] & [= <-] & _ & Hi' & _ & _ & ->). congruence.
  - split; [|done]. intros x. split; [done|].
    intros (t & m & f & i & _ & [= <-] & _ & _ & _ & Hi' & _). congruence.
Qed.

End Macros.
