(* ===== verification/Wallet.v ===== *)
(** * Signed helper transactions

    The loader and token helpers build a transaction, sign it with key pairs and send
    it through the VM.  Key pairs, messages and signing belong to the SDK and are an
    interface here with its documented behaviour as laws; a helper is a computation on
    the VM that returns, fails with the metadata of a failed transaction, or panics,
    and that fires the events of the transactions it sends. *)

From Stdlib Require Import ZArith.
From stdpp Require Import base tactics option list.
From S2P Require Import Prelude.
From S2P Require Import Types.
From S2P Require Import AccountSource.
From S2P Require Import Errors.
From S2P Require Import Lru.
From S2P Require Import History.
From S2P Require Import Runtime.
From S2P Require Import AccountsDb.
From S2P Require Import FeePayer.
From S2P Require Import Version.
From S2P Require Import TxRuntime.
From S2P Require Import Svm.
From S2P Require Import Execution.
From S2P Require Import Staging.

(** [solana_keypair::Keypair] and [solana_transaction::Transaction].  [partial_sign] and
    [sign] panic as [None]; [required_signers] are the signer keys of the message and
    [signed_by h t a] says that [a] has signed [t] under the blockhash [h]. *)
Class Wallet {sv : SysvarRuntime} {pr : ProgramRuntime} {pc : ProgramCacheOps} {fs : FeatureSets}
    {tx : TxRuntime} : Type := {
  Keypair : Type;
  kp_pubkey : Keypair -> Address;
  Transaction : Type;
  new_with_payer : list Instruction -> Address -> Transaction;
  partial_sign : list Keypair -> Hash -> Transaction -> option Transaction;
  sign : list Keypair -> Hash -> Transaction -> option Transaction;
  required_signers : Transaction -> list Address;
  signed_by : Hash -> Transaction -> Address -> Prop;
  into_versioned : Transaction -> VersionedTransaction
}.

(** The accounts an instruction needs a signature of. *)
Definition instruction_signer (ix : Instruction) (a : Address) : Prop :=
  exists m, m ∈ ix_accounts ix /\ is_signer m = true /\ meta_pubkey m = a.

Class WalletLaws `{wl : Wallet} : Prop := {
  new_with_payer_signers ixs payer a :
    a ∈ required_signers (new_with_payer ixs payer) <->
    a = payer \/ exists ix, ix ∈ ixs /\ instruction_signer ix a;
  (** A new transaction is unsigned. *)
  new_with_payer_unsigned ixs payer h a : ~ signed_by h (new_with_payer ixs payer) a;
  (** Signing with keys of the message adds their signatures, and keeps those made
      under the same blockhash; a key that is not a signer of the message panics. *)
  partial_sign_ok keys h t :
    (forall k, k ∈ keys -> kp_pubkey k ∈ required_signers t) ->
    exists t', partial_sign keys h t = Some t' /\ required_signers t' = required_signers t /\
      forall a, signed_by h t' a <-> signed_by h t a \/ exists k, k ∈ keys /\ kp_pubkey k = a;
  partial_sign_stranger keys h t k :
    k ∈ keys -> kp_pubkey k ∉ required_signers t -> partial_sign keys h t = None;
  (** [sign] also panics when a signature is missing afterwards. *)
  sign_spec keys h t t' :
    sign keys h t = Some t' <->
    partial_sign keys h t = Some t' /\ forall a, a ∈ required_signers t' -> signed_by h t' a
}.

Section Wallet.
Context {tgt : Target} {ids : SdkIds} {sv : SysvarRuntime} {pr : ProgramRuntime}
        {pc : ProgramCacheOps} {Lst : Lru ProgramEntryKey Entry}
        {Lhist : Lru Signature TransactionResult} {fs : FeatureSets} {bud : Budgets}
        {tx : TxRuntime} {lt : LookupTables} {sp : SystemProgram} {uc : UserCode} {wl : Wallet}.

(** ** Helper computations *)

Definition Helper (A : Type) : Type :=
  VmSt -> option (result A FailedTransactionMetadata * VmSt * list InspectorEvent).

Definition hret {A} (r : result A FailedTransactionMetadata) : Helper A := fun s => Some (r, s, []).

Definition hbind {A B} (m : Helper A) (f : A -> Helper B) : Helper B := fun s =>
  match m s with
  | None => None
  | Some (Err e, s1, ev1) => Some (Err e, s1, ev1)
  | Some (Ok a, s1, ev1) =>
      match f a s1 with
      | None => None
      | Some (r, s2, ev2) => Some (r, s2, ev1 ++ ev2)
      end
  end.

Fixpoint hfor {A} (l : list A) (f : A -> Helper unit) : Helper unit :=
  match l with
  | [] => hret (Ok tt)
  | x :: l' => hbind (f x) (fun _ => hfor l' f)
  end.

(** [svm.send_transaction(tx)?], the metadata of a success dropped. *)
Definition send_versioned (t : VersionedTransaction) : Helper unit := fun s =>
  match send_transaction s t with
  | None => None
  | Some (r, s', events) => Some (rmap (fun _ => tt) r, s', events)
  end.

(** [Transaction::new_signed_with_payer] under the latest blockhash, sent. *)
Definition send_signed (ixs : list Instruction) (payer : Address) (keys : list Keypair) : Helper unit :=
  fun s =>
    match sign keys (latest_blockhash (block_env s.1)) (new_with_payer ixs payer) with
    | None => None
    | Some t => send_versioned (into_versioned t) s
    end.

Lemma hbind_ok {A B} (m : Helper A) (f : A -> Helper B) s b s' ev :
  hbind m f s = Some (Ok b, s', ev) <->
  exists a s1 ev1 ev2, m s = Some (Ok a, s1, ev1) /\ f a s1 = Some (Ok b, s', ev2) /\ ev = ev1 ++ ev2.
Proof.
  unfold hbind. split.
  - destruct (m s) as [[[[a|e] s1] ev1]|]; [|done|done].
    destruct (f a s1) as [[[r s2] ev2]|] eqn:Hf; [|done]. intros [= -> -> <-]. by exists a, s1, ev1, ev2.
  - intros (a & s1 & ev1 & ev2 & -> & -> & ->). done.
Qed.

Lemma hfor_app {A} (l1 l2 : list A) (f : A -> Helper unit) s :
  hfor (l1 ++ l2) f s = hbind (hfor l1 f) (fun _ => hfor l2 f) s.
Proof.
  revert s. induction l1 as [|x l1 IH]; intros s; cbn [hfor app].
  - unfold hbind, hret. by destruct (hfor l2 f s) as [[[r s'] ev]|].
  - unfold hbind. destruct (f x s) as [[[[u|e] s1] ev1]|]; [|done|done].
    rewrite IH. unfold hbind. destruct (hfor l1 f s1) as [[[[v|e] s2] ev2]|]; [|done|done].
    destruct (hfor l2 f s2) as [[[r s3] ev3]|]; [|done]. by rewrite app_assoc.
Qed.

(** ** Signing *)
Section Signing.
Context {wll : WalletLaws}.

(** Signing with exactly the signers of a message succeeds and is complete. *)
Lemma sign_complete ixs payer keys h :
  (forall a, (exists k, k ∈ keys /\ kp_pubkey k = a) <->
             a = payer \/ exists ix, ix ∈ ixs /\ instruction_signer ix a) ->
  exists t, sign keys h (new_with_payer ixs payer) = Some t /\
    forall a, a ∈ required_signers t -> signed_by h t a.
Proof.
  intros Hk. destruct (partial_sign_ok keys h (new_with_payer ixs payer)) as (t & Ht & Hr & Hs).
  { intros k Hin. rewrite new_with_payer_signers. apply Hk. by exists k. }
  assert (Hall : forall a, a ∈ required_signers t -> signed_by h t a).
  { intros a. rewrite Hr, new_with_payer_signers, <- Hk, Hs. by right. }
  exists t. split; [|done]. by apply sign_spec.
Qed.

End Signing.

End Wallet.

