(* ===== verification/Loader.v ===== *)
(** * Upgradeable programs, [loader.rs]

    Deploying through the upgradeable loader: a buffer account is created, the program
    is written to it in chunks, and the deployment is sent.  The instructions belong to
    the loader's SDK crate and are an interface.  The theorems say which writes are sent
    and that they put the program together in the buffer. *)

From Stdlib Require Import ZArith Lia Strings.Byte.
From stdpp Require Import base tactics option list.
From S2P Require Import Prelude.
From S2P Require Import Types.
From S2P Require Import AccountSource.
From S2P Require Import Errors.
From S2P Require Import Lru.
From S2P Require Import History.
From S2P Require Import Runtime.
From S2P Require Import AccountsDb.
From S2P Require Import FeePayer.
From S2P Require Import Version.
From S2P Require Import TxRuntime.
From S2P Require Import Svm.
From S2P Require Import Execution.
From S2P Require Import Staging.
From S2P Require Import Wallet.

(** [solana_loader_v3_interface]: the instructions, and the size of a buffer. *)
Class LoaderInterface : Type := {
  size_of_buffer : Z -> Z;
  loader_create_buffer :
    Address -> Address -> Address -> Z -> Z -> result (list Instruction) InstructionError;
  loader_write : Address -> Address -> Z -> list byte -> Instruction;
  loader_deploy_with_max_program_len :
    Address -> Address -> Address -> Address -> Z -> Z -> result (list Instruction) InstructionError;
  loader_set_upgrade_authority : Address -> Address -> option Address -> Instruction
}.

Definition CHUNK_SIZE : nat := 512.
Definition u32_limit : Z := 4294967296.

Definition loader_instruction_error (source : InstructionError) : FailedTransactionMetadata :=
  mkFailedTransactionMetadata (TxInstructionError 0 source) TransactionMetadata_default.

(** [slice::chunks]: pieces of [n] elements, the last one possibly shorter. *)
Fixpoint chunks_fuel {A} (fuel n : nat) (l : list A) : list (list A) :=
  match fuel, l with
  | S fuel', _ :: _ => take n l :: chunks_fuel fuel' n (drop n l)
  | _, _ => []
  end.
Definition chunks {A} (n : nat) (l : list A) : list (list A) := chunks_fuel (length l) n l.

Section Loader.
Context {tgt : Target} {ids : SdkIds} {sv : SysvarRuntime} {pr : ProgramRuntime}
        {pc : ProgramCacheOps} {Lst : Lru ProgramEntryKey Entry}
        {Lhist : Lru Signature TransactionResult} {fs : FeatureSets} {bud : Budgets}
        {tx : TxRuntime} {lt : LookupTables} {sp : SystemProgram} {uc : UserCode} {wl : Wallet}
        {li : LoaderInterface}.

Definition set_upgrade_authority (from_keypair : Keypair) (program_address : Address)
    (current_authority_keypair : Keypair) (new_authority_address : option Address) : Helper unit :=
  let signers :=
    from_keypair ::
    (if bool_decide (kp_pubkey from_keypair = kp_pubkey current_authority_keypair) then []
     else [current_authority_keypair]) in
  send_signed
    [loader_set_upgrade_authority program_address (kp_pubkey current_authority_keypair)
       new_authority_address]
    (kp_pubkey from_keypair) signers.

(** The writing loop: [offset] is a [u64] that must fit the [u32] of the instruction. *)
Fixpoint write_chunks (payer_kp : Keypair) (buffer_pk : Address) (offset : Z) (l : list (list byte)) :
    Helper unit :=
  match l with
  | [] => hret (Ok tt)
  | chunk :: l' =>
      if (offset <? u32_limit)%Z then
        hbind (send_signed [loader_write buffer_pk (kp_pubkey payer_kp) offset chunk]
                 (kp_pubkey payer_kp) [payer_kp])
          (fun _ => write_chunks payer_kp buffer_pk (offset + Z.of_nat CHUNK_SIZE)%Z l')
      else hret (Err (loader_instruction_error (CustomError 0)))
  end.

(** [load_upgradeable_buffer]; [buffer_kp] is the fresh key pair it draws. *)
Definition load_upgradeable_buffer (buffer_kp payer_kp : Keypair) (program_bytes : list byte) :
    Helper Address := fun s =>
  let payer_pk := kp_pubkey payer_kp in
  let buffer_pk := kp_pubkey buffer_kp in
  let len := Z.of_nat (length program_bytes) in
  let lamports := minimum_balance_for_rent_exemption (accounts (state s.1)) (size_of_buffer len) in
  match loader_create_buffer payer_pk buffer_pk payer_pk lamports len with
  | Err e => hret (Err (loader_instruction_error e)) s
  | Ok create_buffer_ixs =>
      hbind (send_signed create_buffer_ixs payer_pk [payer_kp; buffer_kp])
        (fun _ => hbind (write_chunks payer_kp buffer_pk 0 (chunks CHUNK_SIZE program_bytes))
                    (fun _ => hret (Ok buffer_pk))) s
  end.

Definition deploy_upgradeable_program (buffer_kp payer_kp program_kp : Keypair)
    (program_bytes : list byte) : Helper unit :=
  let program_pk := kp_pubkey program_kp in
  let payer_pk := kp_pubkey payer_kp in
  let len := Z.of_nat (length program_bytes) in
  hbind (load_upgradeable_buffer buffer_kp payer_kp program_bytes) (fun buffer_pk s =>
    let lamports := minimum_balance_for_rent_exemption (accounts (state s.1)) len in
    match loader_deploy_with_max_program_len payer_pk program_pk buffer_pk payer_pk lamports (len * 2) with
    | Err e => hret (Err (loader_instruction_error e)) s
    | Ok deploy_ixs => send_signed deploy_ixs payer_pk [payer_kp; program_kp] s
    end).

(** ** The writes *)

(** The writes of a program: an offset and its bytes. *)
Fixpoint writes_from (offset : Z) (l : list (list byte)) : list (Z * list byte) :=
  match l with
  | [] => []
  | chunk :: l' => (offset, chunk) :: writes_from (offset + Z.of_nat CHUNK_SIZE)%Z l'
  end.
Definition program_writes (program_bytes : list byte) : list (Z * list byte) :=
  writes_from 0 (chunks CHUNK_SIZE program_bytes).

(** What a write does to the contents of a buffer. *)
Definition apply_write (buffer : list byte) (w : Z * list byte) : list byte :=
  take (Z.to_nat w.1) buffer ++ w.2 ++ drop (Z.to_nat w.1 + length w.2) buffer.

Definition send_write (payer_kp : Keypair) (buffer_pk : Address) (w : Z * list byte) : Helper unit :=
  send_signed [loader_write buffer_pk (kp_pubkey payer_kp) w.1 w.2] (kp_pubkey payer_kp) [payer_kp].

Lemma chunks_fuel_concat {A} fuel n (l : list A) :
  0 < n -> length l <= fuel -> concat (chunks_fuel fuel n l) = l.
Proof.
  intros Hn. revert l. induction fuel as [|fuel IH]; intros [|x l] Hl; cbn [chunks_fuel]; try done.
  { cbn in Hl. lia. }
  cbn [concat]. rewrite IH; [apply take_drop|]. rewrite length_drop. cbn in *. lia.
Qed.

Lemma chunks_concat {A} n (l : list A) : 0 < n -> concat (chunks n l) = l.
Proof. intros. by apply chunks_fuel_concat. Qed.

(** Every chunk but the last is full. *)
Lemma chunks_fuel_sizes {A} fuel n (l : list A) :
  0 < n -> length l <= fuel ->
  Forall (fun c => 0 < length c <= n) (chunks_fuel fuel n l) /\
  forall c cs1 cs2, chunks_fuel fuel n l = cs1 ++ c :: cs2 -> length (concat cs1) = n * length cs1.
Proof.
  intros Hn. revert l. induction fuel as [|fuel IH]; intros [|x l] Hl; cbn [chunks_fuel].
  1, 3: split; [constructor|]; intros c [] cs2; discriminate.
  { cbn in Hl. lia. }
  destruct (IH (drop n (x :: l))) as [H1 H2]. { rewrite length_drop. cbn in *. lia. }
  split. { constructor; [|done]. rewrite length_take. cbn [length]. lia. }
  intros c [|c1 cs1] cs2 E; [by rewrite Nat.mul_0_r|]. injection E as <- E.
  cbn [concat length]. rewrite length_app, (H2 _ _ _ E).
  destruct (decide (n <= length (x :: l))) as [Hle|Hgt].
  - rewrite length_take_le by done. lia.
  - rewrite drop_ge in E by lia. destruct fuel, cs1; discriminate E.
Qed.

Lemma apply_write_middle pre mid suf w :
  length w = length mid ->
  apply_write (pre ++ mid ++ suf) (Z.of_nat (length pre), w) = pre ++ w ++ suf.
Proof.
  intros E. unfold apply_write. cbn. rewrite Nat2Z.id, take_app_length.
  by rewrite E, <- length_app, (app_assoc pre mid suf), drop_app_length.
Qed.

(** Writing chunk after chunk, all but the last full, fills the buffer from the front. *)
Lemma writes_fill cs : forall pre buffer,
  length (concat cs) <= length buffer ->
  (forall c cs1 cs2, cs = cs1 ++ c :: cs2 -> length (concat cs1) = CHUNK_SIZE * length cs1) ->
  foldl apply_write (pre ++ buffer) (writes_from (Z.of_nat (length pre)) cs) =
  pre ++ concat cs ++ drop (length (concat cs)) buffer.
Proof.
  induction cs as [|c cs IH]; intros pre buffer Hlen Hfull; [done|].
  cbn [writes_from foldl concat] in *. rewrite length_app in *.
  rewrite <- (take_drop (length c) buffer) at 1. rewrite apply_write_middle by (rewrite length_take; lia).
  destruct cs as [|c2 cs].
  { cbn. rewrite app_nil_r, Nat.add_0_r. done. }
  assert (Hc : length c = CHUNK_SIZE).
  { pose proof (Hfull c2 [c] cs eq_refl) as H. cbn [concat] in H. rewrite app_nil_r in H. cbn [length] in H. lia. }
  rewrite app_assoc. replace (Z.of_nat (length pre) + Z.of_nat CHUNK_SIZE)%Z with (Z.of_nat (length (pre ++ c)))
    by (rewrite length_app; lia).
  rewrite IH.
  - rewrite drop_drop, <- !app_assoc. do 3 f_equal.
  - rewrite length_drop. lia.
  - intros c' cs1 cs2 E. pose proof (Hfull c' (c :: cs1) cs2 ltac:(by rewrite E)) as H.
    cbn [concat length] in H. rewrite length_app in H. lia.
Qed.

(** The writes put the program together, whatever the buffer held before. *)
Lemma program_writes_assemble program_bytes buffer :
  length buffer = length program_bytes ->
  foldl apply_write buffer (program_writes program_bytes) = program_bytes.
Proof.
  intros Hl. unfold program_writes, chunks.
  assert (Hn : 0 < CHUNK_SIZE) by (unfold CHUNK_SIZE; lia).
  destruct (chunks_fuel_sizes (length program_bytes) CHUNK_SIZE program_bytes Hn (le_n _)) as [_ H].
  pose proof (writes_fill (chunks_fuel (length program_bytes) CHUNK_SIZE program_bytes) [] buffer) as W.
  rewrite !chunks_fuel_concat in W by done. cbn [app] in W. change (Z.of_nat (length [])) with 0%Z in W.
  rewrite W; [|by rewrite Hl|exact H]. rewrite drop_ge by lia. apply app_nil_r.
Qed.

Lemma write_chunks_sends payer_kp buffer_pk l : forall offset s s' ev,
  write_chunks payer_kp buffer_pk offset l s = Some (Ok tt, s', ev) ->
  hfor (writes_from offset l) (send_write payer_kp buffer_pk) s = Some (Ok tt, s', ev) /\
  Forall (fun w => w.1 < u32_limit)%Z (writes_from offset l).
Proof.
  induction l as [|c l IH]; intros offset s s' ev; cbn [write_chunks writes_from hfor]; [done|].
  destruct (Z.ltb_spec offset u32_limit) as [Hlt|Hge]; [|done]. intros H.
  apply hbind_ok in H as (u & s1 & ev1 & ev2 & H1 & H2 & ->). apply IH in H2 as [H2 HF]. split; [|by constructor].
  apply hbind_ok. by exists u, s1, ev1, ev2.
Qed.

Lemma writes_bounded cs : forall offset,
  Forall (fun w => w.1 < u32_limit)%Z (writes_from offset cs) ->
  Forall (fun c => 0 < length c <= CHUNK_SIZE) cs ->
  Forall (fun w => w.1 < u32_limit /\ 0 < Z.of_nat (length w.2) <= 512)%Z (writes_from offset cs).
Proof.
  induction cs as [|c cs IH]; intros offset HF Hs; cbn in *; [constructor|].
  apply Forall_cons in HF as [? ?], Hs as [? ?]. constructor; [|by apply IH].
  cbn in *. unfold CHUNK_SIZE in *. lia.
Qed.

(** C32: What a deployment sends.  When it succeeds, a transaction created the buffer of
    the fresh key pair, for the length of the program, with the payer as its authority and
    the balance that makes a buffer of that size rent exempt, signed by payer and buffer;
    one transaction per write of [program_writes] followed, in order, and a last one
    deployed the program from that buffer with room for twice its length; every write is at most 512 bytes at an offset that fits 32 bits, and
    together they leave exactly the program in a buffer of its length. *)
Theorem deploy_uploads_program buffer_kp payer_kp program_kp program_bytes s s' ev :
  deploy_upgradeable_program buffer_kp payer_kp program_kp program_bytes s = Some (Ok tt, s', ev) ->
  exists create_ixs deploy_ixs s1 s2 ev1 ev2 ev3,
    loader_create_buffer (kp_pubkey payer_kp) (kp_pubkey buffer_kp) (kp_pubkey payer_kp)
      (minimum_balance_for_rent_exemption (accounts (state s.1))
         (size_of_buffer (Z.of_nat (length program_bytes))))
      (Z.of_nat (length program_bytes)) = Ok create_ixs /\
    send_signed create_ixs (kp_pubkey payer_kp) [payer_kp; buffer_kp] s = Some (Ok tt, s1, ev1) /\
    hfor (program_writes program_bytes) (send_write payer_kp (kp_pubkey buffer_kp)) s1 =
      Some (Ok tt, s2, ev2) /\
    loader_deploy_with_max_program_len (kp_pubkey payer_kp) (kp_pubkey program_kp)
      (kp_pubkey buffer_kp) (kp_pubkey payer_kp)
      (minimum_balance_for_rent_exemption (accounts (state s2.1)) (Z.of_nat (length program_bytes)))
      (Z.of_nat (length program_bytes) * 2) = Ok deploy_ixs /\
    send_signed deploy_ixs (kp_pubkey payer_kp) [payer_kp; program_kp] s2 = Some (Ok tt, s', ev3) /\
    ev = ev1 ++ ev2 ++ ev3 /\
    Forall (fun w => w.1 < u32_limit /\ 0 < Z.of_nat (length w.2) <= 512)%Z (program_writes program_bytes) /\
    forall buffer, length buffer = length program_bytes ->
      foldl apply_write buffer (program_writes program_bytes) = program_bytes.
Proof.
  unfold deploy_upgradeable_program. intros H.
  apply hbind_ok in H as (pk & s2 & ev12 & ev3 & H1 & H2 & ->). unfold load_upgradeable_buffer in H1.
  destruct (loader_create_buffer _ _ _ _ _) as [create|e] eqn:Hcr; [|done].
  apply hbind_ok in H1 as ([] & s1 & ev1 & ev2 & Hc & H1 & ->).
  apply hbind_ok in H1 as ([] & s2' & ev2' & ev0 & Hw & H1 & ->). injection H1 as <- <- <-.
  apply write_chunks_sends in Hw as [Hw HF]. cbn beta zeta in H2.
  destruct (loader_deploy_with_max_program_len _ _ _ _ _ _) as [deploy|e] eqn:Hd; [|done].
  exists create, deploy, s1, s2', ev1, ev2', ev3. rewrite app_nil_r, <- app_assoc. split_and!; try done.
  2: apply program_writes_assemble.
  apply writes_bounded; [done|]. apply chunks_fuel_sizes; [unfold CHUNK_SIZE; lia|done].
Qed.

(** A program past the reach of a 32-bit offset is refused while it is written: the
    first write whose offset does not fit sends nothing. *)
Theorem oversized_chunk_refused payer_kp buffer_pk offset chunk l s :
  (u32_limit <= offset)%Z ->
  write_chunks payer_kp buffer_pk offset (chunk :: l) s =
  Some (Err (loader_instruction_error (CustomError 0)), s, []).
Proof. intros H. cbn [write_chunks]. by rewrite (proj2 (Z.ltb_ge _ _) H). Qed.

End Loader.
