(* ===== verification/Token.v ===== *)
(** * Token helpers, [crates/hpsvm/src/token]

    Builders of SPL token transactions, account factories and the reading of token
    accounts.  The token program, the associated-token program and the state layouts
    belong to SDK crates and are an interface: what an instruction asks for is a value
    of [TokenOp], and the interface turns it into an instruction or refuses.  Every
    builder of the source is a record with its fields, its [new], its setters and its
    [send]; the borrowed VM is the state of the computation. *)

From Stdlib Require Import ZArith Strings.Byte Strings.String.
From stdpp Require Import base tactics option list.
From S2P Require Import Prelude.
From S2P Require Import Types.
From S2P Require Import AccountSource.
From S2P Require Import Errors.
From S2P Require Import Lru.
From S2P Require Import History.
From S2P Require Import Runtime.
From S2P Require Import AccountsDb.
From S2P Require Import FeePayer.
From S2P Require Import Version.
From S2P Require Import TxRuntime.
From S2P Require Import Svm.
From S2P Require Import Execution.
From S2P Require Import Staging.
From S2P Require Import Wallet.

(** What an authorised token instruction asks for, its authority and signers aside. *)
Inductive TokenOp (AuthorityType : Type) : Type :=
| OpTransfer (source destination : Address) (amount : Z)
| OpTransferChecked (source mint destination : Address) (amount decimals : Z)
| OpApprove (source delegate : Address) (amount : Z)
| OpApproveChecked (source mint delegate : Address) (amount decimals : Z)
| OpBurn (account mint : Address) (amount : Z)
| OpBurnChecked (account mint : Address) (amount decimals : Z)
| OpCloseAccount (account destination : Address)
| OpFreezeAccount (account mint : Address)
| OpThawAccount (account mint : Address)
| OpMintTo (mint account : Address) (amount : Z)
| OpMintToChecked (mint account : Address) (amount decimals : Z)
| OpRevoke (source : Address)
| OpSetAuthority (owned : Address) (new_authority : option Address) (authority_type : AuthorityType).
Arguments OpTransfer {_} _ _ _.
Arguments OpTransferChecked {_} _ _ _ _ _.
Arguments OpApprove {_} _ _ _.
Arguments OpApproveChecked {_} _ _ _ _ _.
Arguments OpBurn {_} _ _ _.
Arguments OpBurnChecked {_} _ _ _ _.
Arguments OpCloseAccount {_} _ _.
Arguments OpFreezeAccount {_} _ _.
Arguments OpThawAccount {_} _ _.
Arguments OpMintTo {_} _ _ _.
Arguments OpMintToChecked {_} _ _ _ _.
Arguments OpRevoke {_} _.
Arguments OpSetAuthority {_} _ _ _.

(** [spl_token::state::Mint]. *)
Record Mint : Type := mkMint {
  mint_authority : option Address;
  mint_supply : Z;
  mint_decimals : Z;
  mint_is_initialized : bool;
  mint_freeze_authority : option Address
}.

(** [solana_program_pack::Pack]: [pack_into] writes the state over a buffer of its
    length.  Program errors are their numbers. *)
Class Pack (A : Type) : Type := {
  pack_LEN : nat;
  unpack : list byte -> result A Z;
  pack_into : A -> list byte -> result (list byte) Z;
  pack_initialized : A -> bool
}.
Arguments pack_LEN A {_}.

Class PackLaws (A : Type) {pk : Pack A} : Prop := {
  pack_unpack a buffer :
    length buffer = pack_LEN A -> exists data, pack_into a buffer = Ok data /\ length data = pack_LEN A /\
      (pack_initialized a = true -> unpack data = Ok a)
}.

(** The SPL interfaces.  [token_2022] says which of the two token crates the build
    uses; [authorized] makes an instruction for a token program, an authority and the
    signers of a multisig. *)
Class TokenInterface : Type := {
  token_2022 : bool;
  TOKEN_ID : Address;
  SPL_TOKEN_ID : Address;
  SPL_TOKEN_2022_ID : Address;
  NATIVE_MINT_ID : Address;
  NATIVE_MINT_DECIMALS : Z;
  AuthorityType : Type;
  TokenAccount : Type;
  MULTISIG_LEN : nat;
  mint_pack : Pack Mint;
  token_account_pack : Pack TokenAccount;
  (** [TokenAccount { mint, owner, amount, state: Initialized, ..Default::default() }]. *)
  initialized_token_account : Address -> Address -> Z -> TokenAccount;
  (** [ExtensionType::try_calculate_account_len] without extensions. *)
  extended_account_len : result Z Z;
  extended_mint_len : result Z Z;
  get_associated_token_address : Address -> Address -> Address -> Address;
  authorized : Address -> TokenOp AuthorityType -> Address -> list Address -> result Instruction Z;
  sync_native : Address -> Address -> result Instruction Z;
  initialize_account3 : Address -> Address -> Address -> Address -> result Instruction Z;
  initialize_mint2 : Address -> Address -> Address -> option Address -> Z -> result Instruction Z;
  initialize_multisig2 : Address -> Address -> list Address -> Z -> result Instruction Z;
  create_associated_token_account : Address -> Address -> Address -> Address -> Instruction;
  create_associated_token_account_idempotent : Address -> Address -> Address -> Address -> Instruction;
  create_native_mint_2022 : Address -> Address -> result Instruction Z;
  system_create_account : Address -> Address -> Z -> Z -> Address -> Instruction
}.
#[export] Existing Instance mint_pack.
#[export] Existing Instance token_account_pack.

(** The multisig signers sign an authorised instruction, or the authority when there
    are none. *)
Definition instruction_keys (authority : Address) (signers : list Address) : list Address :=
  match signers with [] => [authority] | _ => signers end.

Class TokenLaws {ti : TokenInterface} : Prop := {
  authorized_signers program op authority signers ix a :
    authorized program op authority signers = Ok ix ->
    instruction_signer ix a <-> a ∈ instruction_keys authority signers
}.

(** ** [token/error.rs] *)
Inductive TokenError : Type :=
| TokenAccountNotFound (address : Address)
| TokenAccountDataTooSmall (expected actual : nat)
| TokenUnpackError (e : Z)
| TokenTransactionFailed (meta : FailedTransactionMetadata).

Definition failed_from_token_error (e : TokenError) : FailedTransactionMetadata :=
  match e with
  | TokenAccountNotFound _ => mkFailedTransactionMetadata AccountNotFound TransactionMetadata_default
  | TokenAccountDataTooSmall _ _ =>
      mkFailedTransactionMetadata (TxInstructionError 0 AccountDataTooSmall) TransactionMetadata_default
  | TokenUnpackError e => failed_from_program_error e
  | TokenTransactionFailed meta => meta
  end.

Definition token_error_from_failed (meta : FailedTransactionMetadata) : TokenError :=
  TokenTransactionFailed meta.

(** [get_multisig_signers]: a lone signer that is the authority itself is no multisig. *)
Definition get_multisig_signers (authority : Address) (signing_pubkeys : list Address) : list Address :=
  if bool_decide (signing_pubkeys = [authority]) then [] else signing_pubkeys.

Section Token.
Context {tgt : Target} {ids : SdkIds} {sv : SysvarRuntime} {pr : ProgramRuntime}
        {pc : ProgramCacheOps} {Lst : Lru ProgramEntryKey Entry}
        {Lhist : Lru Signature TransactionResult} {fs : FeatureSets} {bud : Budgets}
        {tx : TxRuntime} {lt : LookupTables} {sp : SystemProgram} {uc : UserCode} {wl : Wallet}
        {ti : TokenInterface}.

(** ** [token/mod.rs] *)

Definition get_spl_account (A : Type) {pk : Pack A} (v : Svm) (address : Address) : result A TokenError :=
  let? account := ok_or (get_account (accounts (state v)) address) (TokenAccountNotFound address) in
  let? data :=
    (if (pack_LEN A <=? length (acc_data account))%nat then Ok (take (pack_LEN A) (acc_data account))
     else Err (TokenAccountDataTooSmall (pack_LEN A) (length (acc_data account)))) in
  map_err TokenUnpackError (unpack data).

Definition sign_and_send (payer : Keypair) (signers : list Keypair) (ix : Instruction) : Helper unit :=
  fun s =>
    let block_hash := latest_blockhash (block_env s.1) in
    match partial_sign [payer] block_hash (new_with_payer [ix] (kp_pubkey payer)) with
    | None => None
    | Some t1 =>
        match partial_sign signers block_hash t1 with
        | None => None
        | Some t2 => send_versioned (into_versioned t2) s
        end
    end.

(** [?] on a program error and on a token error. *)
Definition from_program {A} (r : result A Z) : Helper A := hret (map_err failed_from_program_error r).
Definition load_mint (mint : Address) : Helper Mint := fun s =>
  hret (map_err failed_from_token_error (get_spl_account Mint s.1 mint)) s.

(** ** [token/accounts.rs] *)

(** The account of a packed state; [None] is the [expect] on the packing. *)
Definition packed_account {A} {pk : Pack A} (a : A) (program : Address) : option AccountSharedData :=
  match pack_into a (repeat x00 (pack_LEN A)) with
  | Ok data => Some (mkAccount (rent_minimum_balance rent_default (Z.of_nat (pack_LEN A))) data program false 0)
  | Err _ => None
  end.

Definition system_account (lamports : Z) : AccountSharedData :=
  mkAccount lamports [] system_program_id false 0.
Definition keyed_system_account (address : Address) (lamports : Z) : Address * AccountSharedData :=
  (address, system_account lamports).

Definition mint_account_with_program (mint : Mint) (token_program_id : Address) : option AccountSharedData :=
  packed_account mint token_program_id.
Definition mint_account (mint : Mint) : option AccountSharedData := mint_account_with_program mint TOKEN_ID.
Definition keyed_mint_account_with_program (address : Address) (mint : Mint) (token_program_id : Address) :
    option (Address * AccountSharedData) :=
  (fun a => (address, a)) <$> mint_account_with_program mint token_program_id.
Definition keyed_mint_account (address : Address) (mint : Mint) : option (Address * AccountSharedData) :=
  (fun a => (address, a)) <$> mint_account mint.

Definition token_account_with_program (token : TokenAccount) (token_program_id : Address) :
    option AccountSharedData :=
  packed_account token token_program_id.
Definition token_account (token : TokenAccount) : option AccountSharedData :=
  token_account_with_program token TOKEN_ID.
Definition keyed_token_account_with_program (address : Address) (token : TokenAccount)
    (token_program_id : Address) : option (Address * AccountSharedData) :=
  (fun a => (address, a)) <$> token_account_with_program token token_program_id.
Definition keyed_token_account (address : Address) (token : TokenAccount) :
    option (Address * AccountSharedData) :=
  (fun a => (address, a)) <$> token_account token.

Definition keyed_associated_token_account_with_program (wallet mint : Address) (amount : Z)
    (token_program_id : Address) : option (Address * AccountSharedData) :=
  (fun a => (get_associated_token_address wallet mint token_program_id, a)) <$>
  token_account_with_program (initialized_token_account mint wallet amount) token_program_id.
Definition keyed_associated_token_account (wallet mint : Address) (amount : Z) :
    option (Address * AccountSharedData) :=
  keyed_associated_token_account_with_program wallet mint amount TOKEN_ID.

Definition set_keyed_account (ka : Address * AccountSharedData) : M VmSt HPSVMError unit :=
  set_account ka.1 ka.2.

(** ** Builders of authorised instructions *)

(** [transfer.rs]. *)
Record Transfer : Type := mkTransfer {
  tr_payer : Keypair;
  tr_mint : Address;
  tr_source : option Address;
  tr_destination : Address;
  tr_token_program_id : option Address;
  tr_amount : Z;
  tr_signers : list Keypair;
  tr_owner : option Address
}.

Definition transfer_new (payer : Keypair) (mint : Address) (destination : Address) (amount : Z) : Transfer
    :=
  mkTransfer payer mint None destination None amount [payer] None.
Definition transfer_token_program_id (v : Address) (b : Transfer) : Transfer :=
  mkTransfer (tr_payer b) (tr_mint b) (tr_source b) (tr_destination b) (Some v) (tr_amount b)
      (tr_signers b) (tr_owner b).
Definition transfer_source (v : Address) (b : Transfer) : Transfer :=
  mkTransfer (tr_payer b) (tr_mint b) (Some v) (tr_destination b) (tr_token_program_id b) (tr_amount b)
      (tr_signers b) (tr_owner b).
Definition transfer_owner (owner : Keypair) (b : Transfer) : Transfer :=
  mkTransfer (tr_payer b) (tr_mint b) (tr_source b) (tr_destination b) (tr_token_program_id b)
      (tr_amount b) [owner] (Some (kp_pubkey owner)).
Definition transfer_multisig (multisig : Address) (signers : list Keypair) (b : Transfer) : Transfer :=
  mkTransfer (tr_payer b) (tr_mint b) (tr_source b) (tr_destination b) (tr_token_program_id b)
      (tr_amount b) signers (Some multisig).

Definition transfer_send (b : Transfer) : Helper unit :=
  let token_program_id := default TOKEN_ID (tr_token_program_id b) in
  let authority := default (kp_pubkey (tr_payer b)) (tr_owner b) in
  let signer_keys := get_multisig_signers authority (map kp_pubkey (tr_signers b)) in
  let source_pk := default (get_associated_token_address authority (tr_mint b) token_program_id)
      (tr_source b) in
  hbind (from_program (authorized token_program_id
      (OpTransfer source_pk (tr_destination b) (tr_amount b))
      authority signer_keys))
    (sign_and_send (tr_payer b) (tr_signers b)).

(** [transfer_checked.rs]. *)
Record TransferChecked : Type := mkTransferChecked {
  trc_payer : Keypair;
  trc_mint : Address;
  trc_source : option Address;
  trc_destination : Address;
  trc_token_program_id : option Address;
  trc_amount : Z;
  trc_decimals : option Z;
  trc_signers : list Keypair;
  trc_owner : option Address
}.

Definition transfer_checked_new (payer : Keypair) (mint : Address) (destination : Address) (amount : Z) :
    TransferChecked :=
  mkTransferChecked payer mint None destination None amount None [payer] None.
Definition transfer_checked_token_program_id (v : Address) (b : TransferChecked) : TransferChecked :=
  mkTransferChecked (trc_payer b) (trc_mint b) (trc_source b) (trc_destination b) (Some v) (trc_amount
      b) (trc_decimals b) (trc_signers b) (trc_owner b).
Definition transfer_checked_decimals (v : Z) (b : TransferChecked) : TransferChecked :=
  mkTransferChecked (trc_payer b) (trc_mint b) (trc_source b) (trc_destination b) (trc_token_program_id
      b) (trc_amount b) (Some v) (trc_signers b) (trc_owner b).
Definition transfer_checked_source (v : Address) (b : TransferChecked) : TransferChecked :=
  mkTransferChecked (trc_payer b) (trc_mint b) (Some v) (trc_destination b) (trc_token_program_id b)
      (trc_amount b) (trc_decimals b) (trc_signers b) (trc_owner b).
Definition transfer_checked_owner (owner : Keypair) (b : TransferChecked) : TransferChecked :=
  mkTransferChecked (trc_payer b) (trc_mint b) (trc_source b) (trc_destination b) (trc_token_program_id
      b) (trc_amount b) (trc_decimals b) [owner] (Some (kp_pubkey owner)).
Definition transfer_checked_multisig (multisig : Address) (signers : list Keypair) (b : TransferChecked) :
    TransferChecked :=
  mkTransferChecked (trc_payer b) (trc_mint b) (trc_source b) (trc_destination b) (trc_token_program_id
      b) (trc_amount b) (trc_decimals b) signers (Some multisig).

Definition transfer_checked_send (b : TransferChecked) : Helper unit :=
  let token_program_id := default TOKEN_ID (trc_token_program_id b) in
  let authority := default (kp_pubkey (trc_payer b)) (trc_owner b) in
  let signer_keys := get_multisig_signers authority (map kp_pubkey (trc_signers b)) in
  let source_pk := default (get_associated_token_address authority (trc_mint b) token_program_id)
      (trc_source b) in
  hbind (load_mint (trc_mint b)) (fun mint =>
  let decimals := default (mint_decimals mint) (trc_decimals b) in
  hbind (from_program (authorized token_program_id
      (OpTransferChecked source_pk (trc_mint b) (trc_destination b) (trc_amount b) decimals)
      authority signer_keys))
    (sign_and_send (trc_payer b) (trc_signers b))).

(** [approve.rs]. *)
Record Approve : Type := mkApprove {
  ap_payer : Keypair;
  ap_delegate : Address;
  ap_source : Address;
  ap_amount : Z;
  ap_token_program_id : option Address;
  ap_signers : list Keypair;
  ap_owner : option Address
}.

Definition approve_new (payer : Keypair) (delegate : Address) (source : Address) (amount : Z) : Approve :=
  mkApprove payer delegate source amount None [payer] None.
Definition approve_token_program_id (v : Address) (b : Approve) : Approve :=
  mkApprove (ap_payer b) (ap_delegate b) (ap_source b) (ap_amount b) (Some v) (ap_signers b) (ap_owner b).
Definition approve_owner (owner : Keypair) (b : Approve) : Approve :=
  mkApprove (ap_payer b) (ap_delegate b) (ap_source b) (ap_amount b) (ap_token_program_id b) [owner]
      (Some (kp_pubkey owner)).
Definition approve_multisig (multisig : Address) (signers : list Keypair) (b : Approve) : Approve :=
  mkApprove (ap_payer b) (ap_delegate b) (ap_source b) (ap_amount b) (ap_token_program_id b) signers
      (Some multisig).

Definition approve_send (b : Approve) : Helper unit :=
  let token_program_id := default TOKEN_ID (ap_token_program_id b) in
  let authority := default (kp_pubkey (ap_payer b)) (ap_owner b) in
  let signer_keys := get_multisig_signers authority (map kp_pubkey (ap_signers b)) in
  hbind (from_program (authorized token_program_id
      (OpApprove (ap_source b) (ap_delegate b) (ap_amount b))
      authority signer_keys))
    (sign_and_send (ap_payer b) (ap_signers b)).

(** [approve_checked.rs]. *)
Record ApproveChecked : Type := mkApproveChecked {
  apc_payer : Keypair;
  apc_delegate : Address;
  apc_mint : Address;
  apc_source : option Address;
  apc_amount : Z;
  apc_token_program_id : option Address;
  apc_decimals : option Z;
  apc_signers : list Keypair;
  apc_owner : option Address
}.

Definition approve_checked_new (payer : Keypair) (delegate : Address) (mint : Address) (amount : Z) :
    ApproveChecked :=
  mkApproveChecked payer delegate mint None amount None None [payer] None.
Definition approve_checked_source (v : Address) (b : ApproveChecked) : ApproveChecked :=
  mkApproveChecked (apc_payer b) (apc_delegate b) (apc_mint b) (Some v) (apc_amount b)
      (apc_token_program_id b) (apc_decimals b) (apc_signers b) (apc_owner b).
Definition approve_checked_token_program_id (v : Address) (b : ApproveChecked) : ApproveChecked :=
  mkApproveChecked (apc_payer b) (apc_delegate b) (apc_mint b) (apc_source b) (apc_amount b) (Some v)
      (apc_decimals b) (apc_signers b) (apc_owner b).
Definition approve_checked_owner (owner : Keypair) (b : ApproveChecked) : ApproveChecked :=
  mkApproveChecked (apc_payer b) (apc_delegate b) (apc_mint b) (apc_source b) (apc_amount b)
      (apc_token_program_id b) (apc_decimals b) [owner] (Some (kp_pubkey owner)).
Definition approve_checked_multisig (multisig : Address) (signers : list Keypair) (b : ApproveChecked) :
    ApproveChecked :=
  mkApproveChecked (apc_payer b) (apc_delegate b) (apc_mint b) (apc_source b) (apc_amount b)
      (apc_token_program_id b) (apc_decimals b) signers (Some multisig).

Definition approve_checked_send (b : ApproveChecked) : Helper unit :=
  let token_program_id := default TOKEN_ID (apc_token_program_id b) in
  let authority := default (kp_pubkey (apc_payer b)) (apc_owner b) in
  let signer_keys := get_multisig_signers authority (map kp_pubkey (apc_signers b)) in
  let source_pk := default (get_associated_token_address authority (apc_mint b) token_program_id)
      (apc_source b) in
  hbind (load_mint (apc_mint b)) (fun mint =>
  let decimals := default (mint_decimals mint) (apc_decimals b) in
  hbind (from_program (authorized token_program_id
      (OpApproveChecked source_pk (apc_mint b) (apc_delegate b) (apc_amount b) decimals)
      authority signer_keys))
    (sign_and_send (apc_payer b) (apc_signers b))).

(** [burn.rs]. *)
Record Burn : Type := mkBurn {
  bu_payer : Keypair;
  bu_mint : Address;
  bu_account : Address;
  bu_token_program_id : option Address;
  bu_amount : Z;
  bu_signers : list Keypair;
  bu_owner : option Address
}.

Definition burn_new (payer : Keypair) (mint : Address) (account : Address) (amount : Z) : Burn :=
  mkBurn payer mint account None amount [payer] None.
Definition burn_token_program_id (v : Address) (b : Burn) : Burn :=
  mkBurn (bu_payer b) (bu_mint b) (bu_account b) (Some v) (bu_amount b) (bu_signers b) (bu_owner b).
Definition burn_owner (owner : Keypair) (b : Burn) : Burn :=
  mkBurn (bu_payer b) (bu_mint b) (bu_account b) (bu_token_program_id b) (bu_amount b) [owner] (Some
      (kp_pubkey owner)).
Definition burn_multisig (multisig : Address) (signers : list Keypair) (b : Burn) : Burn :=
  mkBurn (bu_payer b) (bu_mint b) (bu_account b) (bu_token_program_id b) (bu_amount b) signers (Some
      multisig).

Definition burn_send (b : Burn) : Helper unit :=
  let token_program_id := default TOKEN_ID (bu_token_program_id b) in
  let authority := default (kp_pubkey (bu_payer b)) (bu_owner b) in
  let signer_keys := get_multisig_signers authority (map kp_pubkey (bu_signers b)) in
  hbind (from_program (authorized token_program_id
      (OpBurn (bu_account b) (bu_mint b) (bu_amount b))
      authority signer_keys))
    (sign_and_send (bu_payer b) (bu_signers b)).

(** [burn_checked.rs]. *)
Record BurnChecked : Type := mkBurnChecked {
  buc_payer : Keypair;
  buc_mint : Address;
  buc_account : Address;
  buc_token_program_id : option Address;
  buc_amount : Z;
  buc_decimals : option Z;
  buc_signers : list Keypair;
  buc_owner : option Address
}.

Definition burn_checked_new (payer : Keypair) (mint : Address) (account : Address) (amount : Z) :
    BurnChecked :=
  mkBurnChecked payer mint account None amount None [payer] None.
Definition burn_checked_token_program_id (v : Address) (b : BurnChecked) : BurnChecked :=
  mkBurnChecked (buc_payer b) (buc_mint b) (buc_account b) (Some v) (buc_amount b) (buc_decimals b)
      (buc_signers b) (buc_owner b).
Definition burn_checked_decimals (v : Z) (b : BurnChecked) : BurnChecked :=
  mkBurnChecked (buc_payer b) (buc_mint b) (buc_account b) (buc_token_program_id b) (buc_amount b) (Some
      v) (buc_signers b) (buc_owner b).
Definition burn_checked_owner (owner : Keypair) (b : BurnChecked) : BurnChecked :=
  mkBurnChecked (buc_payer b) (buc_mint b) (buc_account b) (buc_token_program_id b) (buc_amount b)
      (buc_decimals b) [owner] (Some (kp_pubkey owner)).
Definition burn_checked_multisig (multisig : Address) (signers : list Keypair) (b : BurnChecked) :
    BurnChecked :=
  mkBurnChecked (buc_payer b) (buc_mint b) (buc_account b) (buc_token_program_id b) (buc_amount b)
      (buc_decimals b) signers (Some multisig).

Definition burn_checked_send (b : BurnChecked) : Helper unit :=
  let token_program_id := default TOKEN_ID (buc_token_program_id b) in
  let authority := default (kp_pubkey (buc_payer b)) (buc_owner b) in
  let signer_keys := get_multisig_signers authority (map kp_pubkey (buc_signers b)) in
  hbind (load_mint (buc_mint b)) (fun mint =>
  let decimals := default (mint_decimals mint) (buc_decimals b) in
  hbind (from_program (authorized token_program_id
      (OpBurnChecked (buc_account b) (buc_mint b) (buc_amount b) decimals)
      authority signer_keys))
    (sign_and_send (buc_payer b) (buc_signers b))).

(** [close_account.rs]. *)
Record CloseAccount : Type := mkCloseAccount {
  ca_payer : Keypair;
  ca_account : Address;
  ca_destination : Address;
  ca_token_program_id : option Address;
  ca_signers : list Keypair;
  ca_owner : option Address
}.

Definition close_account_new (payer : Keypair) (account : Address) (destination : Address) : CloseAccount :=
  mkCloseAccount payer account destination None [payer] None.
Definition close_account_token_program_id (v : Address) (b : CloseAccount) : CloseAccount :=
  mkCloseAccount (ca_payer b) (ca_account b) (ca_destination b) (Some v) (ca_signers b) (ca_owner b).
Definition close_account_owner (owner : Keypair) (b : CloseAccount) : CloseAccount :=
  mkCloseAccount (ca_payer b) (ca_account b) (ca_destination b) (ca_token_program_id b) [owner] (Some
      (kp_pubkey owner)).
Definition close_account_multisig (multisig : Address) (signers : list Keypair) (b : CloseAccount) :
    CloseAccount :=
  mkCloseAccount (ca_payer b) (ca_account b) (ca_destination b) (ca_token_program_id b) signers (Some
      multisig).

Definition close_account_send (b : CloseAccount) : Helper unit :=
  let token_program_id := default TOKEN_ID (ca_token_program_id b) in
  let authority := default (kp_pubkey (ca_payer b)) (ca_owner b) in
  let signer_keys := get_multisig_signers authority (map kp_pubkey (ca_signers b)) in
  hbind (from_program (authorized token_program_id
      (OpCloseAccount (ca_account b) (ca_destination b))
      authority signer_keys))
    (sign_and_send (ca_payer b) (ca_signers b)).

(** [freeze_account.rs]. *)
Record FreezeAccount : Type := mkFreezeAccount {
  fa_payer : Keypair;
  fa_mint : Address;
  fa_account : option Address;
  fa_token_program_id : option Address;
  fa_signers : list Keypair;
  fa_owner : option Address
}.

Definition freeze_account_new (payer : Keypair) (mint : Address) : FreezeAccount :=
  mkFreezeAccount payer mint None None [payer] None.
Definition freeze_account_token_program_id (v : Address) (b : FreezeAccount) : FreezeAccount :=
  mkFreezeAccount (fa_payer b) (fa_mint b) (fa_account b) (Some v) (fa_signers b) (fa_owner b).
Definition freeze_account_owner (owner : Keypair) (b : FreezeAccount) : FreezeAccount :=
  mkFreezeAccount (fa_payer b) (fa_mint b) (fa_account b) (fa_token_program_id b) [owner] (Some
      (kp_pubkey owner)).
Definition freeze_account_multisig (multisig : Address) (signers : list Keypair) (b : FreezeAccount) :
    FreezeAccount :=
  mkFreezeAccount (fa_payer b) (fa_mint b) (fa_account b) (fa_token_program_id b) signers (Some multisig).

Definition freeze_account_send (b : FreezeAccount) : Helper unit :=
  let token_program_id := default TOKEN_ID (fa_token_program_id b) in
  let authority := default (kp_pubkey (fa_payer b)) (fa_owner b) in
  let signer_keys := get_multisig_signers authority (map kp_pubkey (fa_signers b)) in
  let account := default (get_associated_token_address authority (fa_mint b) token_program_id)
      (fa_account b) in
  hbind (from_program (authorized token_program_id
      (OpFreezeAccount account (fa_mint b))
      authority signer_keys))
    (sign_and_send (fa_payer b) (fa_signers b)).

(** [thaw_account.rs]. *)
Record ThawAccount : Type := mkThawAccount {
  ta_payer : Keypair;
  ta_mint : Address;
  ta_account : option Address;
  ta_token_program_id : option Address;
  ta_signers : list Keypair;
  ta_owner : option Address
}.

Definition thaw_account_new (payer : Keypair) (mint : Address) : ThawAccount :=
  mkThawAccount payer mint None None [payer] None.
Definition thaw_account_token_program_id (v : Address) (b : ThawAccount) : ThawAccount :=
  mkThawAccount (ta_payer b) (ta_mint b) (ta_account b) (Some v) (ta_signers b) (ta_owner b).
Definition thaw_account_owner (owner : Keypair) (b : ThawAccount) : ThawAccount :=
  mkThawAccount (ta_payer b) (ta_mint b) (ta_account b) (ta_token_program_id b) [owner] (Some (kp_pubkey
      owner)).
Definition thaw_account_multisig (multisig : Address) (signers : list Keypair) (b : ThawAccount) :
    ThawAccount :=
  mkThawAccount (ta_payer b) (ta_mint b) (ta_account b) (ta_token_program_id b) signers (Some multisig).

Definition thaw_account_send (b : ThawAccount) : Helper unit :=
  let token_program_id := default TOKEN_ID (ta_token_program_id b) in
  let authority := default (kp_pubkey (ta_payer b)) (ta_owner b) in
  let signer_keys := get_multisig_signers authority (map kp_pubkey (ta_signers b)) in
  let account := default (get_associated_token_address authority (ta_mint b) token_program_id)
      (ta_account b) in
  hbind (from_program (authorized token_program_id
      (OpThawAccount account (ta_mint b))
      authority signer_keys))
    (sign_and_send (ta_payer b) (ta_signers b)).

(** [mint_to.rs]. *)
Record MintTo : Type := mkMintTo {
  mt_payer : Keypair;
  mt_mint : Address;
  mt_destination : Address;
  mt_token_program_id : option Address;
  mt_amount : Z;
  mt_signers : list Keypair;
  mt_owner : option Address
}.

Definition mint_to_new (payer : Keypair) (mint : Address) (destination : Address) (amount : Z) : MintTo :=
  mkMintTo payer mint destination None amount [payer] None.
Definition mint_to_token_program_id (v : Address) (b : MintTo) : MintTo :=
  mkMintTo (mt_payer b) (mt_mint b) (mt_destination b) (Some v) (mt_amount b) (mt_signers b) (mt_owner b).
Definition mint_to_owner (owner : Keypair) (b : MintTo) : MintTo :=
  mkMintTo (mt_payer b) (mt_mint b) (mt_destination b) (mt_token_program_id b) (mt_amount b) [owner]
      (Some (kp_pubkey owner)).
Definition mint_to_multisig (multisig : Address) (signers : list Keypair) (b : MintTo) : MintTo :=
  mkMintTo (mt_payer b) (mt_mint b) (mt_destination b) (mt_token_program_id b) (mt_amount b) signers
      (Some multisig).

Definition mint_to_send (b : MintTo) : Helper unit :=
  let token_program_id := default TOKEN_ID (mt_token_program_id b) in
  let authority := default (kp_pubkey (mt_payer b)) (mt_owner b) in
  let signer_keys := get_multisig_signers authority (map kp_pubkey (mt_signers b)) in
  hbind (from_program (authorized token_program_id
      (OpMintTo (mt_mint b) (mt_destination b) (mt_amount b))
      authority signer_keys))
    (sign_and_send (mt_payer b) (mt_signers b)).

(** [mint_to_checked.rs]. *)
Record MintToChecked : Type := mkMintToChecked {
  mtc_payer : Keypair;
  mtc_mint : Address;
  mtc_destination : Address;
  mtc_token_program_id : option Address;
  mtc_amount : Z;
  mtc_decimals : option Z;
  mtc_signers : list Keypair;
  mtc_owner : option Address
}.

Definition mint_to_checked_new (payer : Keypair) (mint : Address) (destination : Address) (amount : Z) :
    MintToChecked :=
  mkMintToChecked payer mint destination None amount None [payer] None.
Definition mint_to_checked_decimals (v : Z) (b : MintToChecked) : MintToChecked :=
  mkMintToChecked (mtc_payer b) (mtc_mint b) (mtc_destination b) (mtc_token_program_id b) (mtc_amount b)
      (Some v) (mtc_signers b) (mtc_owner b).
Definition mint_to_checked_token_program_id (v : Address) (b : MintToChecked) : MintToChecked :=
  mkMintToChecked (mtc_payer b) (mtc_mint b) (mtc_destination b) (Some v) (mtc_amount b) (mtc_decimals
      b) (mtc_signers b) (mtc_owner b).
Definition mint_to_checked_owner (owner : Keypair) (b : MintToChecked) : MintToChecked :=
  mkMintToChecked (mtc_payer b) (mtc_mint b) (mtc_destination b) (mtc_token_program_id b) (mtc_amount b)
      (mtc_decimals b) [owner] (Some (kp_pubkey owner)).
Definition mint_to_checked_multisig (multisig : Address) (signers : list Keypair) (b : MintToChecked) :
    MintToChecked :=
  mkMintToChecked (mtc_payer b) (mtc_mint b) (mtc_destination b) (mtc_token_program_id b) (mtc_amount b)
      (mtc_decimals b) signers (Some multisig).

Definition mint_to_checked_send (b : MintToChecked) : Helper unit :=
  let token_program_id := default TOKEN_ID (mtc_token_program_id b) in
  let authority := default (kp_pubkey (mtc_payer b)) (mtc_owner b) in
  let signer_keys := get_multisig_signers authority (map kp_pubkey (mtc_signers b)) in
  hbind (load_mint (mtc_mint b)) (fun mint =>
  let decimals := default (mint_decimals mint) (mtc_decimals b) in
  hbind (from_program (authorized token_program_id
      (OpMintToChecked (mtc_mint b) (mtc_destination b) (mtc_amount b) decimals)
      authority signer_keys))
    (sign_and_send (mtc_payer b) (mtc_signers b))).

(** [revoke.rs]. *)
Record Revoke : Type := mkRevoke {
  rv_payer : Keypair;
  rv_source : Address;
  rv_token_program_id : option Address;
  rv_signers : list Keypair;
  rv_owner : option Address
}.

Definition revoke_new (payer : Keypair) (source : Address) : Revoke :=
  mkRevoke payer source None [payer] None.
Definition revoke_token_program_id (v : Address) (b : Revoke) : Revoke :=
  mkRevoke (rv_payer b) (rv_source b) (Some v) (rv_signers b) (rv_owner b).
Definition revoke_owner (owner : Keypair) (b : Revoke) : Revoke :=
  mkRevoke (rv_payer b) (rv_source b) (rv_token_program_id b) [owner] (Some (kp_pubkey owner)).
Definition revoke_multisig (multisig : Address) (signers : list Keypair) (b : Revoke) : Revoke :=
  mkRevoke (rv_payer b) (rv_source b) (rv_token_program_id b) signers (Some multisig).

Definition revoke_send (b : Revoke) : Helper unit :=
  let token_program_id := default TOKEN_ID (rv_token_program_id b) in
  let authority := default (kp_pubkey (rv_payer b)) (rv_owner b) in
  let signer_keys := get_multisig_signers authority (map kp_pubkey (rv_signers b)) in
  hbind (from_program (authorized token_program_id
      (OpRevoke (rv_source b))
      authority signer_keys))
    (sign_and_send (rv_payer b) (rv_signers b)).

(** [set_authority.rs]. *)
Record SetAuthority : Type := mkSetAuthority {
  sa_payer : Keypair;
  sa_authority_type : AuthorityType;
  sa_account : Address;
  sa_new_authority : option Address;
  sa_token_program_id : option Address;
  sa_signers : list Keypair;
  sa_owner : option Address
}.

Definition set_authority_new (payer : Keypair) (account : Address) (authority_type : AuthorityType) :
    SetAuthority :=
  mkSetAuthority payer authority_type account None None [payer] None.
Definition set_authority_token_program_id (v : Address) (b : SetAuthority) : SetAuthority :=
  mkSetAuthority (sa_payer b) (sa_authority_type b) (sa_account b) (sa_new_authority b) (Some v)
      (sa_signers b) (sa_owner b).
Definition set_authority_new_authority (v : Address) (b : SetAuthority) : SetAuthority :=
  mkSetAuthority (sa_payer b) (sa_authority_type b) (sa_account b) (Some v) (sa_token_program_id b)
      (sa_signers b) (sa_owner b).
Definition set_authority_owner (owner : Keypair) (b : SetAuthority) : SetAuthority :=
  mkSetAuthority (sa_payer b) (sa_authority_type b) (sa_account b) (sa_new_authority b)
      (sa_token_program_id b) [owner] (Some (kp_pubkey owner)).
Definition set_authority_multisig (multisig : Address) (signers : list Keypair) (b : SetAuthority) :
    SetAuthority :=
  mkSetAuthority (sa_payer b) (sa_authority_type b) (sa_account b) (sa_new_authority b)
      (sa_token_program_id b) signers (Some multisig).

Definition set_authority_send (b : SetAuthority) : Helper unit :=
  let token_program_id := default TOKEN_ID (sa_token_program_id b) in
  let authority := default (kp_pubkey (sa_payer b)) (sa_owner b) in
  let signer_keys := get_multisig_signers authority (map kp_pubkey (sa_signers b)) in
  hbind (from_program (authorized token_program_id
      (OpSetAuthority (sa_account b) (sa_new_authority b) (sa_authority_type b))
      authority signer_keys))
    (sign_and_send (sa_payer b) (sa_signers b)).

(** ** Builders of the other instructions *)

(** [sync_native.rs]. *)
Record SyncNative : Type := mkSyncNative {
  sn_payer : Keypair;
  sn_account : Address;
  sn_token_program_id : option Address
}.
Definition sync_native_new (payer : Keypair) (account : Address) : SyncNative :=
  mkSyncNative payer account None.
Definition sync_native_token_program_id (v : Address) (b : SyncNative) : SyncNative :=
  mkSyncNative (sn_payer b) (sn_account b) (Some v).
Definition sync_native_send (b : SyncNative) : Helper unit :=
  hbind (from_program (sync_native (default TOKEN_ID (sn_token_program_id b)) (sn_account b)))
    (sign_and_send (sn_payer b) []).

(** [create_ata.rs] and [create_ata_idempotent.rs]: the same fields and setters. *)
Record CreateAssociatedTokenAccount : Type := mkCreateAssociatedTokenAccount {
  cata_payer : Keypair;
  cata_mint : Address;
  cata_token_program_id : option Address;
  cata_owner : option Address
}.
Definition create_ata_new (payer : Keypair) (mint : Address) : CreateAssociatedTokenAccount :=
  mkCreateAssociatedTokenAccount payer mint None None.
Definition create_ata_owner (owner : Address) (b : CreateAssociatedTokenAccount) :
    CreateAssociatedTokenAccount :=
  mkCreateAssociatedTokenAccount (cata_payer b) (cata_mint b) (cata_token_program_id b) (Some owner).
Definition create_ata_token_program_id (v : Address) (b : CreateAssociatedTokenAccount) :
    CreateAssociatedTokenAccount :=
  mkCreateAssociatedTokenAccount (cata_payer b) (cata_mint b) (Some v) (cata_owner b).
Definition create_ata_send (b : CreateAssociatedTokenAccount) : Helper Address :=
  let token_program_id := default TOKEN_ID (cata_token_program_id b) in
  let payer_pk := kp_pubkey (cata_payer b) in
  let authority := default payer_pk (cata_owner b) in
  let ix := create_associated_token_account payer_pk authority (cata_mint b) token_program_id in
  hbind (sign_and_send (cata_payer b) [] ix)
    (fun _ => hret (Ok (get_associated_token_address authority (cata_mint b) token_program_id))).

Record CreateAssociatedTokenAccountIdempotent : Type := mkCreateAssociatedTokenAccountIdempotent {
  catai_payer : Keypair;
  catai_mint : Address;
  catai_token_program_id : option Address;
  catai_owner : option Address
}.
Definition create_ata_idempotent_new (payer : Keypair) (mint : Address) :
    CreateAssociatedTokenAccountIdempotent :=
  mkCreateAssociatedTokenAccountIdempotent payer mint None None.
Definition create_ata_idempotent_owner (owner : Address) (b : CreateAssociatedTokenAccountIdempotent) :
    CreateAssociatedTokenAccountIdempotent :=
  mkCreateAssociatedTokenAccountIdempotent (catai_payer b) (catai_mint b) (catai_token_program_id b)
    (Some owner).
Definition create_ata_idempotent_token_program_id (v : Address) (b : CreateAssociatedTokenAccountIdempotent) :
    CreateAssociatedTokenAccountIdempotent :=
  mkCreateAssociatedTokenAccountIdempotent (catai_payer b) (catai_mint b) (Some v) (catai_owner b).
Definition create_ata_idempotent_send (b : CreateAssociatedTokenAccountIdempotent) : Helper Address :=
  let token_program_id := default TOKEN_ID (catai_token_program_id b) in
  let payer_pk := kp_pubkey (catai_payer b) in
  let authority := default payer_pk (catai_owner b) in
  let ix := create_associated_token_account_idempotent payer_pk authority (catai_mint b) token_program_id in
  hbind (sign_and_send (catai_payer b) [] ix)
    (fun _ => hret (Ok (get_associated_token_address authority (catai_mint b) token_program_id))).

(** [create_account.rs]; no setter reaches the extensions, so they are none.  The key
    pair drawn when none was set is an argument of [send]. *)
Record CreateAccount : Type := mkCreateAccount {
  cac_payer : Keypair;
  cac_mint : Address;
  cac_owner : option Address;
  cac_account_kp : option Keypair;
  cac_token_program_id : option Address
}.
Definition create_account_new (payer : Keypair) (mint : Address) : CreateAccount :=
  mkCreateAccount payer mint None None None.
Definition create_account_owner (owner : Address) (b : CreateAccount) : CreateAccount :=
  mkCreateAccount (cac_payer b) (cac_mint b) (Some owner) (cac_account_kp b) (cac_token_program_id b).
Definition create_account_account_kp (kp : Keypair) (b : CreateAccount) : CreateAccount :=
  mkCreateAccount (cac_payer b) (cac_mint b) (cac_owner b) (Some kp) (cac_token_program_id b).
Definition create_account_token_program_id (v : Address) (b : CreateAccount) : CreateAccount :=
  mkCreateAccount (cac_payer b) (cac_mint b) (cac_owner b) (cac_account_kp b) (Some v).
Definition create_account_send (fresh : Keypair) (b : CreateAccount) : Helper Address :=
  hbind (from_program (if token_2022 then extended_account_len else Ok (Z.of_nat (pack_LEN TokenAccount))))
    (fun account_len s =>
    let lamports := minimum_balance_for_rent_exemption (accounts (state s.1)) account_len in
    let account_kp := default fresh (cac_account_kp b) in
    let account_pk := kp_pubkey account_kp in
    let token_program_id := default TOKEN_ID (cac_token_program_id b) in
    let payer_pk := kp_pubkey (cac_payer b) in
    let ix1 := system_create_account payer_pk account_pk lamports account_len token_program_id in
    hbind (from_program (initialize_account3 token_program_id account_pk (cac_mint b)
                           (default payer_pk (cac_owner b)))) (fun ix2 =>
      hbind (send_signed [ix1; ix2] payer_pk [cac_payer b; account_kp])
        (fun _ => hret (Ok account_pk))) s).

(** [create_mint.rs]. *)
Record CreateMint : Type := mkCreateMint {
  cm_payer : Keypair;
  cm_authority : option Address;
  cm_freeze_authority : option Address;
  cm_decimals : option Z;
  cm_token_program_id : option Address
}.
Definition create_mint_new (payer : Keypair) : CreateMint := mkCreateMint payer None None None None.
Definition create_mint_authority (v : Address) (b : CreateMint) : CreateMint :=
  mkCreateMint (cm_payer b) (Some v) (cm_freeze_authority b) (cm_decimals b) (cm_token_program_id b).
Definition create_mint_freeze_authority (v : Address) (b : CreateMint) : CreateMint :=
  mkCreateMint (cm_payer b) (cm_authority b) (Some v) (cm_decimals b) (cm_token_program_id b).
Definition create_mint_decimals (v : Z) (b : CreateMint) : CreateMint :=
  mkCreateMint (cm_payer b) (cm_authority b) (cm_freeze_authority b) (Some v) (cm_token_program_id b).
Definition create_mint_token_program_id (v : Address) (b : CreateMint) : CreateMint :=
  mkCreateMint (cm_payer b) (cm_authority b) (cm_freeze_authority b) (cm_decimals b) (Some v).
Definition create_mint_send (mint_kp : Keypair) (b : CreateMint) : Helper Address :=
  hbind (from_program (if token_2022 then extended_mint_len else Ok (Z.of_nat (pack_LEN Mint))))
    (fun mint_size s =>
    let mint_pk := kp_pubkey mint_kp in
    let token_program_id := default TOKEN_ID (cm_token_program_id b) in
    let payer_pk := kp_pubkey (cm_payer b) in
    let ix1 := system_create_account payer_pk mint_pk
                 (minimum_balance_for_rent_exemption (accounts (state s.1)) mint_size) mint_size
                 token_program_id in
    hbind (from_program (initialize_mint2 token_program_id mint_pk (default payer_pk (cm_authority b))
                           (cm_freeze_authority b) (default 8%Z (cm_decimals b)))) (fun ix2 =>
      hbind (send_signed [ix1; ix2] payer_pk [cm_payer b; mint_kp])
        (fun _ => hret (Ok mint_pk))) s).

(** [create_multisig.rs]. *)
Record CreateMultisig : Type := mkCreateMultisig {
  cms_payer : Keypair;
  cms_signers : list Address;
  cms_required_signatures : Z;
  cms_multisig_kp : option Keypair;
  cms_token_program_id : option Address
}.
Definition create_multisig_new (payer : Keypair) (signers : list Address) (required_signatures : Z) :
    CreateMultisig :=
  mkCreateMultisig payer signers required_signatures None None.
Definition create_multisig_token_program_id (v : Address) (b : CreateMultisig) : CreateMultisig :=
  mkCreateMultisig (cms_payer b) (cms_signers b) (cms_required_signatures b) (cms_multisig_kp b) (Some v).
Definition create_multisig_send (fresh : Keypair) (b : CreateMultisig) : Helper Address := fun s =>
  let token_program_id := default TOKEN_ID (cms_token_program_id b) in
  let multisig_len := Z.of_nat MULTISIG_LEN in
  let multisig_kp := default fresh (cms_multisig_kp b) in
  let multisig_pk := kp_pubkey multisig_kp in
  let payer_pk := kp_pubkey (cms_payer b) in
  let ix1 := system_create_account payer_pk multisig_pk
               (minimum_balance_for_rent_exemption (accounts (state s.1)) multisig_len) multisig_len
               token_program_id in
  hbind (from_program (initialize_multisig2 token_program_id multisig_pk (cms_signers b)
                         (cms_required_signatures b))) (fun ix2 =>
    hbind (send_signed [ix1; ix2] payer_pk [cms_payer b; multisig_kp])
      (fun _ => hret (Ok multisig_pk))) s.

(** [create_native_mint.rs], of the builds without token-2022: [None] is one of its
    [expect]s, on the rent sysvar, on the packing or on the write. *)
Definition create_native_mint (s : VmSt) : option VmSt :=
  match get_account_ref (accounts (state s.1)) RENT_ID ≫= (fun a => decode_rent (acc_data a)),
        pack_into (mkMint None 0 NATIVE_MINT_DECIMALS true None) (repeat x00 (pack_LEN Mint)) with
  | Some rent, Ok data =>
      let account :=
        mkAccount (rent_minimum_balance rent (Z.of_nat (length data))) data SPL_TOKEN_ID false 0 in
      match set_account NATIVE_MINT_ID account s with
      | (Ok _, s') => Some s'
      | (Err _, _) => None
      end
  | _, _ => None
  end.

(** [create_native_mint_2022.rs]. *)
Record CreateNativeMint : Type := mkCreateNativeMint {
  cnm_payer : Keypair;
  cnm_token_program_id : option Address
}.
Definition create_native_mint_2022_new (payer : Keypair) : CreateNativeMint := mkCreateNativeMint payer None.
Definition create_native_mint_2022_token_program_id (v : Address) (b : CreateNativeMint) : CreateNativeMint :=
  mkCreateNativeMint (cnm_payer b) (Some v).
Definition create_native_mint_2022_send (b : CreateNativeMint) : Helper unit :=
  hbind (from_program (create_native_mint_2022 (default SPL_TOKEN_2022_ID (cnm_token_program_id b))
                         (kp_pubkey (cnm_payer b))))
    (sign_and_send (cnm_payer b) []).

End Token.
