(* ===== verification/TokenFacts.v ===== *)
(** * Theorems about the token helpers

    The builders of authorised instructions share an interface, and the theorem on
    signing is proved against it: every signature a transaction needs is made, except
    that of a multisig chosen without signers, and signing never panics.  Then the account factories read back, and what the freezing
    and thawing builders can reach. *)

From Stdlib Require Import ZArith Lia Strings.Byte Strings.String.
From stdpp Require Import base tactics option list relations.
From S2P Require Import Prelude.
From S2P Require Import Types.
From S2P Require Import AccountSource.
From S2P Require Import Errors.
From S2P Require Import Lru.
From S2P Require Import History.
From S2P Require Import Runtime.
From S2P Require Import AccountsDb.
From S2P Require Import Overlay.
From S2P Require Import OverlayReads.
From S2P Require Import FeePayer.
From S2P Require Import Version.
From S2P Require Import TxRuntime.
From S2P Require Import Svm.
From S2P Require Import Execution.
From S2P Require Import Staging.
From S2P Require Import Wallet.
From S2P Require Import Token.

Section TokenFacts.
Context {tgt : Target} {ids : SdkIds} {sv : SysvarRuntime} {pr : ProgramRuntime}
        {pc : ProgramCacheOps} {Lst : Lru ProgramEntryKey Entry}
        {Lhist : Lru Signature TransactionResult} {fs : FeatureSets} {bud : Budgets}
        {tx : TxRuntime} {lt : LookupTables} {sp : SystemProgram} {uc : UserCode} {wl : Wallet}
        {ti : TokenInterface}.

(** ** The builders of authorised instructions *)

(** What such a builder offers: whom it names, how the authority is chosen, and [send]. *)
Class AuthorizedBuilder (B : Type) : Type := {
  ab_payer : B -> Keypair;
  ab_owner : B -> option Address;
  ab_signers : B -> list Keypair;
  ab_token_program_id : B -> option Address;
  ab_set_owner : Keypair -> B -> B;
  ab_set_multisig : Address -> list Keypair -> B -> B;
  ab_send : B -> Helper unit
}.

Definition ab_authority {B} {ab : AuthorizedBuilder B} (b : B) : Address :=
  default (kp_pubkey (ab_payer b)) (ab_owner b).

(** [send] fails before it touches the VM, or signs and sends one instruction with the
    builder's authority and signers. *)
Class AuthorizedBuilderLaws (B : Type) {ab : AuthorizedBuilder B} : Prop := {
  ab_owner_set kp b :
    ab_payer (ab_set_owner kp b) = ab_payer b /\ ab_owner (ab_set_owner kp b) = Some (kp_pubkey kp) /\
    ab_signers (ab_set_owner kp b) = [kp];
  ab_multisig_set m l b :
    ab_payer (ab_set_multisig m l b) = ab_payer b /\ ab_owner (ab_set_multisig m l b) = Some m /\
    ab_signers (ab_set_multisig m l b) = l;
  ab_send_spec b s :
    (exists e, ab_send b s = Some (Err e, s, [])) \/
    exists op ix, authorized (default TOKEN_ID (ab_token_program_id b)) op (ab_authority b)
        (get_multisig_signers (ab_authority b) (map kp_pubkey (ab_signers b))) = Ok ix /\
      ab_send b s = sign_and_send (ab_payer b) (ab_signers b) ix s
}.

Lemma from_program_send r payer signers s :
  (exists e, hbind (from_program r) (sign_and_send payer signers) s = Some (Err e, s, [])) \/
  exists ix, r = Ok ix /\
    hbind (from_program r) (sign_and_send payer signers) s = sign_and_send payer signers ix s.
Proof.
  unfold hbind, from_program, hret. destruct r as [ix|e]; cbn; [right|left; by eexists].
  exists ix. split; [done|]. by destruct (sign_and_send payer signers ix s) as [[[r s'] ev]|].
Qed.

Lemma load_mint_send {A} mint (f : Mint -> Helper A) s :
  (exists e, hbind (load_mint mint) f s = Some (Err e, s, [])) \/
  exists m, get_spl_account Mint s.1 mint = Ok m /\ hbind (load_mint mint) f s = f m s.
Proof.
  unfold hbind, load_mint, hret. destruct (get_spl_account Mint s.1 mint) as [m|e]; cbn; [right|left; by eexists].
  exists m. split; [done|]. by destruct (f m s) as [[[r s'] ev]|].
Qed.

(** The laws of a builder from the body of its [send]. *)
Tactic Notation "solve_builder" reference(inst) reference(send) :=
  constructor; [done|done|]; intros b s; unfold ab_authority, inst;
  cbn [ab_send ab_payer ab_owner ab_signers ab_token_program_id]; unfold send; cbv zeta;
  try match goal with |- context [hbind (load_mint ?m) ?f s] =>
    destruct (load_mint_send m f s) as [[e ->]|(mi & _ & ->)]; [by left; exists e|cbv beta zeta] end;
  match goal with |- context [hbind (from_program ?r) (sign_and_send ?p ?k) s] =>
    destruct (from_program_send r p k s) as [[e ->]|(ix & H & ->)];
    [by left; exists e|right; by eexists _, ix] end.

#[export] Instance transfer_builder : AuthorizedBuilder Transfer := {|
  ab_payer := tr_payer; ab_owner := tr_owner; ab_signers := tr_signers;
  ab_token_program_id := tr_token_program_id; ab_set_owner := transfer_owner;
  ab_set_multisig := transfer_multisig; ab_send := transfer_send
|}.
#[export] Instance transfer_builder_laws : AuthorizedBuilderLaws Transfer.
Proof. solve_builder transfer_builder transfer_send. Qed.

#[export] Instance transfer_checked_builder : AuthorizedBuilder TransferChecked := {|
  ab_payer := trc_payer; ab_owner := trc_owner; ab_signers := trc_signers;
  ab_token_program_id := trc_token_program_id; ab_set_owner := transfer_checked_owner;
  ab_set_multisig := transfer_checked_multisig; ab_send := transfer_checked_send
|}.
#[export] Instance transfer_checked_builder_laws : AuthorizedBuilderLaws TransferChecked.
Proof. solve_builder transfer_checked_builder transfer_checked_send. Qed.

#[export] Instance approve_builder : AuthorizedBuilder Approve := {|
  ab_payer := ap_payer; ab_owner := ap_owner; ab_signers := ap_signers;
  ab_token_program_id := ap_token_program_id; ab_set_owner := approve_owner;
  ab_set_multisig := approve_multisig; ab_send := approve_send
|}.
#[export] Instance approve_builder_laws : AuthorizedBuilderLaws Approve.
Proof. solve_builder approve_builder approve_send. Qed.

#[export] Instance approve_checked_builder : AuthorizedBuilder ApproveChecked := {|
  ab_payer := apc_payer; ab_owner := apc_owner; ab_signers := apc_signers;
  ab_token_program_id := apc_token_program_id; ab_set_owner := approve_checked_owner;
  ab_set_multisig := approve_checked_multisig; ab_send := approve_checked_send
|}.
#[export] Instance approve_checked_builder_laws : AuthorizedBuilderLaws ApproveChecked.
Proof. solve_builder approve_checked_builder approve_checked_send. Qed.

#[export] Instance burn_builder : AuthorizedBuilder Burn := {|
  ab_payer := bu_payer; ab_owner := bu_owner; ab_signers := bu_signers;
  ab_token_program_id := bu_token_program_id; ab_set_owner := burn_owner;
  ab_set_multisig := burn_multisig; ab_send := burn_send
|}.
#[export] Instance burn_builder_laws : AuthorizedBuilderLaws Burn.
Proof. solve_builder burn_builder burn_send. Qed.

#[export] Instance burn_checked_builder : AuthorizedBuilder BurnChecked := {|
  ab_payer := buc_payer; ab_owner := buc_owner; ab_signers := buc_signers;
  ab_token_program_id := buc_token_program_id; ab_set_owner := burn_checked_owner;
  ab_set_multisig := burn_checked_multisig; ab_send := burn_checked_send
|}.
#[export] Instance burn_checked_builder_laws : AuthorizedBuilderLaws BurnChecked.
Proof. solve_builder burn_checked_builder burn_checked_send. Qed.

#[export] Instance close_account_builder : AuthorizedBuilder CloseAccount := {|
  ab_payer := ca_payer; ab_owner := ca_owner; ab_signers := ca_signers;
  ab_token_program_id := ca_token_program_id; ab_set_owner := close_account_owner;
  ab_set_multisig := close_account_multisig; ab_send := close_account_send
|}.
#[export] Instance close_account_builder_laws : AuthorizedBuilderLaws CloseAccount.
Proof. solve_builder close_account_builder close_account_send. Qed.

#[export] Instance freeze_account_builder : AuthorizedBuilder FreezeAccount := {|
  ab_payer := fa_payer; ab_owner := fa_owner; ab_signers := fa_signers;
  ab_token_program_id := fa_token_program_id; ab_set_owner := freeze_account_owner;
  ab_set_multisig := freeze_account_multisig; ab_send := freeze_account_send
|}.
#[export] Instance freeze_account_builder_laws : AuthorizedBuilderLaws FreezeAccount.
Proof. solve_builder freeze_account_builder freeze_account_send. Qed.

#[export] Instance thaw_account_builder : AuthorizedBuilder ThawAccount := {|
  ab_payer := ta_payer; ab_owner := ta_owner; ab_signers := ta_signers;
  ab_token_program_id := ta_token_program_id; ab_set_owner := thaw_account_owner;
  ab_set_multisig := thaw_account_multisig; ab_send := thaw_account_send
|}.
#[export] Instance thaw_account_builder_laws : AuthorizedBuilderLaws ThawAccount.
Proof. solve_builder thaw_account_builder thaw_account_send. Qed.

#[export] Instance mint_to_builder : AuthorizedBuilder MintTo := {|
  ab_payer := mt_payer; ab_owner := mt_owner; ab_signers := mt_signers;
  ab_token_program_id := mt_token_program_id; ab_set_owner := mint_to_owner;
  ab_set_multisig := mint_to_multisig; ab_send := mint_to_send
|}.
#[export] Instance mint_to_builder_laws : AuthorizedBuilderLaws MintTo.
Proof. solve_builder mint_to_builder mint_to_send. Qed.

#[export] Instance mint_to_checked_builder : AuthorizedBuilder MintToChecked := {|
  ab_payer := mtc_payer; ab_owner := mtc_owner; ab_signers := mtc_signers;
  ab_token_program_id := mtc_token_program_id; ab_set_owner := mint_to_checked_owner;
  ab_set_multisig := mint_to_checked_multisig; ab_send := mint_to_checked_send
|}.
#[export] Instance mint_to_checked_builder_laws : AuthorizedBuilderLaws MintToChecked.
Proof. solve_builder mint_to_checked_builder mint_to_checked_send. Qed.

#[export] Instance revoke_builder : AuthorizedBuilder Revoke := {|
  ab_payer := rv_payer; ab_owner := rv_owner; ab_signers := rv_signers;
  ab_token_program_id := rv_token_program_id; ab_set_owner := revoke_owner;
  ab_set_multisig := revoke_multisig; ab_send := revoke_send
|}.
#[export] Instance revoke_builder_laws : AuthorizedBuilderLaws Revoke.
Proof. solve_builder revoke_builder revoke_send. Qed.

#[export] Instance set_authority_builder : AuthorizedBuilder SetAuthority := {|
  ab_payer := sa_payer; ab_owner := sa_owner; ab_signers := sa_signers;
  ab_token_program_id := sa_token_program_id; ab_set_owner := set_authority_owner;
  ab_set_multisig := set_authority_multisig; ab_send := set_authority_send
|}.
#[export] Instance set_authority_builder_laws : AuthorizedBuilderLaws SetAuthority.
Proof. solve_builder set_authority_builder set_authority_send. Qed.

(** ** Signing *)

(** How a caller chooses the authority. *)
Inductive AuthorityCall : Type :=
| CallOwner (owner : Keypair)
| CallMultisig (multisig : Address) (signers : list Keypair).

Definition apply_call {B} {ab : AuthorizedBuilder B} (b : B) (c : AuthorityCall) : B :=
  match c with
  | CallOwner kp => ab_set_owner kp b
  | CallMultisig m l => ab_set_multisig m l b
  end.

(** A multisig that was chosen last, without signers. *)
Definition unsigned_multisig (calls : list AuthorityCall) (m : Address) : Prop :=
  last calls = Some (CallMultisig m []).

(** The last call decides. *)
Lemma calls_authority {B} {ab : AuthorizedBuilder B} {abl : AuthorizedBuilderLaws B} (b : B) calls :
  let b' := foldl apply_call b calls in
  ab_payer b' = ab_payer b /\
  match last calls with
  | None => b' = b
  | Some (CallOwner kp) => ab_owner b' = Some (kp_pubkey kp) /\ ab_signers b' = [kp]
  | Some (CallMultisig m l) => ab_owner b' = Some m /\ ab_signers b' = l
  end.
Proof.
  induction calls as [|c calls IH] using rev_ind; [done|]. cbv zeta in *. rewrite foldl_app, last_snoc. cbn.
  destruct IH as [<- _]. destruct c as [kp|m l]; cbn.
  - destruct (ab_owner_set kp (foldl apply_call b calls)) as (-> & -> & ->). done.
  - destruct (ab_multisig_set m l (foldl apply_call b calls)) as (-> & -> & ->). done.
Qed.

(** The keys an instruction is built for are those that sign it. *)
Lemma multisig_keys authority (signers : list Keypair) a :
  signers <> [] ->
  a ∈ instruction_keys authority (get_multisig_signers authority (map kp_pubkey signers)) <->
  exists k, k ∈ signers /\ kp_pubkey k = a.
Proof.
  intros Hne. transitivity (a ∈ map kp_pubkey signers).
  - unfold instruction_keys, get_multisig_signers. case_bool_decide as E; [by rewrite E|].
    destruct signers as [|k l]; [done|]. done.
  - split; [intros (k & -> & Hk)%list_elem_of_fmap; by exists k|intros (k & Hk & <-)].
    apply list_elem_of_fmap. by exists k.
Qed.

Section Laws.
Context {wll : WalletLaws} {til : TokenLaws}.

(** What is signed when the given keys are among those the instruction needs. *)
Lemma sign_and_send_exact payer signers ix s :
  (forall k, k ∈ signers -> instruction_signer ix (kp_pubkey k)) ->
  exists t, sign_and_send payer signers ix s = send_versioned (into_versioned t) s /\
    (forall a, a ∈ required_signers t <-> a = kp_pubkey payer \/ instruction_signer ix a) /\
    forall a, signed_by (latest_blockhash (block_env s.1)) t a <->
      a = kp_pubkey payer \/ exists k, k ∈ signers /\ kp_pubkey k = a.
Proof.
  intros Hix. set (h := latest_blockhash (block_env s.1)). set (t0 := new_with_payer [ix] (kp_pubkey payer)).
  assert (Hr : forall a, a ∈ required_signers t0 <-> a = kp_pubkey payer \/ instruction_signer ix a).
  { intros a. unfold t0. rewrite new_with_payer_signers. split.
    - intros [H|(ix' & Hin & H)]; [by left|]. apply list_elem_of_singleton in Hin as ->. by right.
    - intros [H|H]; [by left|]. right. exists ix. split; [by apply list_elem_of_singleton|done]. }
  destruct (partial_sign_ok [payer] h t0) as (t1 & H1 & R1 & S1).
  { intros k Hk. apply list_elem_of_singleton in Hk as ->. apply Hr. by left. }
  destruct (partial_sign_ok signers h t1) as (t2 & H2 & R2 & S2).
  { intros k Hk. rewrite R1. apply Hr. right. by apply Hix. }
  exists t2. split. { unfold sign_and_send. fold h t0. by rewrite H1, H2. }
  split; intros a; [by rewrite R2, R1, Hr|]. rewrite S2, S1. unfold t0. split.
  - intros [[H|(k & ->%list_elem_of_singleton & <-)]|H]; [by apply new_with_payer_unsigned in H|by left|by right].
  - intros [-> | H]; [left; right|by right]. exists payer. split; [by apply list_elem_of_singleton|done].
Qed.

(** C31: Every builder of an authorised token instruction signs completely, unless a
    multisig was chosen without signers.  From a new builder, whatever sequence of
    [owner] and [multisig] calls chose the authority, [send] fails before the VM is
    touched or hands the VM a transaction, signed under the latest blockhash without a
    panic, in which a required signer has not signed exactly when it is a multisig that
    was chosen last, with an empty list of signers, and is not the payer: the
    instruction then needs the signature of the multisig account itself, which nothing
    provides, and is sent all the same. *)
Theorem token_builders_sign_completely {B} {ab : AuthorizedBuilder B} {abl : AuthorizedBuilderLaws B}
    (b : B) calls s :
  ab_owner b = None -> ab_signers b = [ab_payer b] ->
  let b' := foldl apply_call b calls in
  (exists e, ab_send b' s = Some (Err e, s, [])) \/
  exists t, ab_send b' s = send_versioned (into_versioned t) s /\
    (forall m, unsigned_multisig calls m -> m ∈ required_signers t) /\
    forall a, a ∈ required_signers t ->
      signed_by (latest_blockhash (block_env s.1)) t a <->
      ~ (unsigned_multisig calls a /\ a <> kp_pubkey (ab_payer b)).
Proof.
  intros Ho Hs b'. destruct (ab_send_spec b' s) as [H|(op & ix & Hix & ->)]; [by left|right].
  destruct (calls_authority b calls) as [Hp Hc]. fold b' in Hp, Hc.
  pose proof (fun a => authorized_signers _ _ _ _ _ a Hix) as Hkeys.
  destruct (decide (ab_signers b' = [])) as [Hnil|Hne].
  - assert (exists m, last calls = Some (CallMultisig m []) /\ ab_authority b' = m) as (m & Hl & Ha).
    { destruct (last calls) as [[kp|m l]|].
      - destruct Hc as [_ Hc]. congruence.
      - destruct Hc as [Hm Hc]. rewrite Hnil in Hc. subst l. exists m. split; [done|].
        unfold ab_authority. by rewrite Hm.
      - rewrite Hc, Hs in Hnil. done. }
    rewrite Hnil, Ha in *. destruct (sign_and_send_exact (ab_payer b') [] ix s) as (t & Hsend & Hr & Hb).
    { intros k Hk. by apply not_elem_of_nil in Hk. }
    assert (Hm : forall a, instruction_signer ix a <-> a = m).
    { intros a. rewrite Hkeys. apply list_elem_of_singleton. }
    unfold unsigned_multisig. rewrite Hl. exists t. split; [done|]. split.
    + intros m' [= <-]. apply Hr. right. by apply Hm.
    + intros a. rewrite Hr, Hb, Hm, Hp. intros Hreq. split.
      * intros [-> | (k & Hk & _)]; [by intros [_ ?]|by apply not_elem_of_nil in Hk].
      * intros Hn. destruct Hreq as [->| ->]; [by left|]. left.
        destruct (decide (m = kp_pubkey (ab_payer b))); [done|]. by destruct Hn.
  - assert (Hsig : forall a, instruction_signer ix a <-> exists k, k ∈ ab_signers b' /\ kp_pubkey k = a).
    { intros a. rewrite Hkeys. by apply multisig_keys. }
    destruct (sign_and_send_exact (ab_payer b') (ab_signers b') ix s) as (t & Hsend & Hr & Hb).
    { intros k Hk. apply Hsig. by exists k. }
    assert (Hno : forall m, ~ unsigned_multisig calls m).
    { unfold unsigned_multisig. intros m Hl. rewrite Hl in Hc. by destruct Hc. }
    exists t. split; [done|]. split; [intros m Hm; by destruct (Hno m)|].
    intros a. rewrite Hr, Hb, Hsig. intros Hreq. split; [by intros _ [Hm%Hno _]|done].
Qed.

End Laws.

(** ** Freezing and thawing *)

Definition freeze_step (b b' : FreezeAccount) : Prop :=
  (exists kp, b' = freeze_account_owner kp b) \/ (exists m l, b' = freeze_account_multisig m l b) \/
  (exists p, b' = freeze_account_token_program_id p b).
Definition thaw_step (b b' : ThawAccount) : Prop :=
  (exists kp, b' = thaw_account_owner kp b) \/ (exists m l, b' = thaw_account_multisig m l b) \/
  (exists p, b' = thaw_account_token_program_id p b).

Lemma freeze_reach payer mint b :
  rtc freeze_step (freeze_account_new payer mint) b -> fa_account b = None /\ fa_mint b = mint.
Proof.
  intros H. apply (rtc_ind_r (fun b => fa_account b = None /\ fa_mint b = mint)) in H; [done|done|].
  clear. intros y z _ [[kp ->]|[(m & l & ->)|[p ->]]]; exact id.
Qed.
Lemma thaw_reach payer mint b :
  rtc thaw_step (thaw_account_new payer mint) b -> ta_account b = None /\ ta_mint b = mint.
Proof.
  intros H. apply (rtc_ind_r (fun b => ta_account b = None /\ ta_mint b = mint)) in H; [done|done|].
  clear. intros y z _ [[kp ->]|[(m & l & ->)|[p ->]]]; exact id.
Qed.

(** What can be frozen and thawed.  However a [FreezeAccount] (or a [ThawAccount]) is
    built, what it asks the token program to freeze (or thaw) is the associated token
    account of its own authority: no setter reaches the [account] field, so the holder
    of a freeze authority cannot freeze another holder's account with it. *)
Theorem freeze_reaches_own_account payer mint s :
  (forall b, rtc freeze_step (freeze_account_new payer mint) b ->
    let program := default TOKEN_ID (fa_token_program_id b) in
    let authority := ab_authority b in
    freeze_account_send b s =
    hbind (from_program (authorized program
             (OpFreezeAccount (get_associated_token_address authority mint program) mint) authority
             (get_multisig_signers authority (map kp_pubkey (fa_signers b)))))
      (sign_and_send (fa_payer b) (fa_signers b)) s) /\
  (forall b, rtc thaw_step (thaw_account_new payer mint) b ->
    let program := default TOKEN_ID (ta_token_program_id b) in
    let authority := ab_authority b in
    thaw_account_send b s =
    hbind (from_program (authorized program
             (OpThawAccount (get_associated_token_address authority mint program) mint) authority
             (get_multisig_signers authority (map kp_pubkey (ta_signers b)))))
      (sign_and_send (ta_payer b) (ta_signers b)) s).
Proof.
  split; intros b H.
  - apply freeze_reach in H as [Ha Hm]. unfold freeze_account_send. by rewrite Ha, Hm.
  - apply thaw_reach in H as [Ha Hm]. unfold thaw_account_send. by rewrite Ha, Hm.
Qed.

(** ** Checked instructions *)

(** A checked builder reads the mint even when the decimals were given: without a
    readable mint nothing is sent. *)
Theorem checked_transfer_needs_mint b e s :
  get_spl_account Mint s.1 (trc_mint b) = Err e ->
  transfer_checked_send b s = Some (Err (failed_from_token_error e), s, []).
Proof. intros H. unfold transfer_checked_send, hbind, load_mint, hret. by rewrite H. Qed.

(** ** The factories *)

Local Notation db v := (accounts (state v)).

Section Factories.
Context {A : Type} {pk : Pack A} {pkl : PackLaws A}.

Lemma packed_account_some (a : A) program :
  exists data, packed_account a program =
      Some (mkAccount (rent_minimum_balance rent_default (Z.of_nat (pack_LEN A))) data program false 0) /\
    length data = pack_LEN A /\ (pack_initialized a = true -> unpack data = Ok a).
Proof.
  unfold packed_account. destruct (pack_unpack a (repeat x00 (pack_LEN A))) as (data & -> & H); [apply repeat_length|].
  by exists data.
Qed.

(** The factories and the reader agree.  The factory of an initialised state always
    makes an account; once that account is set at an address that is neither a sysvar
    nor a loaded program, the write succeeds and [get_spl_account] reads the very state
    back, and every other address reads as before. *)
Theorem factory_reads_back (a : A) program address s :
  pack_initialized a = true ->
  (0 < rent_minimum_balance rent_default (Z.of_nat (pack_LEN A)))%Z ->
  is_managed_sysvar_account address = false -> had_program address (db s.1) = false ->
  exists acc s', packed_account a program = Some acc /\
    set_keyed_account (address, acc) s = (Ok tt, s') /\
    get_spl_account A s'.1 address = Ok a /\
    forall k, k <> address -> get_account (db s'.1) k = get_account (db s.1) k.
Proof.
  intros Hinit Hrent Hsys Hprog. destruct (packed_account_some a program) as (data & Ha & Hlen & Hun).
  set (acc := mkAccount _ data program false 0) in Ha. exists acc.
  assert (Hl : (lamports acc =? 0)%Z = false) by (apply Z.eqb_neq; cbn; lia).
  set (s0 := (svm_sync_jit_policy s.1, s.2)).
  assert (Hd : cache (db s0.1) = cache (db s.1) /\ source (db s0.1) = source (db s.1)).
  { unfold s0, svm_sync_jit_policy. cbn [fst]. by case_bool_decide. }
  destruct Hd as [Hdc Hds].
  assert (Hok : (add_account address acc (db_of s0)).1 = Ok tt).
  { unfold add_account, sbind, add_account_prepare. rewrite Hsys, Hl. cbn [andb negb].
    unfold is_cached_program_account at 1. cbn [executable acc andb].
    fold (had_program address (db_of s0).1).
    assert (had_program address (db_of s0).1 = false) as ->; [|done].
    rewrite <- Hprog. unfold had_program. change (db_of s0).1 with (db s0.1). by rewrite Hdc. }
  pose proof (add_account_reads_ok address acc (db_of s0)) as Hread.
  unfold set_keyed_account, set_account, sbind, smodify. cbn [fst snd]. fold s0.
  unfold on_db. destruct (add_account address acc (db_of s0)) as [r d]. cbn [fst snd] in *. subst r.
  eexists. split; [exact Ha|]. split; [reflexivity|].
  specialize (fun j => Hread j eq_refl). cbn [fst].
  split.
  - unfold get_spl_account, get_account. change (accounts (state (sync_block_env_slot _))) with d.1.
    rewrite Hread, decide_True by done. unfold OverlayReads.written. rewrite Hl. cbn.
    rewrite Hlen, Nat.leb_refl. cbn. rewrite take_ge by lia. by rewrite Hun.
  - intros k Hk. unfold get_account. change (db (sync_block_env_slot _)) with d.1.
    rewrite Hread, decide_False by done. change (db_of s0).1 with (db s0.1).
    by rewrite (try_get_ext (db s.1) (db s0.1) k Hdc Hds).
Qed.

End Factories.

End TokenFacts.
