(* ===== verification/DeployModel.v ===== *)
(** * A concrete deployment runtime

    An executable instance of [DeployRuntime] over [RuntimeModel] and [TxModel]:
    32-byte little-endian loader states, environments that are numbers, a
    registration function that refuses one syscall, and embedded programs of two
    bytes.  It satisfies [DeployLaws]. *)

From Stdlib Require Import ZArith Lia Strings.Byte.
From stdpp Require Import base tactics option list sets gmap strings.
From S2P Require Import Prelude.
From S2P Require Import Types.
From S2P Require Import Lru.
From S2P Require Import History.
From S2P Require Import Runtime.
From S2P Require Import AccountsDb.
From S2P Require Import RuntimeModel.
From S2P Require Import Version.
From S2P Require Import TxRuntime.
From S2P Require Import Svm.
From S2P Require Import TxModel.
From S2P Require Import VmPrograms.

#[export] Instance model_deploy : DeployRuntime := {|
  config_program_id := Addr 18;
  stake_program_id := Addr 19;
  find_program_address k _ := Addr ((address_num k + 128) mod 2 ^ 256);
  get_program_data_address k := Addr ((address_num k + 128) mod 2 ^ 256);
  encode_program k := x02 :: le_encode 32 (address_num k);
  encode_programdata _ _ := [x03];
  size_of_program := 36%nat;
  program_load_message _ _ _ := "invalid account data for instruction"%string;
  create_program_runtime_environment _ _ := Ok 1%Z;
  loader_of_environment env := Ok env;
  register_function f _ env :=
    if (f =? 9)%positive then Err "symbol hash collision"%string else Ok (env + Zpos f)%Z;
  runtime_envs_new env _ := env;
  fs_active s := map (fun k => (k, 0%Z)) (elements s);
  fs_eqb s1 s2 := bool_decide (s1 = s2);
  feature_size := 9%nat;
  feature_account _ l := mkAccount l [x01] (Addr 6) false 0;
  precompile_program_ids _ := [Addr 30];
  precompile_enabled _ _ _ := true;
  include_bytes file := mkByteSlice (Pos.of_succ_nat (String.length file)) [x7f; x02]
|}.

#[export] Instance model_deploy_laws : DeployLaws.
Proof.
  constructor.
  - intros seed program. unfold valid_address. simpl. apply N.mod_lt. discriminate.
  - intros [k] rest Hk.
    change (Some (LoaderProgram (Addr (le_decode 32 (le_encode 32 k ++ rest)))) =
            Some (LoaderProgram (Addr k))).
    by rewrite le_decode_encode.
  - intros k. cbn. lia.
  - intros slot auth. cbn. lia.
Qed.

(** The model's digest has no collisions: it writes the bytes as digits 1 to 256 in
    base 257. *)
Lemma model_hash_snoc l b :
  hash_num (model_hash (l ++ [b])) = (hash_num (model_hash l) * 257 + to_N b + 1)%N.
Proof. unfold model_hash. simpl. by rewrite foldl_app. Qed.

Lemma model_hash_injective l1 l2 : model_hash l1 = model_hash l2 -> l1 = l2.
Proof.
  revert l2. induction l1 as [|b1 l1 IH] using rev_ind; intros l2 H;
    destruct l2 as [|b2 l2 _] using rev_ind; [done|..];
    apply (f_equal hash_num) in H; rewrite ?model_hash_snoc in H.
  - cbn in H. lia.
  - cbn in H. lia.
  - pose proof (to_N_bounded b1). pose proof (to_N_bounded b2).
    assert (hash_num (model_hash l1) = hash_num (model_hash l2) /\ to_N b1 = to_N b2) as [Hl Hb] by lia.
    rewrite (IH l2) by (by destruct (model_hash l1), (model_hash l2); simpl in *; subst).
    apply (f_equal of_N) in Hb. rewrite !of_to_N in Hb. by simplify_eq.
Qed.

(** Two small programs, one of which is not an ELF. *)
Definition good_program : ByteSlice := mkByteSlice 77 [x7f; x05; x06].
Definition bad_program : ByteSlice := mkByteSlice 78 [x00; x05].

(** An entry point, a syscall the loader accepts and one it refuses. *)
Definition entry_fn : BuiltinFn := 7%positive.
Definition probe_syscall : BuiltinFn := 3%positive.
Definition refused_syscall : BuiltinFn := 9%positive.
