(* ===== verification/VmModel.v ===== *)
(** * A concrete SDK for the harnesses

    An executable instance of [VmRuntime] over the runtimes of the other model
    files: a little-endian clock, short encodings of the other sysvars, and messages
    whose keys are the payer, the accounts and the programs of the instructions.  It
    satisfies [VmLaws]. *)

From Stdlib Require Import ZArith Lia Strings.Byte.
From stdpp Require Import base tactics option list sets gmap strings.
From S2P Require Import Prelude.
From S2P Require Import Types.
From S2P Require Import Runtime.
From S2P Require Import AccountsDb.
From S2P Require Import RuntimeModel.
From S2P Require Import Version.
From S2P Require Import TxRuntime.
From S2P Require Import Svm.
From S2P Require Import TxModel.
From S2P Require Import VmPrograms.
From S2P Require Import DeployModel.
From S2P Require Import VmOps.
From S2P Require Import VmOpsFacts.

Definition encode_u64 (z : Z) : list byte := le_encode 8 (Z.to_N (z mod 2 ^ 64)).

Definition model_encode_clock (c : Clock) : list byte :=
  encode_u64 (clock_slot c) ++ encode_u64 (clock_epoch_start_timestamp c) ++
  encode_u64 (clock_epoch c) ++ encode_u64 (clock_leader_schedule_epoch c) ++
  encode_u64 (clock_unix_timestamp c).

Definition model_encode_hash (h : Hash) : list byte := le_encode 32 (hash_num h).

(** The account keys of a message, without duplicates. *)
Definition model_message_keys (instructions : list Instruction) (payer : Address) : list Address :=
  remove_dups (payer :: concat (map (fun ix => map meta_pubkey (ix_accounts ix)) instructions) ++
               map ix_program_id instructions).

Definition model_index (keys : list Address) (k : Address) : Z :=
  match list_find (fun x => x = k) keys with Some (i, _) => Z.of_nat i | None => 0 end.

Definition model_message (instructions : list Instruction) (payer : Address) (h : Hash) : model_tx :=
  let keys := model_message_keys instructions payer in
  mkModelTx Signature_default keys (length keys)
    (map (fun ix => mkCompiledInstruction (model_index keys (ix_program_id ix))
                      (map (fun m => model_index keys (meta_pubkey m)) (ix_accounts ix)) (ix_data ix))
       instructions) h.

#[export] Instance model_vm_runtime : VmRuntime := {|
  SLOT_HISTORY_ID := Addr 22;
  recent_blockhashes_SIZE := 48%nat;
  slot_hashes_SIZE := 48%nat;
  slot_history_SIZE := 16%nat;
  encode_clock := model_encode_clock;
  encode_rent r := le_encode 1 (Z.to_N r);
  rent_without_threshold := 2%Z;
  encode_slot_hashes l := x01 :: concat (map (fun p => encode_u64 p.1 ++ model_encode_hash p.2) l);
  encode_recent_blockhashes l := x01 :: concat (map (fun p => model_encode_hash p.1 ++ encode_u64 p.2) l);
  epoch_rewards_default := [x01];
  epoch_schedule_default := [x01];
  fees_default := [x01];
  fees_default_lamports_per_signature := 0%Z;
  last_restart_slot_default := [x01];
  slot_history_default := [x01];
  stake_history_default := [x01];
  serialization_message _ _ := "size limit has been reached"%string;
  hash_to_bytes := model_encode_hash;
  unsigned_legacy := model_message;
  airdrop_transaction from to amount h :=
    mkModelTx (Sig (Z.to_N amount)) [from; to; Addr 40] 2
      [mkCompiledInstruction 2 [0; 1]%Z (encode_u64 amount)] h
|}.

Lemma le_encode_length len n : length (le_encode len n) = len.
Proof. revert n. induction len as [|len IH]; intros n; simpl; [done|by rewrite IH]. Qed.

Lemma encode_u64_length z : length (encode_u64 z) = 8%nat.
Proof. apply le_encode_length. Qed.

(** A field that follows [pre] is read back. *)
Lemma model_u64_at_app pre z rest :
  model_u64_at (length pre) (pre ++ encode_u64 z ++ rest) = (z mod 2 ^ 64)%Z.
Proof.
  unfold model_u64_at, encode_u64. rewrite drop_app_length.
  pose proof (Z.mod_pos_bound z (2 ^ 64) ltac:(lia)).
  rewrite le_decode_encode; [by rewrite Z2N.id by lia|].
  change (256 ^ N.of_nat 8)%N with (Z.to_N (2 ^ 64)). lia.
Qed.

Lemma model_i64_at_app pre z rest :
  in_i64 z -> model_i64_at (length pre) (pre ++ encode_u64 z ++ rest) = z.
Proof.
  unfold in_i64, model_i64_at. rewrite model_u64_at_app. cbv zeta. intros Hz.
  destruct (Z_lt_le_dec z 0) as [Hn|Hp].
  - rewrite <- (Z.mod_unique_pos z (2 ^ 64) (-1) (z + 2 ^ 64)) by lia.
    destruct (Z.ltb_spec (z + 2 ^ 64) (2 ^ 63)); lia.
  - rewrite Z.mod_small by lia. destruct (Z.ltb_spec z (2 ^ 63)); lia.
Qed.

Lemma model_clock_decodes c n :
  valid_clock c -> model_clock (model_encode_clock c ++ zeros n) = Some c.
Proof.
  intros (H1 & H2 & H3 & H4 & H5). unfold in_u64, u64_max in *.
  destruct c as [slot start epoch leader unix]. cbn in H1, H2, H3, H4, H5.
  assert (forall z, (0 <= z < 2 ^ 64)%Z -> (z mod 2 ^ 64)%Z = z) as Hm by (intros; by apply Z.mod_small).
  set (e1 := encode_u64 slot). set (e2 := encode_u64 start). set (e3 := encode_u64 epoch).
  set (e4 := encode_u64 leader). set (e5 := encode_u64 unix).
  assert (Hne : model_encode_clock (mkClock slot start epoch leader unix) ++ zeros n =
                e1 ++ e2 ++ e3 ++ e4 ++ e5 ++ zeros n).
  { unfold model_encode_clock. cbn [clock_slot clock_epoch_start_timestamp clock_epoch
      clock_leader_schedule_epoch clock_unix_timestamp]. by rewrite <- !app_assoc. }
  rewrite Hne. unfold model_clock.
  destruct (e1 ++ e2 ++ e3 ++ e4 ++ e5 ++ zeros n) as [|b l] eqn:He.
  { pose proof (encode_u64_length slot) as Hl. fold e1 in Hl. apply app_eq_nil in He as [He _].
    rewrite He in Hl. discriminate Hl. }
  rewrite <- He. f_equal. f_equal.
  - etrans; [exact (model_u64_at_app [] slot (e2 ++ e3 ++ e4 ++ e5 ++ zeros n))|apply Hm; lia].
  - exact (model_i64_at_app e1 start (e3 ++ e4 ++ e5 ++ zeros n) H2).
  - rewrite (app_assoc e1 e2).
    etrans; [exact (model_u64_at_app (e1 ++ e2) epoch (e4 ++ e5 ++ zeros n))|apply Hm; lia].
  - rewrite (app_assoc e1 e2), (app_assoc (e1 ++ e2) e3).
    etrans; [exact (model_u64_at_app ((e1 ++ e2) ++ e3) leader (e5 ++ zeros n))|apply Hm; lia].
  - rewrite (app_assoc e1 e2), (app_assoc (e1 ++ e2) e3), (app_assoc ((e1 ++ e2) ++ e3) e4).
    exact (model_i64_at_app (((e1 ++ e2) ++ e3) ++ e4) unix (zeros n) H5).
Qed.

#[export] Instance model_vm_laws : VmLaws.
Proof.
  constructor; try (intros; cbn; rewrite ?length_app, ?le_encode_length; cbn; done || lia).
  - exact model_clock_decodes.
  - apply (bool_decide_unpack _). vm_compute. exact I.
Qed.
