(* ===== verification/FixtureModel.v ===== *)
(** * A concrete codec and command line

    Executable instances of the fixture interfaces: codecs over a table of known
    fixtures and transactions, and a command line whose files are a small disk.  They
    satisfy [CodecLaws] and [CliLaws]. *)

From Stdlib Require Import ZArith Lia Strings.Byte Strings.Ascii Strings.String.
From stdpp Require Import base tactics option list sets gmap strings pretty.
From S2P Require Import Prelude.
From S2P Require Import Types.
From S2P Require Import Runtime.
From S2P Require Import AccountsDb.
From S2P Require Import RuntimeModel.
From S2P Require Import Version.
From S2P Require Import TxRuntime.
From S2P Require Import Svm.
From S2P Require Import Execution.
From S2P Require Import Staging.
From S2P Require Import TxModel.
From S2P Require Import VmPrograms.
From S2P Require Import DeployModel.
From S2P Require Import VmOps.
From S2P Require Import VmModel.
From S2P Require Import Fixture.
From S2P Require Import FixtureRun.
From S2P Require Import FixtureRunFacts.
From S2P Require Import Cli.
From S2P Require Import CliFacts.

#[export] Instance model_tx_eq_dec : EqDecision model_tx.
Proof. solve_decision. Defined.

(** A table codec: the [i]-th entry is written as a letter. *)
Definition letter (i : nat) : ascii := ascii_of_nat (65 + i).

Fixpoint table_encode {A} `{EqDecision A} (i : nat) (table : list A) (x : A) : result string string :=
  match table with
  | [] => Err "unknown value"%string
  | y :: rest =>
      if decide (x = y) then Ok (String (letter i) EmptyString) else table_encode (S i) rest x
  end.

Fixpoint table_decode {A} (i : nat) (table : list A) (text : string) : result A string :=
  match table with
  | [] => Err "unknown text"%string
  | y :: rest =>
      if String.eqb text (String (letter i) EmptyString) then Ok y else table_decode (S i) rest text
  end.

Lemma letter_inj i j : (i < 64)%nat -> (j < 64)%nat -> letter i = letter j -> i = j.
Proof.
  unfold letter. intros Hi Hj H. apply (f_equal nat_of_ascii) in H.
  rewrite !nat_ascii_embedding in H by lia. lia.
Qed.

Lemma table_roundtrip {A} `{EqDecision A} i (table : list A) x text :
  (i + length table <= 64)%nat -> table_encode i table x = Ok text -> table_decode i table text = Ok x.
Proof.
  assert (Hget : forall (t : list A) i text, table_encode i t x = Ok text ->
    exists j, (i <= j < i + length t)%nat /\ text = String (letter j) EmptyString).
  { intros t. induction t as [|y t IH]; intros n s H; simpl in H; [done|]. case_decide.
    - injection H as <-. exists n. simpl. split; [lia|done].
    - apply IH in H as (j & Hj & ->). exists j. simpl. split; [lia|done]. }
  revert i. induction table as [|y table IH]; intros i Hl H; [done|]. simpl in *. case_decide as Hx.
  - injection H as <-. by rewrite String.eqb_refl; subst.
  - destruct (Hget _ _ _ H) as (j & Hj & ->).
    destruct (String.eqb_spec (String (letter j) "") (String (letter i) "")) as [He|_].
    + injection He as He. apply letter_inj in He; lia.
    + apply IH; [lia|done].
Qed.

(** The transactions that are known. *)
Definition known_transactions : list model_tx := [transfer 5 50 51 x09; transfer 6 51 50 x02].

Definition table_codec (known : list Fixture) : FixtureCodec := {|
  JsonValue := string;
  json_parse text := Ok text;
  json_get _ value := Some value;
  json_as_u64 value :=
    match table_decode 0 known value with
    | Ok f => Some (schema_version (fx_header f))
    | Err _ => None
    end;
  json_decode := table_decode 0 known;
  json_encode := table_encode 0 known;
  utf8_valid _ := true;
  wincode_decode bytes := table_decode 0 known (string_of_list_byte bytes);
  wincode_encode f :=
    match table_encode 0 known f with
    | Ok text => Ok (list_byte_of_string text)
    | Err e => Err e
    end;
  transaction_decode bytes := table_decode 0 known_transactions (string_of_list_byte bytes);
  transaction_encode t :=
    match table_encode 0 known_transactions t with
    | Ok text => Ok (list_byte_of_string text)
    | Err e => Err e
    end
|}.

Lemma table_codec_laws known : (length known <= 64)%nat -> @CodecLaws _ _ _ _ _ (table_codec known).
Proof.
  intros Hl. split; cbn -[table_encode table_decode known_transactions].
  - intros f text. apply table_roundtrip. lia.
  - done.
  - intros f text H. exists text. split; [done|]. unfold json_version.
    cbn -[table_encode table_decode].
    by rewrite (table_roundtrip 0 known f text Hl H).
  - intros f bytes. destruct (table_encode 0 known f) as [text|e] eqn:He; [|done]. intros [= <-].
    rewrite string_of_list_byte_of_string. apply table_roundtrip; [lia|done].
  - intros t bytes. destruct (table_encode 0 known_transactions t) as [text|e] eqn:He; [|done].
    intros [= <-]. rewrite string_of_list_byte_of_string. apply table_roundtrip; [simpl; lia|done].
Qed.

#[export] Instance model_fixture_display : FixtureDisplay := {|
  debug_transaction_error e :=
    match e with
    | InsufficientFundsForFee => "InsufficientFundsForFee"
    | SanitizeFailure => "SanitizeFailure"
    | _ => "TransactionError"
    end%string;
  render_transaction_error _ := "transaction error"%string;
  debug_compare c :=
    match c with
    | CompareStatus => "Status"
    | CompareComputeUnits => "ComputeUnits"
    | CompareFee => "Fee"
    | _ => "Accounts(All)"
    end%string;
  debug_check c :=
    match c with
    | CheckSuccess => "Success"
    | CheckFailure => "Failure"
    | _ => "Check"
    end%string
|}.

#[export] Instance model_cli : CliRuntime := {|
  parse_address text :=
    if String.eqb text "90" then Ok (Addr 90) else Err "Invalid base58"%string;
  base64_decode l := Ok l;
  hex_decode l := Ok l;
  json_compares _ := Ok [CompareStatus; CompareComputeUnits; CompareLogs];
  json_accounts _ := Ok [snapshot_from_readable (Addr 53) (wallet 1000000)];
  buffer_of _ := 77%positive;
  iteration := map_to_list
|}.

#[export] Instance model_cli_laws : CliLaws.
Proof. by constructor. Qed.

(** ** A recording *)

(** The VM the commands start from. *)
Definition cli_vm : VmSt := (svm_clone model_vm.1, model_vm.2).

Definition model_disk : Disk :=
  mkDisk {[path_of_string "tx.raw" := [x41]; path_of_string "accounts.json" := [x5b; x5d];
           path_of_string "p.so" := sl_bytes good_program]}
    (fun _ => None).

Definition model_request : RecordRequest :=
  mkRecordRequest (path_of_string "tx.raw") EncodingRaw (path_of_string "accounts.json")
    (path_of_string "out/case.json") None ["token"%string] (Some "cli"%string) ["90=p.so"%string]
    None (Some 8%Z) true None None false.

(** What the recording captures, found by running it with an empty table. *)
Definition recorded_fixture : option Fixture :=
  match (let? t := @load_transaction _ _ _ _ _ (table_codec []) _ model_request model_disk in
         let? accounts := load_accounts_file (rq_accounts model_request) model_disk in
         let? programs := parse_program_map (rq_programs model_request) model_disk in
         Ok (t, accounts, iteration programs)) with
  | Err _ => None
  | Ok (t, accounts, programs) =>
      let runtime := record_runtime model_request cli_vm.1 in
      match configure_vm runtime cli_vm with
      | None => None
      | Some s0 =>
          match record_programs bpf_loader_upgradeable_id programs s0 with
          | (Err _, _) => None
          | (Ok _, s1) =>
              match write_pre_accounts (map snapshot_account accounts) s1 with
              | (Err _, _) => None
              | (Ok _, s2) =>
                  match transact_detached s2 t with
                  | None => None
                  | Some (outcome, _, _) =>
                      ok (@record_capture _ _ _ _ _ (table_codec []) model_request runtime
                            (record_bindings bpf_loader_upgradeable_id programs) accounts
                            (from_outcome outcome) t)
                  end
              end
          end
      end
  end.

(** A fixture of an older format. *)
Definition old_fixture : Fixture :=
  mkFixture (mkFixtureHeader 1 "old" KindTransaction None [])
    (InputTransaction (mkTransactionFixture (runtime_config_new 0 None true false) [] [] [x41]))
    (mkFixtureExpectations
       (mkExecutionSnapshot StatusSuccess true 150 5000 [] None [] []) [CompareStatus]).

(** The recorded fixture, expecting a fee it does not pay. *)
Definition missing (f : Fixture) : Fixture :=
  let b := fe_baseline (fx_expectations f) in
  mkFixture (mkFixtureHeader CURRENT_SCHEMA_VERSION "missing" KindTransaction None []) (fx_input f)
    (mkFixtureExpectations
       (mkExecutionSnapshot (es_status b) (es_included b) (es_compute_units_consumed b) (es_fee b + 1)
          (es_logs b) (es_return_data b) (es_inner_instructions b) (es_post_accounts b))
       [CompareStatus; CompareFee]).

Definition known_fixtures : list Fixture :=
  option_list recorded_fixture ++ [old_fixture] ++ option_list (missing <$> recorded_fixture).

#[export] Instance model_codec : FixtureCodec := table_codec known_fixtures.

#[export] Instance model_codec_laws : CodecLaws.
Proof.
  apply table_codec_laws. unfold known_fixtures. rewrite !length_app.
  destruct recorded_fixture; simpl; lia.
Qed.
