(* ===== verification/Witnesses.v ===== *)
(** * The theorems at concrete inputs

    Every theorem with hypotheses is applied here, over the runtimes of
    [RuntimeModel] and [TxModel], to inputs where the hypotheses hold. *)

From Stdlib Require Import ZArith Lia Strings.Byte.
From stdpp Require Import base tactics option list sets gmap strings.
From S2P Require Import Prelude.
From S2P Require Import Types.
From S2P Require Import AccountSource.
From S2P Require Import Errors.
From S2P Require Import Lru.
From S2P Require Import History.
From S2P Require Import Runtime.
From S2P Require Import AccountsDb.
From S2P Require Import Overlay.
From S2P Require Import OverlayReads.
From S2P Require Import CacheCoherence.
From S2P Require Import DbRefinement.
From S2P Require Import RuntimeModel.
From S2P Require Import FeePayer.
From S2P Require Import InstructionTrace.
From S2P Require Import Version.
From S2P Require Import TxRuntime.
From S2P Require Import Svm.
From S2P Require Import Execution.
From S2P Require Import ExecutionFacts.
From S2P Require Import Staging.
From S2P Require Import StagingFacts.
From S2P Require Import Batch.
From S2P Require Import BatchFacts.
From S2P Require Import VmPrograms.
From S2P Require Import VmProgramsFacts.
From S2P Require Import TxModel.
From S2P Require Import DeployModel.
From S2P Require Import VmOps.
From S2P Require Import VmOpsFacts.
From S2P Require Import VmModel.

(** Runs are compared through booleans, so that only those are normalized. *)
Definition is_some {A} (o : option A) : bool := match o with Some _ => true | None => false end.

Ltac by_run := vm_compute; reflexivity.

(** ** The account database *)

Lemma rollback_restores_checkpoint_witness :
  let s' := run_op (OpRemove (Addr 11)) (run_op (OpAddAccount (Addr 50) (wallet 9)) model_db) in
  is_some (get_account s'.1 (Addr 11)) = false /\
  cache (rollback (checkpoint model_db.1) s'.1) = cache model_db.1 /\
  journal (rollback (checkpoint model_db.1) s'.1) = journal model_db.1.
Proof.
  split; [by_run|]. apply rollback_restores_checkpoint.
  eapply rtc_l; [|eapply rtc_l; [|apply rtc_refl]]; by apply step_op.
Defined.

Lemma add_remove_reads_witness :
  try_get_account (add_account (Addr 50) (wallet 9) model_db).2.1 (Addr 50) = Ok (Some (wallet 9)) /\
  try_get_account (remove_account (Addr 11) model_db).1 (Addr 11) = Ok None.
Proof.
  split.
  - apply (add_remove_reads (Addr 50) (Addr 50) (wallet 9) model_db). by_run.
  - apply (add_remove_reads (Addr 11) (Addr 11) (wallet 9) model_db).
Defined.

(** A program is replaced by a wallet while a broken program sits in the overlay. *)
Definition broken_state : St :=
  (add_account_no_checks (Addr 41) broken_program model_state.1, model_state.2).

Lemma add_account_failure_atomic_witness :
  exists e, (add_account (Addr 40) (wallet 9) broken_state).1 = Err e /\
  ((add_account (Addr 40) (wallet 9) broken_state).2.1 = broken_state.1 \/
   (had_program (Addr 40) broken_state.1 = true /\
    (lamports (wallet 9) = 0%Z \/ is_cached_program_account (Addr 40) (wallet 9) = false) /\
    cache (add_account (Addr 40) (wallet 9) broken_state).2.1 =
      cache (write_overlay (Addr 40) (wallet 9) (record_journal (Addr 40) broken_state.1)) /\
    exists ie, e = HInstruction ie)).
Proof.
  assert (H : is_err (add_account (Addr 40) (wallet 9) broken_state).1 = true) by by_run.
  destruct (add_account (Addr 40) (wallet 9) broken_state).1 as [u|e] eqn:He; [discriminate H|].
  exists e. split; [reflexivity|]. apply add_account_failure_atomic. exact He.
Defined.

(** A savepoint, a write, a rollback and a refused rollback. *)
Definition sample_requests : list request :=
  [ReqCheckpoint; ReqAdd (Addr 50) (wallet 9); ReqPrewarm [Addr 51]; ReqRollback 0; ReqRollback 3].

Lemma db_refines_store_witness :
  (run_requests sample_requests (model_state, [])).1 = [true; true; true; true; false] /\
  exists σ, store_runs sample_requests (run_requests sample_requests (model_state, [])).1
              (mkStore (try_get_account model_state.1) []) σ.
Proof.
  split; [by_run|].
  assert (Hs : source model_state.1 = EmptyAccountSource) by reflexivity.
  assert (Hl : SourceLaws (source model_state.1)) by (rewrite Hs; typeclasses eauto).
  pose proof (db_refines_store sample_requests model_state Hl) as H.
  destruct (run_requests sample_requests (model_state, [])) as [bs c].
  destruct H as (σ & Hr & _). exists σ. exact Hr.
Defined.

Lemma sync_accounts_reads_witness :
  try_get_account
    (sync_accounts [(Addr 50, wallet 9); (Addr 51, wallet 0)] model_state).2.1 (Addr 51) = Ok None /\
  try_get_account
    (sync_accounts [(Addr 50, wallet 9); (Addr 51, wallet 0)] model_state).2.1 (Addr 40) =
  try_get_account model_state.1 (Addr 40).
Proof.
  split.
  - apply (sync_accounts_reads [(Addr 50, wallet 9); (Addr 51, wallet 0)] model_state (Addr 51));
      [apply (bool_decide_unpack _); vm_compute; exact I|by_run].
  - apply (sync_accounts_reads [(Addr 50, wallet 9); (Addr 51, wallet 0)] model_state (Addr 40));
      [apply (bool_decide_unpack _); vm_compute; exact I|by_run].
Defined.

(** A database over a source that holds one account more. *)
Definition sourced_db : Accounts :=
  set_account_source (map_source {[Addr 70 := wallet 3]}) model_db.1.

Lemma prewarm_transparent_witness :
  (prewarm [Addr 70; Addr 71; Addr 70] sourced_db).1 = Ok tt /\
  get_account_ref (prewarm [Addr 70; Addr 71; Addr 70] sourced_db).2 (Addr 70) = Some (wallet 3).
Proof.
  assert (H : (prewarm [Addr 70; Addr 71; Addr 70] sourced_db).1 = Ok tt) by by_run.
  split; [exact H|].
  apply (prewarm_transparent sourced_db [Addr 70; Addr 71; Addr 70] (map_source_laws _));
    [exact H|set_solver|by_run].
Defined.

Lemma elf_bytes_agree_witness :
  resolve_elf model_state.1 program_account = Ok (ResolvedElf [x7f; x01] (Addr 2)).
Proof. apply (elf_bytes_agree model_state.1 (Addr 40)); by_run. Defined.

(** ** The derived caches *)

Lemma rebuild_program_cache_publishes_witness :
  exists s', rebuild_program_cache model_state = (Ok tt, s') /\
  exists e, pc_entries (committed s') !! Addr 40 = Some e /\ loads model_state.1 program_account e.
Proof.
  assert (H : is_ok (rebuild_program_cache model_state).1 = true) by by_run.
  destruct (rebuild_program_cache model_state) as [[[]|e] s'] eqn:Hr; [|discriminate H].
  exists s'. split; [reflexivity|].
  apply rebuild_program_cache_publishes in Hr as [_ [_ Hk]]. specialize (Hk (Addr 40)).
  assert (Hi : inner (cache model_state.1) !! Addr 40 = Some program_account) by by_run.
  rewrite Hi in Hk. exact Hk.
Defined.

Lemma sysvars_follow_overlay_witness :
  sysvars_coherent (add_account (Addr 11) (mkAccount 1 [x09] (Addr 9) false 0)
                      (rebuild_sysvar_cache model_state)).2.
Proof.
  exact (proj1 (proj2
    (sysvars_follow_overlay (rebuild_sysvar_cache model_state) (Addr 11)
       (mkAccount 1 [x09] (Addr 9) false 0) [])
    (proj1 (sysvars_follow_overlay model_state (Addr 11) (wallet 1) [])))).
Defined.

(** A fresh database has no entries. *)
Lemma fresh_backed : entries_backed (accounts_default 1 1 model_world).
Proof.
  intros k [e He]. exfalso.
  assert (H : pc_entries (committed (accounts_default 1 1 model_world)) = ∅) by reflexivity.
  by rewrite H, lookup_empty in He.
Qed.

Lemma entries_backed_preserved_witness :
  entries_backed (add_account (Addr 50) (wallet 9) (accounts_default 1 1 model_world)).2.
Proof.
  apply (entries_backed_preserved (accounts_default 1 1 model_world) (Addr 50) (wallet 9)
           fresh_backed); [by_run|]. left. discriminate.
Defined.

Lemma tombstoned_builtin_keeps_entry_witness :
  let s := (add_account (Addr 20) loader_account model_state).2 in
  try_get_account (add_account (Addr 20) (wallet 0) s).2.1 (Addr 20) = Ok None /\
  pc_entries (committed (add_account (Addr 20) (wallet 0) s).2) = pc_entries (committed s).
Proof.
  split; apply (tombstoned_builtin_keeps_entry (add_account (Addr 20) loader_account model_state).2
                  (Addr 20) (wallet 0)); by_run.
Defined.

Lemma load_program_content_sound_witness :
  exists e s', load_program program_account (model_state.1, model_state.2) = (Ok e, s') /\
  ((resolve_elf model_state.1 program_account = Ok ResolvedClosed /\
    exists clock, sc_get_clock (sysvar_cache model_state.1) = Some clock /\
                  e = new_closed_tombstone (clock_slot clock)) \/
   exists elf loader a' elf',
     resolve_elf model_state.1 program_account = Ok (ResolvedElf elf loader) /\
     sha256 elf' = sha256 elf /\ environments a' = environments model_state.1 /\
     build_entry a' elf' loader = Ok e).
Proof.
  assert (H : is_ok (load_program program_account (model_state.1, model_world)).1 = true) by by_run.
  assert (H' : is_ok (load_program program_account (model_state.1, model_state.2)).1 = true) by by_run.
  assert (Hs : store_sound (fun _ => runtime_envs_default) (w_store model_world)).
  { split; [by vm_compute|]. intros key e He. exfalso. revert He. cbn. by intros ?%elem_of_nil. }
  assert (Hs' : store_sound (fun _ => runtime_envs_default) (w_store model_state.2)).
  { clear H'. destruct (load_program program_account (model_state.1, model_world)) as [r s1] eqn:Hl.
    assert (Heq : w_store s1.2 = w_store model_state.2).
    { change s1 with (r, s1).2. rewrite <- Hl. by_run. }
    destruct r as [e|e]; [|discriminate H].
    rewrite <- Heq.
    exact (proj1 (load_program_content_sound (fun _ => runtime_envs_default) program_account
             model_state.1 model_world e s1 (Ok e) Hs eq_refl Hl)). }
  destruct (load_program program_account (model_state.1, model_state.2)) as [[e|e] s'] eqn:Hl; [|discriminate H'].
  exists e, s'. split; [reflexivity|].
  exact (proj2 (load_program_content_sound (fun _ => runtime_envs_default) program_account
           model_state.1 model_state.2 e s' (Ok e) Hs' eq_refl Hl) eq_refl).
Defined.

(** Another database whose environment, another one, sits at the same address. *)
Definition reused_address_db : Accounts :=
  with_environments ((environments model_state.1).1, 9%Z) model_state.1.

Lemma load_program_relinks_witness :
  exists e s', load_program program_account (model_state.1, model_state.2) = (Ok e, s') /\
  (load_program program_account (reused_address_db, s'.2)).1 = Ok e /\
  build_entry reused_address_db [x7f; x01] (Addr 2) <> Ok e.
Proof.
  assert (H : bool_decide ((load_program program_account (model_state.1, model_state.2)).1 =
                           Ok (MLoaded (Addr 2) [x7f; x01] (Some 0%Z))) = true) by by_run.
  apply bool_decide_eq_true in H.
  destruct (load_program program_account (model_state.1, model_state.2)) as [[e|e] s'] eqn:Hl;
    [|discriminate H].
  exists e, s'. split; [reflexivity|]. split.
  - assert (Hc : (1 <= lru_cap (w_store model_state.2))%Z) by by vm_compute.
    assert (Ha : resolve_elf model_state.1 program_account = Ok (ResolvedElf [x7f; x01] (Addr 2)))
      by by_run.
    assert (Hb : resolve_elf reused_address_db program_account = Ok (ResolvedElf [x7f; x01] (Addr 2)))
      by by_run.
    assert (Hk : sc_get_clock (sysvar_cache reused_address_db) = Some (mkClock 5 0 0 0 0)) by by_run.
    assert (He : (environments reused_address_db).1 = (environments model_state.1).1) by by_run.
    exact (load_program_relinks program_account program_account model_state.1 reused_address_db
             model_state.2 e s' [x7f; x01] (Addr 2) (mkClock 5 0 0 0 0) Hc Hl Ha Hb Hk He).
  - simpl in H. injection H as ->. by vm_compute.
Defined.

(** ** Fees, traces and features *)

Lemma validate_fee_payer_exact_witness :
  exists r acc', validate_fee_payer (Addr 50) (wallet 6000) 0 rent_default 5000 = Some (r, acc') /\
  (r = Ok tt -> acc' = wallet 1000).
Proof.
  destruct (validate_fee_payer_exact (Addr 50) (wallet 6000) 0 5000 rent_default) as (r & acc' & H & _ & Ha);
    [by vm_compute..|].
  exists r, acc'. split; [exact H|exact Ha].
Defined.

Lemma extract_groups_by_root_witness :
  exists inner trace,
    extract_instruction_trace_data [Addr 1; Addr 2; Addr 3] sample_frames
      [[]; []; []; []; []] [[]; []; []; []; []] = Some (inner, trace) /\
    length (trace_instructions trace) = 5 /\ length inner = 2.
Proof.
  destruct (extract_groups_by_root [Addr 1; Addr 2; Addr 3] sample_frames
              [[]; []; []; []; []] [[]; []; []; []; []]) as (inner & trace & H & Hi & _ & Hl & _).
  { constructor; [|reflexivity|reflexivity]. intros i f Hle Hf.
    do 5 (destruct i as [|i]; [simpl in Hf; simplify_eq; simpl in *; try lia|]). done. }
  exists inner, trace. split; [exact H|]. split; [exact Hl|]. rewrite Hi. reflexivity.
Defined.

Lemma feature_flags_faithful_witness :
  flags_is_enabled (flags_load (v_feature_set
    (version_with_feature (base_version Devnet) (Addr 103) false))) IncreaseTxV1AccountLockLimit
  = false.
Proof.
  exact (proj1 (proj2 (feature_flags_faithful (base_version Devnet) (Addr 103) false))
           IncreaseTxV1AccountLockLimit).
Defined.

(** ** Execution *)

Definition user_transfer : VersionedTransaction := transfer 1 50 51 x05.
Definition user_stx : SanitizedTransaction := transfer 1 50 51 x05.

Lemma inspection_transparent_witness :
  exists er w ob,
    execute_sanitized_transaction NoInspector model_vm user_stx
      (flags_load (v_feature_set (version model_vm.1))) = Some (er, w, ob) /\ ob_events ob = [].
Proof.
  assert (H : is_some (execute_sanitized_transaction NoInspector model_vm user_stx
      (flags_load (v_feature_set (version model_vm.1)))) = true) by by_run.
  destruct (execute_sanitized_transaction NoInspector model_vm user_stx _)
    as [[[er w] ob]|] eqn:He; [|discriminate H].
  exists er, w, ob. split; [reflexivity|].
  exact (proj1 (proj2 (inspection_transparent model_vm user_stx _) er w ob He)).
Defined.

Lemma outcome_shape_witness :
  exists er w ob, execute_readonly_impl NoInspector model_vm user_transfer = Some (er, w, ob) /\
    er_included er = true /\ is_Some (er_fee_payer er) /\ er_fatal_error er = None.
Proof.
  assert (H : match execute_readonly_impl NoInspector model_vm user_transfer with
              | Some (er, _, _) => er_included er | None => false end = true) by by_run.
  destruct (execute_readonly_impl NoInspector model_vm user_transfer) as [[[er w] ob]|] eqn:He;
    [|discriminate H].
  exists er, w, ob. split; [reflexivity|]. split; [exact H|].
  pose proof (outcome_shape NoInspector model_vm user_transfer er w ob He) as Ho.
  rewrite H in Ho. exact Ho.
Defined.

Lemma load_accounts_charges_fee_witness :
  exists l base,
    load_accounts model_vm.1 user_stx rent_default 5000 0 (stx_account_keys user_stx)
      (mkLoadedAccounts [] false None) = Some (Ok l) /\
    mapM (base_account model_vm.1 user_stx) (stx_account_keys user_stx) = Some base /\
    la_validated_fee_payer l = true /\
    (total_lamports (la_accounts l).*2 = total_lamports base - 5000)%Z.
Proof.
  assert (H : match load_accounts model_vm.1 user_stx rent_default 5000 0 (stx_account_keys user_stx)
                (mkLoadedAccounts [] false None) with
              | Some (Ok l) => la_validated_fee_payer l | _ => false end = true) by by_run.
  destruct (load_accounts model_vm.1 user_stx rent_default 5000 0 (stx_account_keys user_stx)
              (mkLoadedAccounts [] false None)) as [[l|e]|] eqn:Hl; [|discriminate H..].
  destruct (load_accounts_charges_fee model_vm.1 user_stx rent_default 5000 l Hl)
    as (base & Hb & _ & Ht).
  exists l, base. split; [reflexivity|]. split; [exact Hb|]. split; [exact H|].
  rewrite H in Ht. exact Ht.
Defined.

Lemma resolve_program_sound_witness :
  exists program_id acc,
    [(Addr 50, wallet 1); (Addr 40, program_account)] !! 1 = Some (program_id, acc) /\
    (program_id = native_loader_id \/
     executable acc = true /\
     (acc_owner acc = native_loader_id \/
      exists owner, try_get_account model_state.1 (acc_owner acc) = Ok (Some owner) /\
        acc_owner owner = native_loader_id /\ executable owner = true)).
Proof.
  assert (Hne : system_program_id <> native_loader_id) by discriminate.
  assert (H : is_ok (resolve_program model_state.1
    [(Addr 50, wallet 1); (Addr 40, program_account)] 5000 0 []
    (mkCompiledInstruction 1 [] [])) = true) by by_run.
  destruct (resolve_program model_state.1 [(Addr 50, wallet 1); (Addr 40, program_account)] 5000 0 []
    (mkCompiledInstruction 1 [] [])) as [i|e] eqn:Hr; [|discriminate H].
  destruct (proj1 (resolve_program_sound model_state.1
    [(Addr 50, wallet 1); (Addr 40, program_account)] 5000 0 [] (mkCompiledInstruction 1 [] [])
    Hne eq_refl) i Hr) as [-> Hp].
  exact Hp.
Defined.

(** ** Staging *)

Lemma discard_restores_witness :
  exists x s1 ob d w, transact_core model_vm user_transfer = Some (Ok x, s1, ob) /\
    dispatch_detached (svm_sync_jit_policy model_vm.1, model_vm.2) user_transfer = Some (Ok d, w, ob) /\
    discard x s1 = Some (xt_result x, (svm_sync_jit_policy model_vm.1, w)).
Proof.
  assert (H : match transact_core model_vm user_transfer with
              | Some (Ok x, _, _) => negb (xt_cache_dirty x) | _ => false end = true) by by_run.
  destruct (transact_core model_vm user_transfer) as [[[[x|f] s1] ob]|] eqn:Ht; [|discriminate H..].
  destruct (proj2 (discard_restores model_vm s1 user_transfer x ob Ht)) as (d & w & Hd & Hx).
  { by apply negb_true_iff. }
  exists x, s1, ob, d, w. split; [reflexivity|]. split; [exact Hd|exact Hx].
Defined.

(** A VM without handlers refuses every transaction. *)
Definition mute_vm : VmSt := (set_registry ∅ model_vm.1, model_vm.2).

Lemma transact_failure_stages_nothing_witness :
  exists f s1 ob, transact_core mute_vm user_transfer = Some (Err f, s1, ob) /\
    history (state s1.1) = history (state mute_vm.1).
Proof.
  assert (H : match transact_core mute_vm user_transfer with
              | Some (Err _, _, _) => true | _ => false end = true) by by_run.
  destruct (transact_core mute_vm user_transfer) as [[[[x|f] s1] ob]|] eqn:Ht;
    [discriminate H| |discriminate H].
  exists f, s1, ob. split; [reflexivity|].
  exact (proj2 (proj2 (transact_failure_stages_nothing mute_vm s1 user_transfer f ob Ht))).
Defined.

(** Outcomes that debit a wallet and close another, included or not, and one
    that rewrites a program. *)
Definition sample_outcome (included : bool) : DetachedTx :=
  mkDetachedTx (metadata_with_signature (Sig 5)) [(Addr 50, wallet 7000); (Addr 51, wallet 0)]
    (Ok tt) included (Some (Addr 50)) None true.

Definition program_outcome : DetachedTx :=
  mkDetachedTx (metadata_with_signature (Sig 6)) [(Addr 40, program_account)]
    (Ok tt) true (Some (Addr 50)) None false.

Definition collector : StateChangeSink (list AccountChange) unit := fun c k => (Ok tt, k ++ [c]).
Definition refuser : StateChangeSink (list AccountChange) unit := fun c k => (Err tt, k).

(** A sink that accepts, and one that refuses: the VM is then as before. *)
Lemma commit_with_exact_witness :
  exists x s1, stage (sample_outcome true) model_vm = (Ok x, s1) /\
    (forall c, c ∈ xt_changes x ->
       try_get_account (accounts (state s1.1)) (change_address c) = Ok (change_after c)) /\
    exists e s2 k log events,
      commit_with (recording refuser) x s1 ([], []) = Some (Err e, s2, (k, log), events) /\
      s2 = model_vm /\ length log = 1%nat.
Proof.
  assert (H : match stage (sample_outcome true) model_vm with
    | (Ok x, s1) => negb (xt_cache_dirty x) &&
        match commit_with (recording refuser) x s1 ([], []) with
        | Some (Err _, _, (_, log), _) => Nat.eqb (length log) 1
        | _ => false
        end
    | _ => false end = true) by by_run.
  destruct (stage (sample_outcome true) model_vm) as [[x|f] s1] eqn:Hs; [|discriminate H].
  exists x, s1. split; [reflexivity|]. apply andb_prop in H as [Hd H]. apply negb_true_iff in Hd. split.
  - intros c Hc.
    apply (proj2 (proj2 (proj2 (proj2 (commit_with_exact collector (sample_outcome true) model_vm s1 x [] Hs)))));
      [|exact Hc].
    apply (bool_decide_unpack _). vm_compute. exact I.
  - destruct (commit_with (recording refuser) x s1 ([], [])) as [[[[[r|e] s2] [k log]] events]|] eqn:Hc;
      [discriminate H| |discriminate H].
    destruct (proj1 (proj2 (commit_with_exact refuser (sample_outcome true) model_vm s1 x [] Hs))
                _ _ _ _ _ Hc) as (_ & _ & _ & _ & _ & Hr).
    exists e, s2, k, log, events. split; [reflexivity|]. split; [exact (Hr Hd)|by apply Nat.eqb_eq].
Defined.

Lemma not_included_commits_nothing_witness :
  exists x, stage (sample_outcome false) model_vm = (Ok x, model_vm) /\ xt_changes x = [].
Proof.
  destruct (not_included_commits_nothing (sample_outcome false) model_vm eq_refl)
    as (x & Hs & _ & Hc).
  exists x. split; [exact Hs|exact Hc].
Defined.

Definition signed_5 : SanitizedTransaction := transfer 5 50 51 x05.

Lemma committed_signature_is_duplicate_witness :
  exists x s1, stage (sample_outcome true) model_vm = (Ok x, s1) /\
    history_get_transaction (history (state (commit x s1).1.2.1)) (Sig 5) =
    Some (result_of_detached (sample_outcome true)).
Proof.
  assert (H : is_ok (stage (sample_outcome true) model_vm).1 = true) by by_run.
  destruct (stage (sample_outcome true) model_vm) as [[x|f] s1] eqn:Hs; [|discriminate H].
  assert (Hw : history_wf (history (state model_vm.1))) by (apply history_with_capacity_wf; lia).
  exists x, s1. split; [reflexivity|].
  exact (proj1 (committed_signature_is_duplicate (sample_outcome true) model_vm s1 x signed_5
                  Hw eq_refl eq_refl Hs eq_refl)).
Defined.

(** Prewarming pulled an upgradeable program in the state of a buffer from the
    source. *)
Definition buffer_program : AccountSharedData := mkAccount 10 [x01] (Addr 4) true 0.

Definition prewarmed_vm : VmSt :=
  (set_accounts (prewarm [Addr 41]
     (set_account_source (map_source {[Addr 41 := buffer_program]}) model_state.1)).2 model_vm.1,
   model_vm.2).

Lemma discard_panics_on_unloadable_program_witness :
  exists x s1, stage program_outcome prewarmed_vm = (Ok x, s1) /\ discard x s1 = None /\
    commit_with refuser x s1 [] = None.
Proof.
  assert (H : match stage program_outcome prewarmed_vm with
    | (Ok x, s1) =>
        let a := rollback (xt_checkpoint x) (accounts (state s1.1)) in
        xt_cache_dirty x && bool_decide (inner (cache a) !! Addr 41 = Some buffer_program) &&
        is_err (resolve_elf a buffer_program) &&
        is_err (sfor (xt_changes x) refuser []).1
    | _ => false end = true) by by_run.
  destruct (stage program_outcome prewarmed_vm) as [[x|f] s1] eqn:Hs; [|discriminate H].
  cbv zeta in H. bool_to_prop. exists x, s1. split; [reflexivity|].
  destruct (resolve_elf (rollback (xt_checkpoint x) (accounts (state s1.1))) buffer_program)
    as [res|e] eqn:Hr; [done|].
  destruct (sfor (xt_changes x) refuser []) as [[u|[]] k'] eqn:Hk; [done|].
  destruct (discard_panics_on_unloadable_program refuser x s1 (Addr 41) buffer_program e [] k' tt)
    as [Hd Hc]; [done|done|reflexivity|exact Hr|].
  split; [exact Hd|exact (Hc Hk)].
Defined.

Lemma clone_shares_program_cache_witness :
  exists s', set_account (Addr 42) program_account (svm_clone model_vm.1, model_vm.2) = (Ok tt, s') /\
    is_Some (pc_entries (committed (accounts (state model_vm.1), s'.2)) !! Addr 42).
Proof.
  assert (H : is_ok (set_account (Addr 42) program_account (svm_clone model_vm.1, model_vm.2)).1 = true)
    by by_run.
  destruct (set_account (Addr 42) program_account (svm_clone model_vm.1, model_vm.2))
    as [[[]|e] s'] eqn:Hs; [|discriminate H].
  exists s'. split; [reflexivity|].
  assert (Hm : is_managed_sysvar_account (Addr 42) = false) by by_run.
  assert (Hl : lamports program_account <> 0%Z) by discriminate.
  exact (proj1 (clone_shares_program_cache model_vm.1 model_vm.2 (Addr 42) program_account s'
                  Hm Hl eq_refl Hs)).
Defined.

(** ** Batches *)

Lemma best_fit_reorders_conflicts_witness :
  map st_indexes (schedule_all [] 0 [mkLockSet ∅ {[Addr 1]}; mkLockSet ∅ {[Addr 1; Addr 2]};
                                     mkLockSet ∅ {[Addr 2]}]) = [[0; 2]; [1]].
Proof.
  assert (H : Addr 1 <> Addr 2) by discriminate.
  exact (proj1 (best_fit_reorders_conflicts (Addr 1) (Addr 2) H)).
Defined.

Lemma post_state_is_write_locked_witness :
  exists er w ob,
    execute_sanitized_transaction NoInspector model_vm user_stx
      (flags_load (v_feature_set (version model_vm.1))) = Some (er, w, ob) /\
    Addr 51 ∈ (er_post_accounts er).*1 /\
    Addr 51 ∈ ls_writable (lock_set_from_transaction user_stx user_transfer).
Proof.
  assert (H : match execute_sanitized_transaction NoInspector model_vm user_stx
      (flags_load (v_feature_set (version model_vm.1))) with
    | Some (er, _, _) => bool_decide (Addr 51 ∈ (er_post_accounts er).*1) | None => false end = true)
    by by_run.
  destruct (execute_sanitized_transaction NoInspector model_vm user_stx _)
    as [[[er w] ob]|] eqn:He; [|discriminate H].
  apply bool_decide_eq_true in H.
  exists er, w, ob. split; [reflexivity|]. split; [exact H|].
  exact (post_state_is_write_locked NoInspector model_vm user_stx user_transfer _ er w ob
           (Addr 51) He H).
Defined.

(** The results of a stage whose two transactions write 50 and 51. *)
Definition stage_locks (i : nat) : TransactionLockSet :=
  mkLockSet {[Addr 40]} (if decide (i = 0) then {[Addr 50]} else {[Addr 51]}).

Definition stage_result (i : nat) : nat * TransactionResult * StateChangeSet :=
  (i, Ok TransactionMetadata_default,
   mkStateChangeSet [(if decide (i = 0) then Addr 50 else Addr 51, wallet (1 + Z.of_nat i))] None).

Lemma stage_result_locked i :
  NoDup (scs_post_accounts (stage_result i).2).*1 /\
  forall k, k ∈ (scs_post_accounts (stage_result i).2).*1 ->
            k ∈ ls_writable (stage_locks (stage_result i).1.1).
Proof.
  unfold stage_result, stage_locks. simpl. split; [apply NoDup_singleton|].
  intros k ->%list_elem_of_singleton. case_decide; by apply elem_of_singleton.
Qed.

Lemma stage_merge_order_irrelevant_witness :
  exists r1 s1 r2 s2,
    merge_stage [stage_result 0; stage_result 1] [None; None] model_vm = Some (r1, s1) /\
    merge_stage [stage_result 1; stage_result 0] [None; None] model_vm = Some (r2, s2) /\
    forall j, try_get_account (accounts (state s2.1)) j = try_get_account (accounts (state s1.1)) j.
Proof.
  assert (H1 : is_some (merge_stage [stage_result 0; stage_result 1] [None; None] model_vm) = true)
    by by_run.
  assert (H2 : is_some (merge_stage [stage_result 1; stage_result 0] [None; None] model_vm) = true)
    by by_run.
  destruct (merge_stage [stage_result 0; stage_result 1] [None; None] model_vm)
    as [[r1 s1]|] eqn:E1; [|discriminate H1].
  destruct (merge_stage [stage_result 1; stage_result 0] [None; None] model_vm)
    as [[r2 s2]|] eqn:E2; [|discriminate H2].
  exists r1, s1, r2, s2. split; [reflexivity|]. split; [reflexivity|]. intros j.
  refine (proj1 (stage_merge_order_irrelevant stage_locks _ _ [None; None] r1 r2 model_vm s1 s2
                   _ _ _ _ E1 E2 j)).
  - apply (bool_decide_unpack _). vm_compute. exact I.
  - apply Forall_cons. split; [apply stage_result_locked|]. apply Forall_singleton, stage_result_locked.
  - intros i i' Hi Hi' Hne. simpl in Hi, Hi'.
    apply elem_of_cons in Hi as [->|Hi%list_elem_of_singleton]; [|subst i];
      apply elem_of_cons in Hi' as [->|Hi'%list_elem_of_singleton]; [done|subst i'| |subst i'; done];
      apply conflicts_with_false; by_run.
  - apply perm_swap.
Defined.

(** Two independent transfers and a third that conflicts with both. *)
Definition sample_batch : list VersionedTransaction :=
  [transfer 11 50 52 x05; transfer 12 51 53 x05; transfer 13 50 51 x05].

Definition worker_handle (i : nat) : positive := Pos.of_nat (i + 10).

Lemma batch_results_complete_witness :
  exists plan l s1,
    send_transaction_batch worker_handle model_vm sample_batch =
      Some (Ok (mkBatchResult plan l), s1) /\ length l = 3 /\ plan = [[0; 1]; [2]].
Proof.
  assert (H : match plan_transaction_batch model_vm.1 sample_batch with
    | Ok plan =>
        bool_decide (plan = [[0; 1]; [2]]) &&
        match execute_stages worker_handle 0 plan sample_batch
                (replicate (length sample_batch) None) model_vm with
        | Some (Ok _, _) => true | _ => false end
    | Err _ => false end = true) by by_run.
  destruct (plan_transaction_batch model_vm.1 sample_batch) as [plan|e] eqn:Hp; [|discriminate H].
  apply andb_true_iff in H as [Hplan H]. apply bool_decide_eq_true in Hplan.
  destruct (execute_stages worker_handle 0 plan sample_batch
              (replicate (length sample_batch) None) model_vm) as [[[results|e] s1]|] eqn:He;
    [|discriminate H..].
  destruct (batch_results_complete worker_handle model_vm s1 sample_batch plan results Hp He)
    as (l & Hs & Hl & _).
  exists plan, l, s1. split; [exact Hs|]. split; [exact Hl|exact Hplan].
Defined.

(** A source that cannot be reached. *)
Definition offline_source : AccountSource :=
  source_with_default (fun _ => Err (account_source_error_new "offline")).

Definition offline_vm : VmSt :=
  (set_accounts (set_account_source offline_source model_state.1) model_vm.1, model_vm.2).

Lemma prewarm_failure_attributed_witness :
  exists e s1, prewarm_stage (stage_read_set [0; 1] sample_batch) offline_vm = (Err e, s1) /\
    exists k, execute_parallel worker_handle 0 [0; 1] sample_batch [None; None; None] offline_vm =
      Some (Err (BatchAccountSource 0 k e), s1).
Proof.
  assert (H : is_err (prewarm_stage (stage_read_set [0; 1] sample_batch) offline_vm).1 = true)
    by by_run.
  destruct (prewarm_stage (stage_read_set [0; 1] sample_batch) offline_vm) as [[u|e] s1] eqn:Hp;
    [discriminate H|].
  exists e, s1. split; [reflexivity|].
  destruct (prewarm_failure_attributed worker_handle 0 0 [1] sample_batch [None; None; None]
              offline_vm s1 e Hp) as (k & _ & Hk).
  exists k. exact Hk.
Defined.

(** ** Deployment and reconfiguration *)

Lemma add_program_roundtrip_witness :
  exists s', add_program_with_loader (Addr 90) good_program (Addr 4) model_vm = (Ok tt, s') /\
  try_program_elf_bytes (accounts (state s'.1)) (Addr 90) = Ok [x7f; x05; x06].
Proof.
  assert (H : is_ok (add_program_with_loader (Addr 90) good_program (Addr 4) model_vm).1 = true)
    by by_run.
  destruct (add_program_with_loader (Addr 90) good_program (Addr 4) model_vm) as [[[]|e] s'] eqn:Hr;
    [|discriminate H].
  exists s'. split; [reflexivity|].
  apply (add_program_roundtrip (Addr 90) (Addr 4) good_program model_vm s' (mkClock 5 0 0 0 0));
    [apply Z.leb_le; by_run|discriminate|by_run|exact Hr].
Defined.

(** The program account stays in the overlay, and the rebuild fails. *)
Lemma failed_add_program_poisons_rebuild_witness :
  exists s' e, add_program_internal false (Addr 91) bad_program (Addr 4) model_vm = (Err e, s') /\
  w_caches s'.2 = w_caches model_vm.2 /\
  ((e = InvalidLoader (Addr 91) (Addr 4) /\ s' = (svm_sync_jit_policy model_vm.1, model_vm.2)) \/
   (try_program_elf_bytes (accounts (state s'.1)) (Addr 91) = Ok (sl_bytes bad_program) /\
    exists e', (rebuild_program_cache (db_of s')).1 = Err e')).
Proof.
  assert (H : is_err (add_program_internal false (Addr 91) bad_program (Addr 4) model_vm).1 = true)
    by by_run.
  destruct (add_program_internal false (Addr 91) bad_program (Addr 4) model_vm) as [[u|e] s'] eqn:Hr;
    [discriminate H|].
  exists s', e. split; [reflexivity|].
  apply (failed_add_program_poisons_rebuild false (Addr 91) (Addr 4) bad_program model_vm s' e);
    [discriminate|discriminate| |exact Hr].
  intros other Ho. exact (model_hash_injective _ _ Ho).
Defined.

Lemma rebuild_drops_added_builtin_witness :
  exists s', register_custom_syscall 2 "sol_probe" probe_syscall
               (add_builtin (Addr 92) entry_fn model_vm) = (Ok tt, s') /\
  is_Some (get_account_ref (accounts (state s'.1)) (Addr 92)) /\
  pc_entries (committed (db_of s')) !! Addr 92 = None.
Proof.
  assert (H : is_ok (register_custom_syscall 2 "sol_probe" probe_syscall
                       (add_builtin (Addr 92) entry_fn model_vm)).1 = true) by by_run.
  destruct (register_custom_syscall 2 "sol_probe" probe_syscall
              (add_builtin (Addr 92) entry_fn model_vm)) as [[[]|e] s'] eqn:Hr; [|discriminate H].
  exists s'. split; [reflexivity|].
  destruct (rebuild_drops_added_builtin (Addr 92) entry_fn probe_syscall 2 "sol_probe" model_vm s')
    as [_ Hd].
  exact (proj2 (Hd eq_refl Hr)).
Defined.

(** A VM over a database that has loaded nothing yet. *)
Definition fresh_vm : VmSt := (set_accounts model_db.1 model_vm.1, model_db.2).

Definition static_memory (ptr : positive) (len : Z) : list byte :=
  if (ptr =? 77)%positive then sl_bytes good_program else [].

Lemma deployed_entry_sound_witness :
  exists s', add_program_internal true (Addr 90) good_program (Addr 2) fresh_vm = (Ok tt, s') /\
  exists e a elf, pc_entries (committed (db_of s')) !! Addr 90 = Some e /\
    sha256 elf = sha256 (sl_bytes good_program) /\
    environments a = environments (accounts (state fresh_vm.1)) /\ build_entry a elf (Addr 2) = Ok e.
Proof.
  assert (H : is_ok (add_program_internal true (Addr 90) good_program (Addr 2) fresh_vm).1 = true)
    by by_run.
  destruct (add_program_internal true (Addr 90) good_program (Addr 2) fresh_vm) as [[[]|e] s'] eqn:Hr;
    [|discriminate H].
  exists s'. split; [reflexivity|].
  apply (deployed_entry_sound (fun _ => runtime_envs_default) static_memory true (Addr 90) (Addr 2) good_program
           fresh_vm s' (Ok tt)); [|by_run|by_run|exact Hr|reflexivity].
  split; [split; [apply Z.leb_le; by_run|]|].
  - intros key e Hin. assert (Hi : lru_items (w_store fresh_vm.2) = []) by by_run.
    rewrite Hi in Hin. apply elem_of_nil in Hin. destruct Hin.
  - intros p q len l e He. assert (Hd : w_default_programs fresh_vm.2 = ∅) by by_run.
    rewrite Hd, lookup_empty in He. discriminate He.
Defined.

(** A broken program in the overlay makes the reconfiguration fail. *)
Definition broken_vm : VmSt := (set_accounts broken_state.1 model_vm.1, broken_state.2).

Lemma set_feature_set_failure_restores_witness :
  exists s' e, set_feature_set 3 {[Addr 101]} broken_vm = Some (Err e, s') /\
  settings s'.1 = settings broken_vm.1.
Proof.
  assert (H : match set_feature_set 3 {[Addr 101]} broken_vm with
              | Some (Err _, _) => true | _ => false end = true) by by_run.
  destruct (set_feature_set 3 {[Addr 101]} broken_vm) as [[[u|e] s']|] eqn:Hr;
    [discriminate H| |discriminate H].
  exists s', e. split; [reflexivity|].
  exact (proj1 (set_feature_set_failure_restores 3 {[Addr 101]} broken_vm s' e Hr)).
Defined.

Lemma rejected_syscall_panics_later_witness :
  exists s', is_err (register_custom_syscall 2 "sol_bad" refused_syscall model_vm).1 = true /\
  set_feature_set 3 (v_feature_set (version s'.1)) s' = None.
Proof.
  assert (H : is_err (build_environment (push_syscall "sol_bad" refused_syscall model_vm.1)) = true)
    by by_run.
  destruct (build_environment (push_syscall "sol_bad" refused_syscall model_vm.1)) as [u|e] eqn:Hb;
    [discriminate H|].
  destruct (rejected_syscall_panics_later 2 3 "sol_bad" refused_syscall model_vm e Hb) as (s' & Hr & _ & Hp).
  exists s'. split; [rewrite Hr; reflexivity|exact Hp].
Defined.

(** ** Sysvars and harnesses *)

Definition plain_at (a : Accounts) (k : Address) : bool :=
  match inner (cache a) !! k with Some old => negb (executable old) | None => true end.

Lemma plain_at_spec a k : plain_at a k = true -> no_program_at a k.
Proof.
  unfold plain_at, no_program_at. intros H old Ho. rewrite Ho in H.
  destruct (executable old); [discriminate H|reflexivity].
Qed.

Lemma warp_moves_every_clock_witness :
  exists s', warp_to_slot 77 model_vm = Some s' /\ be_slot (block_env s'.1) = 77%Z.
Proof.
  destruct (warp_moves_every_clock 77 model_vm (mkClock 5 0 0 0 0)) as (s' & Hs & _ & _ & Hb & _).
  - unfold in_u64, u64_max. lia.
  - by_run.
  - unfold valid_clock, in_u64, in_i64, u64_max. cbn. lia.
  - apply plain_at_spec. by_run.
  - exists s'. split; [exact Hs|exact Hb].
Defined.

Lemma set_sysvars_total_witness :
  exists s', set_sysvars model_vm = Some s' /\ require_sysvars_loaded s'.1 = Ok tt.
Proof.
  destruct (set_sysvars_total model_vm) as (s' & Hs & _ & _ & Hr).
  - intros k Hk. apply plain_at_spec.
    assert (H : forallb (plain_at (accounts (state model_vm.1))) (SLOT_HISTORY_ID :: managed_sysvars) = true)
      by by_run.
    rewrite forallb_forall in H. apply H. apply list_elem_of_In. exact Hk.
  - exists s'. split; [exact Hs|exact Hr].
Defined.

Lemma simulate_predicts_send_witness :
  exists r w ob s' events, simulate_transaction model_vm (transfer 5 50 51 x09) = Some (r, w, ob) /\
    send_transaction model_vm (transfer 5 50 51 x09) = Some (rmap sim_meta r, s', events).
Proof.
  assert (H : is_some (simulate_transaction model_vm (transfer 5 50 51 x09)) = true) by by_run.
  assert (Hp : jit_policy (accounts (state model_vm.1)) = v_jit_policy (version model_vm.1)) by by_run.
  pose proof (simulate_predicts_send model_vm (transfer 5 50 51 x09) Hp) as Hs.
  destruct (simulate_transaction model_vm (transfer 5 50 51 x09)) as [[[r w] ob]|] eqn:He;
    [|discriminate H].
  destruct Hs as (s' & events & Hs). exists r, w, ob, s', events. split; [reflexivity|exact Hs].
Defined.

(** A transfer to a program that no longer loads: the credit cannot be applied. *)
Lemma staging_failure_reports_success_witness :
  exists d s' events, send_transaction broken_vm (transfer 6 50 41 x09) = Some (Ok (dt_meta d), s', events) /\
    history (state s'.1) = history (state broken_vm.1).
Proof.
  set (t := transfer 6 50 41 x09).
  assert (H : match dispatch_detached (svm_sync_jit_policy broken_vm.1, broken_vm.2) t with
    | Some (Ok d, w, ob) =>
        negb (is_some (dt_fatal_error d)) && dt_included d && is_ok (dt_status d) &&
        is_err (on_db (sync_accounts (dt_post_accounts d)) (svm_sync_jit_policy broken_vm.1, w)).1
    | _ => false end = true) by by_run.
  destruct (dispatch_detached (svm_sync_jit_policy broken_vm.1, broken_vm.2) t)
    as [[[[d|e] w] ob]|] eqn:Hd; [|discriminate H|discriminate H].
  apply andb_prop in H as [H He]. apply andb_prop in H as [H Hst]. apply andb_prop in H as [Hf Hi].
  destruct (on_db (sync_accounts (dt_post_accounts d)) (svm_sync_jit_policy broken_vm.1, w)).1
    as [u|e] eqn:Hs; [discriminate He|].
  destruct (dt_fatal_error d) as [f|] eqn:Hfe; [discriminate Hf|].
  destruct (dt_status d) as [[]|f] eqn:Hds; [|discriminate Hst].
  destruct (staging_failure_reports_success broken_vm t d w ob e Hd Hfe Hi Hds Hs)
    as (s' & events & Hsend & _ & _ & Hh).
  exists d, s', events. split; [exact Hsend|exact Hh].
Defined.

(** An airdrop to an account that only the source holds: the credit lands on an
    empty account, which shadows the one of the source. *)
Definition sourced_vm : VmSt :=
  (set_accounts
     (set_account_source (map_source {[Addr 52 := wallet 70000]})
        (put_inner (Addr 60) (wallet 500000) (accounts (state model_vm.1)))) model_vm.1,
   model_vm.2).

Example airdrop_shadows_source :
  get_balance sourced_vm.1 (Addr 52) = Some 70000%Z /\
  match airdrop id (Addr 52) 200 sourced_vm with
  | (Some (Ok _, _), s') => get_balance s'.1 (Addr 52)
  | _ => None
  end = Some 200%Z.
Proof. split; by_run. Qed.

(** A program that does not load is refused, and the host calls it fatal. *)
Lemma host_write_failure_fatal_witness :
  exists e, (host_set_account (Addr 41) broken_program model_vm).1 = Err e /\ host_is_fatal e = true.
Proof.
  assert (H : is_err (host_set_account (Addr 41) broken_program model_vm).1 = true) by by_run.
  destruct (host_set_account (Addr 41) broken_program model_vm).1 as [u|e] eqn:He; [discriminate H|].
  exists e. split; [reflexivity|].
  exact (proj1 (proj1 (host_write_failure_fatal (Addr 41) broken_program
                         (clock_sysvar Clock_default) model_vm) e He)).
Defined.
