(* ===== verification/FixtureWitnesses.v ===== *)
(** * The fixture theorems at concrete inputs

    The theorems about snapshots, fixtures and the fixture commands, applied over
    [FixtureModel] to a recorded transfer. *)

From Stdlib Require Import ZArith Lia Strings.Byte Strings.Ascii Strings.String.
From stdpp Require Import base tactics option list sets gmap strings.
From S2P Require Import Prelude.
From S2P Require Import Types.
From S2P Require Import Runtime.
From S2P Require Import AccountsDb.
From S2P Require Import CacheCoherence.
From S2P Require Import RuntimeModel.
From S2P Require Import Version.
From S2P Require Import TxRuntime.
From S2P Require Import Svm.
From S2P Require Import Execution.
From S2P Require Import Staging.
From S2P Require Import VmPrograms.
From S2P Require Import VmOps.
From S2P Require Import TxModel.
From S2P Require Import DeployModel.
From S2P Require Import VmModel.
From S2P Require Import Fixture.
From S2P Require Import FixtureFacts.
From S2P Require Import FixtureRun.
From S2P Require Import FixtureRunFacts.
From S2P Require Import Cli.
From S2P Require Import CliFacts.
From S2P Require Import Bench.
From S2P Require Import BenchFacts.
From S2P Require Import Firedancer.
From S2P Require Import FiredancerFacts.
From S2P Require Import FixtureModel.
From S2P Require Import Witnesses.

(** ** Snapshots *)

Definition snap (inner : list InnerInstructionSnapshot) (post : list AccountSnapshot) :
    ExecutionSnapshot :=
  mkExecutionSnapshot StatusSuccess true 150 5000 ["done"%string] None inner post.

Definition snap_50 : AccountSnapshot := snapshot_from_readable (Addr 50) (wallet 9).
Definition snap_51 : AccountSnapshot := snapshot_from_readable (Addr 51) (wallet 8).

Lemma compare_accounts_exact_witness :
  compare_accounts (snap [] [snap_50; snap_51]) (snap [] [snap_51; snap_50]) ScopeAll = true.
Proof.
  apply (compare_accounts_exact (snap [] [snap_50; snap_51]) (snap [] [snap_51; snap_50]) []).
  - apply (bool_decide_unpack _). vm_compute. exact I.
  - apply (bool_decide_unpack _). vm_compute. exact I.
  - constructor.
Defined.

Definition inner_7 : InnerInstructionSnapshot := mkInnerInstructionSnapshot 2 1 [0%Z] [x07] 0.
Definition inner_8 : InnerInstructionSnapshot := mkInnerInstructionSnapshot 2 3 [] [x08] 0.

(** Another inner instruction, and the comparison of everything still passes. *)
Lemma everything_exact_witness :
  compare_with (snap [inner_7] [snap_50]) (snap [inner_8] [snap_50]) everything ResultConfig_default =
  Some (true, []).
Proof.
  apply (everything_exact (snap [inner_7] [snap_50]) (snap [inner_7] [snap_50]) ResultConfig_default).
  - apply (bool_decide_unpack _). vm_compute. exact I.
  - apply (bool_decide_unpack _). vm_compute. exact I.
  - reflexivity.
Defined.

(** The last bytes of an account, and one byte further. *)
Definition data_snap : AccountSnapshot :=
  mkAccountSnapshot (Addr 50) 9 (Addr 0) false 0 [x01; x02; x03].
Definition slice_check (offset : Z) : Check :=
  expectation_build (expect_data_slice offset [x02; x03] (check_account (Addr 50))).

Lemma run_checks_exact_witness :
  try_run_checks (snap [] [data_snap]) [CheckSuccess; slice_check 1; slice_check 2] ResultConfig_default =
  Some (Err (mkMismatch CheckKind "Check" "check failed: Check"), []).
Proof.
  destruct (run_checks_exact (snap [] [data_snap]) [CheckSuccess; slice_check 1; slice_check 2]
              ResultConfig_default) as [[_ H]|(pre & c & post & Hl & _ & Hm & H)].
  - rewrite !Forall_cons, Forall_nil. split_and!; try exact I;
      intros o d [= <- <-]; unfold in_u64, u64_max; lia.
  - apply Forall_cons; split; [unfold addressable, u64_max; simpl; lia|constructor].
  - assert (Hr : is_ok match try_run_checks (snap [] [data_snap])
        [CheckSuccess; slice_check 1; slice_check 2] ResultConfig_default with
      | Some (r, _) => r | None => Ok tt end = false) by by_run.
    rewrite H in Hr. discriminate Hr.
  - destruct pre as [|p0 [|p1 [|p2 pre]]].
    + injection Hl as <- <-. exfalso. apply Hm. reflexivity.
    + injection Hl as <- <- <-. exact H.
    + injection Hl as <- <- <- <-. exact H.
    + destruct pre; discriminate Hl.
Defined.

Definition sample_detached (h : Z) : DetachedTx :=
  mkDetachedTx
    (mkTransactionMetadata (Sig 5) ["done"%string]
       [[mkInnerInstruction (mkCompiledInstruction 1 [0%Z] [x07]) h]; []] 150
       TransactionReturnData_default 5000 ExecutionDiagnostics_default)
    [(Addr 50, wallet 9)] (Ok tt) true (Some (Addr 50)) None false.

Lemma snapshot_lossless_witness :
  tm_inner_instructions (dt_meta (sample_detached 2)) = tm_inner_instructions (dt_meta (sample_detached 2)).
Proof.
  assert (He : from_outcome (sample_detached 2) = from_outcome (sample_detached 2)) by reflexivity.
  destruct (snapshot_lossless (sample_detached 2) (sample_detached 2) eq_refl He) as (_ & _ & _ & _ & H & _).
  exact H.
Defined.

(** ** Files and replay *)

(** A fixture of version 1 is saved, and refused on loading. *)
Lemma save_load_roundtrip_witness :
  exists d', save old_fixture (path_of_string "old.bin") FormatBinary model_disk = (Ok tt, d') /\
    load (path_of_string "old.bin") d' = Err (UnsupportedSchemaVersion 1 2).
Proof.
  assert (H : is_ok (save old_fixture (path_of_string "old.bin") FormatBinary model_disk).1 = true) by by_run.
  destruct (save old_fixture (path_of_string "old.bin") FormatBinary model_disk) as [[[]|e] d'] eqn:Hs;
    [|discriminate H].
  exists d'. split; [reflexivity|].
  assert (Hf : fixture_format_for_path (path_of_string "old.bin") = Ok FormatBinary) by by_run.
  destruct (save_load_roundtrip old_fixture (path_of_string "old.bin") FormatBinary model_disk d' Hf
              ltac:(cbn; lia) Hs) as [Hl _].
  exact Hl.
Defined.

Definition bound_fixture : Fixture :=
  mkFixture (header_new "bound" KindTransaction)
    (InputTransaction (mkTransactionFixture (runtime_config_new 0 None true false)
       [mkProgramBinding (Addr 91) (Addr 4) None] [] [x41]))
    (mkFixtureExpectations (snap [] []) everything).

Lemma runner_refuses_unreplayable_witness :
  forall x w' ob, run_fixture (Addr 70) (runner_new cli_vm.1) bound_fixture cli_vm.2 <> Some (Ok x, w', ob).
Proof.
  assert (Hn : program_elfs (runner_new cli_vm.1) !! pb_program_id (mkProgramBinding (Addr 91) (Addr 4) None) = None)
    by reflexivity.
  assert (Hb : mkProgramBinding (Addr 91) (Addr 4) None ∈ fixture_programs bound_fixture)
    by apply list_elem_of_here.
  exact (proj2 (runner_refuses_unreplayable (Addr 70) (runner_new cli_vm.1) bound_fixture
    (mkTransactionFixture (runtime_config_new 0 None true true) [] [] []) cli_vm.2) _ Hb Hn).
Defined.

Definition loaded_runner : FixtureRunner := with_program_elf (Addr 90) good_program (runner_new cli_vm.1).
Definition binding_90 : ProgramBinding := mkProgramBinding (Addr 90) (Addr 4) None.

(** The base VM has no account of the program, but its cache has an entry. *)
Lemma fixtures_share_program_cache_witness :
  exists s0 s1, prepare_vm loaded_runner (runtime_config_new 8 None true false) cli_vm.2 = Some s0 /\
    bind_programs [binding_90] (program_elfs loaded_runner) s0 = (Ok tt, s1) /\
    is_Some (pc_entries (committed (accounts (state cli_vm.1), s1.2)) !! Addr 90).
Proof.
  assert (H : match prepare_vm loaded_runner (runtime_config_new 8 None true false) cli_vm.2 with
    | Some s0 => is_ok (bind_programs [binding_90] (program_elfs loaded_runner) s0).1
    | None => false end = true) by by_run.
  destruct (prepare_vm loaded_runner (runtime_config_new 8 None true false) cli_vm.2) as [s0|] eqn:Hp;
    [|discriminate H].
  destruct (bind_programs [binding_90] (program_elfs loaded_runner) s0) as [[[]|e] s1] eqn:Hb;
    [|discriminate H].
  exists s0, s1. split; [reflexivity|]. split; [exact Hb|].
  exact (fixtures_share_program_cache loaded_runner (runtime_config_new 8 None true false) [binding_90]
           cli_vm.2 s0 s1 binding_90 Hp Hb (list_elem_of_here _ _)).
Defined.

(** ** Commands *)

Lemma load_compares_exact_witness :
  exists l, load_compares (Some (path_of_string "accounts.json")) [] true model_disk = Ok l /\
    l = [CompareStatus; CompareLogs].
Proof.
  destruct (load_compares (Some (path_of_string "accounts.json")) [] true model_disk) as [l|e] eqn:Hl.
  - exists l. split; [reflexivity|].
    destruct (load_compares_exact (Some (path_of_string "accounts.json")) [] l true model_disk
                (snap [] []) (snap [] []) Hl) as (base & Hb & Heq & _).
    assert (base = [CompareStatus; CompareComputeUnits; CompareLogs]) as ->.
    { vm_compute in Hb. injection Hb as <-. reflexivity. }
    rewrite Heq. reflexivity.
  - vm_compute in Hl. discriminate Hl.
Defined.

(** ** Benchmarks *)

#[local] Instance CuDelta_eq_dec : EqDecision CuDelta.
Proof. solve_decision. Defined.
#[local] Instance CuReportRow_eq_dec : EqDecision CuReportRow.
Proof. solve_decision. Defined.
#[local] Instance CuReport_eq_dec : EqDecision CuReport.
Proof. solve_decision. Defined.

Definition bench_elfs : gmap Address ByteSlice := {[Addr 90 := good_program]}.
Definition bench_cases_named (names : list string) : list FixtureBenchCase :=
  match recorded_fixture with Some f => map (fun n => (n, f)) names | None => [] end.
Definition bench_stamp : string * string := ("1700000000"%string, "4.0.0"%string).

(** The report of cases on the VM of the commands. *)
Definition report_named (names : list string) : option CuReport :=
  match bench_cases (Addr 70) true bench_elfs ∅ (bench_cases_named names) (runner_new cli_vm.1) cli_vm.2 with
  | Some (Ok l, _, _) => Some (report_new bench_stamp l)
  | _ => None
  end.

Definition known_reports : list CuReport :=
  option_list (report_named ["first"%string; "second"%string]) ++
  option_list (report_named ["same"%string; "same"%string]).

(** A report is written as its position in a table, and read without its percentages. *)
Definition without_percent (r : CuReport) : CuReport :=
  mkCuReport (generated_at r) (solana_runtime_version r)
    (map (fun row => mkCuReportRow (row_name row) (row_compute_units row)
            ((fun x => mkCuDelta (absolute x) (f64_of_Z 0)) <$> row_delta row) (row_pass row)) (rows r)).

#[local] Instance model_report_codec : ReportCodec := {|
  report_encode r :=
    match list_find (fun x => x = r) known_reports with
    | Some (i, _) => Ok (repeat x2b i)
    | None => Err "unknown report"%string
    end;
  report_decode bytes :=
    match known_reports !! length bytes with Some r => Ok (without_percent r) | None => Err "unknown report"%string end;
  format_percent _ := "+0.00"%string
|}.

#[local] Instance model_report_codec_laws : ReportCodecLaws.
Proof.
  constructor. intros r bytes _. cbn.
  destruct (list_find (fun x => x = r) known_reports) as [[i x]|] eqn:Hf; [|done].
  intros [= <-]. apply list_find_Some in Hf as (Hl & -> & _). rewrite repeat_length, Hl.
  exists (without_percent r). split; [done|]. split_and!; [done|done|]. cbn. rewrite map_map.
  apply map_ext. intros [name units [[]|] pass]; done.
Qed.

Definition bencher_named (names : list string) : ComputeUnitBencher :=
  mkComputeUnitBencher cli_vm.1 (bench_cases_named names) true None (Some "out"%string) bench_elfs.
Definition empty_disk : ReportDisk := mkReportDisk ∅ (fun _ => None) (fun _ => None) (fun _ => None).

Definition ran_finite (x : option (result CuReport BenchError * World * ReportDisk * list string)) : bool :=
  match x with Some (Ok r, _, _, _) => report_finite r | _ => false end.


(** ** FireDancer messages *)

Definition fd_account (k : N) (n : Z) : AcctState :=
  mkAcctState (be_bytes 32 k) n [x07] false 0 (be_bytes 32 9) None.
Definition fd_input : InstrContext :=
  mkInstrContext (be_bytes 32 90) [fd_account 50 9; fd_account 51 8]
    [mkInstrAcct 1 true false; mkInstrAcct 0 true true] [x01] 200000 None None.
Definition fd_output : InstrEffects :=
  mkInstrEffects 26 7 [fd_account 51 17] 199000 [x2a].
Definition fd_message : InstrFixture := mkInstrFixture (Some "process"%string) (Some fd_input) (Some fd_output).

(** The same message with the second account at the address of the first. *)
Definition fd_input_twice : InstrContext :=
  mkInstrContext (be_bytes 32 90) [fd_account 50 9; fd_account 50 8]
    [mkInstrAcct 1 true false] [x01] 200000 None None.
Definition fd_message_twice : InstrFixture :=
  mkInstrFixture (Some "process"%string) (Some fd_input_twice) (Some fd_output).

Lemma import_export_roundtrip_witness :
  (exists f, fixture_of_firedancer fd_message = Ok f /\
     firedancer_of_fixture f = Ok (canonical (fh_name (fx_header f)) fd_input fd_output) /\
     map (canonical_acct (pc_accounts fd_input)) (pc_instr_accounts fd_input) = pc_instr_accounts fd_input /\
     fh_name (fx_header f) = "process"%string) /\
  (exists f, fixture_of_firedancer fd_message_twice = Ok f /\
     firedancer_of_fixture f = Ok (canonical (fh_name (fx_header f)) fd_input_twice fd_output) /\
     map (canonical_acct (pc_accounts fd_input_twice)) (pc_instr_accounts fd_input_twice) =
       [mkInstrAcct 0 true false]).
Proof.
  split.
  - assert (H : is_ok (fixture_of_firedancer fd_message) = true) by by_run.
    destruct (fixture_of_firedancer fd_message) as [f|e] eqn:Hf; [|discriminate H].
    exists f. split; [reflexivity|].
    destruct (import_export_roundtrip fd_message f fd_input fd_output Hf eq_refl eq_refl) as (Hx & Hd & Hn).
    + repeat constructor; unfold u32_max; cbn; lia.
    + cbn. lia.
    + split; [exact Hx|]. split; [|apply Hn; [reflexivity|discriminate]].
      apply Hd. apply (bool_decide_unpack _). vm_compute. exact I.
  - assert (H : is_ok (fixture_of_firedancer fd_message_twice) = true) by by_run.
    destruct (fixture_of_firedancer fd_message_twice) as [f|e] eqn:Hf; [|discriminate H].
    exists f. split; [reflexivity|].
    destruct (import_export_roundtrip fd_message_twice f fd_input_twice fd_output Hf eq_refl eq_refl)
      as (Hx & _ & _).
    + repeat constructor; unfold u32_max; cbn; lia.
    + cbn. lia.
    + split; [exact Hx|vm_compute; reflexivity].
Defined.

(** A failure with result zero, as an instruction fixture. *)
Definition fd_fixture (st : ExecutionStatus) : Fixture :=
  mkFixture (mkFixtureHeader 2 "case" KindInstruction None ["mine"%string])
    (InputInstruction (mkInstructionFixture
       (with_compute_unit_limit 1000 (runtime_config_new 8 None true false)) []
       [snap_50; snap_51] (Addr 90) [mkInstructionAccountMeta (Addr 51) false true] [x01]))
    (mkFixtureExpectations
       (mkExecutionSnapshot st false 150 5000 ["done"%string] None [] [snap_51]) everything).

(** The failure comes back as a success. *)
Lemma export_import_exact_witness :
  exists p, firedancer_of_fixture (fd_fixture (StatusFailure (ProgramResult 0))) = Ok p /\
    match fixture_of_firedancer p with
    | Ok f => es_status (fe_baseline (fx_expectations f)) = StatusSuccess
    | Err _ => False
    end.
Proof.
  assert (H : is_ok (firedancer_of_fixture (fd_fixture (StatusFailure (ProgramResult 0)))) = true) by by_run.
  destruct (firedancer_of_fixture (fd_fixture (StatusFailure (ProgramResult 0)))) as [p|e] eqn:Hp;
    [|discriminate H].
  exists p. split; [reflexivity|].
  rewrite (export_import_exact (fd_fixture (StatusFailure (ProgramResult 0))) _ 1000 p eq_refl eq_refl);
    [reflexivity|reflexivity| | |cbn; lia|exact Hp].
  - repeat constructor.
  - repeat constructor.
Defined.
