(* ===== verification/ServiceWitnesses.v ===== *)
(** * The services around the VM at concrete inputs

    A model of the JIT over the runtimes of [RuntimeModel], and the theorems of
    [TieringFacts], [TierSweep], [Fork], [BuilderFacts], [InspectorsFacts] and [Precompiles]
    applied to runs of it. *)

From Stdlib Require Import ZArith Lia Strings.Byte.
From stdpp Require Import base tactics option list sets gmap strings.
From S2P Require Import Prelude.
From S2P Require Import Types.
From S2P Require Import AccountSource.
From S2P Require Import Errors.
From S2P Require Import Lru.
From S2P Require Import Fork.
From S2P Require Import History.
From S2P Require Import Runtime.
From S2P Require Import AccountsDb.
From S2P Require Import Tiering.
From S2P Require Import TieringFacts.
From S2P Require Import RuntimeModel.
From S2P Require Import FeePayer.
From S2P Require Import Version.
From S2P Require Import TxRuntime.
From S2P Require Import Svm.
From S2P Require Import Execution.
From S2P Require Import TierSweep.
From S2P Require Import Staging.
From S2P Require Import VmPrograms.
From S2P Require Import VmProgramsFacts.
From S2P Require Import VmOps.
From S2P Require Import Builder.
From S2P Require Import BuilderFacts.
From S2P Require Import Inspectors.
From S2P Require Import InspectorsFacts.
From S2P Require Import Precompiles.
From S2P Require Import TxModel.
From S2P Require Import DeployModel.
From S2P Require Import VmModel.
From S2P Require Import Witnesses.

(** ** A JIT

    A compiled executable carries a mark in front of its image; an image that
    contains a zero byte cannot be compiled. *)
Definition model_compiled (x : list byte) : bool := match x with xcc :: _ => true | _ => false end.
Definition model_image (x : list byte) : list byte := match x with xcc :: y => y | _ => x end.
Definition model_jit (x : list byte) : option (list byte) :=
  if model_compiled x then Some x
  else if bool_decide (x00 ∈ x) then None else Some (xcc :: x).

Definition model_ref (e : model_entry) : positive :=
  match e with
  | MLoaded _ elf _ => Pos.of_succ_nat (length elf)
  | MBuiltin f => f~1
  | _ => 1
  end.

#[export] Instance model_jit_runtime : @JitRuntime model_program_runtime := {|
  Image := list byte;
  exe_image := model_image;
  get_compiled_program := model_compiled;
  jit_compile := model_jit;
  stats_jit_compiled us st :=
    mkProgramStatistics (compilations st + 1) (total_compilation_time_us st + us)
      (interpreted_invocations st) (jit_invocations st);
  entry_ref := model_ref
|}.

#[export] Instance model_jit_laws : JitLaws.
Proof.
  constructor; intros x x' H; cbn in *; unfold model_jit in H;
    destruct (model_compiled x) eqn:Hc; [by simplify_eq| |by simplify_eq|];
    (case_bool_decide; [done|]); simplify_eq; cbn; [|done].
  destruct x as [|[] x]; done.
Qed.

Definition cold : ProgramStatistics := mkProgramStatistics 0 0 9 0.
Definition tier_entries : gmap positive (TierEntry (pr := model_program_runtime)) :=
  {[ 1%positive := mkTierEntry (Loaded ([x7f; x05] : Executable)) cold;
     3%positive := mkTierEntry (Loaded ([x7f; x05] : Executable)) cold;
     4%positive := mkTierEntry (Loaded ([x7f; x00; x05] : Executable)) cold;
     7%positive := mkTierEntry NotLoaded cold ]}.

Definition tier_promoter8 : TierPromoter := promoter_new (Some 8%Z) true (Lazy 5).

(** Two callers race for the same entry, both jobs compile it. *)
Definition racing : list Label :=
  [LCall 0 3; LCall 1 3; LCaller 1; LCaller 0; LJob 0 0; LJob 1 0; LJob 0 0; LJob 1 0;
   LJob 0 0; LJob 1 0; LJob 0 40].

Definition tier_race : option TierState := trun tier_promoter8 racing (tier_init tier_entries 2).

Example race_counts :
  match tier_race with
  | Some s => (ts_pending s, attempted (ts_stats s), compile_us (ts_stats s))
  | None => (0, 0, 0)%Z
  end = (2, 2, 40)%Z.
Proof. by_run. Qed.

Lemma promoter_accounts_every_slot_witness :
  exists s, tier_race = Some s /\ ts_pending s = 2%Z /\
    attempted (ts_stats s) =
      wrap_u64 (succeeded (ts_stats s) + failed (ts_stats s) + zsum job_open (ts_jobs s)) /\
    entries_advance tier_entries (ts_entries s).
Proof.
  assert (H : match tier_race with Some s => (ts_pending s =? 2)%Z | None => false end = true) by by_run.
  destruct tier_race as [s|] eqn:Hs; [|discriminate H]. exists s.
  assert (Hr : reachable tier_promoter8 (tier_init tier_entries 2) s).
  { exact (trun_reachable _ racing _ _ _ (reach_init _ _) Hs). }
  destruct (promoter_accounts_every_slot (Some 8%Z) true (Lazy 5) tier_entries 2 s
              ltac:(unfold u64_max; lia) Hr) as (_ & _ & _ & Ha & He).
  split; [reflexivity|]. split; [by apply Z.eqb_eq|]. split; [exact Ha|exact He].
Defined.

(** A transaction on a VM whose policy compiles at once, and the sweep after it. *)
Definition lazy_vm : VmSt := (set_tier_promoter (Lazy 0) model_vm.1, model_vm.2).

Lemma execution_readonly_witness :
  exists er w ob ts', execute_readonly_swept user_accepts (Some 8%Z) true (fun _ => 10%Z) lazy_vm
      user_transfer (tier_init tier_entries 1) = Some (er, w, ob, ts') /\
    succeeded (ts_stats ts') = 1%Z /\ w = lazy_vm.2 /\ entries_advance tier_entries (ts_entries ts').
Proof.
  assert (H : match execute_readonly_swept user_accepts (Some 8%Z) true (fun _ => 10%Z) lazy_vm
      user_transfer (tier_init tier_entries 1), w_caches lazy_vm.2 !! programs_cache (accounts (state lazy_vm.1))
    with
    | Some (_, _, _, ts'), Some c =>
        bool_decide (map_to_list (mc_modified c) = []) && (succeeded (ts_stats ts') =? 1)%Z
    | _, _ => false end = true) by by_run.
  destruct (execute_readonly_swept user_accepts (Some 8%Z) true (fun _ => 10%Z) lazy_vm
      user_transfer (tier_init tier_entries 1)) as [[[[er w] ob] ts']|] eqn:He; [|discriminate H].
  destruct (w_caches lazy_vm.2 !! programs_cache (accounts (state lazy_vm.1))) as [c|] eqn:Hc;
    [|discriminate H].
  apply andb_prop in H as [H Hs]. apply Z.eqb_eq in Hs.
  destruct (execution_readonly user_accepts (Some 8%Z) true (fun _ => 10%Z) lazy_vm user_transfer
              (tier_init tier_entries 1) er w ob ts' c Hc He) as (_ & Hw & _ & _ & Ha & _).
  exists er, w, ob, ts'. split; [reflexivity|]. split; [exact Hs|]. split; [apply Hw|exact Ha].
  apply bool_decide_eq_true, map_to_list_empty_iff in H. destruct c. cbn in *. by rewrite H.
Defined.

(** The same pool left to itself: no slot stays taken. *)
Definition draining : list Label :=
  [LJob 1 60; LJob 0 0; LJob 1 0; LJob 0 0; LJob 1 0; LJob 0 0; LJob 0 0].

Lemma promoter_pool_drains_witness :
  exists s s', tier_race = Some s /\ trun tier_promoter8 draining s = Some s' /\
    ts_pending s' = 0%Z /\ (length draining <= 448)%nat /\
    attempted (ts_stats s') = wrap_u64 (succeeded (ts_stats s') + failed (ts_stats s')).
Proof.
  assert (H : match tier_race with
    | Some s => match trun tier_promoter8 draining s with
                | Some s' => bool_decide (length (ts_jobs s') = 0%nat) &&
                             forallb (fun c => match c with CIdle => true | _ => false end) (ts_callers s')
                | None => false end
    | None => false end = true) by by_run.
  destruct tier_race as [s|] eqn:Hs; [|discriminate H]. exists s.
  destruct (trun tier_promoter8 draining s) as [s'|] eqn:Hs'; [|discriminate H]. exists s'.
  assert (Hr : reachable tier_promoter8 (tier_init tier_entries 2) s).
  { exact (trun_reachable _ racing _ _ _ (reach_init _ _) Hs). }
  destruct (promoter_pool_drains (Some 8%Z) true (Lazy 5) tier_entries 2 s draining s'
              ltac:(unfold u64_max; lia) Hr ltac:(by repeat constructor) Hs') as (Hl & _ & Hd).
  apply andb_prop in H as [Hj Hc]. apply bool_decide_eq_true in Hj.
  destruct Hd as [Hp Ha].
  - by destruct (ts_jobs s').
  - apply Forall_forall. intros c Hin. pose proof (proj1 (forallb_forall _ _) Hc c) as Hf.
    rewrite <- list_elem_of_In in Hf. specialize (Hf Hin). by destruct c.
  - split_and!; try done.
Defined.

(** A committed program whose entry has the handle 3. *)
Definition tier_db : St := (add_account (Addr 40) program_account model_db).2.

Lemma observe_blocking_exact_witness :
  let s := tier_init tier_entries 1 in
  let s' := observe (promoter_new (Some 2%Z) true (Lazy 0)) (fun _ => 12%Z) tier_db s in
  committed_refs tier_db = [3%positive] /\
  attempted (ts_stats s') = 1%Z /\ succeeded (ts_stats s') = 1%Z /\
  te_program <$> ts_entries s' !! 1%positive = te_program <$> ts_entries s !! 1%positive.
Proof.
  assert (Hr : bool_decide (committed_refs tier_db = [3%positive]) = true) by by_run.
  apply bool_decide_eq_true in Hr. cbv zeta.
  destruct (observe_blocking_exact (Some 2%Z) (fun _ => 12%Z) tier_db (tier_init tier_entries 1))
    as (Hp & _ & _ & _ & Ha & Hsu & _).
  - reflexivity.
  - rewrite Hr. apply NoDup_singleton.
  - by repeat split.
  - split; [exact Hr|]. rewrite Ha, Hsu, Hr. split; [by_run|]. split; [by_run|].
    rewrite Hp, Hr. reflexivity.
Defined.

(** ** The fork source *)

#[export] Instance model_fork_cache : Lru Address CachedAccount := ListLru Address CachedAccount.
#[export] Instance model_fork_laws : LruLaws Address CachedAccount := ListLru_laws Address CachedAccount.

(** A cache of one account that lives for ten nanoseconds. *)
Definition small_fork : RpcForkSourceBuilder (RpcClient := string) :=
  with_ttl (Some 10%Z) (with_max_capacity (Some 0%Z) fork_builder).

(** A hit, an absence asked for twice, an expiry and an error. *)
Definition some_reads : list Read :=
  [mkRead (Addr 1) 0 1 (Ok (Some (wallet 5))); mkRead (Addr 1) 4 5 (Ok (Some (wallet 6)));
   mkRead (Addr 2) 6 7 (Ok None); mkRead (Addr 2) 7 8 (Ok (Some (wallet 9)));
   mkRead (Addr 2) 18 19 (Err "timeout"%string)].

Lemma fork_answers_fresh_witness :
  let r := fork_reads some_reads (fork_build id small_fork) in
  r.1 = [Ok (Some (wallet 5)); Ok (Some (wallet 5)); Ok None; Ok (Some (wallet 9));
         Err (account_source_error_new "timeout")] /\
  wrap_u64 (cache_hits r.2 + cache_misses r.2) = 5%Z /\
  (Z.of_nat (account_cache_len (fork_cache r.2)) <= 1)%Z.
Proof.
  cbv zeta. assert (H : bool_decide ((fork_reads some_reads (fork_build id small_fork)).1 =
    [Ok (Some (wallet 5)); Ok (Some (wallet 5)); Ok None; Ok (Some (wallet 9));
     Err (account_source_error_new "timeout")]) = true) by by_run.
  apply bool_decide_eq_true in H. split; [exact H|].
  destruct (fork_reads some_reads (fork_build id small_fork)) as [xs s'] eqn:He.
  destruct (fork_answers_fresh id small_fork some_reads xs s' ltac:(cbn; lia) He)
    as (_ & _ & Hn & Hl). split; [exact Hn|exact Hl].
Defined.

Definition fixed_rpc (k : Address) : Reply :=
  if decide (k = Addr 2) then Ok None else Ok (Some (wallet 5)).

Lemma fork_refines_source_witness :
  let rs := [mkRead (Addr 1) 0 1 (fixed_rpc (Addr 1)); mkRead (Addr 2) 2 3 (fixed_rpc (Addr 2));
             mkRead (Addr 1) 4 5 (fixed_rpc (Addr 1))] in
  (fork_reads rs (fork_build id small_fork)).1 = [Ok (Some (wallet 5)); Ok None; Ok (Some (wallet 5))].
Proof.
  cbv zeta. etrans; [refine (proj1 (fork_refines_source id fixed_rpc small_fork _ _)); by repeat constructor|].
  reflexivity.
Defined.

(** ** The builder *)

Definition build_inputs : BuildInputs :=
  mkBuildInputs (Addr 60) 5 6 7 8 9 0 (be_ext (block_env model_vm.1)).

(** Builtins, the SPL programs, sysvars and an accepted syscall, no signature check. *)
Definition small_calls : BCalls FeatureConfigSealed FeatureConfigSealed :=
  BThen BSplPrograms (BThen BSysvars (BThen (BSigverify false)
    (BThen (BTransactionHistory 4) (BThen (BCustomSyscall "probe" probe_syscall) BDone)))).

Definition sealed_builder : HpsvmBuilder FeatureConfigSealed :=
  with_builtins (with_feature_set fs_all_enabled (builder_new false)).

Lemma build_respects_plan_witness :
  exists s, build build_inputs model_world (bcalls small_calls sealed_builder) = Some (Ok s) /\
    max_entries (history (state s.1)) = 4%Z /\
    materialized s.1 = mkMaterialized true false true false true /\
    runtime_registry (extensions s.1) = mkRuntimeRegistry [("probe"%string, probe_syscall)] false.
Proof.
  assert (H : match build build_inputs model_world (bcalls small_calls sealed_builder) with
    | Some (Ok _) => true | _ => false end = true) by by_run.
  destruct (build build_inputs model_world (bcalls small_calls sealed_builder)) as [[s|e]|] eqn:Hb;
    [|discriminate H|discriminate H].
  destruct (build_respects_plan build_inputs model_world _ s Hb) as (_ & Hh & Hm & _ & _ & Hr).
  exists s. split; [reflexivity|]. rewrite Hh, Hm, Hr. split_and!; reflexivity.
Defined.

Lemma sealed_builder_fixes_features_witness :
  exists s, build build_inputs model_world (bcalls small_calls sealed_builder) = Some (Ok s) /\
    v_feature_set (version s.1) = fs_all_enabled.
Proof.
  assert (H : match build build_inputs model_world (bcalls small_calls sealed_builder) with
    | Some (Ok _) => true | _ => false end = true) by by_run.
  destruct (build build_inputs model_world (bcalls small_calls sealed_builder)) as [[s|e]|] eqn:Hb;
    [|discriminate H|discriminate H].
  exists s. split; [reflexivity|].
  exact (proj2 (sealed_builder_fixes_features sealed_builder small_calls build_inputs model_world s Hb)).
Defined.

(** A refused syscall, without and with builtins; and builtins without sysvars. *)
Definition refusing {st} (b : HpsvmBuilder st) : HpsvmBuilder st :=
  with_custom_syscall "refused" refused_syscall (with_sysvars b).

Lemma build_errors_exact_witness :
  (exists e, build build_inputs model_world (refusing (builder_new false)) = Some (Err e)) /\
  build build_inputs model_world (refusing (with_builtins (builder_new false))) = None /\
  build build_inputs model_world (with_builtins (builder_new false)) =
    Some (Err (MissingRuntimeComponent "sysvars")).
Proof.
  assert (He : is_err (build_environment (configured_settings
      (plan _ (refusing (builder_new false))) (Builder.fresh_vm build_inputs model_world).1)) = true)
    by by_run.
  assert (He2 : is_err (build_environment (configured_settings
      (plan _ (refusing (with_builtins (builder_new false)))) (Builder.fresh_vm build_inputs model_world).1)) = true)
    by by_run.
  split_and!.
  - destruct (build_errors_exact build_inputs model_world (refusing (builder_new false))) as (_ & H & _).
    destruct (build_environment _) as [x|e] eqn:Hb in He; [discriminate He|]. exists e.
    apply (H e); [reflexivity|discriminate|exact Hb].
  - destruct (build_errors_exact build_inputs model_world (refusing (with_builtins (builder_new false))))
      as (_ & H & _).
    destruct (build_environment _) as [x|e] eqn:Hb in He2; [discriminate He2|].
    apply (H e); [reflexivity|discriminate|exact Hb].
  - apply (build_errors_exact build_inputs model_world (with_builtins (builder_new false))); reflexivity.
Defined.

(** ** Inspection *)

Lemma hooks_bracketed_witness :
  exists r w ob stx n, execute_readonly_impl DynInspector model_vm user_transfer = Some (r, w, ob) /\
    er_included r = true /\ (n <= top_level_count stx)%nat /\
    ob_events ob = bracket stx n (ob_logs ob) (er_tx_result r).
Proof.
  assert (H : match execute_readonly_impl DynInspector model_vm user_transfer with
    | Some (r, _, _) => er_included r | None => false end = true) by by_run.
  destruct (execute_readonly_impl DynInspector model_vm user_transfer) as [[[r w] ob]|] eqn:Hx;
    [|discriminate H].
  destruct (hooks_bracketed DynInspector model_vm user_transfer r w ob Hx)
    as [[Hn _]|[Hi (stx & n & Hn & He & _)]].
  - rewrite H in Hn. discriminate Hn.
  - exists r, w, ob, stx, n. split; [reflexivity|]. auto.
Defined.

(** A user transaction, an airdrop and a batch stage. *)
Definition origin_runs : list (VmSt * VersionedTransaction) :=
  [((set_origin User model_vm.1, model_vm.2), user_transfer);
   ((set_origin InternalAirdrop model_vm.1, model_vm.2), user_transfer);
   ((set_origin (Batch 0 0) model_vm.1, model_vm.2), user_transfer);
   ((set_origin User model_vm.1, model_vm.2), user_transfer)].

Lemma origin_counting_exact_witness :
  exists st, inspected_all OriginCountingInspector origin_runs counts_default = Some st /\
    user_instructions st = wrap_u64 (total_of User origin_runs) /\
    internal_airdrops st = wrap_u64 (total_of InternalAirdrop origin_runs).
Proof.
  assert (H : is_some (inspected_all OriginCountingInspector origin_runs counts_default) = true) by by_run.
  destruct (inspected_all OriginCountingInspector origin_runs counts_default) as [st|] eqn:Hx;
    [|discriminate H].
  exists st. split; [reflexivity|]. exact (origin_counting_exact origin_runs st Hx).
Defined.

(** The totals are not trivial: two user instructions and one of an airdrop. *)
Example origin_totals :
  (total_of User origin_runs, total_of InternalAirdrop origin_runs) = (2%Z, 1%Z).
Proof. by_run. Qed.

(** ** Precompiles *)

(** Two rows, one behind a feature that is not active; verifiers that accept data. *)
Definition accepts_data (data : list byte) (slices : list (list byte)) (features : FeatureSet) :
    result unit nat := match data with [] => Err 1%nat | _ => Ok tt end.
Definition native_table : list NativePrecompile :=
  [mkNativePrecompile (Addr 30) None accepts_data;
   mkNativePrecompile (Addr 31) (Some (Addr 99)) accepts_data].

Lemma native_matches_library_witness :
  is_precompile (NativePrecompiles 0%nat native_table) fs_default (Addr 30) = true /\
  process_precompile 0%nat (NativePrecompiles 0%nat native_table) fs_default (Addr 31) [x01] [] =
    Err 0%nat.
Proof.
  assert (Hnd : NoDup (map np_program_id native_table)).
  { apply (bool_decide_unpack _). vm_compute. exact I. }
  split.
  - rewrite (proj1 (native_matches_library 0%nat native_table fs_default (Addr 30) [] [] Hnd)). by_run.
  - rewrite (proj2 (native_matches_library 0%nat native_table fs_default (Addr 31) [x01] [] Hnd)). by_run.
Defined.
