(* ===== verification/HelperWitnesses.v ===== *)
(** * The helpers around the VM at concrete inputs

    Key pairs, loader and token instructions for the VM of [TxModel], with the laws the
    theorems use, and the theorems of [SvmInstruction], [Loader] and [TokenFacts]
    applied to runs of it. *)

From Stdlib Require Import ZArith Lia Strings.Byte.
From stdpp Require Import base tactics option list sets gmap strings relations.
From S2P Require Import Prelude.
From S2P Require Import Types.
From S2P Require Import AccountSource.
From S2P Require Import Errors.
From S2P Require Import Lru.
From S2P Require Import History.
From S2P Require Import Runtime.
From S2P Require Import AccountsDb.
From S2P Require Import OverlayReads.
From S2P Require Import RuntimeModel.
From S2P Require Import FeePayer.
From S2P Require Import Version.
From S2P Require Import TxRuntime.
From S2P Require Import Svm.
From S2P Require Import Execution.
From S2P Require Import Staging.
From S2P Require Import SvmInstruction.
From S2P Require Import Wallet.
From S2P Require Import Loader.
From S2P Require Import Token.
From S2P Require Import TokenFacts.
From S2P Require Import TxModel.
From S2P Require Import VmModel.
From S2P Require Import Witnesses.

(** ** A declared builtin *)

(** Only a writable account changes, and only its owner's program changes its data. *)
#[export] Instance model_borrow_rules : BorrowRules := {|
  lamports_guard _ ia _ _ := if ia_is_writable ia then Ok tt else Err (OtherInstructionError 14);
  data_guard program ia a d delta :=
    if ia_is_writable ia && bool_decide (acc_owner a = program)
    then Ok (delta + Z.of_nat (length d) - Z.of_nat (length (acc_data a)))%Z
    else Err (OtherInstructionError 15);
  owner_guard program ia a _ :=
    if ia_is_writable ia && bool_decide (acc_owner a = program) then Ok tt else Err (OtherInstructionError 11);
  consume_checked units meter :=
    if (units <=? meter)%Z then (Ok tt, (meter - units)%Z) else (Err (OtherInstructionError 37), 0%Z)
|}.

(** An instruction that names the account at 50 twice. *)
Definition twice_ctx : InvokeCtx :=
  mkInvokeCtx [(Addr 50, wallet 100); (Addr 51, wallet 7)] 0 (Addr 90) [x01]
    [mkInstrAccount 0 true true; mkInstrAccount 1 false true; mkInstrAccount 0 true true] 1000.

(** Ten lamports from the first copy to the second account. *)
Definition move_ten (ctx : SvmInstructionCtx) : result SvmInstructionCtx InstructionError :=
  let set n (a : SvmInstructionAccount) :=
    mkSvmInstructionAccount (sia_key a) (sia_is_signer a) (sia_is_writable a) n (sia_data a) (sia_owner a)
      (sia_index_in_transaction a) in
  match sic_accounts ctx with
  | a :: b :: rest =>
      Ok (mkSvmInstructionCtx (sic_program_id ctx)
            (set (sia_lamports a - 10)%Z a :: set (sia_lamports b + 10)%Z b :: rest) (sic_data ctx))
  | _ => Err MissingAccount
  end.

(** The credit stays and the debit is undone. *)
Lemma entrypoint_last_copy_wins_witness :
  exists c', entrypoint 150 move_ten twice_ctx = (Ok tt, c') /\ ic_meter c' = 850%Z /\
    exists copies ctx', move_ten (mkSvmInstructionCtx (Addr 90) copies [x01]) = Ok ctx' /\
      (exists y, tc_accounts c' !! 0 = Some y /\
         written (last_copy (ic_accounts twice_ctx) (sic_accounts ctx') 0) (Addr 50, wallet 100) y) /\
      option_map (fun y => lamports y.2) (tc_accounts c' !! 0) = Some 100%Z /\
      option_map (fun y => lamports y.2) (tc_accounts c' !! 1) = Some 17%Z.
Proof.
  destruct (entrypoint 150 move_ten twice_ctx) as [r c'] eqn:H.
  assert (Hr : (entrypoint 150 move_ten twice_ctx).1 = Ok tt) by by_run.
  assert (Hl : map (fun y => lamports y.2) (tc_accounts (entrypoint 150 move_ten twice_ctx).2) =
               [100; 17]%Z) by by_run.
  assert (Hm : ic_meter (entrypoint 150 move_ten twice_ctx).2 = 850%Z) by by_run.
  rewrite H in Hr, Hl, Hm. cbn [fst snd] in Hr, Hl, Hm. subst r. exists c'. split; [reflexivity|].
  split; [exact Hm|].
  destruct (entrypoint_last_copy_wins 150 move_ten twice_ctx c' H)
    as (copies & ctx' & _ & _ & He & _ & _ & Hw).
  exists copies, ctx'. split; [exact He|]. split; [exact (Hw 0%nat _ eq_refl)|].
  destruct (tc_accounts c') as [|x [|y [|z l]]]; try discriminate Hl.
  injection Hl as Hx Hy. cbn. rewrite Hx, Hy. split; reflexivity.
Defined.

(** ** Key pairs *)

Record model_transaction : Type := mkModelTransaction {
  mtr_instructions : list Instruction;
  mtr_payer : Address;
  mtr_signatures : option (Hash * list Address)
}.

Definition model_required (t : model_transaction) : list Address :=
  mtr_payer t ::
  concat (map (fun ix => map meta_pubkey (filter (fun m => is_signer m = true) (ix_accounts ix)))
            (mtr_instructions t)).

Definition model_signed (h : Hash) (t : model_transaction) : list Address :=
  match mtr_signatures t with
  | Some (h', l) => if decide (h' = h) then l else []
  | None => []
  end.

Definition model_partial_sign (keys : list Address) (h : Hash) (t : model_transaction) :
    option model_transaction :=
  if bool_decide (Forall (fun k => k ∈ model_required t) keys) then
    Some (mkModelTransaction (mtr_instructions t) (mtr_payer t) (Some (h, keys ++ model_signed h t)))
  else None.

Definition model_sign (keys : list Address) (h : Hash) (t : model_transaction) : option model_transaction :=
  match model_partial_sign keys h t with
  | Some t' =>
      if bool_decide (Forall (fun a => a ∈ model_signed h t') (model_required t')) then Some t' else None
  | None => None
  end.

(** The message of [VmModel], with the program's account read-only and a signature that
    tells the instruction data apart. *)
Definition model_into_versioned (t : model_transaction) : model_tx :=
  let h := match mtr_signatures t with Some (h, _) => h | None => mkHash 0 end in
  let m := model_message (mtr_instructions t) (mtr_payer t) h in
  mkModelTx (Sig (1 + le_decode 8 (concat (map ix_data (mtr_instructions t))))) (mt_keys m)
    (pred (length (mt_keys m))) (mt_instructions m) h.

#[export] Instance model_wallet : Wallet := {|
  Keypair := Address;
  kp_pubkey k := k;
  Transaction := model_transaction;
  new_with_payer ixs payer := mkModelTransaction ixs payer None;
  partial_sign := model_partial_sign;
  sign := model_sign;
  required_signers := model_required;
  signed_by h t a := a ∈ model_signed h t;
  into_versioned := model_into_versioned
|}.

#[export] Instance model_wallet_laws : WalletLaws.
Proof.
  constructor.
  - intros ixs payer a. cbn. unfold model_required. cbn. rewrite elem_of_cons.
    apply or_iff_compat_l. unfold instruction_signer. induction ixs as [|ix ixs IH]; cbn.
    { split; [by intros ?%not_elem_of_nil|]. by intros (ix & ?%not_elem_of_nil & _). }
    rewrite elem_of_app, IH. split.
    + intros [H|(ix' & Hin & H)].
      * apply list_elem_of_fmap in H as (m & -> & Hm). apply list_elem_of_filter in Hm as [Hs Hm].
        exists ix. split; [by left|]. by exists m.
      * exists ix'. split; [by right|done].
    + intros (ix' & Hin & m & Hm & Hs & <-). apply elem_of_cons in Hin as [->|Hin].
      * left. apply list_elem_of_fmap. exists m. split; [done|]. by apply list_elem_of_filter.
      * right. exists ix'. split; [done|]. by exists m.
  - intros ixs payer h a. cbn. apply not_elem_of_nil.
  - intros keys h t Hk. cbn in *. unfold model_partial_sign. rewrite bool_decide_eq_true_2.
    2: { apply Forall_forall. exact Hk. }
    eexists. split; [reflexivity|]. split; [reflexivity|]. intros a. unfold model_signed at 1. cbn.
    rewrite decide_True by done. rewrite elem_of_app. split; [intros [H|H]; [right; by exists a|by left]|].
    intros [H|(k & H & <-)]; [by right|by left].
  - intros keys h t k Hk Hn. cbn in *. unfold model_partial_sign. rewrite bool_decide_eq_false_2; [done|].
    rewrite Forall_forall. intros H. by apply Hn, H.
  - intros keys h t t'. cbn. unfold model_sign. destruct (model_partial_sign keys h t) as [t1|]; [|naive_solver].
    case_bool_decide as Hb; rewrite Forall_forall in Hb; naive_solver.
Qed.

(** ** A deployment *)

(** Instructions the program at 40 accepts: a transfer of nothing, with the request in
    the rest of the data. *)
Definition model_ix (signers others : list Address) (data : list byte) : Instruction :=
  mkInstruction (Addr 40)
    (map (fun k => mkAccountMeta k true true) signers ++ map (fun k => mkAccountMeta k false true) others)
    (x00 :: data).

#[export] Instance model_loader : LoaderInterface := {|
  size_of_buffer n := (n + 37)%Z;
  loader_create_buffer payer buffer _ _ _ := Ok [model_ix [payer; buffer] [] [x01]];
  loader_write buffer payer offset chunk :=
    model_ix [payer] [buffer] (x02 :: le_encode 4 (Z.to_N offset) ++ chunk);
  loader_deploy_with_max_program_len payer program buffer _ _ _ :=
    Ok [model_ix [payer; program] [buffer] [x03]];
  loader_set_upgrade_authority program authority _ := model_ix [authority] [program] [x04]
|}.

(** A program of two chunks. *)
Definition uploaded : list byte := repeat x7f 512 ++ repeat x01 88.

Definition key_50 : Keypair := Addr 50.
Definition key_70 : Keypair := Addr 70.
Definition key_71 : Keypair := Addr 71.
Definition deployment : option (result unit FailedTransactionMetadata * VmSt * list InspectorEvent) :=
  deploy_upgradeable_program key_70 key_50 key_71 uploaded model_vm.

Lemma deploy_uploads_program_witness :
  exists s' ev, deployment = Some (Ok tt, s', ev) /\ map fst (program_writes uploaded) = [0; 512]%Z /\
    foldl apply_write (repeat x00 600) (program_writes uploaded) = uploaded.
Proof.
  assert (H : match deployment with Some (Ok _, _, _) => true | _ => false end = true) by by_run.
  destruct deployment as [[[[[]|e] s'] ev]|] eqn:Hd; [|discriminate H|discriminate H].
  exists s', ev. split; [reflexivity|]. split; [by_run|].
  destruct (deploy_uploads_program key_70 key_50 key_71 uploaded model_vm s' ev Hd)
    as (c & d & s1 & s2 & ev1 & ev2 & ev3 & _ & _ & _ & _ & _ & _ & _ & Ha).
  apply Ha. reflexivity.
Defined.

(** ** Token instructions *)

(** A mint packs as a mark, its decimals and its supply. *)
Definition model_mint_pack : Pack Mint := {|
  pack_LEN := 3%nat;
  unpack data :=
    match data with
    | [x01; d; n] => Ok (mkMint None (byte_to_Z n) (byte_to_Z d) true None)
    | _ => Err 9%Z
    end;
  pack_into m buffer :=
    if bool_decide (length buffer = 3%nat) then
      Ok [if mint_is_initialized m then x01 else x00;
          default x00 (of_N (Z.to_N (mint_decimals m))); default x00 (of_N (Z.to_N (mint_supply m)))]
    else Err 4%Z;
  pack_initialized m :=
    mint_is_initialized m && bool_decide (mint_authority m = None) &&
    bool_decide (mint_freeze_authority m = None) &&
    ((0 <=? mint_decimals m) && (mint_decimals m <? 256) && (0 <=? mint_supply m) && (mint_supply m <? 256))%Z
|}.

(** The lone token state: an amount, never packed by the examples. *)
Definition model_token_pack : Pack Z := {|
  pack_LEN := 1%nat;
  unpack data := match data with [b] => Ok (byte_to_Z b) | _ => Err 9%Z end;
  pack_into a buffer := Ok (le_encode 1 (Z.to_N a));
  pack_initialized _ := false
|}.

#[export] Instance model_token : TokenInterface := {|
  token_2022 := false;
  TOKEN_ID := Addr 40;
  SPL_TOKEN_ID := Addr 40;
  SPL_TOKEN_2022_ID := Addr 41;
  NATIVE_MINT_ID := Addr 42;
  NATIVE_MINT_DECIMALS := 9;
  AuthorityType := N;
  TokenAccount := Z;
  MULTISIG_LEN := 4%nat;
  mint_pack := model_mint_pack;
  token_account_pack := model_token_pack;
  initialized_token_account _ _ amount := amount;
  extended_account_len := Ok 1%Z;
  extended_mint_len := Ok 3%Z;
  get_associated_token_address wallet mint program :=
    Addr (1000 + address_num wallet * 100 + address_num mint);
  authorized program op authority signers :=
    Ok (mkInstruction program
          (map (fun k => mkAccountMeta k true true) (instruction_keys authority signers)) [x00]);
  sync_native program account := Ok (model_ix [] [account] [x05]);
  initialize_account3 program account mint owner := Ok (model_ix [] [account; mint; owner] [x06]);
  initialize_mint2 program mint authority _ _ := Ok (model_ix [] [mint; authority] [x07]);
  initialize_multisig2 program multisig signers _ := Ok (model_ix [] (multisig :: signers) [x08]);
  create_associated_token_account payer wallet mint program := model_ix [payer] [wallet; mint] [x09];
  create_associated_token_account_idempotent payer wallet mint program :=
    model_ix [payer] [wallet; mint] [x0a];
  create_native_mint_2022 program payer := Ok (model_ix [payer] [] [x0b]);
  system_create_account payer account _ _ _ := model_ix [payer; account] [] [x0c]
|}.

#[export] Instance model_token_laws : TokenLaws.
Proof.
  constructor. intros program op authority signers ix a. cbn. intros [= <-]. unfold instruction_signer. cbn. split.
  - intros (m & Hm & _ & <-). apply list_elem_of_fmap in Hm as (k & -> & Hk). exact Hk.
  - intros Ha. exists (mkAccountMeta a true true). split; [|done]. apply list_elem_of_fmap. by exists a.
Qed.

#[export] Instance model_mint_laws : PackLaws Mint.
Proof.
  constructor. intros m buffer Hl. cbn in *. rewrite bool_decide_eq_true_2 by done.
  eexists. split; [reflexivity|]. split; [reflexivity|]. intros H.
  destruct m as [[k|] supply decimals [] [f|]]; cbn in H; try discriminate H.
  apply andb_true_iff in H as [[[H1 H2]%andb_true_iff H3]%andb_true_iff H4]. cbn.
  assert (Hb : forall z, (0 <= z < 256)%Z -> byte_to_Z (default x00 (of_N (Z.to_N z))) = z).
  { intros z Hz. unfold byte_to_Z. destruct (of_N (Z.to_N z)) as [b|] eqn:E; cbn.
    - apply to_of_N in E. rewrite E. lia.
    - apply of_N_None_iff in E. lia. }
  rewrite !Hb by lia. done.
Qed.

(** A transfer by the payer, by an owner, by a multisig and by an owner again. *)
(** A multisig with signers, and one without. *)
Lemma token_builders_sign_completely_witness :
  (let b := foldl apply_call (transfer_new key_50 (Addr 60) (Addr 61) 5)
              [CallOwner key_70; CallMultisig (Addr 80) [key_70; key_71]] in
   (exists e, transfer_send b model_vm = Some (Err e, model_vm, [])) \/
   exists t, transfer_send b model_vm = send_versioned (into_versioned t) model_vm /\
     forall a, a ∈ required_signers t -> signed_by (latest_blockhash (block_env model_vm.1)) t a) /\
  (let b := foldl apply_call (transfer_new key_50 (Addr 60) (Addr 61) 5) [CallMultisig (Addr 80) []] in
   (exists e, transfer_send b model_vm = Some (Err e, model_vm, [])) \/
   exists t, transfer_send b model_vm = send_versioned (into_versioned t) model_vm /\
     Addr 80 ∈ required_signers t /\ ~ signed_by (latest_blockhash (block_env model_vm.1)) t (Addr 80)).
Proof.
  split; intros b.
  - pose proof (token_builders_sign_completely (transfer_new key_50 (Addr 60) (Addr 61) 5)
      [CallOwner key_70; CallMultisig (Addr 80) [key_70; key_71]] model_vm eq_refl eq_refl) as H0.
    destruct H0 as [H|(t & Hs & _ & Ht)]; [left; exact H|right].
    exists t. split; [exact Hs|]. intros a Ha. apply (Ht a Ha). intros [H _]. discriminate H.
  - pose proof (token_builders_sign_completely (transfer_new key_50 (Addr 60) (Addr 61) 5)
      [CallMultisig (Addr 80) []] model_vm eq_refl eq_refl) as H0.
    destruct H0 as [H|(t & Hs & Hm & Ht)]; [left; exact H|right].
    pose proof (Hm (Addr 80) eq_refl) as Hin. exists t. split; [exact Hs|]. split; [exact Hin|].
    intros Hsig. apply (Ht _ Hin) in Hsig. apply Hsig. split; [reflexivity|discriminate].
Defined.

Lemma factory_reads_back_witness :
  let m := mkMint None 12 6 true None in
  exists acc s', keyed_mint_account (Addr 60) m = Some (Addr 60, acc) /\
    set_keyed_account (Addr 60, acc) model_vm = (Ok tt, s') /\
    get_spl_account Mint s'.1 (Addr 60) = Ok m.
Proof.
  intros m.
  destruct (factory_reads_back m TOKEN_ID (Addr 60) model_vm) as (acc & s' & Ha & Hs & Hg & _);
    [reflexivity|by_run|by_run|by_run|].
  exists acc, s'. split; [|split; [exact Hs|exact Hg]].
  unfold keyed_mint_account, mint_account, mint_account_with_program. rewrite Ha. reflexivity.
Defined.

(** A freeze authority with an owner and another token program. *)
Lemma freeze_reaches_own_account_witness :
  let b := freeze_account_token_program_id (Addr 41)
             (freeze_account_owner key_70 (freeze_account_new key_50 (Addr 60))) in
  rtc freeze_step (freeze_account_new key_50 (Addr 60)) b /\
  freeze_account_send b model_vm =
  hbind (from_program (authorized (Addr 41)
           (OpFreezeAccount (get_associated_token_address (Addr 70) (Addr 60) (Addr 41)) (Addr 60)) (Addr 70) []))
    (sign_and_send key_50 [key_70]) model_vm.
Proof.
  intros b.
  assert (H : rtc freeze_step (freeze_account_new key_50 (Addr 60)) b).
  { eapply rtc_l; [left; exists key_70; reflexivity|].
    eapply rtc_l; [right; right; exists (Addr 41); reflexivity|apply rtc_refl]. }
  split; [exact H|]. exact (proj1 (freeze_reaches_own_account key_50 (Addr 60) model_vm) b H).
Defined.
