(* ===== verification/ToolWitnesses.v ===== *)
(** * The tools at concrete inputs

    A file system, a codec of FireDancer messages and a feature table for the command
    line, the FireDancer model, the traces and the logs, and their theorems applied. *)

From Stdlib Require Import ZArith NArith Lia Strings.Byte Strings.String.
From stdpp Require Import base tactics option list sorting sets gmap strings.
From S2P Require Import Prelude.
From S2P Require Import Types.
From S2P Require Import Errors.
From S2P Require Import Lru.
From S2P Require Import History.
From S2P Require Import Runtime.
From S2P Require Import AccountsDb.
From S2P Require Import RuntimeModel.
From S2P Require Import FeePayer.
From S2P Require Import Version.
From S2P Require Import TxRuntime.
From S2P Require Import Svm.
From S2P Require Import Execution.
From S2P Require Import Staging.
From S2P Require Import VmPrograms.
From S2P Require Import VmOps.
From S2P Require Import Fixture.
From S2P Require Import FixtureFacts.
From S2P Require Import FixtureRun.
From S2P Require Import Cli.
From S2P Require Import CliFacts.
From S2P Require Import Bench.
From S2P Require Import Firedancer.
From S2P Require Import FiredancerFacts.
From S2P Require Import Commands.
From S2P Require Import CommandsFacts.
From S2P Require Import Logs.
From S2P Require Import Tracing.
From S2P Require Import FdModel.
From S2P Require Import FdModelFacts.
From S2P Require Import TxModel.
From S2P Require Import DeployModel.
From S2P Require Import VmModel.
From S2P Require Import FixtureModel.
From S2P Require Import Witnesses.
From S2P Require Import FixtureWitnesses.

#[local] Existing Instance model_report_codec.
#[local] Instance ByteSlice_eq_dec : EqDecision ByteSlice.
Proof. solve_decision. Defined.

(** ** Commands *)

(** A context whose program id has one byte. *)
Definition short_input : InstrContext := mkInstrContext [x07] [] [] [] 10 None None.
Definition short_output : InstrEffects := mkInstrEffects 0 0 [] 5 [].

(** Two messages; the other formats give the first. *)
#[local] Instance model_fd_codec : FiredancerCodec := {|
  proto_encode _ := [x01];
  proto_decode bytes :=
    match bytes with
    | [x01] => Ok fd_message
    | [x02] => Ok (mkInstrFixture None (Some short_input) (Some short_output))
    | _ => Err "unexpected end"%string
    end;
  fd_json_encode _ := Ok [x01];
  fd_json_decode _ := Ok fd_message
|}.

#[local] Instance model_build : Build := {| fd_compat := true |}.

Definition cli_env : Env := mkEnv (Addr 70) bench_stamp (fun _ => cli_vm).
Definition cli_os : Os := mkOs model_disk empty_disk (fun _ => None) cli_vm.2 [].
Definition record_case : Command := FixtureCmd (Record_ model_request).
Definition run_case : Command :=
  FixtureCmd (Run (path_of_string "out/case.json") FormatHpsvm ["90=p.so"%string]).


(** A directory with the recorded fixture twice, a file that is none and a subdirectory;
    and one with a fixture that misses its expectations. *)
Definition out_dir : Path := path_of_string "out".
Definition out_entries : list (Path * bool) :=
  [(path_of_string "out/notes.txt", true); (path_of_string "out/case.json", true);
   (path_of_string "out/old.json", false); (path_of_string "out/again.json", true)].
Definition bad_entries : list (Path * bool) :=
  [(path_of_string "out/missing.json", true); (path_of_string "out/case.json", true)].
Definition dir_os (entries : list (Path * bool)) : Os :=
  match main cli_env record_case cli_os with
  | Some (_, o) =>
      let files := disk_files (os_disk o) in
      mkOs (mkDisk (<[path_of_string "out/missing.json" := list_byte_of_string (String (letter 2) "")]>
                      (partial_alter (fun _ => files !! path_of_string "out/case.json")
                         (path_of_string "out/again.json") files)) (fun _ => None))
        (os_reports o) (fun _ => Some entries) cli_vm.2 []
  | None => cli_os
  end.
Definition run_out : Command := FixtureCmd (Run out_dir FormatHpsvm ["90=p.so"%string]).

(** What is printed, when it is the two passes, or the pass and the failure. *)
Definition two_passes (l : list Line) : bool :=
  match l with [Pass a; Pass b] => String.eqb a "case" && String.eqb b "case" | _ => false end.
Definition pass_then_fail (l : list Line) : bool :=
  match l with
  | [Pass a; Note n; Fail b; Diagnostic (CmdCli (ComparisonFailed c))] =>
      String.eqb a "case" && String.eqb n "comparison failed: Fee" && String.eqb b "missing" &&
      String.eqb c "missing"
  | _ => false
  end.

Lemma two_passes_spec l : two_passes l = true -> l = map Pass ["case"%string; "case"%string].
Proof. destruct l as [|[] [|[] []]]; try done. by intros [->%String.eqb_eq ->%String.eqb_eq]%andb_prop. Qed.

Lemma pass_then_fail_spec l : pass_then_fail l = true ->
  l = [Pass "case"; Note "comparison failed: Fee"; Fail "missing";
       Diagnostic (CmdCli (ComparisonFailed "missing"))].
Proof.
  destruct l as [|[] [|[] [|[] [|[?|?|?|?|?|[[]| | | |]] []]]]]; try done. cbn.
  by intros [[[->%String.eqb_eq ->%String.eqb_eq]%andb_prop ->%String.eqb_eq]%andb_prop ->%String.eqb_eq]%andb_prop.
Qed.

(** The files a listing names, those that are fixtures. *)
Definition accepted (entries : list (Path * bool)) : list Path :=
  map fst (filter (fun x => x.2 && is_fixture_file FormatHpsvm x.1 = true) entries).

(** What is printed about a fixture that fails. *)
Lemma fails_lines e format programs d w bad error last w' :
  fails_with e format programs d w bad error last w' -> last = [] \/ exists n c, last = [Note n; Fail c].
Proof. intros []; eauto. Qed.

Lemma directory_verdict_witness :
  (exists o' programs fixtures, main cli_env run_out (dir_os out_entries) = Some (0%Z, o') /\
     fixtures ≡ₚ accepted out_entries /\ StronglySorted path_le fixtures /\
     pass_in_turn cli_env FormatHpsvm programs (os_disk (dir_os out_entries))
       (os_world (dir_os out_entries)) fixtures ["case"; "case"]%string (os_world o') /\
     os_printed o' = [Pass "case"; Pass "case"]) /\
  (exists o' programs bad w, main cli_env run_out (dir_os bad_entries) = Some (1%Z, o') /\
     fails_with cli_env FormatHpsvm programs (os_disk (dir_os bad_entries)) w bad
       (CmdCli (ComparisonFailed "missing")) [Note "comparison failed: Fee"; Fail "missing"] (os_world o') /\
     os_printed o' = [Pass "case"; Note "comparison failed: Fee"; Fail "missing";
                      Diagnostic (CmdCli (ComparisonFailed "missing"))]).
Proof.
  split.
  - assert (H : match main cli_env run_out (dir_os out_entries) with
      | Some (0%Z, o') => two_passes (os_printed o') &&
          is_ok (parse_program_map ["90=p.so"%string] (os_disk (dir_os out_entries)))
      | _ => false end = true) by by_run.
    assert (Hl : bool_decide (os_listing (dir_os out_entries) out_dir = Some out_entries) = true) by by_run.
    assert (Hq : match os_printed (dir_os out_entries) with [] => true | _ => false end = true) by by_run.
    revert H Hl Hq. generalize (dir_os out_entries). intros o H Hl Hq.
    apply bool_decide_eq_true in Hl.
    destruct (main cli_env run_out o) as [[[|?|?] o']|] eqn:Hm; try discriminate H.
    apply andb_prop in H as [Ht H]. apply two_passes_spec in Ht.
    destruct (parse_program_map ["90=p.so"%string] (os_disk o)) as [programs|] eqn:Hp; [|discriminate H].
    destruct (os_printed o) eqn:Hn; [|discriminate Hq].
    destruct (directory_verdict cli_env out_dir FormatHpsvm ["90=p.so"%string] programs out_entries o o' 0
                Hl Hp Hm) as (fixtures & Hin & Hs & [(_ & _ & names & Hf & Ho)|[[E _]|[E _]]]);
      [|discriminate E|discriminate E].
    rewrite Hn, Ht in Ho.
    destruct names as [|? [|? []]]; try discriminate Ho. injection Ho as <- <-.
    exists o', programs, fixtures. split_and!; [reflexivity|exact Hin|exact Hs|exact Hf|exact Ht].
  - assert (H : match main cli_env run_out (dir_os bad_entries) with
      | Some (1%Z, o') => pass_then_fail (os_printed o') &&
          is_ok (parse_program_map ["90=p.so"%string] (os_disk (dir_os bad_entries)))
      | _ => false end = true) by by_run.
    assert (Hl : bool_decide (os_listing (dir_os bad_entries) out_dir = Some bad_entries) = true) by by_run.
    assert (Hq : match os_printed (dir_os bad_entries) with [] => true | _ => false end = true) by by_run.
    revert H Hl Hq. generalize (dir_os bad_entries). intros o H Hl Hq.
    apply bool_decide_eq_true in Hl.
    destruct (main cli_env run_out o) as [[[|[]|?] o']|] eqn:Hm; try discriminate H.
    apply andb_prop in H as [Ht H]. apply pass_then_fail_spec in Ht.
    destruct (parse_program_map ["90=p.so"%string] (os_disk o)) as [programs|] eqn:Hp; [|discriminate H].
    destruct (os_printed o) eqn:Hn; [|discriminate Hq].
    destruct (directory_verdict cli_env out_dir FormatHpsvm ["90=p.so"%string] programs bad_entries o o' 1
                Hl Hp Hm) as (fixtures & _ & _ & [[E _]|[(_ & _ & Ho)|(_ & before & bad & after & names
                  & error & w & last & _ & _ & Hr & Ho)]]); [discriminate E| |];
      rewrite Hn, Ht in Ho; [discriminate Ho|].
    exists o', programs, bad, w. split; [reflexivity|]. split; [|exact Ht].
    destruct (fails_lines _ _ _ _ _ _ _ _ _ Hr) as [-> | (n & c & ->)];
      destruct names as [|? [|? [|? [|? ?]]]]; try discriminate Ho.
    injection Ho as _ -> -> <-. exact Hr.
Defined.

Lemma commands_write_only_output_witness :
  exists o', main cli_env record_case cli_os = Some (0%Z, o') /\
    forall p, disk_files (os_disk o') !! p <> disk_files model_disk !! p -> p = path_of_string "out/case.json".
Proof.
  assert (H : match main cli_env record_case cli_os with Some (0%Z, _) => true | _ => false end = true) by by_run.
  destruct (main cli_env record_case cli_os) as [[[|?|?] o']|] eqn:Hm; try discriminate H.
  exists o'. split; [reflexivity|]. exact (proj1 (commands_write_only_output cli_env record_case cli_os o' 0 Hm)).
Defined.

(** ** The FireDancer model *)

(** Features whose ids differ in the first eight bytes, and two that share them. *)
Definition feature (n : N) : Address := Addr (n * 2 ^ 192).
Definition twin : Address := Addr (2 ^ 192 * 9 + 1).

Definition fd_runtime (order : list Address -> list Address) : FdRuntime := {|
  known_features := {[feature 1; feature 2; feature 9; twin]};
  disable_sbpf_v0_execution_ID := feature 9;
  reenable_sbpf_v0_execution_ID := twin;
  set_iter s := order (elements s);
  map_keys m := order (map_to_list m).*1;
  keccak l := mkHash (N.of_nat (length l))
|}.

Lemma first_two (a b c d h : Address) :
  h ∈ ({[a; b; c; d]} : gset Address) -> h ∉ [c; d] -> h = a \/ h = b.
Proof. set_solver. Qed.

Lemma fd_runtime_laws order : (forall l, order l ≡ₚ l) -> FdLaws (fr := fd_runtime order).
Proof.
  intros Ho. constructor; cbn [set_iter map_keys fd_runtime].
  - intros s. apply Ho.
  - intros m. apply Ho.
  - intros f g Hf Hg Hnf Hng Hd. cbn [known_features fd_runtime OMITTED_FEATURES
      disable_sbpf_v0_execution_ID reenable_sbpf_v0_execution_ID] in *.
    destruct (first_two _ _ _ _ f Hf Hnf) as [-> | ->], (first_two _ _ _ _ g Hg Hng) as [-> | ->];
      [reflexivity|exfalso; revert Hd; vm_compute; discriminate|exfalso; revert Hd; vm_compute; discriminate
      |reflexivity].
Qed.

Definition fd_model : FdFixture :=
  mkFdFixture (Some "process"%string)
    (mkFdContext (Addr 90) [(Addr 50, wallet 9, Some (mkSeedAddress [x01] [x02] [x03]))]
       [mkInstructionAccount 0 true true] [x01] 200 7
       (mkFdFeatureSet {[feature 1 := 5%Z; feature 9 := 6%Z]} {[feature 2; twin]}))
    (mkFdEffects 0 0 [(Addr 50, wallet 8, None)] 190 []).

Definition fd_runtime_1 : FdRuntime := fd_runtime id.
Definition fd_laws_1 : FdLaws (fr := fd_runtime_1) := fd_runtime_laws id (fun l => Permutation_refl l).
Definition fd_runtime_2 : FdRuntime := fd_runtime reverse.
Definition fd_laws_2 : FdLaws (fr := fd_runtime_2) := fd_runtime_laws reverse reverse_Permutation.

Lemma fd_model_roundtrip_witness :
  @to_model fd_runtime_1 (@proto_of_fd_fixture fd_runtime_1 fd_model) =
  Some (@canonical_fixture fd_runtime_1 fd_model).
Proof.
  apply (@fd_model_roundtrip fd_runtime_1 fd_laws_1 fd_model).
  unfold fd_fixture_ok. split; [reflexivity|]. split; [repeat constructor; reflexivity|].
  split; [repeat constructor; cbn; lia|]. split; [|repeat constructor; reflexivity].
  apply (bool_decide_unpack _). vm_compute. exact I.
Defined.

Lemma account_index_truncated_witness :
  fd_instr_account_of_proto (mkInstrAcct 65539 true false) = mkInstructionAccount 3 false true.
Proof.
  assert (H : (0 <= 3 < 65536)%Z) by lia. exact (account_index_truncated 3 true false H).
Defined.

Lemma hash_order_independent_witness :
  hash_input (@proto_of_fd_fixture fd_runtime_1 fd_model) =
  hash_input (@proto_of_fd_fixture fd_runtime_2 fd_model).
Proof. exact (hash_order_independent fd_runtime_1 fd_runtime_2 fd_laws_1 fd_laws_2 fd_model eq_refl eq_refl). Defined.

#[local] Instance model_proto_ranges : ProtoRanges.
Proof.
  constructor. intros data p e. cbn.
  destruct data as [|[] [|]]; try done; intros [= <-] [= <-]; cbn; lia.
Qed.

(** A program id of one byte. *)
Lemma fuzz_target_exact_witness :
  @decode_firedancer_fixture fd_runtime_1 _ _ [x02] = FuzzPanics.
Proof.
  assert (Hd : proto_decode [x02] = Ok (mkInstrFixture None (Some short_input) (Some short_output)))
    by reflexivity.
  apply (@fuzz_target_exact fd_runtime_1 _ _ _ [x02] _ short_input short_output Hd eq_refl eq_refl).
  intros [H _]. discriminate H.
Defined.

(** ** Traces and logs *)

(** A file system of directories and files by path; the working directory is [/work]. *)
Record model_fs : Type := mkModelFs {
  mf_dirs : gset (list string);
  mf_files : gmap (list string) (list byte)
}.

Definition mf_exists (p : list string) (fs : model_fs) : bool :=
  bool_decide (p ∈ mf_dirs fs \/ p ∈ dom (mf_files fs)).

(** Every directory on the way to a path, and the path. *)
Definition prefixes (p : list string) : gset (list string) :=
  list_to_set (map (fun n => take n p) (seq 0 (S (length p)))).

Definition mf_create_dir_all (p : list string) : M model_fs string unit := fun fs =>
  if bool_decide (prefixes p ## dom (mf_files fs))
  then (Ok tt, mkModelFs (prefixes p ∪ mf_dirs fs) (mf_files fs))
  else (Err "File exists"%string, fs).

Definition mf_create_file (p : list string) : M model_fs string unit := fun fs =>
  if bool_decide (removelast p ∈ mf_dirs fs /\ p ∉ mf_dirs fs)
  then (Ok tt, mkModelFs (mf_dirs fs) (<[p := []]> (mf_files fs)))
  else (Err "No such file or directory"%string, fs).

Definition mf_write_file (p : list string) (bytes : list byte) : M model_fs string unit := fun fs =>
  match mf_files fs !! p with
  | Some old => (Ok tt, mkModelFs (mf_dirs fs) (<[p := old ++ bytes]> (mf_files fs)))
  | None => (Err "Bad file descriptor"%string, fs)
  end.

#[local] Instance model_trace_os : TraceOs := {|
  Fs := model_fs;
  current_dir _ := Ok ["work"%string];
  canonicalize fs p := if mf_exists p fs then Some p else None;
  create_dir_all := mf_create_dir_all;
  create_file := mf_create_file;
  write_file := mf_write_file;
  sha256_hex _ := "00"%string;
  insn_at _ _ := Some [x95];
  disassembly _ := [];
  metrics_json _ := [];
  address_text _ := "program"%string;
  error_text _ := "error"%string
|}.

Lemma prefixes_self p : p ∈ prefixes p.
Proof.
  unfold prefixes. apply elem_of_list_to_set, list_elem_of_fmap. exists (length p).
  split; [by rewrite take_ge|]. apply elem_of_seq. lia.
Qed.

(** What exists goes on existing when files are added. *)
Lemma mf_exists_grows p fs files :
  dom (mf_files fs) ⊆ dom files -> mf_exists p fs = true -> mf_exists p (mkModelFs (mf_dirs fs) files) = true.
Proof.
  unfold mf_exists. intros Hs [H|H]%bool_decide_eq_true; apply bool_decide_eq_true; cbn; [by left|right].
  by apply Hs.
Qed.

#[local] Instance model_trace_laws : TraceOsLaws.
Proof.
  assert (Hres : forall fs fs' q c, (mf_exists q fs = true -> mf_exists q fs' = true) ->
    (if mf_exists q fs then Some q else None) = Some c -> (if mf_exists q fs' then Some q else None) = Some c).
  { intros fs fs' q c H. destruct (mf_exists q fs); [|done]. by rewrite H. }
  constructor; cbn.
  - intros p fs fs'. unfold mf_create_dir_all. case_bool_decide; [|done]. intros [= <-]. split; [done|].
    exists p. unfold mf_exists. rewrite bool_decide_true; [done|]. left. apply elem_of_union_l, prefixes_self.
  - done.
  - intros p fs q c. apply Hres. unfold mf_create_file. case_bool_decide; [|done].
    apply mf_exists_grows. rewrite dom_insert. apply union_subseteq_r.
  - done.
  - intros p bytes fs q c. apply Hres. unfold mf_write_file. destruct (mf_files fs !! p); [|done].
    apply mf_exists_grows. rewrite dom_insert. apply union_subseteq_r.
Qed.

Definition outside : DefaultRegisterTracingCallback :=
  mkDefaultRegisterTracingCallback (mkTraceDir true ["tmp"%string]) false.
Definition one_trace : VmTrace := mkVmTrace (Ok (Addr 90)) 1 2 [replicate 12 0%Z] [x95].

(** The working directory, with a file in it. *)
Definition no_directory : @Fs model_trace_os :=
  mkModelFs {[[]; ["work"%string]]} {[["work"; "Cargo.toml"]%string := [x01]]}.

(** The first trace goes to [/tmp], the second is refused. *)
Lemma trace_dir_check_witness :
  exists fs', handler outside model_db.1 one_trace no_directory = Some (Ok tt, fs') /\
    mf_files fs' !! ["tmp"; "00.program_id"]%string = Some (list_byte_of_string "program") /\
    write_trace outside model_db.1 one_trace ["tmp"%string] no_directory = Some (Ok tt, fs') /\
    exists e, handler outside model_db.1 one_trace fs' = Some (Err e, fs').
Proof.
  assert (Hc : current_dir no_directory = Ok ["work"%string]) by reflexivity.
  destruct (trace_dir_check outside model_db.1 no_directory ["work"%string] Hc) as [_ H].
  assert (Hrun : match handler outside model_db.1 one_trace no_directory with
    | Some (Ok _, fs') => bool_decide (mf_files fs' !! ["tmp"; "00.program_id"]%string =
                            Some (list_byte_of_string "program")) && mf_exists ["tmp"%string] fs'
    | _ => false end = true) by by_run.
  assert (Hn : canonicalize no_directory ["tmp"%string] = None) by by_run.
  destruct (handler outside model_db.1 one_trace no_directory) as [[[[]|e] fs']|] eqn:He;
    [|discriminate Hrun|discriminate Hrun].
  apply andb_prop in Hrun as [Hf Hx]. apply bool_decide_eq_true in Hf.
  destruct (H one_trace fs' Hn ltac:(discriminate) He) as [Hw (c & Hr & Hno)].
  exists fs'. split; [reflexivity|]. split; [exact Hf|]. split; [exact Hw|].
  apply Hno; [|discriminate]. cbn in Hr. rewrite Hx in Hr. injection Hr as <-. intros [k Hk]. discriminate Hk.
Defined.

(** Styles as a pair of brackets. *)
#[local] Instance model_log_text : LogText := {|
  to_lowercase t := t;
  paint _ t := [27%N] ++ t ++ [27%N]
|}.
#[local] Instance model_log_laws : LogTextLaws.
Proof.
  constructor. intros s t. exists [27%N], [27%N]. split; [reflexivity|].
  split; intros [=]%list_elem_of_singleton.
Qed.

Lemma format_logs_faithful_witness :
  breaks (format_logs [text "Program log: hi"; []; text "Program 90 success"]) = 2.
Proof.
  destruct (format_logs_faithful [text "Program log: hi"; []; text "Program 90 success"]) as (_ & _ & H).
  rewrite H; [reflexivity|]. apply (bool_decide_unpack _). vm_compute. exact I.
Defined.
